(** * Nylene consumption sheet: the three-step wizard and its /save endpoint

    A shallow embedding of [app.js] (the browser wizard: form page,
    destination page, summary page) and of [server.cjs] (the Express
    endpoint that appends a row to the Excel ledger), followed by the
    properties of the wizard's state machine, of its persistence and of
    the submission contract.

    Conventions of the embedding.
    - A JavaScript string is the list of its UTF-16 code units.
    - A JavaScript Number is a binary64 value, kept exactly: the sign and
      the integer mantissa and binary exponent of a finite non-zero value.
    - Values that travel through [JSON.parse]/[JSON.stringify] are JSON
      trees; an object is the list of its own properties in insertion
      order, without duplicate keys.
    - Event handlers are functions from the state they can see to the
      state they leave; something thrown is an explicit result. *)

From Stdlib Require Import ZArith NArith List String Ascii Bool Lia.
Import ListNotations.

(* ================================================================== *)
(** * Part I. The JavaScript values the program manipulates             *)
(* ================================================================== *)

Module JS.

Open Scope N_scope.

(** ** Strings *)

Definition jsstring := list N.

(** The code units of an ASCII literal. *)
Definition js (s : string) : jsstring :=
  map N_of_ascii (list_ascii_of_string s).

Definition ch (a : ascii) : N := N_of_ascii a.

Fixpoint str_eqb (a b : jsstring) : bool :=
  match a, b with
  | [], [] => true
  | x :: a', y :: b' => (x =? y) && str_eqb a' b'
  | _, _ => false
  end.

Fixpoint starts_with (p s : jsstring) : bool :=
  match p, s with
  | [], _ => true
  | x :: p', y :: s' => (x =? y) && starts_with p' s'
  | _ :: _, [] => false
  end.

(** [!s] for a string: only the empty string is falsy. *)
Definition is_empty (s : jsstring) : bool :=
  match s with [] => true | _ :: _ => false end.

(** ** Character classes *)

(** WhiteSpace and LineTerminator of ECMAScript: what [String.prototype.trim]
    strips and what [\s] matches. *)
Definition isWhiteSpace (c : N) : bool :=
  (c =? 9) || (c =? 10) || (c =? 11) || (c =? 12) || (c =? 13) ||
  (c =? 32) || (c =? 160) || (c =? 0x1680) ||
  ((0x2000 <=? c) && (c <=? 0x200A)) ||
  (c =? 0x2028) || (c =? 0x2029) || (c =? 0x202F) || (c =? 0x205F) ||
  (c =? 0x3000) || (c =? 0xFEFF).

(** Nothing, or something that starts with white space: what [trim] has
    cut off the end of a string. *)
Definition blank_ahead (w : list N) : Prop :=
  match w with
  | [] => True
  | c :: _ => isWhiteSpace c = true
  end.

(** [\d]: the ASCII digits. *)
Definition isDigit (c : N) : bool := (48 <=? c) && (c <=? 57).

(** [[a-z0-9]] under the [i] flag (no [u] flag): the ASCII letters of both
    cases and the ASCII digits.  Canonicalisation maps no character outside
    ASCII onto an ASCII letter, so nothing else matches. *)
Definition isAlnum (c : N) : bool :=
  ((97 <=? c) && (c <=? 122)) || ((65 <=? c) && (c <=? 90)) || isDigit c.

(** ** [String.prototype.trim] *)

Fixpoint trimStart (s : jsstring) : jsstring :=
  match s with
  | [] => []
  | c :: r => if isWhiteSpace c then trimStart r else s
  end.

Definition trimEnd (s : jsstring) : jsstring := rev (trimStart (rev s)).

Definition trim (s : jsstring) : jsstring := trimEnd (trimStart s).

(** ** Regular expressions used by the program *)

(** [/^[a-z0-9]+$/i.test(s)] *)
Definition test_alnum_only (s : jsstring) : bool :=
  negb (is_empty s) && forallb isAlnum s.

(** [/\d/.test(s)] *)
Definition test_has_digit (s : jsstring) : bool := existsb isDigit s.

(** [s.replace(/[^a-z0-9]/gi, "")] *)
Definition replace_non_alnum (s : jsstring) : jsstring := filter isAlnum s.

(** [s.replace(/\d/g, "")] *)
Definition replace_digits (s : jsstring) : jsstring :=
  filter (fun c => negb (isDigit c)) s.

(** [s.split(/\s+/)]: the pieces between maximal runs of white space; a run
    at either end leaves an empty piece there, and the empty string splits
    into one empty piece. *)
Fixpoint split_ws_aux (cur : jsstring) (in_sep : bool) (s : jsstring)
  : list jsstring :=
  match s with
  | [] => [rev cur]
  | c :: r =>
      if isWhiteSpace c then
        if in_sep then split_ws_aux [] true r
        else rev cur :: split_ws_aux [] true r
      else split_ws_aux (c :: cur) false r
  end.

Definition split_ws (s : jsstring) : list jsstring := split_ws_aux [] false s.

(** [.filter(Boolean)] on an array of strings. *)
Definition filter_Boolean (l : list jsstring) : list jsstring :=
  filter (fun s => negb (is_empty s)) l.

(** ** Numbers *)

Inductive number :=
| NaN
| Infinity (neg : bool)
| Zero (neg : bool)
| Finite (neg : bool) (m : positive) (e : Z).   (* +-m * 2^e *)

Definition number_eqb (a b : number) : bool :=
  match a, b with
  | NaN, NaN => true
  | Infinity s, Infinity t => Bool.eqb s t
  | Zero s, Zero t => Bool.eqb s t
  | Finite s m e, Finite t n f => Bool.eqb s t && Pos.eqb m n && Z.eqb e f
  | _, _ => false
  end.

(** [x * 2^k] for [k >= 0], and [x] itself otherwise: the two sides of a
    comparison with a power of two, kept in the integers. *)
Definition scale_up (x k : Z) : Z :=
  if (0 <=? k)%Z then (x * 2 ^ k)%Z else x.

(** [2^l <= p/q] *)
Definition at_least_pow2 (p q l : Z) : bool :=
  (scale_up q l <=? scale_up p (- l))%Z.

(** The [l] with [2^l <= p/q < 2^(l+1)]. *)
Definition floor_log2 (p q : Z) : Z :=
  let l0 := (Z.log2 p - Z.log2 q)%Z in
  if at_least_pow2 p q l0 then l0 else (l0 - 1)%Z.

(** The binary64 value nearest to the rational [p/q], for positive [p]
    and [q], ties to the even mantissa.  A normal value has its mantissa
    in [2^52, 2^53); a subnormal one has exponent -1074. *)
Definition round_binary64 (neg : bool) (p q : Z) : number :=
  let e := Z.max (floor_log2 p q - 52) (-1074) in
  let num := scale_up p (- e) in
  let den := scale_up q e in
  let m := (num / den)%Z in
  let r := (num mod den)%Z in
  let m1 :=
    if (2 * r <? den)%Z then m
    else if (den <? 2 * r)%Z then (m + 1)%Z
    else if Z.even m then m else (m + 1)%Z in
  let m2 := if (m1 =? 2 ^ 53)%Z then (2 ^ 52)%Z else m1 in
  let e2 := if (m1 =? 2 ^ 53)%Z then (e + 1)%Z else e in
  match m2 with
  | Z.pos m' => if (971 <? e2)%Z then Infinity neg else Finite neg m' e2
  | _ => Zero neg
  end.

(** The Number denoted by the decimal [m * 10^e] with its sign. *)
Definition of_decimal (neg : bool) (m : N) (e : Z) : number :=
  match m with
  | N0 => Zero neg
  | Npos _ =>
      if (0 <=? e)%Z then round_binary64 neg (Z.of_N m * 10 ^ e) 1
      else round_binary64 neg (Z.of_N m) (10 ^ (- e))
  end.

(** The mantissa and exponent are those of a binary64 value. *)
Definition canonical (m : positive) (e : Z) : bool :=
  ((Z.pos m <? 2 ^ 53) && (-1074 <=? e) && (e <=? 971))%Z
  && ((2 ^ 52 <=? Z.pos m) || (e =? -1074))%Z.

(** The value is one of binary64. *)
Definition binary64 (x : number) : bool :=
  match x with
  | Finite _ m e => canonical m e
  | _ => true
  end.

(** [Number.isFinite] *)
Definition isFinite (x : number) : bool :=
  match x with
  | Zero _ | Finite _ _ _ => true
  | NaN | Infinity _ => false
  end.

(** [x <= 0] *)
Definition le_zero (x : number) : bool :=
  match x with
  | NaN => false
  | Infinity neg => neg
  | Zero _ => true
  | Finite neg _ _ => neg
  end.

(** ** [Number.parseFloat] *)

Fixpoint span_digits (s : jsstring) : jsstring * jsstring :=
  match s with
  | [] => ([], [])
  | c :: r =>
      if isDigit c then let '(d, t) := span_digits r in (c :: d, t)
      else ([], s)
  end.

Definition digits_value (ds : jsstring) : N :=
  fold_left (fun acc c => 10 * acc + (c - 48)) ds 0.

(** The sign character in front of a literal or of an exponent. *)
Definition take_sign (s : jsstring) : bool * jsstring :=
  match s with
  | c :: r =>
      if c =? ch "-" then (true, r)
      else if c =? ch "+" then (false, r)
      else (false, s)
  | [] => (false, [])
  end.

(** The value of the ExponentPart at the head of [s] ([e] or [E], an
    optional sign, at least one digit), or 0 when there is none. *)
Definition exponent_part (s : jsstring) : Z :=
  match s with
  | c :: r =>
      if (c =? ch "e") || (c =? ch "E") then
        let '(neg, r1) := take_sign r in
        match fst (span_digits r1) with
        | [] => 0%Z
        | ds => if neg then (- Z.of_N (digits_value ds))%Z
                else Z.of_N (digits_value ds)
        end
      else 0%Z
  | [] => 0%Z
  end.

(** The longest prefix of the input, leading white space skipped, that is a
    StrDecimalLiteral gives the result; without such a prefix it is NaN. *)
Definition parseFloat (input : jsstring) : number :=
  let '(neg, s1) := take_sign (trimStart input) in
  if starts_with (js "Infinity") s1 then Infinity neg
  else
    let '(ip, s2) := span_digits s1 in
    let '(fp, s3) :=
      match s2 with
      | c :: r => if c =? ch "." then span_digits r else ([], s2)
      | [] => ([], s2)
      end in
    match ip ++ fp with
    | [] => NaN
    | ds =>
        of_decimal neg (digits_value ds)
                   (exponent_part s3 - Z.of_nat (List.length fp))
    end.

End JS.

Import JS.

(* ================================================================== *)
(** * Part II. JSON values, [JSON.stringify] and [JSON.parse]           *)
(* ================================================================== *)

Module JSON.

Open Scope N_scope.

#[local] Unset Elimination Schemes.
Inductive json :=
| JNull
| JBool (b : bool)
| JNum (x : number)
| JStr (s : jsstring)
| JArr (l : list json)
| JObj (l : list (jsstring * json)).
#[local] Set Elimination Schemes.

(** Induction over a value and, inside it, over its elements and members. *)
Section JsonInduction.
Variable P : json -> Prop.
Hypothesis Hnull : P JNull.
Hypothesis Hbool : forall b, P (JBool b).
Hypothesis Hnum : forall x, P (JNum x).
Hypothesis Hstr : forall s, P (JStr s).
Hypothesis Harr : forall l, Forall P l -> P (JArr l).
Hypothesis Hobj : forall l, Forall (fun kv => P (snd kv)) l -> P (JObj l).

Fixpoint json_induction (v : json) : P v :=
  match v with
  | JNull => Hnull
  | JBool b => Hbool b
  | JNum x => Hnum x
  | JStr s => Hstr s
  | JArr l =>
      Harr l
        ((fix all (l : list json) : Forall P l :=
            match l with
            | [] => Forall_nil P
            | x :: r => Forall_cons x (json_induction x) (all r)
            end) l)
  | JObj l =>
      Hobj l
        ((fix all (l : list (jsstring * json))
            : Forall (fun kv => P (snd kv)) l :=
            match l with
            | [] => Forall_nil _
            | kv :: r =>
                Forall_cons (P := fun kv => P (snd kv)) kv
                  (json_induction (snd kv)) (all r)
            end) l)
  end.
End JsonInduction.

(** ToBoolean.  A property that is absent reads as [undefined], here [None]. *)
Definition truthy (v : json) : bool :=
  match v with
  | JNull => false
  | JBool b => b
  | JNum NaN | JNum (Zero _) => false
  | JNum _ => true
  | JStr s => negb (is_empty s)
  | JArr _ | JObj _ => true
  end.

Definition truthy_opt (o : option json) : bool :=
  match o with Some v => truthy v | None => false end.

(** ** Properties *)

Fixpoint assoc (k : jsstring) (l : list (jsstring * json)) : option json :=
  match l with
  | [] => None
  | (k', v) :: r => if str_eqb k' k then Some v else assoc k r
  end.

(** [v.k] for the property names the program reads: none of them is an
    index, [length] or a name found on a prototype, so only an object can
    hold one. *)
Definition get (v : json) (k : jsstring) : option json :=
  match v with
  | JObj l => assoc k l
  | _ => None
  end.

(** Defining [k]: an existing property keeps its place and takes the new
    value, a new one goes last. *)
Fixpoint set_prop (k : jsstring) (v : json) (l : list (jsstring * json))
  : list (jsstring * json) :=
  match l with
  | [] => [(k, v)]
  | (k', v') :: r =>
      if str_eqb k' k then (k, v) :: r else (k', v') :: set_prop k v r
  end.

Definition set_props (fields l : list (jsstring * json))
  : list (jsstring * json) :=
  fold_left (fun acc kv => set_prop (fst kv) (snd kv) acc) fields l.

(** ** Decimal digits *)

Fixpoint decimal_aux (fuel : nat) (n : N) (acc : jsstring) : jsstring :=
  match fuel with
  | O => acc
  | S f =>
      let acc' := (48 + n mod 10) :: acc in
      if n / 10 =? 0 then acc' else decimal_aux f (n / 10) acc'
  end.

Definition decimal (n : N) : jsstring :=
  decimal_aux (S (N.to_nat (N.log2 n))) n [].

(** The own enumerable properties that [{...v}] copies: those of an
    object, the elements of an array and the code units of a string under
    their indices, nothing for the other values. *)
Fixpoint indexed (i : N) (l : list json) : list (jsstring * json) :=
  match l with
  | [] => []
  | x :: r => (decimal i, x) :: indexed (i + 1) r
  end.

Definition own_props (v : json) : list (jsstring * json) :=
  match v with
  | JObj l => l
  | JArr l => indexed 0 l
  | JStr s => indexed 0 (map (fun c => JStr [c]) s)
  | _ => []
  end.

(** The object literal [{...base, k1: v1, ..., kn: vn}]. *)
Definition spread_with (base : json) (fields : list (jsstring * json)) : json :=
  JObj (set_props fields (own_props base)).

(** ** [Number.prototype.toString] (radix 10) *)

(** The shortest decimal [s * 10^d] that rounds to the binary64 value
    [m * 2^e]: the digits [s] and the exponent [d].  For each number of
    digits [k], from one up, the two decimals of [k] digits next to the
    value are tried; of two that round to the value the nearer is taken,
    and the even one on a tie.  Seventeen digits identify any binary64
    value; should the search not end, the value has a decimal that is
    equal to it. *)
Section Shortest.
Variables (m : positive) (e : Z).

Let vp : Z := if (0 <=? e)%Z then (Z.pos m * 2 ^ e)%Z else Z.pos m.
Let vq : Z := if (0 <=? e)%Z then 1%Z else (2 ^ (- e))%Z.

Definition lt_pow10 (n : Z) : bool :=
  if (0 <=? n)%Z then (vp <? vq * 10 ^ n)%Z else (vp * 10 ^ (- n) <? vq)%Z.

(** [n] with [10^(n-1) <= m * 2^e < 10^n]. *)
Definition position : Z :=
  let est := ((Z.log2 vp - Z.log2 vq) * 1233 / 4096)%Z in
  if lt_pow10 (est - 1) then (est - 1)%Z
  else if lt_pow10 est then est
  else if lt_pow10 (est + 1) then (est + 1)%Z
  else (est + 2)%Z.

Definition rounds_back (c : Z * Z) : bool :=
  number_eqb (of_decimal false (Z.to_N (fst c)) (snd c)) (Finite false m e).

Definition has_digits (k : Z) (c : Z * Z) : bool :=
  ((10 ^ (k - 1) <=? fst c) && (fst c <? 10 ^ k))%Z.

Definition acceptable (k : Z) (c : Z * Z) : bool :=
  has_digits k c && rounds_back c.

(** The decimal equal to [m * 2^e]. *)
Definition exact : Z * Z :=
  if (0 <=? e)%Z then ((Z.pos m * 2 ^ e)%Z, 0%Z)
  else ((Z.pos m * 5 ^ (- e))%Z, e).

Fixpoint shortest (fuel : nat) (k : Z) : Z * Z :=
  match fuel with
  | O => exact
  | S f =>
      let d := (position - k)%Z in
      let a := if (0 <=? d)%Z then vp else (vp * 10 ^ (- d))%Z in
      let b := if (0 <=? d)%Z then (vq * 10 ^ d)%Z else vq in
      let lo := (a / b)%Z in
      let r := (a mod b)%Z in
      let below := (lo, d) in
      let above :=
        if (lo + 1 =? 10 ^ k)%Z then ((10 ^ (k - 1))%Z, (d + 1)%Z)
        else ((lo + 1)%Z, d) in
      match acceptable k below, acceptable k above with
      | true, true =>
          if (2 * r <? b)%Z then below
          else if (b <? 2 * r)%Z then above
          else if Z.even lo then below else above
      | true, false => below
      | false, true => above
      | false, false => shortest f (k + 1)
      end
  end.
End Shortest.

Definition zeros (n : Z) : jsstring := repeat (ch "0") (Z.to_nat n).

Definition format_decimal (ds : jsstring) (n : Z) : jsstring :=
  let k := Z.of_nat (List.length ds) in
  if ((k <=? n) && (n <=? 21))%Z then ds ++ zeros (n - k)
  else if ((0 <? n) && (n <=? 21))%Z then
    firstn (Z.to_nat n) ds ++ ch "." :: skipn (Z.to_nat n) ds
  else if ((-6 <? n) && (n <=? 0))%Z then
    ch "0" :: ch "." :: zeros (- n) ++ ds
  else
    let x := (n - 1)%Z in
    let es := ch "e" :: (if (x <? 0)%Z then ch "-" else ch "+")
                     :: decimal (Z.to_N (Z.abs x)) in
    match ds with
    | [] => []
    | [d] => d :: es
    | d :: r => d :: ch "." :: r ++ es
    end.

Definition Number_toString (x : number) : jsstring :=
  match x with
  | NaN => js "NaN"
  | Infinity neg => if neg then js "-Infinity" else js "Infinity"
  | Zero _ => js "0"
  | Finite neg m e =>
      let '(s, d) := shortest m e 17 1 in
      let ds := decimal (Z.to_N s) in
      (if neg then [ch "-"] else [])
      ++ format_decimal ds (d + Z.of_nat (List.length ds))
  end.

(** ** [JSON.stringify] (one argument) *)

Definition hex_digit (n : N) : N := if n <? 10 then 48 + n else 87 + n.

Definition unicode_escape (c : N) : jsstring :=
  [92; ch "u"; hex_digit (c / 4096 mod 16); hex_digit (c / 256 mod 16);
   hex_digit (c / 16 mod 16); hex_digit (c mod 16)].

Definition isHighSurrogate (c : N) : bool := (0xD800 <=? c) && (c <=? 0xDBFF).
Definition isLowSurrogate (c : N) : bool := (0xDC00 <=? c) && (c <=? 0xDFFF).

Definition quote_unit (c : N) : jsstring :=
  if c =? 8 then [92; ch "b"]
  else if c =? 9 then [92; ch "t"]
  else if c =? 10 then [92; ch "n"]
  else if c =? 12 then [92; ch "f"]
  else if c =? 13 then [92; ch "r"]
  else if c =? 34 then [92; 34]
  else if c =? 92 then [92; 92]
  else if c <? 32 then unicode_escape c
  else if isHighSurrogate c || isLowSurrogate c then unicode_escape c
  else [c].

(** A surrogate pair goes out as it is, a lone surrogate is escaped. *)
Fixpoint quote_body (s : jsstring) : jsstring :=
  match s with
  | [] => []
  | c :: r =>
      if isHighSurrogate c then
        match r with
        | d :: r' =>
            if isLowSurrogate d then c :: d :: quote_body r'
            else quote_unit c ++ quote_body r
        | [] => quote_unit c
        end
      else quote_unit c ++ quote_body r
  end.

Definition QuoteJSONString (s : jsstring) : jsstring :=
  34 :: quote_body s ++ [34].

Fixpoint stringify (v : json) : jsstring :=
  match v with
  | JNull => js "null"
  | JBool b => if b then js "true" else js "false"
  | JNum x => if isFinite x then Number_toString x else js "null"
  | JStr s => QuoteJSONString s
  | JArr l =>
      ch "[" ::
      (fix elements (l : list json) : jsstring :=
         match l with
         | [] => []
         | [x] => stringify x
         | x :: r => stringify x ++ ch "," :: elements r
         end) l ++ [ch "]"]
  | JObj l =>
      ch "{" ::
      (fix members (l : list (jsstring * json)) : jsstring :=
         match l with
         | [] => []
         | [(k, x)] => QuoteJSONString k ++ ch ":" :: stringify x
         | (k, x) :: r =>
             QuoteJSONString k ++ ch ":" :: stringify x ++ ch "," :: members r
         end) l ++ [ch "}"]
  end.

(** The text between the brackets of an array, and between the braces of
    an object. *)
Definition elements_text (l : list json) : jsstring :=
  (fix elements (l : list json) : jsstring :=
     match l with
     | [] => []
     | [x] => stringify x
     | x :: r => stringify x ++ ch "," :: elements r
     end) l.

Definition members_text (l : list (jsstring * json)) : jsstring :=
  (fix members (l : list (jsstring * json)) : jsstring :=
     match l with
     | [] => []
     | [(k, x)] => QuoteJSONString k ++ ch ":" :: stringify x
     | (k, x) :: r =>
         QuoteJSONString k ++ ch ":" :: stringify x ++ ch "," :: members r
     end) l.

(** ** [JSON.parse] (one argument) *)

Definition isJSONWhiteSpace (c : N) : bool :=
  (c =? 9) || (c =? 10) || (c =? 13) || (c =? 32).

Fixpoint skip_ws (s : jsstring) : jsstring :=
  match s with
  | [] => []
  | c :: r => if isJSONWhiteSpace c then skip_ws r else s
  end.

Definition hex_value (c : N) : option N :=
  if (48 <=? c) && (c <=? 57) then Some (c - 48)
  else if (97 <=? c) && (c <=? 102) then Some (c - 87)
  else if (65 <=? c) && (c <=? 70) then Some (c - 55)
  else None.

Definition simple_escape (c : N) : option N :=
  if c =? 34 then Some 34
  else if c =? 92 then Some 92
  else if c =? ch "/" then Some (ch "/")
  else if c =? ch "b" then Some 8
  else if c =? ch "f" then Some 12
  else if c =? ch "n" then Some 10
  else if c =? ch "r" then Some 13
  else if c =? ch "t" then Some 9
  else None.

Definition cons_fst (c : N) (o : option (jsstring * jsstring))
  : option (jsstring * jsstring) :=
  match o with
  | Some (s, r) => Some (c :: s, r)
  | None => None
  end.

(** The characters of a string literal after its opening quote, up to the
    closing one. *)
Fixpoint parse_string_body (s : jsstring) : option (jsstring * jsstring) :=
  match s with
  | [] => None
  | c :: r =>
      if c =? 34 then Some ([], r)
      else if c =? 92 then
        match r with
        | [] => None
        | x :: r1 =>
            if x =? ch "u" then
              match r1 with
              | h3 :: h2 :: h1 :: h0 :: r2 =>
                  match hex_value h3, hex_value h2, hex_value h1, hex_value h0 with
                  | Some a3, Some a2, Some a1, Some a0 =>
                      cons_fst (a3 * 4096 + a2 * 256 + a1 * 16 + a0)
                               (parse_string_body r2)
                  | _, _, _, _ => None
                  end
              | _ => None
              end
            else
              match simple_escape x with
              | Some u => cons_fst u (parse_string_body r1)
              | None => None
              end
        end
      else if c <? 32 then None
      else cons_fst c (parse_string_body r)
  end.

(** The fraction of a JSON number: nothing, or a point and at least one
    digit. *)
Definition parse_fraction (s : jsstring) : option (jsstring * jsstring) :=
  match s with
  | c :: r =>
      if c =? ch "." then
        let '(fp, s3) := span_digits r in
        if is_empty fp then None else Some (fp, s3)
      else Some ([], s)
  | [] => Some ([], s)
  end.

(** The exponent of a JSON number: nothing, or [e] or [E], an optional
    sign and at least one digit. *)
Definition parse_exponent (s : jsstring) : option (Z * jsstring) :=
  match s with
  | c :: r =>
      if (c =? ch "e") || (c =? ch "E") then
        let '(eneg, r1) := take_sign r in
        let '(ds, s4) := span_digits r1 in
        if is_empty ds then None
        else Some (if eneg then (- Z.of_N (digits_value ds))%Z
                   else Z.of_N (digits_value ds), s4)
      else Some (0%Z, s)
  | [] => Some (0%Z, s)
  end.

(** A JSON number after its sign: no leading zeros, digits on both sides
    of the point, an exponent with digits. *)
Definition parse_unsigned (neg : bool) (s : jsstring)
  : option (number * jsstring) :=
  let '(ip, s2) := span_digits s in
  match ip with
  | [] => None
  | d :: ip' =>
      if (d =? 48) && negb (is_empty ip') then None
      else
        match parse_fraction s2 with
        | None => None
        | Some (fp, s3) =>
            match parse_exponent s3 with
            | None => None
            | Some (x, s4) =>
                Some (of_decimal neg (digits_value (ip ++ fp))
                                 (x - Z.of_nat (List.length fp)), s4)
            end
        end
  end.

Definition parse_number (s : jsstring) : option (number * jsstring) :=
  match s with
  | c :: r => if c =? ch "-" then parse_unsigned true r
              else parse_unsigned false s
  | [] => None
  end.

(** What may follow a number in a text: the end of the text, or a
    character that does not continue the number. *)
Definition number_ends (s : jsstring) : bool :=
  match s with
  | [] => true
  | c :: _ =>
      negb (isDigit c || (c =? ch ".") || (c =? ch "e") || (c =? ch "E"))
  end.

(** Recursive descent; the fuel bounds the number of values, elements and
    members entered, and a text never needs more than its length. *)
Fixpoint parse_value (n : nat) (s : jsstring) {struct n}
  : option (json * jsstring) :=
  match n with
  | O => None
  | S n' =>
      match skip_ws s with
      | [] => None
      | c :: r =>
          if c =? ch "{" then
            match skip_ws r with
            | [] => None
            | c2 :: r2 =>
                if c2 =? ch "}" then Some (JObj [], r2)
                else parse_members n' [] (c2 :: r2)
            end
          else if c =? ch "[" then
            match skip_ws r with
            | [] => None
            | c2 :: r2 =>
                if c2 =? ch "]" then Some (JArr [], r2)
                else parse_elements n' [] (c2 :: r2)
            end
          else if c =? 34 then
            match parse_string_body r with
            | Some (str, r') => Some (JStr str, r')
            | None => None
            end
          else if starts_with (js "true") (c :: r) then
            Some (JBool true, skipn 4 (c :: r))
          else if starts_with (js "false") (c :: r) then
            Some (JBool false, skipn 5 (c :: r))
          else if starts_with (js "null") (c :: r) then
            Some (JNull, skipn 4 (c :: r))
          else
            match parse_number (c :: r) with
            | Some (x, r') => Some (JNum x, r')
            | None => None
            end
      end
  end

with parse_elements (n : nat) (acc : list json) (s : jsstring) {struct n}
  : option (json * jsstring) :=
  match n with
  | O => None
  | S n' =>
      match parse_value n' s with
      | None => None
      | Some (v, r) =>
          match skip_ws r with
          | [] => None
          | c :: r' =>
              if c =? ch "," then parse_elements n' (v :: acc) r'
              else if c =? ch "]" then Some (JArr (rev (v :: acc)), r')
              else None
          end
      end
  end

with parse_members (n : nat) (acc : list (jsstring * json)) (s : jsstring)
  {struct n} : option (json * jsstring) :=
  match n with
  | O => None
  | S n' =>
      match skip_ws s with
      | [] => None
      | q :: r =>
          if q =? 34 then
            match parse_string_body r with
            | None => None
            | Some (k, r1) =>
                match skip_ws r1 with
                | [] => None
                | c :: r2 =>
                    if c =? ch ":" then
                      match parse_value n' r2 with
                      | None => None
                      | Some (v, r3) =>
                          match skip_ws r3 with
                          | [] => None
                          | c' :: r4 =>
                              if c' =? ch "," then
                                parse_members n' (set_prop k v acc) r4
                              else if c' =? ch "}" then
                                Some (JObj (set_prop k v acc), r4)
                              else None
                          end
                      end
                    else None
                end
            end
          else None
      end
  end.

(** [JSON.parse text]: [None] stands for the SyntaxError it throws. *)
Definition JSON_parse (text : jsstring) : option json :=
  match parse_value (S (List.length text)) text with
  | Some (v, r) => if is_empty (skip_ws r) then Some v else None
  | None => None
  end.

End JSON.

Import JSON.

(* ================================================================== *)
(** * Part III. The wizard state store ([app.js], lines 1-41)            *)
(* ================================================================== *)

Module Store.

(** Local storage key for persisting form state between pages. *)
Definition STORAGE_KEY : jsstring := js "productTrackingForm".

(** What [localStorage] holds under [STORAGE_KEY]: a string, or nothing. *)
Definition storage := option jsstring.

Definition getItem (ls : storage) : option jsstring := ls.

(** [JSON.parse] applies ToString to its argument: [null] is read as the
    text [null]. *)
Definition ToString_item (o : option jsstring) : jsstring :=
  match o with
  | Some s => s
  | None => js "null"
  end.

(** [try { return JSON.parse(localStorage.getItem(STORAGE_KEY)) || {}; }
     catch (error) { return {}; }] *)
Definition getStoredData (ls : storage) : json :=
  match JSON_parse (ToString_item (getItem ls)) with
  | Some v => if truthy v then v else JObj []
  | None => JObj []
  end.

(** [localStorage.setItem(STORAGE_KEY, JSON.stringify(data))] *)
Definition setStoredData (data : json) : storage := Some (stringify data).

(** [localStorage.removeItem(STORAGE_KEY)] *)
Definition clearStoredData : storage := None.

(** [value ? value.trim() : ""] *)
Definition normalizeText (value : jsstring) : jsstring :=
  if is_empty value then [] else trim value.

End Store.

Import Store.

(* ================================================================== *)
(** * Part IV. Step 1: the form page ([initFormPage])                    *)
(* ================================================================== *)

(** The controls a handler can move the focus to. *)
Inductive control :=
| FirstChipTypeButton
| ChipBoxInput
| ChipBulkInput
| ChipPurchasedSelect
| BoxInput
| ProductSelect
| NetWeightInput
| OperatorInput.

(** How a submit handler of the wizard ends: with a message next to the
    form and the focus on a control, or with the record written to the
    store and the browser sent to the next page. *)
Inductive submit_result :=
| Rejected (message : jsstring) (focus : option control)
| Stored (data : json) (href : jsstring).

(** ** The page with the chip-type buttons *)

Module FormPage.

(** The [value] of each control when the form is submitted. *)
Record form_values := {
  chipBoxInput_value : jsstring;
  chipBulkInput_value : jsstring;
  chipPurchasedSelect_value : jsstring;
  productSelect_value : jsstring;
  netWeightInput_value : jsstring;
  operatorInput_value : jsstring
}.

(** A chip-type button: its [data-chip-type] and whether its
    [aria-pressed] is ["true"]. *)
Record button := {
  dataset_chipType : jsstring;
  aria_pressed : bool
}.

Record page := {
  stored : json;                      (* const stored = getStoredData() *)
  chipTypeButtons : list button;
  chipBoxField_hidden : bool;
  chipBulkField_hidden : bool;
  chipPurchasedField_hidden : bool;
  errorElement : jsstring;            (* textContent of #form-error *)
  focused : option control
}.

(** [selected?.dataset?.chipType || ""] for the first pressed button. *)
Definition getSelectedChipType (buttons : list button) : jsstring :=
  match find aria_pressed buttons with
  | Some b => dataset_chipType b
  | None => []
  end.

Definition focus_of_type (type : jsstring) : option control :=
  if str_eqb type (js "box") then Some ChipBoxInput
  else if str_eqb type (js "bulk") then Some ChipBulkInput
  else if str_eqb type (js "purchased") then Some ChipPurchasedSelect
  else None.

Definition setSelectedChipType (type : jsstring) (pg : page) : page :=
  {| stored := stored pg;
     chipTypeButtons :=
       map (fun b => {| dataset_chipType := dataset_chipType b;
                        aria_pressed := str_eqb (dataset_chipType b) type |})
           (chipTypeButtons pg);
     chipBoxField_hidden := negb (str_eqb type (js "box"));
     chipBulkField_hidden := negb (str_eqb type (js "bulk"));
     chipPurchasedField_hidden := negb (str_eqb type (js "purchased"));
     errorElement := errorElement pg;
     focused := match focus_of_type type with
                | Some c => Some c
                | None => focused pg
                end |}.

(** The click handler of the [i]-th chip-type button. *)
Definition click_chipType (type : jsstring) (pg : page) (ls : storage)
  : page * storage :=
  if is_empty type then (pg, ls)
  else
    (setSelectedChipType type pg,
     setStoredData
       (spread_with (getStoredData ls) [(js "chipType", JStr type)])).

(** The [input] handlers of the two text fields. *)
Definition input_chipBox (value : jsstring) : jsstring :=
  replace_non_alnum value.

Definition input_chipBulk (value : jsstring) : jsstring :=
  replace_digits value.

(** The page as [initFormPage] leaves it once it is past its guard
    (lines 104 to 209): a page with the form, its controls and at least
    one chip-type button. *)
Definition initFormPage (types : list jsstring) (ls : storage) : page :=
  setSelectedChipType []
    {| stored := getStoredData ls;
       chipTypeButtons :=
         map (fun t => {| dataset_chipType := t; aria_pressed := false |})
             types;
       chipBoxField_hidden := false;
       chipBulkField_hidden := false;
       chipPurchasedField_hidden := false;
       errorElement := [];
       focused := None |}.

(** [initFormPage] from its first line, on a page that has the form and
    its controls.  Without a chip-type button it returns at once ([None]),
    before it reads the store, touches the page or attaches a handler;
    with one it leaves the page above, its handlers attached. *)
Definition initFormPage_guarded (types : list jsstring) (ls : storage)
  : option page :=
  if (List.length types =? 0)%nat then None
  else Some (initFormPage types ls).

(** The variant branch of the submit handler: the value promoted to
    [boxNumber], or the rejection. *)
Definition variant_value (chipType chipBoxNumber chipBulkSilo chipPurchased
                          : jsstring) : submit_result + jsstring :=
  if str_eqb chipType (js "box") then
    if is_empty chipBoxNumber then
      inl (Rejected (js "Please enter a box number.") (Some ChipBoxInput))
    else if negb (test_alnum_only chipBoxNumber) then
      inl (Rejected (js "Box number must be alphanumeric only.")
                    (Some ChipBoxInput))
    else inr chipBoxNumber
  else if str_eqb chipType (js "bulk") then
    if is_empty chipBulkSilo then
      inl (Rejected (js "Please enter a bulk/silo value.")
                    (Some ChipBulkInput))
    else if test_has_digit chipBulkSilo then
      inl (Rejected (js "Bulk/Silo must not contain numbers.")
                    (Some ChipBulkInput))
    else inr chipBulkSilo
  else if str_eqb chipType (js "purchased") then
    if is_empty chipPurchased then
      inl (Rejected (js "Please select a purchased chip option.")
                    (Some ChipPurchasedSelect))
    else inr chipPurchased
  else
    inl (Rejected (js "Please select what type of chip this is.")
                  (Some FirstChipTypeButton)).

(** The body of the submit handler after [setMessage(errorElement, "")]. *)
Definition submit (stored : json) (chipType : jsstring) (v : form_values)
  : submit_result :=
  let chipBoxNumber := normalizeText (chipBoxInput_value v) in
  let chipBulkSilo := normalizeText (chipBulkInput_value v) in
  let chipPurchased := chipPurchasedSelect_value v in
  let product := productSelect_value v in
  let netWeight := normalizeText (netWeightInput_value v) in
  let netWeightValue := parseFloat netWeight in
  let operatorName := normalizeText (operatorInput_value v) in
  let operatorParts := filter_Boolean (split_ws operatorName) in
  if is_empty chipType then
    Rejected (js "Please select what type of chip this is.")
             (Some FirstChipTypeButton)
  else
    match variant_value chipType chipBoxNumber chipBulkSilo chipPurchased with
    | inl rejected => rejected
    | inr boxNumber =>
        if is_empty product then
          Rejected (js "Please select a product.") (Some ProductSelect)
        else if is_empty netWeight then
          Rejected (js "Please enter a net weight.") (Some NetWeightInput)
        else if negb (isFinite netWeightValue) || le_zero netWeightValue then
          Rejected (js "Net weight must be a positive number.")
                   (Some NetWeightInput)
        else if (List.length operatorParts <? 2)%nat then
          Rejected (js "Please enter first and last name.")
                   (Some OperatorInput)
        else
          Stored
            (spread_with stored
               [(js "chipType", JStr chipType);
                (js "chipBoxNumber", JStr chipBoxNumber);
                (js "chipBulkSilo", JStr chipBulkSilo);
                (js "chipPurchased", JStr chipPurchased);
                (js "boxNumber", JStr boxNumber);
                (js "product", JStr product);
                (js "netWeight", JStr netWeight);
                (js "operatorName", JStr operatorName)])
            (js "destination.html")
    end.

(** The submit handler on the page: what it leaves on the page and in the
    store, and where it sends the browser, if anywhere. *)
Definition on_submit (pg : page) (v : form_values) (ls : storage)
  : page * storage * option jsstring :=
  match submit (stored pg) (getSelectedChipType (chipTypeButtons pg)) v with
  | Rejected message focus =>
      ({| stored := stored pg;
          chipTypeButtons := chipTypeButtons pg;
          chipBoxField_hidden := chipBoxField_hidden pg;
          chipBulkField_hidden := chipBulkField_hidden pg;
          chipPurchasedField_hidden := chipPurchasedField_hidden pg;
          errorElement := message;
          focused := focus |}, ls, None)
  | Stored data href =>
      ({| stored := stored pg;
          chipTypeButtons := chipTypeButtons pg;
          chipBoxField_hidden := chipBoxField_hidden pg;
          chipBulkField_hidden := chipBulkField_hidden pg;
          chipPurchasedField_hidden := chipPurchasedField_hidden pg;
          errorElement := [];
          focused := focused pg |}, setStoredData data, Some href)
  end.

End FormPage.

(** ** The page of [app.js], with the single box-number input *)

Module BoxFormPage.

Record form_values := {
  boxInput_value : jsstring;
  productSelect_value : jsstring;
  netWeightInput_value : jsstring;
  operatorInput_value : jsstring
}.

Definition submit (stored : json) (v : form_values) : submit_result :=
  let boxNumber := normalizeText (boxInput_value v) in
  let product := productSelect_value v in
  let netWeight := normalizeText (netWeightInput_value v) in
  let netWeightValue := parseFloat netWeight in
  let operatorName := normalizeText (operatorInput_value v) in
  let operatorParts := filter_Boolean (split_ws operatorName) in
  if is_empty boxNumber then
    Rejected (js "Please enter a box number.") (Some BoxInput)
  else if negb (test_alnum_only boxNumber) then
    Rejected (js "Box number must be alphanumeric only.") (Some BoxInput)
  else if is_empty product then
    Rejected (js "Please select a product.") (Some ProductSelect)
  else if is_empty netWeight then
    Rejected (js "Please enter a net weight.") (Some NetWeightInput)
  else if negb (isFinite netWeightValue) || le_zero netWeightValue then
    Rejected (js "Net weight must be a positive number.")
             (Some NetWeightInput)
  else if (List.length operatorParts <? 2)%nat then
    Rejected (js "Please enter first and last name.") (Some OperatorInput)
  else
    Stored
      (spread_with stored
         [(js "boxNumber", JStr boxNumber);
          (js "product", JStr product);
          (js "netWeight", JStr netWeight);
          (js "operatorName", JStr operatorName)])
      (js "destination.html").

(** The checks on the fields other than the net weight all pass. *)
Definition others_pass (v : form_values) : bool :=
  negb (is_empty (trim (boxInput_value v)))
  && forallb isAlnum (trim (boxInput_value v))
  && negb (is_empty (productSelect_value v))
  && (2 <=? List.length (filter_Boolean (split_ws (trim (operatorInput_value v)))))%nat.

(** The fields a successful submission writes. *)
Definition accepted_fields (v : form_values) : list (jsstring * json) :=
  [(js "boxNumber", JStr (trim (boxInput_value v)));
   (js "product", JStr (productSelect_value v));
   (js "netWeight", JStr (trim (netWeightInput_value v)));
   (js "operatorName", JStr (trim (operatorInput_value v)))].

End BoxFormPage.

(* ================================================================== *)
(** * Part V. Steps 2 and 3: the destination and summary pages           *)
(* ================================================================== *)

(** A page initializer either sends the browser elsewhere and returns, or
    goes on to fill the page and attach its handlers. *)
Inductive init_result (P : Type) :=
| Redirect (href : jsstring)
| Rendered (pg : P).
Arguments Redirect {P} href.
Arguments Rendered {P} pg.

(** [!stored.boxNumber || !stored.product || !stored.netWeight ||
     !stored.operatorName] *)
Definition step1_missing (stored : json) : bool :=
  negb (truthy_opt (get stored (js "boxNumber"))) ||
  negb (truthy_opt (get stored (js "product"))) ||
  negb (truthy_opt (get stored (js "netWeight"))) ||
  negb (truthy_opt (get stored (js "operatorName"))).

Module DestinationPage.

Record checkbox := {
  value : jsstring;
  checked : bool
}.

Record page := {
  stored : json;
  checkboxes : list checkbox;
  errorElement : jsstring          (* textContent of #destination-error *)
}.

(** [box.value === stored.destination] *)
Definition is_saved (destination : option json) (box : checkbox) : bool :=
  match destination with
  | Some (JStr d) => str_eqb (value box) d
  | _ => false
  end.

(** [saved.checked = true] for the first box that [find] returns. *)
Fixpoint check_first (f : checkbox -> bool) (l : list checkbox)
  : list checkbox :=
  match l with
  | [] => []
  | b :: r =>
      if f b then {| value := value b; checked := true |} :: r
      else b :: check_first f r
  end.

Definition initDestinationPage (boxes : list checkbox) (ls : storage)
  : init_result page :=
  let stored := getStoredData ls in
  if step1_missing stored then Redirect (js "index.html")
  else
    Rendered
      {| stored := stored;
         checkboxes :=
           if truthy_opt (get stored (js "destination")) then
             check_first (is_saved (get stored (js "destination"))) boxes
           else boxes;
         errorElement := [] |}.

(** The user flips the [i]-th box; its [change] handler then clears every
    other box when the box has become checked. *)
Fixpoint change_from (j i : nat) (now_checked : bool) (l : list checkbox)
  : list checkbox :=
  match l with
  | [] => []
  | o :: r =>
      (if (j =? i)%nat then {| value := value o; checked := now_checked |}
       else if now_checked then {| value := value o; checked := false |}
       else o) :: change_from (S j) i now_checked r
  end.

Definition change (i : nat) (l : list checkbox) : list checkbox :=
  match nth_error l i with
  | None => l
  | Some box => change_from 0 i (negb (checked box)) l
  end.

(** The body of the submit handler after [setMessage(errorElement, "")]. *)
Definition submit (stored : json) (boxes : list checkbox) : submit_result :=
  match find checked boxes with
  | None => Rejected (js "Please select a chip destination.") None
  | Some selected =>
      Stored (spread_with stored [(js "destination", JStr (value selected))])
             (js "summary.html")
  end.

(** No handler is attached to a page without check boxes. *)
Definition on_change (i : nat) (pg : page) : page :=
  {| stored := stored pg;
     checkboxes := change i (checkboxes pg);
     errorElement := errorElement pg |}.

Definition on_submit (pg : page) (ls : storage)
  : page * storage * option jsstring :=
  match checkboxes pg with
  | [] => (pg, ls, None)
  | _ :: _ =>
      match submit (stored pg) (checkboxes pg) with
      | Rejected message _ =>
          ({| stored := stored pg;
              checkboxes := checkboxes pg;
              errorElement := message |}, ls, None)
      | Stored data href =>
          ({| stored := stored pg;
              checkboxes := checkboxes pg;
              errorElement := [] |}, setStoredData data, Some href)
      end
  end.

End DestinationPage.

Module SummaryPage.

(** The delay given to [window.setTimeout], in milliseconds. *)
Definition REDIRECT_DELAY : N := 3000.

Record page := {
  stored : json;
  saveButton_disabled : bool;
  redirectTimer : option N;        (* the time at which the timer is due *)
  message : jsstring;              (* textContent of #save-message *)
  alerts : list jsstring;          (* what window.alert has shown, latest first *)
  in_flight : nat;                 (* fetches awaiting their response *)
  sent : list jsstring             (* bodies of the requests issued, latest first *)
}.

(** [stored] is the constant captured when the page is entered; the
    summary fields filled from it are presentation and are left out. *)
Definition initSummaryPage (ls : storage)
  : init_result page :=
  let stored := getStoredData ls in
  if step1_missing stored then Redirect (js "index.html")
  else if negb (truthy_opt (get stored (js "destination"))) then
    Redirect (js "destination.html")
  else
    Rendered
      {| stored := stored;
         saveButton_disabled := false;
         redirectTimer := None;
         message := [];
         alerts := [];
         in_flight := 0;
         sent := [] |}.

(** The properties of an object literal whose value is not [undefined]. *)
Fixpoint defined_props (l : list (jsstring * option json))
  : list (jsstring * json) :=
  match l with
  | [] => []
  | (k, Some v) :: r => (k, v) :: defined_props r
  | (_, None) :: r => defined_props r
  end.

(** The body of the POST request. *)
Definition request_body (stored : json) : jsstring :=
  stringify
    (JObj (set_props
             (defined_props
                [(js "boxNumber", get stored (js "boxNumber"));
                 (js "product", get stored (js "product"));
                 (js "netWeight", get stored (js "netWeight"));
                 (js "operatorName", get stored (js "operatorName"));
                 (js "destination", get stored (js "destination"))])
             [])).

(** The click handler of the save button, up to its [await]. *)
Definition click_save (pg : page) : page :=
  if saveButton_disabled pg then pg
  else
    {| stored := stored pg;
       saveButton_disabled := true;
       redirectTimer := redirectTimer pg;
       message := [];
       alerts := alerts pg;
       in_flight := S (in_flight pg);
       sent := request_body (stored pg) :: sent pg |}.

(** The handler resumed with a response whose [ok] is true; [savedAt] is
    the clock read then, [iso] and [formatted] its two renderings. *)
Definition resume_ok (now : N) (iso formatted : jsstring) (pg : page)
  : page * storage :=
  ({| stored := stored pg;
      saveButton_disabled := saveButton_disabled pg;
      redirectTimer := Some (now + REDIRECT_DELAY)%N;
      message := js "Saved at " ++ formatted
                 ++ js ". Redirecting to the first page in 3 seconds.";
      alerts := js "Saved to Excel." :: alerts pg;
      in_flight := pred (in_flight pg);
      sent := sent pg |},
   setStoredData (spread_with (stored pg) [(js "savedAt", JStr iso)])).

(** The handler resumed in its [catch]: the response was not [ok], or
    [fetch] rejected. *)
Definition resume_failed (pg : page) : page :=
  {| stored := stored pg;
     saveButton_disabled := false;
     redirectTimer := redirectTimer pg;
     message := message pg;
     alerts := js "Save failed. Please try again." :: alerts pg;
     in_flight := pred (in_flight pg);
     sent := sent pg |}.

End SummaryPage.

(* ================================================================== *)
(** * Part VI. The wizard as a whole                                     *)
(* ================================================================== *)

Module Wizard.

Inductive current_page :=
| OnForm (pg : FormPage.page)
| OnDestination (pg : DestinationPage.page)
| OnSummary (pg : SummaryPage.page)
| Elsewhere (href : jsstring).

Record browser := {
  localStorage : storage;
  clock : N;                        (* milliseconds *)
  current : current_page
}.

(** What the user and the environment can do. *)
Inductive event :=
| Visit (href : jsstring)                      (* open or reload a page *)
| ClickChipType (i : nat)
| SubmitForm (v : FormPage.form_values)
| ChangeDestination (i : nat)
| SubmitDestination
| ClickSave
| ResponseOk (iso formatted : jsstring)
| ResponseFailed
| ClickGoBack
| Elapse (ms : N).

Section Markup.
(** What the HTML of the pages provides: the [data-chip-type] of the
    buttons of step 1 and the check boxes of step 2. *)
Variable chipTypes : list jsstring.
Variable destinations : list DestinationPage.checkbox.

(** Loading [href] runs the initializer of its page, which may send the
    browser on; three loads always settle. *)
Fixpoint load (fuel : nat) (href : jsstring) (ls : storage)
  : current_page :=
  match fuel with
  | O => Elsewhere href
  | S fuel' =>
      if str_eqb href (js "index.html") then
        OnForm (FormPage.initFormPage chipTypes ls)
      else if str_eqb href (js "destination.html") then
        match DestinationPage.initDestinationPage destinations ls with
        | Redirect href' => load fuel' href' ls
        | Rendered pg => OnDestination pg
        end
      else if str_eqb href (js "summary.html") then
        match SummaryPage.initSummaryPage ls with
        | Redirect href' => load fuel' href' ls
        | Rendered pg => OnSummary pg
        end
      else Elsewhere href
  end.

Definition navigate (href : jsstring) (ls : storage) : current_page :=
  load 3 href ls.

Definition step (e : event) (b : browser) : browser :=
  let ls := localStorage b in
  let now := clock b in
  let stay (c : current_page) (ls' : storage) :=
    {| localStorage := ls'; clock := now; current := c |} in
  let go (href : jsstring) (ls' : storage) :=
    {| localStorage := ls'; clock := now;
       current := navigate href ls' |} in
  match e, current b with
  | Visit href, _ => go href ls
  | ClickChipType i, OnForm pg =>
      match nth_error (FormPage.chipTypeButtons pg) i with
      | Some button =>
          let '(pg', ls') :=
            FormPage.click_chipType (FormPage.dataset_chipType button) pg ls in
          stay (OnForm pg') ls'
      | None => b
      end
  | SubmitForm v, OnForm pg =>
      match FormPage.chipTypeButtons pg with
      | [] => b
      | _ :: _ =>
          match FormPage.on_submit pg v ls with
          | (pg', ls', None) => stay (OnForm pg') ls'
          | (_, ls', Some href) => go href ls'
          end
      end
  | ChangeDestination i, OnDestination pg =>
      stay (OnDestination (DestinationPage.on_change i pg)) ls
  | SubmitDestination, OnDestination pg =>
      match DestinationPage.on_submit pg ls with
      | (pg', ls', None) => stay (OnDestination pg') ls'
      | (_, ls', Some href) => go href ls'
      end
  | ClickSave, OnSummary pg => stay (OnSummary (SummaryPage.click_save pg)) ls
  | ResponseOk iso formatted, OnSummary pg =>
      match SummaryPage.in_flight pg with
      | O => b
      | S _ =>
          let '(pg', ls') := SummaryPage.resume_ok now iso formatted pg in
          stay (OnSummary pg') ls'
      end
  | ResponseFailed, OnSummary pg =>
      match SummaryPage.in_flight pg with
      | O => b
      | S _ => stay (OnSummary (SummaryPage.resume_failed pg)) ls
      end
  | ClickGoBack, OnSummary pg => go (js "destination.html") ls
  | Elapse ms, OnSummary pg =>
      let now' := (now + ms)%N in
      match SummaryPage.redirectTimer pg with
      | Some due =>
          if (due <=? now')%N then
            {| localStorage := clearStoredData; clock := now';
               current := navigate (js "index.html") clearStoredData |}
          else {| localStorage := ls; clock := now'; current := current b |}
      | None => {| localStorage := ls; clock := now'; current := current b |}
      end
  | Elapse ms, _ =>
      {| localStorage := ls; clock := (now + ms)%N; current := current b |}
  | _, _ => b
  end.

Definition run (es : list event) (b : browser) : browser :=
  fold_left (fun b e => step e b) es b.

End Markup.

End Wizard.

(* ================================================================== *)
(** * Part VII. The server ([server.cjs])                                *)
(* ================================================================== *)

Module Server.

Definition SHEET_NAME : jsstring := js "Sheet1".

Definition HEADERS : list jsstring :=
  [js "Box Number"; js "Product"; js "Operator Name"; js "Chip Destination";
   js "Date"; js "Time"; js "Net Weight"].

(** ** The workbook, as the [xlsx] package keeps it in memory *)

(** The package is not part of the repository.  Its workbook and
    worksheet objects, and the functions of [XLSX.utils] that the server
    calls on them, are written here as the package has them.  What its
    reader and writer make of a file is left open, see [host] below. *)

(** A decoded ["!ref"]: the first and the last row and column of the
    range, counted from zero ([A1] is row 0, column 0). *)
Record range := {
  s_r : N;
  s_c : N;
  e_r : N;
  e_c : N
}.

(** A worksheet: its ["!ref"], [None] when the sheet has none, and its
    cells by row and column.  A cell is kept as the value that
    [sheet_to_json] reads from it (the text of a text cell, the number of
    a numeric one, [null] for the error [#NULL!]); a cell that has no such
    value is no entry.  The first entry of an address is the one that
    counts. *)
Record worksheet := {
  ref : option range;
  cells : list (N * N * json)
}.

Fixpoint lookup (r c : N) (l : list (N * N * json)) : option json :=
  match l with
  | [] => None
  | (r', c', v) :: rest =>
      if ((r' =? r) && (c' =? c))%N then Some v else lookup r c rest
  end.

(** The value of the cell in row [r] and column [c]. *)
Definition cell (ws : worksheet) (r c : N) : option json :=
  lookup r c (cells ws).

(** A workbook: [SheetNames] and [Sheets]. *)
Record workbook := {
  SheetNames : list jsstring;
  Sheets : list (jsstring * worksheet)
}.

(** [wb.Sheets[name]] *)
Fixpoint sheet_of (sheets : list (jsstring * worksheet)) (name : jsstring)
  : option worksheet :=
  match sheets with
  | [] => None
  | (n, ws) :: r => if str_eqb n name then Some ws else sheet_of r name
  end.

Definition sheet (wb : workbook) (name : jsstring) : option worksheet :=
  sheet_of (Sheets wb) name.

(** [wb.Sheets[name] = ws] *)
Fixpoint put_sheet (name : jsstring) (ws : worksheet)
  (sheets : list (jsstring * worksheet)) : list (jsstring * worksheet) :=
  match sheets with
  | [] => [(name, ws)]
  | (n, old) :: r =>
      if str_eqb n name then (n, ws) :: r else (n, old) :: put_sheet name ws r
  end.

(** The worksheet object is shared with the workbook: what is written to
    the worksheet is seen in the workbook, at the place the sheet has
    there. *)
Definition set_sheet (name : jsstring) (ws : worksheet) (wb : workbook)
  : workbook :=
  {| SheetNames := SheetNames wb; Sheets := put_sheet name ws (Sheets wb) |}.

(** [XLSX.utils.book_new()] *)
Definition book_new : workbook := {| SheetNames := []; Sheets := [] |}.

(** [XLSX.utils.book_append_sheet(wb, ws, name)] for a name that is a
    valid sheet name, as [SHEET_NAME] is; it throws ([None]) when the
    workbook has 65535 sheets or lists the name already. *)
Definition book_append_sheet (wb : workbook) (ws : worksheet)
  (name : jsstring) : option workbook :=
  if (65535 <=? N.of_nat (List.length (SheetNames wb)))%N
     || existsb (str_eqb name) (SheetNames wb)
  then None
  else Some {| SheetNames := SheetNames wb ++ [name];
               Sheets := put_sheet name ws (Sheets wb) |}.

(** The range made to hold the cell in row [R] and column [C]. *)
Definition grow (rg : range) (R C : N) : range :=
  {| s_r := N.min (s_r rg) R;
     s_c := N.min (s_c rg) C;
     e_r := N.max (e_r rg) R;
     e_c := N.max (e_c rg) C |}.

(** The inner loop of [sheet_add_aoa] over one row of texts: each goes
    into row [R], the first into column [C], the range growing with
    them. *)
Fixpoint add_values (R C : N) (values : list jsstring)
  (acc : range * list (N * N * json)) : range * list (N * N * json) :=
  match values with
  | [] => acc
  | v :: rest =>
      add_values R (N.succ C) rest
        (grow (fst acc) R C, (R, C, JStr v) :: snd acc)
  end.

(** The range [sheet_add_aoa] starts from on a new sheet. *)
Definition no_range : range :=
  {| s_r := 10000000; s_c := 10000000; e_r := 0; e_c := 0 |}.

(** ["A1:A1"], which [sheet_add_aoa] gives a sheet without ["!ref"] when
    it is called with an origin. *)
Definition A1_A1 : range := {| s_r := 0; s_c := 0; e_r := 0; e_c := 0 |}.

(** The end of [sheet_add_aoa]: the new ["!ref"] is written when the
    range has a first column. *)
Definition with_range (old : option range)
  (acc : range * list (N * N * json)) : worksheet :=
  {| ref := if (s_c (fst acc) <? 10000000)%N then Some (fst acc) else old;
     cells := snd acc |}.

(** [XLSX.utils.aoa_to_sheet([values])] *)
Definition aoa_to_sheet (values : list jsstring) : worksheet :=
  with_range None (add_values 0 0 values (no_range, [])).

(** The range of a sheet that is handed to [sheet_add_aoa] with an
    origin. *)
Definition range_of (ws : worksheet) : range :=
  match ref ws with
  | Some rg => rg
  | None => A1_A1
  end.

(** [XLSX.utils.sheet_add_aoa(ws, [values], { origin: "A1" })]: the texts
    are written into row 0 from column 0, over what is there. *)
Definition sheet_add_aoa_A1 (ws : worksheet) (values : list jsstring)
  : worksheet :=
  with_range (Some (range_of ws))
    (add_values 0 0 values (range_of ws, cells ws)).

(** [XLSX.utils.sheet_add_aoa(ws, [values], { origin: -1 })]: the texts
    are written from column 0 into the row below the last row of the
    range, which becomes the last row. *)
Definition sheet_add_aoa_bottom (ws : worksheet) (values : list jsstring)
  : worksheet :=
  let rg := range_of ws in
  let R := (e_r rg + 1)%N in
  with_range (Some rg)
    (add_values R 0 values
       ({| s_r := s_r rg; s_c := s_c rg; e_r := R; e_c := e_c rg |},
        cells ws)).

(** A JavaScript array with holes; it ends with its last element. *)
Definition row := list (option json).

Fixpoint array_of (values : list (option json)) : row :=
  match values with
  | [] => []
  | x :: r =>
      match x, array_of r with
      | None, [] => []
      | _, r' => x :: r'
      end
  end.

(** The columns [C], [C + 1], ..., [n] of them. *)
Fixpoint columns (C : N) (n : nat) : list N :=
  match n with
  | O => []
  | S n' => C :: columns (N.succ C) n'
  end.

(** [XLSX.utils.sheet_to_json(ws, { header: 1, range: 0 })[0]]: the
    values of row 0 in the columns of the range, the cell in the first
    column of the range at index 0, a cell without value leaving a hole;
    [undefined] for a sheet that has no ["!ref"], whose array of rows is
    empty. *)
Definition sheet_to_json_first (ws : worksheet) : option row :=
  match ref ws with
  | None => None
  | Some rg =>
      Some (array_of
              (map (cell ws 0)
                   (columns (s_c rg) (N.to_nat (e_c rg + 1 - s_c rg)))))
  end.

(** ** The request handling *)

(** ASCII letters to lower case, and the two code points outside ASCII
    whose lower case has an ASCII letter in it (the Kelvin sign, and the
    dotted capital I, which keeps a combining dot).  Every other code point
    outside ASCII has a lower case outside ASCII; it is left as it is,
    which does not change whether the result equals an ASCII string. *)
Definition toLowerCase (s : jsstring) : jsstring :=
  flat_map (fun c => if ((65 <=? c) && (c <=? 90))%N then [(c + 32)%N]
                     else if (c =? 0x212A)%N then [ch "k"]
                     else if (c =? 0x130)%N then [ch "i"; 0x307%N]
                     else [c]) s.

(** [typeof value === "string" ? value.trim() : ""] *)
Definition getTrimmedString (value : option json) : jsstring :=
  match value with
  | Some (JStr s) => trim s
  | _ => []
  end.

Definition normalizeHeaderValue (value : option json) : jsstring :=
  toLowerCase (getTrimmedString value).

(** [actual[index]]: a hole, or an index past the end, reads [undefined]. *)
Definition at_index (actual : row) (index : nat) : option json :=
  match nth_error actual index with
  | Some cell => cell
  | None => None
  end.

Fixpoint every_from (index : nat) (expected : list jsstring) (actual : row)
  : bool :=
  match expected with
  | [] => true
  | header :: r =>
      str_eqb (normalizeHeaderValue (at_index actual index))
              (normalizeHeaderValue (Some (JStr header)))
      && every_from (S index) r actual
  end.

(** [actual] is [None] when it is not an array. *)
Definition headersMatch (expected : list jsstring) (actual : option row)
  : bool :=
  match actual with
  | None => false
  | Some a =>
      if (List.length a <? List.length expected)%nat then false
      else every_from 0 expected a
  end.

Record payload := {
  boxNumber : jsstring;
  product : jsstring;
  operatorName : jsstring;
  destination : jsstring;
  netWeight : jsstring;
  missing : list jsstring
}.

(** [body?.k] *)
Definition field (body : option json) (k : jsstring) : option json :=
  match body with
  | Some b => get b k
  | None => None
  end.

Definition push_if_blank (value name : jsstring) (missing : list jsstring)
  : list jsstring :=
  if is_empty value then missing ++ [name] else missing.

Definition validatePayload (body : option json) : payload :=
  let boxNumber := getTrimmedString (field body (js "boxNumber")) in
  let product := getTrimmedString (field body (js "product")) in
  let operatorName := getTrimmedString (field body (js "operatorName")) in
  let destination := getTrimmedString (field body (js "destination")) in
  let netWeight := getTrimmedString (field body (js "netWeight")) in
  {| boxNumber := boxNumber;
     product := product;
     operatorName := operatorName;
     destination := destination;
     netWeight := netWeight;
     missing :=
       push_if_blank netWeight (js "netWeight")
         (push_if_blank destination (js "destination")
            (push_if_blank operatorName (js "operatorName")
               (push_if_blank product (js "product")
                  (push_if_blank boxNumber (js "boxNumber") [])))) |}.

(** The worksheet with its header row in place, and the workbook that
    holds it; [None] when [book_append_sheet] throws. *)
Definition getOrCreateWorksheet (wb : workbook)
  : option (worksheet * workbook) :=
  match sheet wb SHEET_NAME with
  | None =>
      let worksheet := aoa_to_sheet HEADERS in
      match book_append_sheet wb worksheet SHEET_NAME with
      | Some wb' => Some (worksheet, wb')
      | None => None
      end
  | Some worksheet =>
      match ref worksheet with
      | None =>
          let worksheet' := sheet_add_aoa_A1 worksheet HEADERS in
          Some (worksheet', set_sheet SHEET_NAME worksheet' wb)
      | Some _ =>
          let headerRow := sheet_to_json_first worksheet in
          if negb (headersMatch HEADERS headerRow) then
            let worksheet' := sheet_add_aoa_A1 worksheet HEADERS in
            Some (worksheet', set_sheet SHEET_NAME worksheet' wb)
          else Some (worksheet, wb)
      end
  end.

(** What the [try] block of the handler does to the workbook it has
    loaded, before it writes it. *)
Definition add_row (values : list jsstring) (wb : workbook)
  : option workbook :=
  match getOrCreateWorksheet wb with
  | Some (worksheet, wb') =>
      Some (set_sheet SHEET_NAME (sheet_add_aoa_bottom worksheet values) wb')
  | None => None
  end.

(** ** The file system *)

(** What the server runs on: the state of the file system, and what
    [fs.mkdirSync] for the directory of FILE_PATH, [fs.existsSync],
    [XLSX.readFile] and [XLSX.writeFile] for FILE_PATH do in a state.
    [None] stands for something thrown; a call that can write leaves a
    new state, also when it throws.  Nothing is assumed of them: which
    workbook the reader makes of a file, and when the writer refuses a
    workbook, is the package's matter. *)
Record host := {
  disk : Type;
  mkdirSync : disk -> option unit * disk;
  existsSync : disk -> bool;
  readFile : disk -> option workbook;
  writeFile : workbook -> disk -> option unit * disk
}.

(** A step that returns or throws, and leaves the disk in some state. *)
Definition effect (D A : Type) : Type := D -> option A * D.

Definition and_then {D A B : Type} (m : effect D A) (f : A -> effect D B)
  : effect D B :=
  fun d =>
    match m d with
    | (Some a, d') => f a d'
    | (None, d') => (None, d')
    end.

Definition computed {D A : Type} (o : option A) : effect D A :=
  fun d => (o, d).

Local Notation "'attempt' x <- m ;; f" := (and_then m (fun x => f))
  (at level 10, x name, m at level 100, f at level 200).

Definition ensureDirectoryExists (h : host) : effect (disk h) unit :=
  mkdirSync h.

Definition loadWorkbook (h : host) : effect (disk h) workbook :=
  fun d =>
    if existsSync h d then (readFile h d, d) else (Some book_new, d).

Record response := {
  status : nat;
  json_body : json
}.

(** The [try] block of the handler. *)
Definition append_row (h : host) (values : list jsstring)
  : effect (disk h) unit :=
  attempt _ <- ensureDirectoryExists h ;;
  attempt workbook <- loadWorkbook h ;;
  attempt written <- computed (add_row values workbook) ;;
  writeFile h written.

(** [app.post("/save", ...)]; [date] and [time] are the two renderings of
    the clock read by the handler. *)
Definition post_save (h : host) (date time : jsstring) (body : option json)
  (d : disk h) : response * disk h :=
  let p := validatePayload body in
  match missing p with
  | _ :: _ =>
      ({| status := 400;
          json_body := JObj [(js "error", JStr (js "Missing required fields."));
                             (js "fields", JArr (map JStr (missing p)))] |}, d)
  | [] =>
      let values :=
        [boxNumber p; product p; operatorName p; destination p;
         date; time; netWeight p] in
      match append_row h values d with
      | (Some _, d') =>
          ({| status := 200;
              json_body := JObj [(js "success", JBool true)] |}, d')
      | (None, d') =>
          ({| status := 500;
              json_body := JObj [(js "error", JStr (js "Unable to save data."))] |},
           d')
      end
  end.

End Server.

(* ================================================================== *)
(** * Part VIII. The rules of step 1 as the specification words them     *)
(* ================================================================== *)

Module Step1Rules.

Import FormPage.

(** What a failed rule reports: the message and the control to focus. *)
Definition failure := (jsstring * option control)%type.

Definition known_tags : list jsstring := [js "box"; js "bulk"; js "purchased"].

Definition tag_known (tag : jsstring) : bool := existsb (str_eqb tag) known_tags.

(** Rule 1: the chip-type tag is one of the three known variants. *)
Definition rule_chip_type (tag : jsstring) (v : form_values) : option failure :=
  if tag_known tag then None
  else Some (js "Please select what type of chip this is.",
             Some FirstChipTypeButton).

(** The value of the selected variant, normalized. *)
Definition variant_of (tag : jsstring) (v : form_values) : jsstring :=
  if str_eqb tag (js "box") then trim (chipBoxInput_value v)
  else if str_eqb tag (js "bulk") then trim (chipBulkInput_value v)
  else chipPurchasedSelect_value v.

(** Rule 2: the value of the selected variant is present and satisfies its
    character class. *)
Definition rule_variant (tag : jsstring) (v : form_values) : option failure :=
  let value := variant_of tag v in
  if str_eqb tag (js "box") then
    if is_empty value then
      Some (js "Please enter a box number.", Some ChipBoxInput)
    else if forallb isAlnum value then None
    else Some (js "Box number must be alphanumeric only.", Some ChipBoxInput)
  else if str_eqb tag (js "bulk") then
    if is_empty value then
      Some (js "Please enter a bulk/silo value.", Some ChipBulkInput)
    else if existsb isDigit value then
      Some (js "Bulk/Silo must not contain numbers.", Some ChipBulkInput)
    else None
  else
    if is_empty value then
      Some (js "Please select a purchased chip option.",
            Some ChipPurchasedSelect)
    else None.

(** Rule 3: the product is not empty. *)
Definition rule_product (tag : jsstring) (v : form_values) : option failure :=
  if is_empty (productSelect_value v) then
    Some (js "Please select a product.", Some ProductSelect)
  else None.

(** A Number that is finite and greater than zero. *)
Definition positive_finite (x : number) : bool :=
  match x with
  | Finite false _ _ => true
  | _ => false
  end.

(** Rule 4: the net weight is not empty and parses to a finite number
    greater than zero. *)
Definition rule_net_weight (tag : jsstring) (v : form_values) : option failure :=
  let value := trim (netWeightInput_value v) in
  if is_empty value then
    Some (js "Please enter a net weight.", Some NetWeightInput)
  else if positive_finite (parseFloat value) then None
  else Some (js "Net weight must be a positive number.", Some NetWeightInput).

(** The tokens of a name: its maximal runs of characters that are not
    white space. *)
Fixpoint tokens_aux (cur : jsstring) (s : jsstring) : list jsstring :=
  match s with
  | [] => match cur with [] => [] | _ :: _ => [rev cur] end
  | c :: r =>
      if isWhiteSpace c then
        match cur with
        | [] => tokens_aux [] r
        | _ :: _ => rev cur :: tokens_aux [] r
        end
      else tokens_aux (c :: cur) r
  end.

Definition tokens (s : jsstring) : list jsstring := tokens_aux [] s.

(** Rule 5: the operator name has at least two tokens. *)
Definition rule_operator (tag : jsstring) (v : form_values) : option failure :=
  if (2 <=? List.length (tokens (trim (operatorInput_value v))))%nat then None
  else Some (js "Please enter first and last name.", Some OperatorInput).

Definition rules : list (jsstring -> form_values -> option failure) :=
  [rule_chip_type; rule_variant; rule_product; rule_net_weight; rule_operator].

(** The rules in their order, stopping at the first that fails. *)
Fixpoint first_failure (rs : list (jsstring -> form_values -> option failure))
  (tag : jsstring) (v : form_values) : option failure :=
  match rs with
  | [] => None
  | r :: rs' =>
      match r tag v with
      | Some f => Some f
      | None => first_failure rs' tag v
      end
  end.

(** The fields a successful submission writes. *)
Definition accepted_fields (tag : jsstring) (v : form_values)
  : list (jsstring * json) :=
  [(js "chipType", JStr tag);
   (js "chipBoxNumber", JStr (trim (chipBoxInput_value v)));
   (js "chipBulkSilo", JStr (trim (chipBulkInput_value v)));
   (js "chipPurchased", JStr (chipPurchasedSelect_value v));
   (js "boxNumber", JStr (variant_of tag v));
   (js "product", JStr (productSelect_value v));
   (js "netWeight", JStr (trim (netWeightInput_value v)));
   (js "operatorName", JStr (trim (operatorInput_value v)))].

(** The submission of scenario A of the specification, for a given box
    value and net weight. *)
Definition scenario (box netWeight : jsstring) : form_values :=
  {| chipBoxInput_value := box;
     chipBulkInput_value := [];
     chipPurchasedSelect_value := [];
     productSelect_value := js "Resin-X";
     netWeightInput_value := netWeight;
     operatorInput_value := js "Jane Doe" |}.

(** The rules other than the one on the net weight. *)
Definition other_rules : list (jsstring -> form_values -> option failure) :=
  [rule_chip_type; rule_variant; rule_product; rule_operator].

(** Whether the characters after a run of digits go on with the numeric
    literal: another digit, the decimal point, or the letter of an
    exponent. *)
Definition literal_continues (rest : jsstring) : bool :=
  match rest with
  | [] => false
  | c :: _ =>
      isDigit c || (c =? ch ".")%N || (c =? ch "e")%N || (c =? ch "E")%N
  end.

(** The page after a rejection: the message and the focus, nothing else. *)
Definition rejected_page (pg : page) (f : failure) : page :=
  {| stored := stored pg;
     chipTypeButtons := chipTypeButtons pg;
     chipBoxField_hidden := chipBoxField_hidden pg;
     chipBulkField_hidden := chipBulkField_hidden pg;
     chipPurchasedField_hidden := chipPurchasedField_hidden pg;
     errorElement := fst f;
     focused := snd f |}.

(** The page after an accepted submission: the message cleared. *)
Definition accepted_page (pg : page) : page :=
  {| stored := stored pg;
     chipTypeButtons := chipTypeButtons pg;
     chipBoxField_hidden := chipBoxField_hidden pg;
     chipBulkField_hidden := chipBulkField_hidden pg;
     chipPurchasedField_hidden := chipPurchasedField_hidden pg;
     errorElement := [];
     focused := focused pg |}.

End Step1Rules.

(** ** Malformed submissions *)

Module Malformed.

Import FormPage Step1Rules.

(** The messages of the form page, each with the control it belongs to. *)
Definition field_messages : list failure :=
  [(js "Please select what type of chip this is.", Some FirstChipTypeButton);
   (js "Please enter a box number.", Some ChipBoxInput);
   (js "Box number must be alphanumeric only.", Some ChipBoxInput);
   (js "Please enter a bulk/silo value.", Some ChipBulkInput);
   (js "Bulk/Silo must not contain numbers.", Some ChipBulkInput);
   (js "Please select a purchased chip option.", Some ChipPurchasedSelect);
   (js "Please select a product.", Some ProductSelect);
   (js "Please enter a net weight.", Some NetWeightInput);
   (js "Net weight must be a positive number.", Some NetWeightInput);
   (js "Please enter first and last name.", Some OperatorInput)].

Definition has_non_alnum (s : jsstring) : bool :=
  existsb (fun c => negb (isAlnum c)) s.

(** The net weight does not parse to a finite number greater than zero,
    or the operator name has fewer than two tokens after trimming. *)
Definition weight_or_name_malformed (v : form_values) : bool :=
  negb (positive_finite (parseFloat (netWeightInput_value v))) ||
  (List.length (tokens (trim (operatorInput_value v))) <? 2)%nat.

(** Malformed input, the box value taken as it stands in the control. *)
Definition malformed_as_stated (tag : jsstring) (v : form_values) : bool :=
  negb (tag_known tag) ||
  (str_eqb tag (js "box") && has_non_alnum (chipBoxInput_value v)) ||
  (str_eqb tag (js "bulk") && existsb isDigit (chipBulkInput_value v)) ||
  weight_or_name_malformed v.

(** Malformed input, the box value taken after trimming. *)
Definition malformed (tag : jsstring) (v : form_values) : bool :=
  negb (tag_known tag) ||
  (str_eqb tag (js "box") && has_non_alnum (trim (chipBoxInput_value v))) ||
  (str_eqb tag (js "bulk") && existsb isDigit (chipBulkInput_value v)) ||
  weight_or_name_malformed v.

(** A submission that breaks the claim as stated: the box value has a
    blank on either side. *)
Definition padded_box : form_values := scenario (js " A1B2 ") (js "12.5").

(** The form page with the three chip types, [box] selected. *)
Definition box_selected : page :=
  setSelectedChipType (js "box")
    (initFormPage [js "box"; js "bulk"; js "purchased"] None).

End Malformed.

(** ** Records that survive the round trip through the store *)

Module RoundTrip.

(** The numbers that [JSON.stringify] writes with their value: the finite
    ones other than negative zero.  It writes [null] for the others, and
    [0] for negative zero. *)
Definition kept_number (x : number) : bool :=
  match x with
  | Zero neg => negb neg
  | Finite _ _ _ => true
  | NaN | Infinity _ => false
  end.

(** Every number in the value is one of those.  Every field the wizard
    writes is a string. *)
Fixpoint storable (v : json) : bool :=
  match v with
  | JNum x => kept_number x
  | JArr l => forallb storable l
  | JObj l => forallb (fun kv => storable (snd kv)) l
  | _ => true
  end.

(** A record all of whose fields are strings: the shape of every record
    the wizard writes. *)
Definition is_string (v : json) : bool :=
  match v with
  | JStr _ => true
  | _ => false
  end.

Definition string_record (v : json) : bool :=
  match v with
  | JObj l => forallb (fun kv => is_string (snd kv)) l
  | _ => false
  end.

(** The objects of the value have no key twice, as objects have, and its
    numbers are binary64 values. *)
#[local] Unset Elimination Schemes.
Inductive well_formed : json -> Prop :=
| wf_null : well_formed JNull
| wf_bool b : well_formed (JBool b)
| wf_num x : binary64 x = true -> well_formed (JNum x)
| wf_str s : well_formed (JStr s)
| wf_arr l : Forall well_formed l -> well_formed (JArr l)
| wf_obj l :
    NoDup (map fst l) ->
    Forall (fun kv => well_formed (snd kv)) l ->
    well_formed (JObj l).
#[local] Set Elimination Schemes.

(** The values, elements and members of a value: the fuel its text needs. *)
Fixpoint size (v : json) : nat :=
  match v with
  | JArr l => S (fold_right (fun x acc => S (size x + acc)) 0%nat l)
  | JObj l => S (fold_right (fun kv acc => S (size (snd kv) + acc)) 0%nat l)
  | _ => 1%nat
  end.

(** Writing the value and reading the text back gives the value, whatever
    follows the text that does not continue a number. *)
Definition round_trips (v : json) : Prop :=
  well_formed v -> storable v = true ->
  forall n rest,
    (size v <= n)%nat -> number_ends rest = true ->
    parse_value n (stringify v ++ rest) = Some (v, rest).

(** The text of a record whose net weight overflows binary64, the quotes
    written by their code. *)
Definition overflowing_text : jsstring :=
  ch "{" :: 34%N :: js "netWeight" ++ 34%N :: js ":1e999}".

End RoundTrip.

(** ** Runs of the wizard *)

Module Runs.

Import Wizard.

Section Markup.
Variable chipTypes : list jsstring.
Variable destinations : list DestinationPage.checkbox.

(** A browser that has just loaded a page. *)
Definition fresh (b : browser) : Prop :=
  exists href, current b = navigate chipTypes destinations href (localStorage b).

(** What any sequence of events leads to from there. *)
Definition reachable (b : browser) : Prop :=
  exists b0 es, fresh b0 /\ b = run chipTypes destinations es b0.

(** The summary page between a successful save and the redirect. *)
Definition redirect_pending (pg : SummaryPage.page) : Prop :=
  SummaryPage.redirectTimer pg <> None.

(** What holds of the summary page throughout: a request in flight or a
    pending redirect keeps the button disabled, and the two exclude each
    other. *)
Definition summary_invariant (pg : SummaryPage.page) : Prop :=
  (SummaryPage.in_flight pg <= 1)%nat
  /\ (SummaryPage.in_flight pg = 1%nat ->
      SummaryPage.saveButton_disabled pg = true
      /\ SummaryPage.redirectTimer pg = None)
  /\ (SummaryPage.redirectTimer pg <> None ->
      SummaryPage.saveButton_disabled pg = true
      /\ In (js "Saved to Excel.") (SummaryPage.alerts pg))
  /\ (SummaryPage.saveButton_disabled pg = true ->
      SummaryPage.in_flight pg = 1%nat
      \/ SummaryPage.redirectTimer pg <> None).

Definition invariant (b : browser) : Prop :=
  match current b with
  | OnSummary pg => summary_invariant pg
  | _ => True
  end.

Definition is_visit (e : event) : bool :=
  match e with
  | Visit _ => true
  | _ => false
  end.

(** The events that write the store, in the state where they occur. *)
Definition writes_store (e : event) (b : browser) : bool :=
  match e, current b with
  | ClickChipType i, OnForm pg =>
      match nth_error (FormPage.chipTypeButtons pg) i with
      | Some button => negb (is_empty (FormPage.dataset_chipType button))
      | None => false
      end
  | SubmitForm v, OnForm pg =>
      match FormPage.chipTypeButtons pg with
      | [] => false
      | _ :: _ =>
          match Step1Rules.first_failure Step1Rules.rules
                  (FormPage.getSelectedChipType (FormPage.chipTypeButtons pg))
                  v with
          | None => true
          | Some _ => false
          end
      end
  | SubmitDestination, OnDestination pg =>
      match find DestinationPage.checked (DestinationPage.checkboxes pg) with
      | Some _ => true
      | None => false
      end
  | ResponseOk _ _, OnSummary pg => (0 <? SummaryPage.in_flight pg)%nat
  | Elapse ms, OnSummary pg =>
      match SummaryPage.redirectTimer pg with
      | Some due => (due <=? clock b + ms)%N
      | None => false
      end
  | _, _ => false
  end.

(** The redirect timer of the summary page fires during [Elapse ms]. *)
Definition timer_fires (e : event) (b : browser) : bool :=
  match e, current b with
  | Elapse ms, OnSummary pg =>
      match SummaryPage.redirectTimer pg with
      | Some due => (due <=? clock b + ms)%N
      | None => false
      end
  | _, _ => false
  end.

End Markup.

Section Markup.
Variable chipTypes : list jsstring.
Variable destinations : list DestinationPage.checkbox.

(** What the wizard leads to when it starts on a store that holds nothing
    or a record of strings. *)
Definition wizard_run (b : browser) : Prop :=
  exists b0 es,
    fresh chipTypes destinations b0
    /\ RoundTrip.string_record (getStoredData (localStorage b0)) = true
    /\ b = run chipTypes destinations es b0.

(** The record in the store and the one the page has captured are records
    of strings. *)
Definition records_of_strings (b : browser) : Prop :=
  RoundTrip.string_record (getStoredData (localStorage b)) = true
  /\ match current b with
     | OnForm pg => RoundTrip.string_record (FormPage.stored pg) = true
                    /\ RoundTrip.well_formed (FormPage.stored pg)
     | OnDestination pg =>
         RoundTrip.string_record (DestinationPage.stored pg) = true
         /\ RoundTrip.well_formed (DestinationPage.stored pg)
     | OnSummary pg =>
         RoundTrip.string_record (SummaryPage.stored pg) = true
         /\ RoundTrip.well_formed (SummaryPage.stored pg)
     | Elsewhere _ => True
     end.

End Markup.

(** The markup used in the examples: the three chip types, two
    destinations. *)
Definition three_types : list jsstring := [js "box"; js "bulk"; js "purchased"].

Definition two_destinations : list DestinationPage.checkbox :=
  [{| DestinationPage.value := js "Line 1"; DestinationPage.checked := false |};
   {| DestinationPage.value := js "Line 2"; DestinationPage.checked := false |}].

(** The first visit: nothing stored, the form page open. *)
Definition first_visit : browser :=
  {| localStorage := None; clock := 0;
     current := navigate three_types two_destinations (js "index.html") None |}.

(** A complete record, as steps 1 and 2 leave it. *)
Definition complete_record : json :=
  JObj [(js "chipType", JStr (js "box"));
        (js "chipBoxNumber", JStr (js "A1B2"));
        (js "chipBulkSilo", JStr []);
        (js "chipPurchased", JStr []);
        (js "boxNumber", JStr (js "A1B2"));
        (js "product", JStr (js "Resin-X"));
        (js "netWeight", JStr (js "12.5"));
        (js "operatorName", JStr (js "Jane Doe"));
        (js "destination", JStr (js "Line 1"))].

(** The summary page as it is rendered for that record. *)
Definition summary_page : SummaryPage.page :=
  {| SummaryPage.stored := complete_record;
     SummaryPage.saveButton_disabled := false;
     SummaryPage.redirectTimer := None;
     SummaryPage.message := [];
     SummaryPage.alerts := [];
     SummaryPage.in_flight := 0;
     SummaryPage.sent := [] |}.

(** The summary page just opened on that record. *)
Definition on_summary : browser :=
  {| localStorage := setStoredData complete_record; clock := 0;
     current := navigate three_types two_destinations (js "summary.html")
                         (setStoredData complete_record) |}.

(** The save button was clicked: the request is in flight. *)
Definition saving : browser :=
  step three_types two_destinations ClickSave on_summary.

(** The request was answered with success at that moment. *)
Definition saved : browser :=
  step three_types two_destinations
    (ResponseOk (js "2026-01-05T10:00:00.000Z") (js "Jan 05, 2026, 10:00 AM"))
    saving.

(** The events that write the store according to the claim as stated:
    a validated submission of step 1 or 2, the successful final
    submission, and the clearing that follows it. *)
Definition validated_write (e : event) (b : browser) : bool :=
  match e with
  | ClickChipType _ => false
  | _ => writes_store e b
  end.

End Runs.

(** ** The ledger *)

Module Ledger.

Import Server.

(** A string with a character that is not white space. *)
Definition non_blank_string (value : option json) : bool :=
  match value with
  | Some (JStr s) => existsb (fun c => negb (isWhiteSpace c)) s
  | _ => false
  end.

Definition required_fields : list jsstring :=
  [js "boxNumber"; js "product"; js "netWeight"; js "operatorName";
   js "destination"].

(** All five fields of the body are non-blank strings. *)
Definition all_present (body : option json) : bool :=
  forallb (fun k => non_blank_string (field body k)) required_fields.

(** The trimmed text of a field of the body. *)
Definition trim_field (body : option json) (k : jsstring) : jsstring :=
  match field body k with
  | Some (JStr s) => trim s
  | _ => []
  end.

(** The texts of a submission, in the order of the seven columns. *)
Definition submitted_values (date time : jsstring) (body : option json)
  : list jsstring :=
  [trim_field body (js "boxNumber");
   trim_field body (js "product");
   trim_field body (js "operatorName");
   trim_field body (js "destination");
   date; time;
   trim_field body (js "netWeight")].

(** The cells of row [r] in the [n] columns from column [c]. *)
Definition cells_from (ws : worksheet) (r c : N) (n : nat)
  : list (option json) :=
  map (cell ws r) (columns c n).

(** Cells that hold the given texts. *)
Definition texts (values : list jsstring) : list (option json) :=
  map (fun s => Some (JStr s)) values.

(** The two answers of the handler past the validation. *)
Definition success : response :=
  {| status := 200; json_body := JObj [(js "success", JBool true)] |}.

Definition unable_to_save : response :=
  {| status := 500;
     json_body := JObj [(js "error", JStr (js "Unable to save data."))] |}.

(** ** Hosts to run the handler on *)

(** A file system of one file, which holds a workbook as it was written
    and whose calls fail when they are set to. *)
Inductive file_state :=
| Absent
| Unreadable
| Workbook (wb : workbook).

Record plain_disk := {
  mkdir_ok : bool;
  file : file_state;
  write_ok : bool
}.

Definition plain_host : host :=
  {| disk := plain_disk;
     mkdirSync := fun d => (if mkdir_ok d then Some tt else None, d);
     existsSync := fun d => match file d with Absent => false | _ => true end;
     readFile := fun d => match file d with Workbook wb => Some wb | _ => None end;
     writeFile := fun wb d =>
       if write_ok d then
         (Some tt,
          {| mkdir_ok := mkdir_ok d; file := Workbook wb;
             write_ok := write_ok d |})
       else (None, d) |}.

(** A body with the five fields. *)
Definition good_body : option json :=
  Some (JObj [(js "boxNumber", JStr (js "A1B2"));
              (js "product", JStr (js "Resin-X"));
              (js "netWeight", JStr (js "12.5"));
              (js "operatorName", JStr (js "Jane Doe"));
              (js "destination", JStr (js "Line 1"))]).

(** A disk that cannot be written, and one without the file. *)
Definition read_only_disk : disk plain_host :=
  {| mkdir_ok := true; file := Absent; write_ok := false |}.

Definition empty_disk : disk plain_host :=
  {| mkdir_ok := true; file := Absent; write_ok := true |}.

(** A sheet as a reader may return it, with the seven headers and one row
    of seven texts in the columns C to I, ["!ref"] being ["C1:I2"]. *)
Definition shifted_sheet : worksheet :=
  {| ref := Some {| s_r := 0; s_c := 2; e_r := 1; e_c := 8 |};
     cells :=
       map (fun cv => (0%N, fst cv, JStr (snd cv)))
           (combine (columns 2 7) HEADERS)
       ++ map (fun cv => (1%N, fst cv, JStr (snd cv)))
              (combine (columns 2 7)
                 [js "A1B2"; js "Resin-X"; js "Jane Doe"; js "Line 1";
                  js "1/5/2026"; js "10:00 AM"; js "12.5"]) |}.

Definition shifted_workbook : workbook :=
  {| SheetNames := [SHEET_NAME]; Sheets := [(SHEET_NAME, shifted_sheet)] |}.

End Ledger.

(* ================================================================== *)
(** * Part VIII, continued. What else the pages and the server do       *)
(* ================================================================== *)

(** ** What a save leaves to the next load *)

Module Reload.

(** A number as it is read back from the text [JSON.stringify] writes for
    it: a finite number is itself, negative zero is written [0], and NaN
    and the infinities are written [null]. *)
Definition reloaded_number (x : number) : json :=
  match x with
  | Zero _ => JNum (Zero false)
  | Finite _ _ _ => JNum x
  | NaN | Infinity _ => JNull
  end.

(** A value with every number in it read back that way. *)
Fixpoint reloaded (v : json) : json :=
  match v with
  | JNum x => reloaded_number x
  | JArr l => JArr (map reloaded l)
  | JObj l => JObj (map (fun kv => (fst kv, reloaded (snd kv))) l)
  | _ => v
  end.

End Reload.

(** ** The requests of the summary page *)

Module Requests.

(** What holds of the summary page as long as it is open: the record it
    captured passes the entry guards, every request issued carries that
    record, and each request is in flight or was answered with one
    alert. *)
Definition summary_requests (pg : SummaryPage.page) : Prop :=
  step1_missing (SummaryPage.stored pg) = false
  /\ truthy_opt (get (SummaryPage.stored pg) (js "destination")) = true
  /\ Forall (fun body => body = SummaryPage.request_body (SummaryPage.stored pg))
            (SummaryPage.sent pg)
  /\ List.length (SummaryPage.sent pg)
     = (SummaryPage.in_flight pg + List.length (SummaryPage.alerts pg))%nat.

Definition invariant (b : Wizard.browser) : Prop :=
  match Wizard.current b with
  | Wizard.OnSummary pg => summary_requests pg
  | _ => True
  end.

End Requests.

(** ** The address of the server ([getApiBaseUrl]) *)

Module Api.

(** What the page provides: the [data-api-base] attribute of [<body>],
    when there is one, and [window.location]. *)
Record page_location := {
  dataset_apiBase : option jsstring;
  location_protocol : jsstring;
  location_hostname : jsstring
}.

Fixpoint drop_slashes (s : jsstring) : jsstring :=
  match s with
  | [] => []
  | c :: r => if (c =? ch "/")%N then drop_slashes r else s
  end.

(** [s.replace(/\/+$/, "")]: the slashes at the end of the string go. *)
Definition replace_trailing_slashes (s : jsstring) : jsstring :=
  rev (drop_slashes (rev s)).

(** [`${protocol}//${host}:3000`] *)
Definition default_base (p : page_location) : jsstring :=
  let protocol :=
    if str_eqb (location_protocol p) (js "https:") then js "https:"
    else js "http:" in
  let host :=
    if is_empty (location_hostname p) then js "localhost"
    else location_hostname p in
  protocol ++ js "//" ++ host ++ js ":3000".

Definition getApiBaseUrl (p : page_location) : jsstring :=
  match dataset_apiBase p with
  | Some s =>
      let configured := trim s in
      if negb (is_empty configured) then replace_trailing_slashes configured
      else default_base p
  | None => default_base p
  end.

(** [`${apiBaseUrl}/save`] *)
Definition save_url (p : page_location) : jsstring :=
  getApiBaseUrl p ++ js "/save".

End Api.
(* ================================================================== *)

(** * Part IX. Properties                                                *)

(* ================================================================== *)

(** ** Strings *)

Lemma str_eqb_refl (a : jsstring) : str_eqb a a = true.
Proof.
  induction a as [|x a IH]; simpl; [reflexivity|].
  now rewrite N.eqb_refl, IH.
Qed.

Lemma str_eqb_eq (a b : jsstring) : str_eqb a b = true <-> a = b.
Proof.
  split.
  - revert b; induction a as [|x a IH]; intros [|y b] H; simpl in H;
      try discriminate; [reflexivity|].
    apply andb_true_iff in H as [H1 H2].
    apply N.eqb_eq in H1. apply IH in H2. now subst.
  - intros ->. apply str_eqb_refl.
Qed.

Lemma str_eqb_neq (a b : jsstring) : str_eqb a b = false <-> a <> b.
Proof.
  split.
  - intros H E. apply str_eqb_eq in E. congruence.
  - intros H. destruct (str_eqb a b) eqn:E; [|reflexivity].
    apply str_eqb_eq in E. contradiction.
Qed.

Lemma trimStart_nil_or_head (s : jsstring) :
  trimStart s = [] \/ exists c r, trimStart s = c :: r /\ isWhiteSpace c = false.
Proof.
  induction s as [|c s IH]; simpl; [now left|].
  destruct (isWhiteSpace c) eqn:E; [exact IH|].
  right. now exists c, s.
Qed.

Lemma normalizeText_trim (s : jsstring) : normalizeText s = trim s.
Proof. destruct s; reflexivity. Qed.

(** ** The built-in functions on some inputs *)

Example trim_example : trim (js "  Jane  Doe ") = js "Jane  Doe".
Proof. reflexivity. Qed.

Example split_example :
  split_ws (js " a  b ") = [[]; js "a"; js "b"; []]
  /\ filter_Boolean (split_ws (js "Jane  Doe")) = [js "Jane"; js "Doe"].
Proof. split; reflexivity. Qed.

Example parseFloat_examples :
  parseFloat (js "12.5") = Finite false 7036874417766400 (-49)
  /\ parseFloat (js "  .5e1x") = Finite false 5629499534213120 (-50)
  /\ parseFloat (js "-3") = Finite true 6755399441055744 (-51)
  /\ parseFloat (js "0") = Zero false
  /\ parseFloat (js "-0") = Zero true
  /\ parseFloat (js "abc") = NaN
  /\ parseFloat (js "") = NaN
  /\ parseFloat (js ".") = NaN
  /\ parseFloat (js "Infinity") = Infinity false
  /\ parseFloat (js "1e400") = Infinity false
  /\ parseFloat (js "1e-400") = Zero false
  /\ parseFloat (js "5e-324") = Finite false 1 (-1074)
  /\ parseFloat (js "1.7976931348623157e308")
     = Finite false 9007199254740991 971
  /\ parseFloat (js "0.1") = Finite false 7205759403792794 (-56).
Proof. repeat split; vm_compute; reflexivity. Qed.

Example Number_toString_examples :
  map (fun s => Number_toString (parseFloat (js s)))
      ["0.1"; "100"; "1e21"; "1e23"; "123456789012345680000"; "5e-324";
       "1.7976931348623157e308"; "9007199254740993"; "-12.50"; "0.000001";
       "0.0000001"; "0.30000000000000004"; "4.35";
       "2.2250738585072014e-308"; "1"; "9"; "10"; "999999999999999900000";
       "1e22"; "0.5"; "72057594037927945"; "4.9e-324"; "1.5e300"]%string
  = map js
      ["0.1"; "100"; "1e+21"; "1e+23"; "123456789012345680000"; "5e-324";
       "1.7976931348623157e+308"; "9007199254740992"; "-12.5"; "0.000001";
       "1e-7"; "0.30000000000000004"; "4.35";
       "2.2250738585072014e-308"; "1"; "9"; "10"; "999999999999999900000";
       "1e+22"; "0.5"; "72057594037927950"; "5e-324"; "1.5e+300"]%string.
Proof. vm_compute. reflexivity. Qed.

Example JSON_parse_examples :
  JSON_parse (js "[1, true,null , [] ]")
  = Some (JArr [JNum (Finite false 4503599627370496 (-52)); JBool true;
                JNull; JArr []])
  /\ JSON_parse (js "01") = None
  /\ JSON_parse (js "[1,]") = None
  /\ JSON_parse (js "1.") = None
  /\ JSON_parse (js "nulls") = None
  /\ JSON_parse (js "{oops") = None
  /\ JSON_parse (js "") = None
  /\ JSON_parse (js "-0") = Some (JNum (Zero true))
  /\ JSON_parse (js "1e999") = Some (JNum (Infinity false)).
Proof. repeat split; vm_compute; reflexivity. Qed.

Example stringify_example :
  stringify Runs.complete_record
  = ch "{" ::
    QuoteJSONString (js "chipType") ++ js ":" ++ QuoteJSONString (js "box")
    ++ js "," ++
    QuoteJSONString (js "chipBoxNumber") ++ js ":"
    ++ QuoteJSONString (js "A1B2") ++ js "," ++
    QuoteJSONString (js "chipBulkSilo") ++ js ":" ++ QuoteJSONString []
    ++ js "," ++
    QuoteJSONString (js "chipPurchased") ++ js ":" ++ QuoteJSONString []
    ++ js "," ++
    QuoteJSONString (js "boxNumber") ++ js ":" ++ QuoteJSONString (js "A1B2")
    ++ js "," ++
    QuoteJSONString (js "product") ++ js ":"
    ++ QuoteJSONString (js "Resin-X") ++ js "," ++
    QuoteJSONString (js "netWeight") ++ js ":" ++ QuoteJSONString (js "12.5")
    ++ js "," ++
    QuoteJSONString (js "operatorName") ++ js ":"
    ++ QuoteJSONString (js "Jane Doe") ++ js "," ++
    QuoteJSONString (js "destination") ++ js ":"
    ++ QuoteJSONString (js "Line 1") ++ js "}"
  /\ JSON_parse (stringify Runs.complete_record) = Some Runs.complete_record.
Proof. split; vm_compute; reflexivity. Qed.

(** What the [input] handlers leave in the two text fields passes the
    character class the submit handler checks. *)
Lemma sanitized_inputs (value : jsstring) :
  forallb isAlnum (FormPage.input_chipBox value) = true
  /\ test_has_digit (FormPage.input_chipBulk value) = false.
Proof.
  unfold FormPage.input_chipBox, FormPage.input_chipBulk,
    replace_non_alnum, replace_digits, test_has_digit.
  split.
  - apply forallb_forall. intros c Hin. now apply filter_In in Hin.
  - induction value as [|c value IH]; [reflexivity|]. simpl.
    destruct (isDigit c) eqn:E; simpl; [exact IH|]. now rewrite E.
Qed.

(** ** Trimming *)

Lemma In_trimStart (c : N) (s : jsstring) :
  In c s -> isWhiteSpace c = false -> In c (trimStart s).
Proof.
  intros Hin Hc. induction s as [|x s IH]; simpl; [contradiction|].
  destruct (isWhiteSpace x) eqn:Ex; [|exact Hin].
  destruct Hin as [->|Hin]; [congruence | now apply IH].
Qed.

Lemma In_trim (c : N) (s : jsstring) :
  In c s -> isWhiteSpace c = false -> In c (trim s).
Proof.
  intros Hin Hc. unfold trim, trimEnd.
  apply in_rev. rewrite rev_involutive.
  apply In_trimStart; [|assumption].
  apply in_rev. rewrite rev_involutive.
  now apply In_trimStart.
Qed.

Lemma isDigit_not_whitespace (c : N) :
  isDigit c = true -> isWhiteSpace c = false.
Proof.
  unfold isDigit, isWhiteSpace. intros H.
  apply andb_true_iff in H as [H1 H2].
  apply N.leb_le in H1. apply N.leb_le in H2.
  repeat (apply orb_false_iff; split);
    try (apply N.eqb_neq; lia).
  apply andb_false_iff. left. apply N.leb_gt. lia.
Qed.

Lemma whitespace_is_no_digit (c : N) :
  isWhiteSpace c = true -> isDigit c = false.
Proof.
  intros H. destruct (isDigit c) eqn:E; [|reflexivity].
  apply isDigit_not_whitespace in E. congruence.
Qed.

Lemma whitespace_is_not (c k : N) :
  isWhiteSpace c = true -> isWhiteSpace k = false -> (c =? k)%N = false.
Proof.
  intros Hc Hk. apply N.eqb_neq. intros ->. congruence.
Qed.

Lemma trimStart_head (c : N) (s : jsstring) :
  isWhiteSpace c = false -> trimStart (c :: s) = c :: s.
Proof. intros H. simpl. now rewrite H. Qed.

Lemma trimStart_app (a b : jsstring) (c : N) :
  isWhiteSpace c = false ->
  trimStart (a ++ c :: b) = trimStart a ++ c :: b.
Proof.
  intros Hc. induction a as [|x a IH]; simpl.
  - now rewrite Hc.
  - destruct (isWhiteSpace x); [exact IH | reflexivity].
Qed.

Lemma trimStart_suffix (s : jsstring) : exists w, s = w ++ trimStart s.
Proof.
  induction s as [|c s [w IH]]; simpl.
  - now exists [].
  - destruct (isWhiteSpace c).
    + exists (c :: w). simpl. now f_equal.
    + now exists [].
Qed.

Lemma trimEnd_prefix (s : jsstring) : exists w, s = trimEnd s ++ w.
Proof.
  destruct (trimStart_suffix (rev s)) as [w Hw].
  exists (rev w). unfold trimEnd.
  rewrite <- rev_app_distr, <- Hw. now rewrite rev_involutive.
Qed.

Lemma trimStart_nil_iff (s : jsstring) :
  trimStart s = [] <-> forallb isWhiteSpace s = true.
Proof.
  induction s as [|c s IH]; simpl; [tauto|].
  destruct (isWhiteSpace c); simpl; [exact IH|].
  split; discriminate.
Qed.

Lemma is_empty_trim (s : jsstring) :
  is_empty (trim s) = negb (existsb (fun c => negb (isWhiteSpace c)) s).
Proof.
  destruct (existsb (fun c => negb (isWhiteSpace c)) s) eqn:E; simpl.
  - apply existsb_exists in E as (c & Hin & Hc).
    apply negb_true_iff in Hc.
    pose proof (In_trim c s Hin Hc) as H.
    destruct (trim s); [contradiction | reflexivity].
  - assert (Hall : forallb isWhiteSpace s = true).
    { apply forallb_forall. intros c Hin.
      destruct (isWhiteSpace c) eqn:Hc; [reflexivity|].
      assert (existsb (fun c => negb (isWhiteSpace c)) s = true);
        [|congruence].
      apply existsb_exists. exists c. now rewrite Hc. }
    apply trimStart_nil_iff in Hall.
    unfold trim. now rewrite Hall.
Qed.

Lemma trimStart_blank_suffix (s : jsstring) :
  exists w, s = w ++ trimStart s /\ forallb isWhiteSpace w = true.
Proof.
  induction s as [|c s (w & Hw & Hall)]; simpl.
  - now exists [].
  - destruct (isWhiteSpace c) eqn:E.
    + exists (c :: w). simpl. rewrite E, Hall. split; [now f_equal | reflexivity].
    + now exists [].
Qed.

Lemma trimEnd_blank_suffix (s : jsstring) :
  exists w, s = trimEnd s ++ w /\ blank_ahead w.
Proof.
  destruct (trimStart_blank_suffix (rev s)) as (w & Hw & Hall).
  exists (rev w). split.
  - unfold trimEnd. rewrite <- rev_app_distr, <- Hw.
    now rewrite rev_involutive.
  - destruct (rev w) as [|c r] eqn:E; simpl; [exact I|].
    rewrite forallb_forall in Hall. apply Hall.
    apply in_rev. rewrite E. now left.
Qed.

Lemma trimStart_trimEnd (s : jsstring) :
  trimStart (trimEnd (trimStart s)) = trimEnd (trimStart s).
Proof.
  destruct (trimEnd_prefix (trimStart s)) as [w Hw].
  destruct (trimEnd (trimStart s)) as [|c r] eqn:E; [reflexivity|].
  destruct (trimStart_nil_or_head s) as [H | (c' & r' & H & Hc)];
    rewrite H in Hw; [discriminate|].
  inversion Hw; subst c'. now apply trimStart_head.
Qed.

(** ** [parseFloat] reads a prefix *)

Lemma take_sign_app (x w : jsstring) :
  blank_ahead w ->
  take_sign (x ++ w) = (fst (take_sign x), snd (take_sign x) ++ w).
Proof.
  intros Hw. destruct x as [|c r].
  - destruct w as [|d w']; [reflexivity|]. simpl in Hw.
    unfold take_sign. cbn [app fst snd].
    rewrite (whitespace_is_not d (ch "-") Hw eq_refl).
    rewrite (whitespace_is_not d (ch "+") Hw eq_refl). reflexivity.
  - unfold take_sign. cbn [app].
    destruct (c =? ch "-")%N; [reflexivity|].
    destruct (c =? ch "+")%N; reflexivity.
Qed.

Lemma starts_with_app (p x w : jsstring) :
  blank_ahead w ->
  forallb (fun c => negb (isWhiteSpace c)) p = true ->
  starts_with p (x ++ w) = starts_with p x.
Proof.
  intros Hw Hp. revert x.
  induction p as [|a p IH]; intros x; [reflexivity|].
  simpl in Hp. apply andb_true_iff in Hp as [Ha Hp].
  apply negb_true_iff in Ha.
  destruct x as [|c r]; simpl.
  - destruct w as [|d w']; [reflexivity|]. simpl in Hw.
    assert (E : (a =? d)%N = false).
    { apply N.eqb_neq. intros ->. congruence. }
    now rewrite E.
  - now rewrite IH.
Qed.

Lemma span_digits_blank (x w : jsstring) :
  blank_ahead w ->
  span_digits (x ++ w) = (fst (span_digits x), snd (span_digits x) ++ w).
Proof.
  intros Hw. induction x as [|c r IH]; cbn [span_digits app fst snd].
  - destruct w as [|d w']; [reflexivity|]. simpl in Hw.
    cbn [span_digits]. now rewrite (whitespace_is_no_digit d Hw).
  - destruct (isDigit c); [|reflexivity].
    rewrite IH. destruct (span_digits r). reflexivity.
Qed.

Lemma exponent_part_blank (x w : jsstring) :
  blank_ahead w -> exponent_part (x ++ w) = exponent_part x.
Proof.
  intros Hw. destruct x as [|c r].
  - destruct w as [|d w']; [reflexivity|]. simpl in Hw.
    unfold exponent_part. cbn [app].
    rewrite (whitespace_is_not d (ch "e") Hw eq_refl).
    rewrite (whitespace_is_not d (ch "E") Hw eq_refl). reflexivity.
  - unfold exponent_part. cbn [app].
    destruct ((c =? ch "e")%N || (c =? ch "E")%N); [|reflexivity].
    rewrite (take_sign_app r w Hw).
    destruct (take_sign r) as [neg r1]. cbn [fst snd].
    rewrite (span_digits_blank r1 w Hw). reflexivity.
Qed.

(** The scan of [parseFloat] after the leading white space. *)
Lemma scan_blank (x w : jsstring) :
  blank_ahead w ->
  (let '(neg, s1) := take_sign (x ++ w) in
   if starts_with (js "Infinity") s1 then Infinity neg
   else
     let '(ip, s2) := span_digits s1 in
     let '(fp, s3) :=
       match s2 with
       | c :: r => if (c =? ch ".")%N then span_digits r else ([], s2)
       | [] => ([], s2)
       end in
     match ip ++ fp with
     | [] => NaN
     | ds =>
         of_decimal neg (digits_value ds)
                    (exponent_part s3 - Z.of_nat (List.length fp))
     end)
  = (let '(neg, s1) := take_sign x in
     if starts_with (js "Infinity") s1 then Infinity neg
     else
       let '(ip, s2) := span_digits s1 in
       let '(fp, s3) :=
         match s2 with
         | c :: r => if (c =? ch ".")%N then span_digits r else ([], s2)
         | [] => ([], s2)
         end in
       match ip ++ fp with
       | [] => NaN
       | ds =>
           of_decimal neg (digits_value ds)
                      (exponent_part s3 - Z.of_nat (List.length fp))
       end).
Proof.
  intros Hw. rewrite (take_sign_app x w Hw).
  destruct (take_sign x) as [neg s1]. cbn [fst snd].
  rewrite (starts_with_app (js "Infinity") s1 w Hw eq_refl).
  destruct (starts_with (js "Infinity") s1); [reflexivity|].
  rewrite (span_digits_blank s1 w Hw).
  destruct (span_digits s1) as [ip s2]. cbn [fst snd].
  destruct s2 as [|c r].
  - destruct w as [|d w']; [reflexivity|]. simpl in Hw.
    cbn [app]. rewrite (whitespace_is_not d (ch ".") Hw eq_refl).
    pose proof (exponent_part_blank [] (d :: w') Hw) as He.
    cbn [app] in He. rewrite He. reflexivity.
  - cbn [app]. destruct (c =? ch ".")%N.
    + rewrite (span_digits_blank r w Hw).
      destruct (span_digits r) as [fp s3]. cbn [fst snd].
      now rewrite (exponent_part_blank s3 w Hw).
    + change (c :: r ++ w) with ((c :: r) ++ w).
      now rewrite (exponent_part_blank (c :: r) w Hw).
Qed.

(** [parseFloat] skips leading white space itself and stops at the first
    character that does not continue the literal, so it reads the same
    from a string and from its trimmed form. *)
Lemma parseFloat_trim (s : jsstring) : parseFloat (trim s) = parseFloat s.
Proof.
  unfold parseFloat, trim. rewrite trimStart_trimEnd.
  destruct (trimEnd_blank_suffix (trimStart s)) as (w & Hw & Hblank).
  rewrite Hw at 2. symmetry. apply (scan_blank _ w Hblank).
Qed.

Lemma span_digits_app (ds rest : jsstring) :
  forallb isDigit ds = true ->
  match rest with [] => true | c :: _ => negb (isDigit c) end = true ->
  span_digits (ds ++ rest) = (ds, rest).
Proof.
  intros Hd Hr. induction ds as [|d ds IH]; simpl.
  - destruct rest as [|c r]; [reflexivity|].
    simpl. apply negb_true_iff in Hr. now rewrite Hr.
  - simpl in Hd. apply andb_true_iff in Hd as [Hd1 Hd2].
    now rewrite Hd1, IH.
Qed.

Lemma parseFloat_digits_prefix (ds rest : jsstring) :
  ds <> [] -> forallb isDigit ds = true ->
  Step1Rules.literal_continues rest = false ->
  parseFloat (ds ++ rest) = of_decimal false (digits_value ds) 0.
Proof.
  intros Hne Hd Hr.
  destruct ds as [|d ds]; [contradiction|].
  pose proof Hd as Hd'. simpl in Hd'.
  apply andb_true_iff in Hd' as [Hd1 Hd2].
  pose proof (isDigit_not_whitespace _ Hd1) as Hws.
  assert (Hrest : match rest with [] => true | c :: _ => negb (isDigit c) end
                  = true).
  { destruct rest as [|c r]; [reflexivity|]. unfold Step1Rules.literal_continues in Hr.
    apply orb_false_iff in Hr as [Hr _].
    apply orb_false_iff in Hr as [Hr _].
    apply orb_false_iff in Hr as [Hr _]. now rewrite Hr. }
  unfold parseFloat.
  change ((d :: ds) ++ rest) with (d :: (ds ++ rest)).
  rewrite (trimStart_head _ _ Hws).
  assert (Hsign : take_sign (d :: ds ++ rest) = (false, d :: ds ++ rest)).
  { unfold take_sign, isDigit in *.
    apply andb_true_iff in Hd1 as [Ha Hb].
    apply N.leb_le in Ha. apply N.leb_le in Hb.
    replace (d =? ch "-")%N with false
      by (symmetry; apply N.eqb_neq; vm_compute ch; lia).
    replace (d =? ch "+")%N with false
      by (symmetry; apply N.eqb_neq; vm_compute ch; lia).
    reflexivity. }
  rewrite Hsign.
  assert (Hinf : starts_with (js "Infinity") (d :: ds ++ rest) = false).
  { unfold isDigit in Hd1.
    apply andb_true_iff in Hd1 as [Ha Hb].
    apply N.leb_le in Ha. apply N.leb_le in Hb.
    change (js "Infinity") with (73%N :: js "nfinity").
    cbn [starts_with].
    replace (73 =? d)%N with false by (symmetry; apply N.eqb_neq; lia).
    reflexivity. }
  rewrite Hinf.
  change (d :: ds ++ rest) with ((d :: ds) ++ rest).
  rewrite (span_digits_app _ _ Hd Hrest).
  assert (Hpoint :
    match rest with
    | c :: r => if (c =? ch ".")%N then span_digits r else ([], rest)
    | [] => ([], rest)
    end = ([] : jsstring, rest)).
  { destruct rest as [|c r]; [reflexivity|]. unfold Step1Rules.literal_continues in Hr.
    apply orb_false_iff in Hr as [Hr _].
    apply orb_false_iff in Hr as [Hr _].
    apply orb_false_iff in Hr as [_ Hr]. now rewrite Hr. }
  rewrite Hpoint.
  assert (Hexp : exponent_part rest = 0%Z).
  { destruct rest as [|c r]; [reflexivity|]. unfold Step1Rules.literal_continues in Hr.
    apply orb_false_iff in Hr as [Hr HE].
    apply orb_false_iff in Hr as [_ He].
    unfold exponent_part. now rewrite He, HE. }
  rewrite Hexp, app_nil_r. reflexivity.
Qed.

Lemma positive_finite_not_empty (s : jsstring) :
  Step1Rules.positive_finite (parseFloat s) = true -> is_empty s = false.
Proof. destruct s; [discriminate | reflexivity]. Qed.

Lemma not_positive_finite (x : number) :
  negb (isFinite x) || le_zero x = negb (Step1Rules.positive_finite x).
Proof. destruct x as [|[]|[]|[] m e]; reflexivity. Qed.

(** ** Splitting a name into tokens *)

Lemma is_empty_rev (s : jsstring) : is_empty (rev s) = is_empty s.
Proof.
  destruct s as [|c s]; [reflexivity|]. simpl.
  destruct (rev s); reflexivity.
Qed.

Lemma filter_split_tokens (s cur : jsstring) (in_sep : bool) :
  (in_sep = true -> cur = []) ->
  filter_Boolean (split_ws_aux cur in_sep s) = Step1Rules.tokens_aux cur s.
Proof.
  revert cur in_sep.
  induction s as [|c s IH]; intros cur in_sep Hsep; simpl.
  - rewrite is_empty_rev. destruct cur; reflexivity.
  - destruct (isWhiteSpace c) eqn:Ews.
    + destruct in_sep.
      * rewrite (Hsep eq_refl). now apply IH.
      * simpl. rewrite is_empty_rev.
        destruct cur; simpl; rewrite (IH [] true); auto.
    + apply IH. discriminate.
Qed.

Lemma operatorParts_tokens (s : jsstring) :
  filter_Boolean (split_ws s) = Step1Rules.tokens s.
Proof. apply filter_split_tokens. discriminate. Qed.

Lemma tokens_aux_blank (cur w : jsstring) :
  forallb isWhiteSpace w = true ->
  Step1Rules.tokens_aux cur w = Step1Rules.tokens_aux cur [].
Proof.
  revert cur. induction w as [|c w IH]; intros cur H; [reflexivity|].
  simpl in H. apply andb_true_iff in H as [Hc Hw].
  simpl. rewrite Hc. destruct cur as [|x cur].
  - now rewrite IH.
  - now rewrite IH.
Qed.

Lemma tokens_aux_app_blank (cur u w : jsstring) :
  forallb isWhiteSpace w = true ->
  Step1Rules.tokens_aux cur (u ++ w) = Step1Rules.tokens_aux cur u.
Proof.
  intros Hw. revert cur.
  induction u as [|c u IH]; intros cur.
  - now apply tokens_aux_blank.
  - simpl. destruct (isWhiteSpace c).
    + destruct cur; now rewrite IH.
    + apply IH.
Qed.

Lemma tokens_trimStart (s : jsstring) :
  Step1Rules.tokens (trimStart s) = Step1Rules.tokens s.
Proof.
  unfold Step1Rules.tokens.
  induction s as [|c s IH]; [reflexivity|]. simpl.
  destruct (isWhiteSpace c) eqn:E; [exact IH|].
  simpl. now rewrite E.
Qed.

Lemma tokens_trimEnd (s : jsstring) :
  Step1Rules.tokens (trimEnd s) = Step1Rules.tokens s.
Proof.
  destruct (trimStart_blank_suffix (rev s)) as (w & Hw & Hall).
  assert (Hs : s = trimEnd s ++ rev w).
  { unfold trimEnd. rewrite <- rev_app_distr, <- Hw.
    now rewrite rev_involutive. }
  rewrite Hs at 2. unfold Step1Rules.tokens.
  symmetry. apply tokens_aux_app_blank.
  rewrite forallb_forall in *. intros c Hin. apply Hall. now apply in_rev.
Qed.

(** The tokens of a name are those of its trimmed form. *)
Lemma tokens_trim (s : jsstring) :
  Step1Rules.tokens (trim s) = Step1Rules.tokens s.
Proof. unfold trim. now rewrite tokens_trimEnd, tokens_trimStart. Qed.

(** ** Reading a record that was just assembled *)

Lemma assoc_set_prop_same k v l : assoc k (set_prop k v l) = Some v.
Proof.
  induction l as [|[k' v'] l IH]; simpl.
  - now rewrite str_eqb_refl.
  - destruct (str_eqb k' k) eqn:E; simpl.
    + now rewrite str_eqb_refl.
    + now rewrite E.
Qed.

Lemma assoc_set_prop_other k k' v l :
  str_eqb k' k = false -> assoc k (set_prop k' v l) = assoc k l.
Proof.
  intros Hne.
  induction l as [|[k0 v0] l IH]; simpl.
  - now rewrite Hne.
  - destruct (str_eqb k0 k') eqn:E; simpl.
    + apply str_eqb_eq in E. subst k0. now rewrite Hne.
    + now rewrite IH.
Qed.

Lemma assoc_app k l1 l2 :
  assoc k (l1 ++ l2) =
  match assoc k l1 with Some x => Some x | None => assoc k l2 end.
Proof.
  induction l1 as [|[k' v'] l1 IH]; simpl; [reflexivity|].
  destruct (str_eqb k' k); [reflexivity | exact IH].
Qed.

(** A key defined several times in a literal keeps its last value. *)
Lemma assoc_set_props k fields l :
  assoc k (set_props fields l) =
  match assoc k (rev fields) with Some x => Some x | None => assoc k l end.
Proof.
  revert l. unfold set_props.
  induction fields as [|[k' v'] fields IH]; intros l; simpl; [reflexivity|].
  rewrite IH, assoc_app. destruct (assoc k (rev fields)); [reflexivity|].
  simpl. destruct (str_eqb k' k) eqn:E.
  - apply str_eqb_eq in E. subst. apply assoc_set_prop_same.
  - now apply assoc_set_prop_other.
Qed.

Lemma assoc_None_not_in k l :
  ~ In k (map fst l) -> assoc k l = None.
Proof.
  induction l as [|[k' v'] l IH]; simpl; intros H; [reflexivity|].
  destruct (str_eqb k' k) eqn:E.
  - apply str_eqb_eq in E. tauto.
  - apply IH. tauto.
Qed.

Lemma assoc_rev k l : NoDup (map fst l) -> assoc k (rev l) = assoc k l.
Proof.
  induction l as [|[k' v'] l IH]; simpl; intros H; [reflexivity|].
  inversion H as [|? ? Hnotin Hnd]; subst.
  rewrite assoc_app, IH by assumption. simpl.
  destruct (str_eqb k' k) eqn:E.
  - apply str_eqb_eq in E. subst. now rewrite assoc_None_not_in.
  - now destruct (assoc k l).
Qed.

Lemma get_spread_with stored fields k :
  NoDup (map fst fields) ->
  get (spread_with stored fields) k =
  match assoc k fields with
  | Some x => Some x
  | None => assoc k (own_props stored)
  end.
Proof.
  intros H. unfold spread_with, get.
  now rewrite assoc_set_props, assoc_rev.
Qed.

Lemma NoDup_by_eqb (l : list jsstring) :
  (fix distinct (l : list jsstring) : bool :=
     match l with
     | [] => true
     | x :: r => negb (existsb (str_eqb x) r) && distinct r
     end) l = true -> NoDup l.
Proof.
  induction l as [|x l IH]; intros H; constructor.
  - apply andb_true_iff in H as [H _]. intros Hin.
    apply negb_true_iff in H.
    assert (existsb (str_eqb x) l = true); [|congruence].
    apply existsb_exists. exists x. split; [assumption | apply str_eqb_refl].
  - apply IH. now apply andb_true_iff in H as [_ H].
Qed.

Lemma set_prop_keys k v (l : list (jsstring * json)) (a : jsstring) :
  In a (map fst (set_prop k v l)) -> a = k \/ In a (map fst l).
Proof.
  induction l as [|[k' v'] l IH]; simpl.
  - intros [H | []]. now left.
  - destruct (str_eqb k' k) eqn:E; simpl.
    + apply str_eqb_eq in E. subst k'. tauto.
    + intros [H | H]; [tauto|]. apply IH in H. tauto.
Qed.

Lemma set_prop_NoDup k v (l : list (jsstring * json)) :
  NoDup (map fst l) -> NoDup (map fst (set_prop k v l)).
Proof.
  induction l as [|[k' v'] l IH]; simpl; intros H.
  - constructor; [tauto | constructor].
  - inversion H as [|? ? Hnotin Hnd]; subst.
    destruct (str_eqb k' k) eqn:E; simpl.
    + apply str_eqb_eq in E. subst k'. now constructor.
    + constructor; [|now apply IH].
      intros Hin. apply set_prop_keys in Hin as [Hin | Hin]; [|tauto].
      subst k'. now rewrite str_eqb_refl in E.
Qed.

Lemma set_prop_Forall (P : json -> Prop) k v (l : list (jsstring * json)) :
  P v -> Forall (fun kv => P (snd kv)) l ->
  Forall (fun kv => P (snd kv)) (set_prop k v l).
Proof.
  intros Hv. induction l as [|[k' v'] l IH]; simpl; intros H.
  - now constructor.
  - inversion H; subst.
    destruct (str_eqb k' k); constructor; auto.
Qed.

Lemma set_prop_fresh k v (acc : list (jsstring * json)) :
  ~ In k (map fst acc) -> set_prop k v acc = acc ++ [(k, v)].
Proof.
  induction acc as [|[k' v'] acc IH]; simpl; intros H; [reflexivity|].
  destruct (str_eqb k' k) eqn:E.
  - apply str_eqb_eq in E. tauto.
  - rewrite IH; tauto.
Qed.

(** ** Step 1: the validator *)

Lemma tag_known_cases (tag : jsstring) :
  Step1Rules.tag_known tag =
  str_eqb tag (js "box") || str_eqb tag (js "bulk")
  || str_eqb tag (js "purchased").
Proof.
  unfold Step1Rules.tag_known, Step1Rules.known_tags. simpl existsb.
  now rewrite orb_false_r, orb_assoc.
Qed.

Lemma tag_known_not_empty (tag : jsstring) :
  Step1Rules.tag_known tag = true -> is_empty tag = false.
Proof. destruct tag; [discriminate | reflexivity]. Qed.

Lemma submit_first_failure (stored : json) (tag : jsstring)
  (v : FormPage.form_values) :
  FormPage.submit stored tag v =
  match Step1Rules.first_failure Step1Rules.rules tag v with
  | Some (message, focus) => Rejected message focus
  | None =>
      Stored (spread_with stored (Step1Rules.accepted_fields tag v))
             (js "destination.html")
  end.
Proof.
  unfold FormPage.submit, Step1Rules.rules, Step1Rules.first_failure,
    Step1Rules.rule_chip_type, Step1Rules.accepted_fields.
  rewrite !normalizeText_trim, operatorParts_tokens, not_positive_finite.
  destruct (Step1Rules.tag_known tag) eqn:Hk.
  2:{ rewrite tag_known_cases in Hk.
      apply orb_false_iff in Hk as [Hk Hp].
      apply orb_false_iff in Hk as [Hb Hu].
      destruct (is_empty tag); [reflexivity|].
      unfold FormPage.variant_value. now rewrite Hb, Hu, Hp. }
  rewrite (tag_known_not_empty _ Hk).
  rewrite tag_known_cases in Hk.
  unfold FormPage.variant_value, Step1Rules.rule_variant,
    Step1Rules.variant_of, Step1Rules.rule_product,
    Step1Rules.rule_net_weight, Step1Rules.rule_operator, test_alnum_only.
  assert (Hlen : forall l : list jsstring,
             (List.length l <? 2)%nat = negb (2 <=? List.length l)%nat).
  { intros l. destruct (Nat.ltb_spec (List.length l) 2);
      destruct (Nat.leb_spec 2 (List.length l)); simpl; auto; lia. }
  rewrite Hlen.
  destruct (str_eqb tag (js "box")) eqn:Hb;
    [|destruct (str_eqb tag (js "bulk")) eqn:Hu;
      [|destruct (str_eqb tag (js "purchased")) eqn:Hp;
        [|discriminate Hk]]].
  - destruct (is_empty (trim (FormPage.chipBoxInput_value v))); simpl;
      [reflexivity|].
    destruct (forallb isAlnum (trim (FormPage.chipBoxInput_value v))); simpl;
      [|reflexivity].
    destruct (is_empty (FormPage.productSelect_value v)); [reflexivity|].
    destruct (is_empty (trim (FormPage.netWeightInput_value v)));
      [reflexivity|].
    destruct (Step1Rules.positive_finite _); simpl; [|reflexivity].
    destruct (List.length _) as [|[|?]]; reflexivity.
  - destruct (is_empty (trim (FormPage.chipBulkInput_value v))); simpl;
      [reflexivity|].
    unfold test_has_digit.
    destruct (existsb isDigit (trim (FormPage.chipBulkInput_value v))); simpl;
      [reflexivity|].
    destruct (is_empty (FormPage.productSelect_value v)); [reflexivity|].
    destruct (is_empty (trim (FormPage.netWeightInput_value v)));
      [reflexivity|].
    destruct (Step1Rules.positive_finite _); simpl; [|reflexivity].
    destruct (List.length _) as [|[|?]]; reflexivity.
  - destruct (is_empty (FormPage.chipPurchasedSelect_value v)); simpl;
      [reflexivity|].
    destruct (is_empty (FormPage.productSelect_value v)); [reflexivity|].
    destruct (is_empty (trim (FormPage.netWeightInput_value v)));
      [reflexivity|].
    destruct (Step1Rules.positive_finite _); simpl; [|reflexivity].
    destruct (List.length _) as [|[|?]]; reflexivity.
Qed.

Lemma accepted_fields_distinct tag v :
  NoDup (map fst (Step1Rules.accepted_fields tag v)).
Proof. apply NoDup_by_eqb. vm_compute. reflexivity. Qed.

Lemma on_submit_first_failure
  (pg : FormPage.page) (v : FormPage.form_values) (ls : storage) :
  FormPage.on_submit pg v ls =
  match Step1Rules.first_failure Step1Rules.rules
          (FormPage.getSelectedChipType (FormPage.chipTypeButtons pg)) v with
  | Some f => (Step1Rules.rejected_page pg f, ls, None)
  | None =>
      (Step1Rules.accepted_page pg,
       setStoredData
         (spread_with (FormPage.stored pg)
            (Step1Rules.accepted_fields
               (FormPage.getSelectedChipType (FormPage.chipTypeButtons pg)) v)),
       Some (js "destination.html"))
  end.
Proof.
  unfold FormPage.on_submit. rewrite submit_first_failure.
  destruct (Step1Rules.first_failure _ _ _) as [[m f]|]; reflexivity.
Qed.

(** C1. The submit handler of step 1 checks the five rules in their fixed
    order and stops at the first that fails: what it leaves is the page
    with that one message and focus, the store untouched and no
    navigation.  When no rule fails it writes the record, in which every
    field submitted reads back trimmed, [boxNumber] holds the value of the
    selected variant and every other property is the one stored before,
    and sends the browser to the destination page. *)
Theorem step1_rules_checked_in_order :
  forall (pg : FormPage.page) (v : FormPage.form_values) (ls : storage),
    let tag := FormPage.getSelectedChipType (FormPage.chipTypeButtons pg) in
    let record :=
      spread_with (FormPage.stored pg) (Step1Rules.accepted_fields tag v) in
    FormPage.on_submit pg v ls =
      match Step1Rules.first_failure Step1Rules.rules tag v with
      | Some f => (Step1Rules.rejected_page pg f, ls, None)
      | None => (Step1Rules.accepted_page pg, setStoredData record,
                 Some (js "destination.html"))
      end
    /\ forall k,
        get record k =
        match assoc k (Step1Rules.accepted_fields tag v) with
        | Some x => Some x
        | None => assoc k (own_props (FormPage.stored pg))
        end.
Proof.
  intros pg v ls tag record. split.
  - apply on_submit_first_failure.
  - intros k. apply get_spread_with, accepted_fields_distinct.
Qed.

Example scenario_A :
  FormPage.submit (JObj []) (js "box")
    (Step1Rules.scenario (js "A1B2") (js "12.5"))
  = Stored
      (JObj [(js "chipType", JStr (js "box"));
             (js "chipBoxNumber", JStr (js "A1B2"));
             (js "chipBulkSilo", JStr []);
             (js "chipPurchased", JStr []);
             (js "boxNumber", JStr (js "A1B2"));
             (js "product", JStr (js "Resin-X"));
             (js "netWeight", JStr (js "12.5"));
             (js "operatorName", JStr (js "Jane Doe"))])
      (js "destination.html").
Proof. vm_compute. reflexivity. Qed.

(** ** Step 1: malformed submissions *)

Lemma has_digit_trim (s : jsstring) :
  existsb isDigit s = true -> existsb isDigit (trim s) = true.
Proof.
  intros H. apply existsb_exists in H as (c & Hin & Hc).
  apply existsb_exists. exists c. split; [|assumption].
  apply In_trim; [assumption | now apply isDigit_not_whitespace].
Qed.

Lemma has_non_alnum_forallb (s : jsstring) :
  Malformed.has_non_alnum s = true -> forallb isAlnum s = false.
Proof.
  unfold Malformed.has_non_alnum.
  induction s as [|c s IH]; simpl; [discriminate|].
  destruct (isAlnum c); simpl; [exact IH | reflexivity].
Qed.

Lemma failures_from_table tag v f :
  Step1Rules.first_failure Step1Rules.rules tag v = Some f ->
  In f Malformed.field_messages.
Proof.
  unfold Step1Rules.rules, Step1Rules.first_failure,
    Step1Rules.rule_chip_type, Step1Rules.rule_variant,
    Step1Rules.rule_product, Step1Rules.rule_net_weight,
    Step1Rules.rule_operator, Malformed.field_messages.
  repeat match goal with
         | |- context [if ?b then _ else _] => destruct b
         end;
    intros H; inversion H; subst; simpl; tauto.
Qed.

Lemma malformed_fails tag v :
  Malformed.malformed tag v = true ->
  Step1Rules.first_failure Step1Rules.rules tag v <> None.
Proof.
  unfold Malformed.malformed, Malformed.weight_or_name_malformed.
  unfold Step1Rules.rules, Step1Rules.first_failure,
    Step1Rules.rule_chip_type, Step1Rules.rule_variant,
    Step1Rules.variant_of, Step1Rules.rule_product,
    Step1Rules.rule_net_weight, Step1Rules.rule_operator.
  rewrite <- parseFloat_trim.
  intros H.
  apply orb_true_iff in H as [H|H];
    [apply orb_true_iff in H as [H|H];
     [apply orb_true_iff in H as [H|H]|]|].
  - apply negb_true_iff in H. rewrite H. discriminate.
  - apply andb_true_iff in H as [Hb Hna].
    rewrite Hb, (has_non_alnum_forallb _ Hna).
    repeat match goal with
           | |- context [if ?b then _ else _] => destruct b
           end; discriminate.
  - apply andb_true_iff in H as [Hu Hd].
    apply str_eqb_eq in Hu. subst tag.
    change (str_eqb (js "bulk") (js "box")) with false.
    change (str_eqb (js "bulk") (js "bulk")) with true.
    cbv iota. rewrite (has_digit_trim _ Hd).
    repeat match goal with
           | |- context [if ?b then _ else _] => destruct b
           end; discriminate.
  - repeat match goal with
           | |- context [if ?b then _ else _] => destruct b eqn:?
           end; try discriminate;
      exfalso;
      match goal with
      | Hl : (2 <=? _)%nat = true |- _ =>
          simpl in H;
          apply Nat.ltb_lt in H; apply Nat.leb_le in Hl; lia
      end.
Qed.

(** C2, as stated, fails: with the chip type [box] and the box value
    [" A1B2 "], which contains blanks, the submission is accepted, the
    record is written and the browser is sent to the destination page. *)
Lemma padded_box_value_is_accepted :
  Malformed.malformed_as_stated (js "box") Malformed.padded_box = true
  /\ FormPage.on_submit Malformed.box_selected Malformed.padded_box None
     = (Step1Rules.accepted_page Malformed.box_selected,
        setStoredData
          (JObj [(js "chipType", JStr (js "box"));
                 (js "chipBoxNumber", JStr (js "A1B2"));
                 (js "chipBulkSilo", JStr []);
                 (js "chipPurchased", JStr []);
                 (js "boxNumber", JStr (js "A1B2"));
                 (js "product", JStr (js "Resin-X"));
                 (js "netWeight", JStr (js "12.5"));
                 (js "operatorName", JStr (js "Jane Doe"))]),
        Some (js "destination.html")).
Proof. split; vm_compute; reflexivity. Qed.

(** C2, amended.  A submission is malformed when the chip-type tag is not
    one of box, bulk, purchased; or the type is box and the box value,
    once trimmed, contains a character that is not alphanumeric; or the
    type is bulk and the bulk/silo value contains a digit; or the net
    weight does not parse to a finite number greater than zero; or the
    operator name has fewer than two tokens.  Every malformed submission
    is rejected with one of the messages of the form, shown with the focus
    on its control; the store is left as it was and the browser is sent
    nowhere.  An unknown tag gets the select-chip-type message. *)
Theorem malformed_submission_rejected :
  forall (pg : FormPage.page) (v : FormPage.form_values) (ls : storage),
    let tag := FormPage.getSelectedChipType (FormPage.chipTypeButtons pg) in
    Malformed.malformed tag v = true ->
    exists f,
      In f Malformed.field_messages
      /\ FormPage.submit (FormPage.stored pg) tag v = Rejected (fst f) (snd f)
      /\ FormPage.on_submit pg v ls = (Step1Rules.rejected_page pg f, ls, None)
      /\ (Step1Rules.tag_known tag = false ->
          f = (js "Please select what type of chip this is.",
               Some FirstChipTypeButton)).
Proof.
  intros pg v ls tag Hm.
  destruct (Step1Rules.first_failure Step1Rules.rules tag v) as [f|] eqn:Hf.
  2:{ exfalso. now apply (malformed_fails tag v). }
  exists f. split; [now apply (failures_from_table tag v)|].
  split; [|split].
  - rewrite submit_first_failure, Hf. now destruct f.
  - rewrite on_submit_first_failure. fold tag. now rewrite Hf.
  - intros Hk. unfold Step1Rules.rules, Step1Rules.first_failure,
      Step1Rules.rule_chip_type in Hf.
    rewrite Hk in Hf. congruence.
Qed.

Lemma malformed_submission_rejected_witness :
  exists f,
    In f Malformed.field_messages
    /\ FormPage.submit (JObj []) (js "box")
         (Step1Rules.scenario (js "A1B2") (js "-3"))
       = Rejected (fst f) (snd f).
Proof.
  destruct (malformed_submission_rejected Malformed.box_selected
              (Step1Rules.scenario (js "A1B2") (js "-3"))
              None eq_refl) as (f & Hin & Hsub & _).
  exists f. split; [exact Hin | exact Hsub].
Defined.

(** ** Step 1: the net weight *)

Lemma other_rules_pass tag v :
  Step1Rules.first_failure Step1Rules.other_rules tag v = None ->
  Step1Rules.positive_finite
    (parseFloat (trim (FormPage.netWeightInput_value v))) = true ->
  Step1Rules.first_failure Step1Rules.rules tag v = None.
Proof.
  intros Ho Hp.
  unfold Step1Rules.other_rules, Step1Rules.rules, Step1Rules.first_failure
    in *.
  destruct (Step1Rules.rule_chip_type tag v); [discriminate|].
  destruct (Step1Rules.rule_variant tag v); [discriminate|].
  destruct (Step1Rules.rule_product tag v); [discriminate|].
  unfold Step1Rules.rule_net_weight.
  rewrite (positive_finite_not_empty _ Hp), Hp.
  exact Ho.
Qed.

Lemma box_form_accepts stored v :
  BoxFormPage.others_pass v = true ->
  Step1Rules.positive_finite
    (parseFloat (trim (BoxFormPage.netWeightInput_value v))) = true ->
  BoxFormPage.submit stored v =
  Stored (spread_with stored (BoxFormPage.accepted_fields v))
         (js "destination.html").
Proof.
  unfold BoxFormPage.others_pass, BoxFormPage.submit,
    BoxFormPage.accepted_fields, test_alnum_only.
  intros Ho Hp. rewrite !normalizeText_trim, not_positive_finite.
  apply andb_true_iff in Ho as [Ho Hop].
  apply andb_true_iff in Ho as [Ho Hprod].
  apply andb_true_iff in Ho as [Hbox Haln].
  apply negb_true_iff in Hbox. apply negb_true_iff in Hprod.
  rewrite Hbox, Haln, Hprod, (positive_finite_not_empty _ Hp), Hp.
  apply Nat.leb_le in Hop.
  destruct (Nat.ltb_spec
    (List.length (filter_Boolean
       (split_ws (trim (BoxFormPage.operatorInput_value v))))) 2);
    [lia | reflexivity].
Qed.

(** C10. The net weight is checked with [Number.parseFloat] on the
    trimmed string, which reads what it reads on the string itself.
    Whenever a string parses to a finite number greater than zero and the
    other fields pass, both versions of the form accept the submission
    and store the trimmed string itself as [netWeight].  A run of digits
    followed by anything that does not continue the literal parses to the
    value of the digits, so trailing characters do not matter: ["12abc"]
    parses as ["12"] and ["3.5kg"] as ["3.5"]. *)
Theorem net_weight_numeric_prefix_accepted :
  (forall nw : jsstring,
      parseFloat (trim nw) = parseFloat nw
      /\ (Step1Rules.positive_finite (parseFloat nw) = true ->
          (forall stored tag v,
              FormPage.netWeightInput_value v = nw ->
              Step1Rules.first_failure Step1Rules.other_rules tag v = None ->
              FormPage.submit stored tag v =
                Stored (spread_with stored (Step1Rules.accepted_fields tag v))
                       (js "destination.html")
              /\ get (spread_with stored (Step1Rules.accepted_fields tag v))
                     (js "netWeight") = Some (JStr (trim nw)))
          /\ (forall stored v,
                 BoxFormPage.netWeightInput_value v = nw ->
                 BoxFormPage.others_pass v = true ->
                 BoxFormPage.submit stored v =
                   Stored (spread_with stored (BoxFormPage.accepted_fields v))
                          (js "destination.html")
                 /\ get (spread_with stored (BoxFormPage.accepted_fields v))
                        (js "netWeight") = Some (JStr (trim nw)))))
  /\ (forall ds rest : jsstring,
         ds <> [] -> forallb isDigit ds = true ->
         Step1Rules.literal_continues rest = false ->
         parseFloat (ds ++ rest) = of_decimal false (digits_value ds) 0)
  /\ parseFloat (js "12abc") = parseFloat (js "12")
  /\ parseFloat (js "3.5kg") = parseFloat (js "3.5").
Proof.
  split; [|split; [|split; vm_compute; reflexivity]].
  - intros nw. split; [apply parseFloat_trim|].
    intros Hp. rewrite <- parseFloat_trim in Hp. split.
    + intros stored tag v Hv Ho. subst nw. split.
      * rewrite submit_first_failure, (other_rules_pass _ _ Ho Hp).
        reflexivity.
      * rewrite get_spread_with by apply accepted_fields_distinct.
        reflexivity.
    + intros stored v Hv Ho. subst nw. split.
      * now apply box_form_accepts.
      * rewrite get_spread_with
          by (apply NoDup_by_eqb; vm_compute; reflexivity).
        reflexivity.
  - apply parseFloat_digits_prefix.
Qed.

Lemma net_weight_numeric_prefix_accepted_witness :
  FormPage.submit (JObj []) (js "box")
    (Step1Rules.scenario (js "A1B2") (js "12abc"))
  = Stored
      (spread_with (JObj [])
         (Step1Rules.accepted_fields (js "box")
            (Step1Rules.scenario (js "A1B2") (js "12abc"))))
      (js "destination.html")
  /\ parseFloat (js "12" ++ js "abc")
     = of_decimal false (digits_value (js "12")) 0.
Proof.
  split.
  - exact (proj1 (proj1 (proj2 (proj1 net_weight_numeric_prefix_accepted
                                  (js "12abc")) eq_refl)
                        (JObj []) (js "box")
                        (Step1Rules.scenario (js "A1B2") (js "12abc"))
                        eq_refl eq_refl)).
  - apply (proj1 (proj2 net_weight_numeric_prefix_accepted)
             (js "12") (js "abc")); [discriminate | reflexivity | reflexivity].
Defined.

(** ** Loading the wizard state *)

(** C8. Whatever the store holds, [getStoredData] returns a value (the
    function is total: a SyntaxError of [JSON.parse] is caught inside);
    and when the item is missing, or is a string that is not valid JSON,
    or is JSON for a falsy value, what it returns is the empty record. *)
Theorem corrupt_store_loads_empty :
  forall ls : storage,
    (ls = None
     \/ (exists s, ls = Some s /\ JSON_parse s = None)
     \/ (exists s v, ls = Some s /\ JSON_parse s = Some v /\ truthy v = false))
    -> getStoredData ls = JObj [].
Proof.
  intros ls [H | [(s & Hs & Hp) | (s & v & Hs & Hp & Ht)]]; subst ls.
  - vm_compute. reflexivity.
  - unfold getStoredData, getItem, ToString_item. now rewrite Hp.
  - unfold getStoredData, getItem, ToString_item. now rewrite Hp, Ht.
Qed.

Lemma corrupt_store_loads_empty_witness :
  getStoredData None = JObj []
  /\ getStoredData (Some (js "{oops")) = JObj []
  /\ getStoredData (Some (js "0")) = JObj [].
Proof.
  split; [|split].
  - apply corrupt_store_loads_empty. now left.
  - apply corrupt_store_loads_empty. right. left.
    exists (js "{oops"). split; reflexivity.
  - apply corrupt_store_loads_empty. right. right.
    exists (js "0"), (JNum (Zero false)). repeat split; reflexivity.
Defined.

(** ** Entry guards *)

(** C3. A stored record that lacks one of the step-1 fields (the field is
    absent, or holds a falsy value) sends both the destination page and
    the summary page to [index.html], and neither page is rendered.  A
    stored record with the four step-1 fields but no destination sends
    the summary page to [destination.html].  In particular the empty store
    sends both pages to [index.html]. *)
Theorem entry_guards_redirect :
  forall (boxes : list DestinationPage.checkbox) (ls : storage),
    let stored := getStoredData ls in
    ((truthy_opt (get stored (js "boxNumber")) = false
      \/ truthy_opt (get stored (js "product")) = false
      \/ truthy_opt (get stored (js "netWeight")) = false
      \/ truthy_opt (get stored (js "operatorName")) = false) ->
     DestinationPage.initDestinationPage boxes ls = Redirect (js "index.html")
     /\ SummaryPage.initSummaryPage ls = Redirect (js "index.html"))
    /\ (truthy_opt (get stored (js "boxNumber")) = true ->
        truthy_opt (get stored (js "product")) = true ->
        truthy_opt (get stored (js "netWeight")) = true ->
        truthy_opt (get stored (js "operatorName")) = true ->
        truthy_opt (get stored (js "destination")) = false ->
        SummaryPage.initSummaryPage ls = Redirect (js "destination.html"))
    /\ DestinationPage.initDestinationPage boxes None = Redirect (js "index.html")
    /\ SummaryPage.initSummaryPage None = Redirect (js "index.html").
Proof.
  intros boxes ls stored. split; [|split; [|split]].
  - intros H.
    assert (Hm : step1_missing stored = true).
    { unfold step1_missing.
      destruct H as [H | [H | [H | H]]]; rewrite H; simpl;
        repeat (rewrite ?orb_true_r, ?orb_true_l); reflexivity. }
    unfold DestinationPage.initDestinationPage, SummaryPage.initSummaryPage.
    fold stored. now rewrite Hm.
  - intros H1 H2 H3 H4 H5.
    unfold SummaryPage.initSummaryPage. fold stored.
    unfold step1_missing. now rewrite H1, H2, H3, H4, H5.
  - reflexivity.
  - reflexivity.
Qed.

Lemma entry_guards_redirect_witness :
  SummaryPage.initSummaryPage
    (setStoredData
       (JObj [(js "boxNumber", JStr (js "A1B2"));
              (js "product", JStr (js "Resin-X"));
              (js "netWeight", JStr (js "12.5"));
              (js "operatorName", JStr (js "Jane Doe"))]))
  = Redirect (js "destination.html")
  /\ DestinationPage.initDestinationPage []
       (setStoredData (JObj [(js "boxNumber", JStr (js "A1B2"))]))
     = Redirect (js "index.html").
Proof.
  split.
  - apply (proj1 (proj2 (entry_guards_redirect [] _))); reflexivity.
  - apply (proj1 (entry_guards_redirect [] _)). right. left. reflexivity.
Defined.

(** ** The summary page: one request at a time *)

Section RunsOfTheWizard.

Variable chipTypes : list jsstring.

Variable destinations : list DestinationPage.checkbox.

Local Abbreviation step := (Wizard.step chipTypes destinations).

Local Abbreviation navigate := (Wizard.navigate chipTypes destinations).

Local Abbreviation reachable := (Runs.reachable chipTypes destinations).

Lemma fresh_summary_invariant (ls : storage) (pg : SummaryPage.page) :
  SummaryPage.initSummaryPage ls = Rendered pg ->
  Runs.summary_invariant pg.
Proof.
  unfold SummaryPage.initSummaryPage.
  destruct (step1_missing (getStoredData ls)); [discriminate|].
  destruct (negb _); [discriminate|].
  intros H. inversion H. subst pg. clear H.
  unfold Runs.summary_invariant. simpl.
  repeat split; try lia; try discriminate; congruence.
Qed.

Lemma load_invariant (fuel : nat) (href : jsstring) (ls : storage) :
  match Wizard.load chipTypes destinations fuel href ls with
  | Wizard.OnSummary pg => Runs.summary_invariant pg
  | _ => True
  end.
Proof.
  revert href. induction fuel as [|fuel IH]; intros href; simpl; [exact I|].
  destruct (str_eqb href (js "index.html")); [exact I|].
  destruct (str_eqb href (js "destination.html")).
  { destruct (DestinationPage.initDestinationPage destinations ls);
      [apply IH | exact I]. }
  destruct (str_eqb href (js "summary.html")); [|exact I].
  destruct (SummaryPage.initSummaryPage ls) eqn:E; [apply IH|].
  now apply (fresh_summary_invariant ls).
Qed.

Lemma navigate_invariant (href : jsstring) (ls : storage) (now : N) :
  Runs.invariant
    {| Wizard.localStorage := ls; Wizard.clock := now;
       Wizard.current := navigate href ls |}.
Proof. apply load_invariant. Qed.

Lemma click_save_invariant (pg : SummaryPage.page) :
  Runs.summary_invariant pg ->
  Runs.summary_invariant (SummaryPage.click_save pg).
Proof.
  unfold SummaryPage.click_save, Runs.summary_invariant.
  intros (H1 & H2 & H3 & H4).
  destruct (SummaryPage.saveButton_disabled pg) eqn:Hd; simpl.
  - rewrite Hd. auto.
  - assert (Hf : SummaryPage.in_flight pg = 0%nat).
    { destruct (SummaryPage.in_flight pg) as [|[|n]]; [reflexivity| |lia].
      destruct (H2 eq_refl) as [H _]. discriminate. }
    assert (Ht : SummaryPage.redirectTimer pg = None).
    { destruct (SummaryPage.redirectTimer pg) eqn:E; [|reflexivity].
      destruct H3 as [H _]; [discriminate | discriminate]. }
    rewrite Hf, Ht. repeat split; auto; try lia; congruence.
Qed.

Lemma resume_ok_invariant now iso formatted (pg : SummaryPage.page) :
  Runs.summary_invariant pg ->
  SummaryPage.in_flight pg <> 0%nat ->
  Runs.summary_invariant
    (fst (SummaryPage.resume_ok now iso formatted pg)).
Proof.
  unfold Runs.summary_invariant. intros (H1 & H2 & H3 & H4) Hf. simpl.
  assert (Hone : SummaryPage.in_flight pg = 1%nat) by lia.
  destruct (H2 Hone) as [Hd _]. rewrite Hone. simpl.
  repeat split; try lia; try discriminate; auto.
  right. discriminate.
Qed.

Lemma resume_failed_invariant (pg : SummaryPage.page) :
  Runs.summary_invariant pg ->
  SummaryPage.in_flight pg <> 0%nat ->
  Runs.summary_invariant (SummaryPage.resume_failed pg).
Proof.
  unfold Runs.summary_invariant. intros (H1 & H2 & H3 & H4) Hf. simpl.
  assert (Hone : SummaryPage.in_flight pg = 1%nat) by lia.
  destruct (H2 Hone) as [_ Ht]. rewrite Hone, Ht. simpl.
  repeat split; try lia; try discriminate; congruence.
Qed.

Lemma step_invariant (e : Wizard.event) (b : Wizard.browser) :
  Runs.invariant b -> Runs.invariant (step e b).
Proof.
  intros Hb. destruct b as [ls now cur].
  unfold step, Wizard.step. cbn [Wizard.localStorage Wizard.clock Wizard.current].
  destruct e; destruct cur; try exact Hb; try apply navigate_invariant;
    try exact I.
  - (* ClickChipType *)
    destruct (nth_error _ _); [|exact Hb].
    destruct (FormPage.click_chipType _ _ _). exact I.
  - (* SubmitForm *)
    destruct (FormPage.chipTypeButtons pg); [exact Hb|].
    destruct (FormPage.on_submit pg v ls) as [[pg' ls'] [href|]];
      [apply navigate_invariant | exact I].
  - (* SubmitDestination *)
    destruct (DestinationPage.on_submit pg ls) as [[pg' ls'] [href|]];
      [apply navigate_invariant | exact I].
  - (* ClickSave *)
    now apply click_save_invariant.
  - (* ResponseOk *)
    destruct (SummaryPage.in_flight pg) eqn:Hf; [exact Hb|].
    apply (resume_ok_invariant now iso formatted pg Hb). congruence.
  - (* ResponseFailed *)
    destruct (SummaryPage.in_flight pg) eqn:Hf; [exact Hb|].
    apply (resume_failed_invariant pg Hb). congruence.
  - (* Elapse *)
    destruct (SummaryPage.redirectTimer pg) as [due|]; [|exact Hb].
    destruct (due <=? now + ms)%N; [apply navigate_invariant | exact Hb].
Qed.

Lemma reachable_invariant (b : Wizard.browser) :
  reachable b -> Runs.invariant b.
Proof.
  intros (b0 & es & [href Hfresh] & ->).
  assert (H0 : Runs.invariant b0).
  { destruct b0 as [ls now cur]. simpl in Hfresh. subst cur.
    apply navigate_invariant. }
  clear Hfresh. revert b0 H0.
  induction es as [|e es IH]; intros b0 H0; [exact H0|].
  apply IH. now apply step_invariant.
Qed.

(** C4. In every state the wizard can reach with the summary page open,
    at most one request is in flight.  While one is, and while the
    redirect that follows a successful save is pending, the button is
    disabled and a click on it changes nothing: no request is issued.
    Short of loading a page anew, the only event that turns a disabled
    button into an enabled one is the failed response of the request in
    flight, and that one does so at once. *)
Theorem one_request_at_a_time :
  forall (b : Wizard.browser) (pg : SummaryPage.page),
    reachable b ->
    Wizard.current b = Wizard.OnSummary pg ->
    (SummaryPage.in_flight pg <= 1)%nat
    /\ ((SummaryPage.in_flight pg = 1%nat \/ Runs.redirect_pending pg) ->
        SummaryPage.saveButton_disabled pg = true
        /\ step Wizard.ClickSave b = b)
    /\ (forall e pg',
           Runs.is_visit e = false ->
           SummaryPage.saveButton_disabled pg = true ->
           Wizard.current (step e b) = Wizard.OnSummary pg' ->
           SummaryPage.saveButton_disabled pg' = false ->
           e = Wizard.ResponseFailed /\ SummaryPage.in_flight pg = 1%nat)
    /\ (SummaryPage.in_flight pg = 1%nat ->
        exists pg',
          Wizard.current (step Wizard.ResponseFailed b) = Wizard.OnSummary pg'
          /\ SummaryPage.saveButton_disabled pg' = false
          /\ SummaryPage.in_flight pg' = 0%nat).
Proof.
  intros b pg Hr Hcur.
  pose proof (reachable_invariant b Hr) as Hinv.
  unfold Runs.invariant in Hinv. rewrite Hcur in Hinv.
  destruct Hinv as (H1 & H2 & H3 & H4).
  split; [exact H1|]. split; [|split].
  - intros Hbusy.
    assert (Hd : SummaryPage.saveButton_disabled pg = true).
    { destruct Hbusy as [Hf | Ht]; [apply (H2 Hf) | apply (H3 Ht)]. }
    split; [exact Hd|].
    destruct b as [ls now cur]. simpl in Hcur. subst cur.
    unfold step, Wizard.step, SummaryPage.click_save. simpl.
    now rewrite Hd.
  - intros e pg' Hv Hd Hcur' Hd'.
    destruct b as [ls now cur]. simpl in Hcur. subst cur.
    unfold step, Wizard.step in Hcur'.
    cbn [Wizard.localStorage Wizard.clock Wizard.current] in Hcur'.
    destruct e; try discriminate Hv.
    + inversion Hcur'; subst; congruence.
    + inversion Hcur'; subst; congruence.
    + inversion Hcur'; subst; congruence.
    + inversion Hcur'; subst; congruence.
    + simpl in Hcur'. inversion Hcur'; subst pg'. clear Hcur'.
      unfold SummaryPage.click_save in Hd'. rewrite Hd in Hd'. congruence.
    + destruct (SummaryPage.in_flight pg);
        simpl in Hcur'; inversion Hcur'; subst pg'; simpl in Hd'; congruence.
    + split; [reflexivity|].
      destruct (SummaryPage.in_flight pg) as [|[|n]] eqn:Hf;
        [|reflexivity|lia].
      simpl in Hcur'. inversion Hcur'; subst pg'. congruence.
    + exfalso. revert Hcur'.
      change (Wizard.navigate chipTypes destinations
                (js "destination.html") ls)
        with (match DestinationPage.initDestinationPage destinations ls with
              | Redirect href' => Wizard.load chipTypes destinations 2 href' ls
              | Rendered pg0 => Wizard.OnDestination pg0
              end).
      unfold DestinationPage.initDestinationPage.
      destruct (step1_missing (getStoredData ls)); discriminate.
    + destruct (SummaryPage.redirectTimer pg) as [due|].
      * destruct (due <=? now + ms)%N; simpl in Hcur'.
        -- discriminate Hcur'.
        -- inversion Hcur'; subst; congruence.
      * simpl in Hcur'. inversion Hcur'; subst; congruence.
  - intros Hf. destruct b as [ls now cur]. simpl in Hcur. subst cur.
    unfold step, Wizard.step. simpl. rewrite Hf. simpl.
    eexists. split; [reflexivity|]. simpl. now rewrite Hf.
Qed.

(** C5. When the request in flight is rejected or fails in transport, the
    wizard stays on the summary page with the record it captured; the
    store is left as it was; the failure alert is shown; the button is
    enabled again; no redirect is pending; and a further click issues the
    request again. *)
Theorem failed_submission_keeps_record :
  forall (b : Wizard.browser) (pg : SummaryPage.page),
    reachable b ->
    Wizard.current b = Wizard.OnSummary pg ->
    SummaryPage.in_flight pg = 1%nat ->
    exists pg',
      step Wizard.ResponseFailed b =
        {| Wizard.localStorage := Wizard.localStorage b;
           Wizard.clock := Wizard.clock b;
           Wizard.current := Wizard.OnSummary pg' |}
      /\ SummaryPage.stored pg' = SummaryPage.stored pg
      /\ SummaryPage.alerts pg'
         = js "Save failed. Please try again." :: SummaryPage.alerts pg
      /\ SummaryPage.saveButton_disabled pg' = false
      /\ SummaryPage.redirectTimer pg' = None
      /\ SummaryPage.in_flight pg' = 0%nat
      /\ SummaryPage.sent (SummaryPage.click_save pg')
         = SummaryPage.request_body (SummaryPage.stored pg)
           :: SummaryPage.sent pg
      /\ SummaryPage.in_flight (SummaryPage.click_save pg') = 1%nat.
Proof.
  intros b pg Hr Hcur Hf.
  pose proof (reachable_invariant b Hr) as Hinv.
  unfold Runs.invariant in Hinv. rewrite Hcur in Hinv.
  destruct Hinv as (_ & H2 & _). destruct (H2 Hf) as [_ Ht].
  exists (SummaryPage.resume_failed pg).
  destruct b as [ls now cur]. simpl in Hcur. subst cur.
  unfold Wizard.step. simpl. rewrite Hf, Ht. simpl.
  repeat split; reflexivity.
Qed.

(** ** The life of the record *)

Lemma writes_only_when_told (e : Wizard.event) (b : Wizard.browser) :
  Runs.writes_store e b = false ->
  Wizard.localStorage (step e b) = Wizard.localStorage b.
Proof.
  destruct b as [ls now cur]. unfold Runs.writes_store, Wizard.step.
  cbn [Wizard.localStorage Wizard.clock Wizard.current].
  destruct e; destruct cur; try reflexivity.
  - (* ClickChipType *)
    destruct (nth_error _ _) as [button|]; [|reflexivity].
    unfold FormPage.click_chipType.
    destruct (is_empty (FormPage.dataset_chipType button));
      [reflexivity | discriminate].
  - (* SubmitForm *)
    destruct (FormPage.chipTypeButtons pg) eqn:Hb; [reflexivity|].
    rewrite on_submit_first_failure. rewrite Hb.
    destruct (Step1Rules.first_failure _ _ _); [reflexivity | discriminate].
  - (* SubmitDestination *)
    unfold DestinationPage.on_submit, DestinationPage.submit.
    destruct (DestinationPage.checkboxes pg); [reflexivity|].
    destruct (find _ _); [discriminate | reflexivity].
  - (* ResponseOk *)
    destruct (SummaryPage.in_flight pg); [reflexivity | discriminate].
  - (* ResponseFailed *)
    destruct (SummaryPage.in_flight pg); reflexivity.
  - (* Elapse *)
    destruct (SummaryPage.redirectTimer pg) as [due|]; [|reflexivity].
    simpl. destruct (due <=? now + ms)%N; [discriminate | reflexivity].
Qed.

Lemma cleared_only_by_timer (e : Wizard.event) (b : Wizard.browser) :
  Wizard.localStorage (step e b) = None ->
  Wizard.localStorage b = None \/ Runs.timer_fires e b = true.
Proof.
  destruct b as [ls now cur]. unfold Runs.timer_fires, Wizard.step.
  cbn [Wizard.localStorage Wizard.clock Wizard.current].
  destruct e; destruct cur; simpl; auto.
  - (* ClickChipType *)
    destruct (nth_error _ _) as [button|]; [|auto].
    unfold FormPage.click_chipType.
    destruct (is_empty (FormPage.dataset_chipType button)); simpl; auto.
    discriminate.
  - (* SubmitForm *)
    destruct (FormPage.chipTypeButtons pg) eqn:Hb; [auto|].
    rewrite on_submit_first_failure.
    destruct (Step1Rules.first_failure _ _ _); simpl; auto. discriminate.
  - (* SubmitDestination *)
    unfold DestinationPage.on_submit, DestinationPage.submit.
    destruct (DestinationPage.checkboxes pg); [auto|].
    destruct (find _ _); simpl; auto. discriminate.
  - (* ResponseOk *)
    destruct (SummaryPage.in_flight pg); simpl; auto. discriminate.
  - (* ResponseFailed *)
    destruct (SummaryPage.in_flight pg); simpl; auto.
  - (* Elapse *)
    destruct (SummaryPage.redirectTimer pg) as [due|]; [|auto].
    destruct (due <=? now + ms)%N; simpl; auto.
Qed.

(** C6, amended.  The record starts empty: on a first visit the form page
    holds the empty record and nothing is stored.  The store is written
    only by a click on a chip-type button (which records [chipType]
    without any validation), by an accepted submission of step 1, by a
    submission of step 2 with a destination checked, by the successful
    answer to the final submission, and by the redirect timer; and only
    the timer clears it.  A timer is pending only after a save was
    confirmed.  The successful answer writes [savedAt], shows the
    confirmation message and arms the timer for 3000 ms later; until then
    the store keeps the record, and once that time has passed the store is
    cleared and the form page is open with the empty record. *)
Theorem record_lifecycle :
  (exists pg,
      Wizard.current
        (step (Wizard.Visit (js "index.html"))
           {| Wizard.localStorage := None; Wizard.clock := 0;
              Wizard.current := Wizard.Elsewhere [] |}) = Wizard.OnForm pg
      /\ FormPage.stored pg = JObj []
      /\ Wizard.localStorage
           (step (Wizard.Visit (js "index.html"))
              {| Wizard.localStorage := None; Wizard.clock := 0;
                 Wizard.current := Wizard.Elsewhere [] |}) = None)
  /\ (forall e b,
         Runs.writes_store e b = false ->
         Wizard.localStorage (step e b) = Wizard.localStorage b)
  /\ (forall e b,
         Wizard.localStorage (step e b) = None ->
         Wizard.localStorage b = None \/ Runs.timer_fires e b = true)
  /\ (forall b pg,
         reachable b ->
         Wizard.current b = Wizard.OnSummary pg ->
         Runs.redirect_pending pg ->
         In (js "Saved to Excel.") (SummaryPage.alerts pg))
  /\ (forall b pg iso formatted,
         Wizard.current b = Wizard.OnSummary pg ->
         SummaryPage.in_flight pg <> 0%nat ->
         exists pg',
           step (Wizard.ResponseOk iso formatted) b =
             {| Wizard.localStorage :=
                  setStoredData
                    (spread_with (SummaryPage.stored pg)
                       [(js "savedAt", JStr iso)]);
                Wizard.clock := Wizard.clock b;
                Wizard.current := Wizard.OnSummary pg' |}
           /\ get (spread_with (SummaryPage.stored pg)
                     [(js "savedAt", JStr iso)]) (js "savedAt")
              = Some (JStr iso)
           /\ SummaryPage.message pg'
              = js "Saved at " ++ formatted
                ++ js ". Redirecting to the first page in 3 seconds."
           /\ SummaryPage.redirectTimer pg'
              = Some (Wizard.clock b + 3000)%N)
  /\ (forall b pg due ms,
         Wizard.current b = Wizard.OnSummary pg ->
         SummaryPage.redirectTimer pg = Some due ->
         ((Wizard.clock b + ms < due)%N ->
          Wizard.localStorage (step (Wizard.Elapse ms) b)
          = Wizard.localStorage b
          /\ Wizard.current (step (Wizard.Elapse ms) b) = Wizard.current b)
         /\ ((due <= Wizard.clock b + ms)%N ->
             Wizard.localStorage (step (Wizard.Elapse ms) b) = None
             /\ Wizard.current (step (Wizard.Elapse ms) b)
                = Wizard.OnForm (FormPage.initFormPage chipTypes None)
             /\ FormPage.stored (FormPage.initFormPage chipTypes None)
                = JObj [])).
Proof.
  split; [|split; [|split; [|split; [|split]]]].
  - eexists. split; [reflexivity|]. split; reflexivity.
  - apply writes_only_when_told.
  - apply cleared_only_by_timer.
  - intros b pg Hr Hcur Hp.
    pose proof (reachable_invariant b Hr) as Hinv.
    unfold Runs.invariant in Hinv. rewrite Hcur in Hinv.
    destruct Hinv as (_ & _ & H3 & _). now apply H3.
  - intros b pg iso formatted Hcur Hf.
    exists (fst (SummaryPage.resume_ok (Wizard.clock b) iso formatted pg)).
    destruct b as [ls now cur]. simpl in Hcur. subst cur.
    unfold Wizard.step. simpl.
    destruct (SummaryPage.in_flight pg); [contradiction|].
    split; [reflexivity|]. split; [|split; reflexivity].
    unfold spread_with, get, set_props. simpl.
    apply assoc_set_prop_same.
  - intros b pg due ms Hcur Ht.
    destruct b as [ls now cur]. simpl in Hcur. subst cur.
    unfold Wizard.step. simpl. rewrite Ht. split.
    + intros Hlt. apply N.leb_gt in Hlt. rewrite Hlt. split; reflexivity.
    + intros Hle. apply N.leb_le in Hle. rewrite Hle. repeat split.
Qed.

End RunsOfTheWizard.

Example summary_opens :
  Wizard.current Runs.on_summary = Wizard.OnSummary Runs.summary_page.
Proof. vm_compute. reflexivity. Qed.

Lemma saving_reachable :
  Runs.reachable Runs.three_types Runs.two_destinations Runs.saving.
Proof.
  exists Runs.on_summary, [Wizard.ClickSave]. split; [|reflexivity].
  exists (js "summary.html"). reflexivity.
Defined.

Lemma saved_reachable :
  Runs.reachable Runs.three_types Runs.two_destinations Runs.saved.
Proof.
  exists Runs.on_summary,
    [Wizard.ClickSave;
     Wizard.ResponseOk (js "2026-01-05T10:00:00.000Z")
                       (js "Jan 05, 2026, 10:00 AM")].
  split; [|reflexivity].
  exists (js "summary.html"). reflexivity.
Defined.

Lemma one_request_at_a_time_witness :
  Wizard.step Runs.three_types Runs.two_destinations Wizard.ClickSave
    Runs.saving = Runs.saving.
Proof.
  apply (proj1 (proj2 (one_request_at_a_time
                         Runs.three_types Runs.two_destinations Runs.saving
                         (SummaryPage.click_save Runs.summary_page)
                         saving_reachable eq_refl))).
  left. reflexivity.
Defined.

Lemma failed_submission_keeps_record_witness :
  exists pg',
    Wizard.step Runs.three_types Runs.two_destinations Wizard.ResponseFailed
      Runs.saving
    = {| Wizard.localStorage := Wizard.localStorage Runs.saving;
         Wizard.clock := Wizard.clock Runs.saving;
         Wizard.current := Wizard.OnSummary pg' |}
    /\ SummaryPage.saveButton_disabled pg' = false
    /\ SummaryPage.redirectTimer pg' = None.
Proof.
  destruct (failed_submission_keeps_record
              Runs.three_types Runs.two_destinations Runs.saving
              (SummaryPage.click_save Runs.summary_page)
              saving_reachable eq_refl eq_refl)
    as (pg' & Hstep & _ & _ & Hd & Ht & _).
  exists pg'. split; [exact Hstep|]. split; [exact Hd | exact Ht].
Defined.

(** C6, as stated, fails: on the first visit a click on the first
    chip-type button writes the store, although no validation has run (and
    the form as it stands would be rejected). *)
Lemma chip_type_click_writes_store :
  Runs.validated_write (Wizard.ClickChipType 0) Runs.first_visit = false
  /\ Wizard.localStorage Runs.first_visit = None
  /\ Wizard.localStorage
       (Wizard.step Runs.three_types Runs.two_destinations
          (Wizard.ClickChipType 0) Runs.first_visit)
     = setStoredData (JObj [(js "chipType", JStr (js "box"))])
  /\ FormPage.submit (JObj []) (js "box") (Step1Rules.scenario [] [])
     = Rejected (js "Please enter a box number.") (Some ChipBoxInput).
Proof. repeat split; vm_compute; reflexivity. Qed.

Lemma record_lifecycle_witness :
  Wizard.localStorage
    (Wizard.step Runs.three_types Runs.two_destinations (Wizard.Elapse 3000)
       Runs.saved) = None
  /\ In (js "Saved to Excel.")
        (SummaryPage.alerts
           (fst (SummaryPage.resume_ok 0
                   (js "2026-01-05T10:00:00.000Z")
                   (js "Jan 05, 2026, 10:00 AM")
                   (SummaryPage.click_save Runs.summary_page)))).
Proof.
  pose proof (record_lifecycle Runs.three_types Runs.two_destinations)
    as (_ & _ & _ & Hpending & _ & Htimer).
  split.
  - apply (proj2 (Htimer Runs.saved
                    (fst (SummaryPage.resume_ok 0
                            (js "2026-01-05T10:00:00.000Z")
                            (js "Jan 05, 2026, 10:00 AM")
                            (SummaryPage.click_save Runs.summary_page)))
                    3000%N 3000%N eq_refl eq_refl)).
    vm_compute. discriminate.
  - apply (Hpending Runs.saved _ saved_reachable eq_refl). discriminate.
Defined.

(** ** The /save endpoint *)

Lemma blank_field (body : option json) (k : jsstring) :
  is_empty (Server.getTrimmedString (Server.field body k))
  = negb (Ledger.non_blank_string (Server.field body k)).
Proof.
  unfold Server.getTrimmedString, Ledger.non_blank_string.
  destruct (Server.field body k) as [[| | |s| |]|]; try reflexivity.
  apply is_empty_trim.
Qed.

Lemma push_if_blank_nil (value name : jsstring) (missing : list jsstring) :
  Server.push_if_blank value name missing = [] <->
  is_empty value = false /\ missing = [].
Proof.
  unfold Server.push_if_blank. destruct (is_empty value).
  - split; [|intros [H _]; discriminate].
    intros H. destruct missing; discriminate.
  - tauto.
Qed.

Lemma nothing_missing (body : option json) :
  Server.missing (Server.validatePayload body) = [] <->
  Ledger.all_present body = true.
Proof.
  unfold Server.validatePayload, Ledger.all_present, Ledger.required_fields.
  cbn [Server.missing forallb].
  rewrite !push_if_blank_nil, !blank_field, !negb_false_iff,
    !andb_true_iff.
  tauto.
Qed.

(** The texts the handler puts into its row. *)
Lemma payload_values (date time : jsstring) (body : option json) :
  let p := Server.validatePayload body in
  [Server.boxNumber p; Server.product p; Server.operatorName p;
   Server.destination p; date; time; Server.netWeight p]
  = Ledger.submitted_values date time body.
Proof. reflexivity. Qed.

(** *** Sheets of a workbook *)

Lemma sheet_of_put_same name ws l :
  Server.sheet_of (Server.put_sheet name ws l) name = Some ws.
Proof.
  induction l as [|[n old] l IH]; simpl.
  - now rewrite str_eqb_refl.
  - destruct (str_eqb n name) eqn:E; simpl; now rewrite E.
Qed.

Lemma sheet_of_put_other name name' ws l :
  str_eqb name' name = false ->
  Server.sheet_of (Server.put_sheet name ws l) name'
  = Server.sheet_of l name'.
Proof.
  intros Hne.
  assert (Hne' : str_eqb name name' = false).
  { apply str_eqb_neq. apply str_eqb_neq in Hne. congruence. }
  induction l as [|[n old] l IH]; simpl.
  - now rewrite Hne'.
  - destruct (str_eqb n name) eqn:E; simpl.
    + apply str_eqb_eq in E. subst n. now rewrite Hne'.
    + now rewrite IH.
Qed.

Lemma put_sheet_found name ws l :
  Server.sheet_of l name = Some ws -> Server.put_sheet name ws l = l.
Proof.
  induction l as [|[n old] l IH]; simpl; [discriminate|].
  destruct (str_eqb n name) eqn:E.
  - intros H. inversion H. reflexivity.
  - intros H. now rewrite IH.
Qed.

Lemma set_sheet_found name ws wb :
  Server.sheet wb name = Some ws -> Server.set_sheet name ws wb = wb.
Proof.
  intros H. unfold Server.set_sheet. rewrite (put_sheet_found _ _ _ H).
  now destruct wb.
Qed.

Lemma sheet_set_same name ws wb :
  Server.sheet (Server.set_sheet name ws wb) name = Some ws.
Proof. apply sheet_of_put_same. Qed.

Lemma sheet_set_other name name' ws wb :
  str_eqb name' name = false ->
  Server.sheet (Server.set_sheet name ws wb) name' = Server.sheet wb name'.
Proof. apply sheet_of_put_other. Qed.

Lemma set_sheet_twice name ws ws' wb :
  Server.set_sheet name ws' (Server.set_sheet name ws wb)
  = Server.set_sheet name ws' wb.
Proof.
  unfold Server.set_sheet. cbn [Server.SheetNames Server.Sheets]. f_equal.
  induction (Server.Sheets wb) as [|[n old] l IH]; simpl.
  - now rewrite str_eqb_refl.
  - destruct (str_eqb n name) eqn:E; simpl; rewrite E; [reflexivity|].
    now rewrite IH.
Qed.

(** *** Cells written by [sheet_add_aoa] *)

Lemma lookup_add_values (values : list jsstring) :
  forall (R C : N) (acc : Server.range * list (N * N * json)) (r c : N),
    Server.lookup r c (snd (Server.add_values R C values acc))
    = if (r =? R) && (C <=? c) && (c <? C + N.of_nat (List.length values))
      then Some (JStr (nth (N.to_nat (c - C)) values []))
      else Server.lookup r c (snd acc).
Proof.
  induction values as [|v rest IH]; intros R C acc r c.
  - cbn [Server.add_values List.length]. 
    destruct (N.eqb_spec r R), (N.leb_spec C c), (N.ltb_spec c (C + N.of_nat 0));
      cbn [andb]; try reflexivity; lia.
  - cbn [Server.add_values]. rewrite IH. cbn [snd Server.lookup List.length].
    destruct (N.eqb_spec r R) as [-> | Hr]; cbn [andb].
    + rewrite N.eqb_refl. cbn [andb].
      destruct (N.eqb_spec C c) as [-> | Hc].
      * destruct (N.leb_spec (N.succ c) c); [lia|]. cbn [andb].
        rewrite N.leb_refl.
        destruct (N.ltb_spec c (c + N.of_nat (S (List.length rest)))); [|lia].
        cbn [andb]. replace (N.to_nat (c - c)) with O by lia. reflexivity.
      * destruct (N.leb_spec (N.succ C) c), (N.leb_spec C c),
          (N.ltb_spec c (N.succ C + N.of_nat (List.length rest))),
          (N.ltb_spec c (C + N.of_nat (S (List.length rest))));
          cbn [andb]; try reflexivity; try lia.
        replace (N.to_nat (c - C)) with (S (N.to_nat (c - N.succ C))) by lia.
        reflexivity.
    + destruct (N.eqb_spec R r); [congruence|]. reflexivity.
Qed.

Lemma range_add_values (values : list jsstring) :
  forall (R C : N) (acc : Server.range * list (N * N * json)),
    fst (Server.add_values R C values acc)
    = match values with
      | [] => fst acc
      | _ :: _ =>
          {| Server.s_r := N.min (Server.s_r (fst acc)) R;
             Server.s_c := N.min (Server.s_c (fst acc)) C;
             Server.e_r := N.max (Server.e_r (fst acc)) R;
             Server.e_c := N.max (Server.e_c (fst acc))
                             (C + N.of_nat (List.length values) - 1) |}
      end.
Proof.
  induction values as [|v rest IH]; intros R C acc; [reflexivity|].
  cbn [Server.add_values]. rewrite IH. cbn [fst].
  destruct rest as [|v' rest'].
  - unfold Server.grow. cbn [List.length]. f_equal; lia.
  - unfold Server.grow.
    cbn [Server.s_r Server.s_c Server.e_r Server.e_c List.length].
    f_equal; lia.
Qed.

Lemma columns_length (n : nat) : forall C, List.length (Server.columns C n) = n.
Proof. induction n as [|n IH]; intros C; simpl; [reflexivity|]. now rewrite IH. Qed.

Lemma columns_nth (n : nat) :
  forall (C : N) (i : nat),
    nth_error (Server.columns C n) i
    = if (i <? n)%nat then Some (C + N.of_nat i) else None.
Proof.
  induction n as [|n IH]; intros C [|i]; cbn [Server.columns nth_error];
    try reflexivity.
  - change (0 <? S n)%nat with true. cbv iota. f_equal. lia.
  - rewrite IH. change (S i <? S n)%nat with (i <? n)%nat.
    destruct (i <? n)%nat; [f_equal; lia | reflexivity].
Qed.

(** A row of cells that were just written reads as the texts written. *)
Lemma map_written (f : N -> option json) (values : list jsstring) :
  forall C : N,
    (forall c, C <= c < C + N.of_nat (List.length values) ->
               f c = Some (JStr (nth (N.to_nat (c - C)) values []))) ->
    map f (Server.columns C (List.length values)) = Ledger.texts values.
Proof.
  induction values as [|v rest IH]; intros C H; [reflexivity|].
  cbn [List.length Server.columns map Ledger.texts]. f_equal.
  - rewrite H by (cbn [List.length]; lia).
    replace (N.to_nat (C - C)) with O by lia. reflexivity.
  - apply IH. intros c Hc. rewrite H by (cbn [List.length]; lia).
    replace (N.to_nat (c - C)) with (S (N.to_nat (c - N.succ C))) by lia.
    reflexivity.
Qed.

(** [sheet_add_aoa] with the origin A1 and a row of texts. *)
Lemma sheet_add_aoa_A1_spec (ws : Server.worksheet) (v : jsstring)
    (values : list jsstring) :
  let n := List.length (v :: values) in
  let ws' := Server.sheet_add_aoa_A1 ws (v :: values) in
  Server.ref ws'
  = Some {| Server.s_r := 0;
            Server.s_c := 0;
            Server.e_r := Server.e_r (Server.range_of ws);
            Server.e_c := N.max (Server.e_c (Server.range_of ws))
                                (N.of_nat n - 1) |}
  /\ Ledger.cells_from ws' 0 0 n = Ledger.texts (v :: values)
  /\ (forall r c, r <> 0 \/ N.of_nat n <= c ->
                  Server.cell ws' r c = Server.cell ws r c).
Proof.
  intros n ws'. unfold ws', Server.sheet_add_aoa_A1, Server.with_range.
  rewrite range_add_values. cbn [fst Server.s_c Server.ref].
  split; [|split].
  - replace (N.min (Server.s_c (Server.range_of ws)) 0) with 0 by lia.
    cbn [N.ltb N.compare]. f_equal. unfold n. f_equal; lia.
  - unfold Ledger.cells_from, n. apply map_written. intros c Hc.
    unfold Server.cell. cbn [Server.cells]. rewrite lookup_add_values.
    rewrite N.eqb_refl.
    destruct (N.leb_spec 0 c); [|lia].
    destruct (N.ltb_spec c (0 + N.of_nat (List.length (v :: values)))); [|lia].
    reflexivity.
  - intros r c Hrc. unfold Server.cell. cbn [Server.cells].
    rewrite lookup_add_values. cbn [snd].
    destruct (N.eqb_spec r 0) as [-> | Hr]; [|reflexivity].
    cbn [andb]. destruct (N.leb_spec 0 c); [|lia]. cbn [andb].
    destruct (N.ltb_spec c (0 + N.of_nat (List.length (v :: values))));
      [unfold n in Hrc; lia | reflexivity].
Qed.

(** [sheet_add_aoa] with the origin -1 and a row of texts. *)
Lemma sheet_add_aoa_bottom_spec (ws : Server.worksheet) (v : jsstring)
    (values : list jsstring) :
  let n := List.length (v :: values) in
  let rg := Server.range_of ws in
  let ws' := Server.sheet_add_aoa_bottom ws (v :: values) in
  Server.ref ws'
  = Some {| Server.s_r := N.min (Server.s_r rg) (Server.e_r rg + 1);
            Server.s_c := 0;
            Server.e_r := Server.e_r rg + 1;
            Server.e_c := N.max (Server.e_c rg) (N.of_nat n - 1) |}
  /\ Ledger.cells_from ws' (Server.e_r rg + 1) 0 n
     = Ledger.texts (v :: values)
  /\ (forall r c, r <> Server.e_r rg + 1 \/ N.of_nat n <= c ->
                  Server.cell ws' r c = Server.cell ws r c).
Proof.
  intros n rg ws'. unfold ws', Server.sheet_add_aoa_bottom, Server.with_range.
  fold rg. cbv zeta. rewrite range_add_values.
  cbn [fst Server.s_c Server.s_r Server.e_r Server.e_c Server.ref].
  split; [|split].
  - replace (N.min (Server.s_c rg) 0) with 0 by lia.
    cbn [N.ltb N.compare]. f_equal. unfold n. f_equal; lia.
  - unfold Ledger.cells_from, n. apply map_written. intros c Hc.
    unfold Server.cell. cbn [Server.cells]. rewrite lookup_add_values.
    rewrite N.eqb_refl.
    destruct (N.leb_spec 0 c); [|lia].
    destruct (N.ltb_spec c (0 + N.of_nat (List.length (v :: values)))); [|lia].
    reflexivity.
  - intros r c Hrc. unfold Server.cell. cbn [Server.cells].
    rewrite lookup_add_values. cbn [snd].
    destruct (N.eqb_spec r (Server.e_r rg + 1)) as [-> | Hr]; [|reflexivity].
    cbn [andb]. destruct (N.leb_spec 0 c); [|lia]. cbn [andb].
    destruct (N.ltb_spec c (0 + N.of_nat (List.length (v :: values))));
      [unfold n in Hrc; lia | reflexivity].
Qed.

(** *** The header row as the server reads it *)

Lemma at_index_array_of (l : list (option json)) :
  forall i, Server.at_index (Server.array_of l) i = Server.at_index l i.
Proof.
  induction l as [|x l IH]; intros i; [reflexivity|].
  cbn [Server.array_of].
  destruct x as [v|].
  - destruct i as [|i]; [reflexivity|].
    unfold Server.at_index in *. cbn [nth_error]. apply IH.
  - destruct (Server.array_of l) as [|y r] eqn:E.
    + destruct i as [|i]; [reflexivity|].
      unfold Server.at_index in *. cbn [nth_error]. rewrite <- IH.
      now destruct i.
    + destruct i as [|i]; [reflexivity|].
      unfold Server.at_index in *. cbn [nth_error]. apply IH.
Qed.

Lemma array_of_reaches (l : list (option json)) :
  forall i v,
    Server.at_index l i = Some v ->
    (i < List.length (Server.array_of l))%nat.
Proof.
  induction l as [|x l IH]; intros i v H.
  - unfold Server.at_index in H. now destruct i.
  - cbn [Server.array_of].
    destruct i as [|i].
    + unfold Server.at_index in H. cbn [nth_error] in H. subst x.
      cbn [List.length]. lia.
    + assert (Hi : (i < List.length (Server.array_of l))%nat).
      { apply (IH i v). exact H. }
      destruct x; destruct (Server.array_of l); cbn [List.length] in *; lia.
Qed.

Lemma every_from_at (expected : list jsstring) (actual : Server.row) :
  forall index,
    Server.every_from index expected actual = true <->
    forall i, (i < List.length expected)%nat ->
              Server.normalizeHeaderValue (Server.at_index actual (index + i))
              = Server.normalizeHeaderValue (Some (JStr (nth i expected []))).
Proof.
  induction expected as [|h r IH]; intros index; cbn [Server.every_from].
  - split; [|reflexivity]. intros _ i Hi. cbn [List.length] in Hi. lia.
  - rewrite andb_true_iff, str_eqb_eq, IH. split.
    + intros [H0 H] [|i] Hi.
      * now rewrite Nat.add_0_r.
      * replace (index + S i)%nat with (S index + i)%nat by lia.
        apply H. cbn [List.length] in Hi. lia.
    + intros H. split.
      * specialize (H O). rewrite Nat.add_0_r in H. apply H.
        cbn [List.length]. lia.
      * intros i Hi. specialize (H (S i)).
        replace (index + S i)%nat with (S index + i)%nat in H by lia.
        apply H. cbn [List.length]. lia.
Qed.

Lemma map_columns (A : Type) (f : N -> A) (d : A) (L : list A) :
  forall C : N,
    map f (Server.columns C (List.length L)) = L <->
    forall i, (i < List.length L)%nat -> f (C + N.of_nat i) = nth i L d.
Proof.
  induction L as [|x L IH]; intros C.
  - split; [|reflexivity]. intros _ i Hi. cbn [List.length] in Hi. lia.
  - cbn [List.length Server.columns map]. split.
    + intros H. injection H as H0 H1. intros [|i] Hi.
      * cbn [nth]. rewrite <- H0. now rewrite N.add_0_r.
      * cbn [nth].
        assert (Hi' : (i < List.length L)%nat) by lia.
        rewrite <- (proj1 (IH (N.succ C)) H1 i Hi').
        f_equal. lia.
    + intros H. f_equal.
      * specialize (H O). rewrite N.add_0_r in H. apply H. lia.
      * apply IH. intros i Hi. specialize (H (S i) ltac:(lia)).
        cbn [nth] in H. rewrite <- H. f_equal. lia.
Qed.

Lemma header_not_empty (i : nat) :
  (i < 7)%nat ->
  Server.normalizeHeaderValue (Some (JStr (nth i Server.HEADERS [])))
  = nth i (map Server.toLowerCase Server.HEADERS) []
  /\ nth i (map Server.toLowerCase Server.HEADERS) [] <> [].
Proof.
  intros Hi.
  do 7 (destruct i as [|i]; [split; [vm_compute; reflexivity | discriminate]|]).
  lia.
Qed.

(** The first row matches when the sheet has a range of at least seven
    columns and the seven cells of row 0 from the first column of the
    range are texts that, trimmed and in lower case, are the seven headers
    in lower case. *)
Lemma header_found (ws : Server.worksheet) :
  Server.headersMatch Server.HEADERS (Server.sheet_to_json_first ws) = true
  <->
  exists rg,
    Server.ref ws = Some rg
    /\ Server.s_c rg + 6 <= Server.e_c rg
    /\ map Server.normalizeHeaderValue
           (Ledger.cells_from ws 0 (Server.s_c rg) 7)
       = map Server.toLowerCase Server.HEADERS.
Proof.
  unfold Server.sheet_to_json_first.
  destruct (Server.ref ws) as [rg|];
    [|split; [discriminate | intros (rg & H & _); discriminate]].
  set (n := N.to_nat (Server.e_c rg + 1 - Server.s_c rg)).
  set (l := map (Server.cell ws 0) (Server.columns (Server.s_c rg) n)).
  assert (Hat : forall i,
             Server.at_index l i
             = if (i <? n)%nat
               then Server.cell ws 0 (Server.s_c rg + N.of_nat i)
               else None).
  { intros i. unfold Server.at_index, l. rewrite nth_error_map, columns_nth.
    now destruct (i <? n)%nat. }
  assert (Hmap :
            map Server.normalizeHeaderValue
                (Ledger.cells_from ws 0 (Server.s_c rg) 7)
            = map Server.toLowerCase Server.HEADERS
            <-> forall i, (i < 7)%nat ->
                  Server.normalizeHeaderValue
                    (Server.cell ws 0 (Server.s_c rg + N.of_nat i))
                  = nth i (map Server.toLowerCase Server.HEADERS) []).
  { unfold Ledger.cells_from. rewrite map_map.
    apply (map_columns _ (fun c => Server.normalizeHeaderValue
                                     (Server.cell ws 0 c))
                       [] (map Server.toLowerCase Server.HEADERS)). }
  unfold Server.headersMatch.
  change (List.length Server.HEADERS) with 7%nat.
  split.
  - intros H.
    destruct (Nat.ltb_spec (List.length (Server.array_of l)) 7) as [|Hlen];
      [discriminate|].
    pose proof (proj1 (every_from_at Server.HEADERS (Server.array_of l) 0)
                      H) as H'.
    clear H. rename H' into H.
    change (List.length Server.HEADERS) with 7%nat in H.
    assert (Hn : (6 < n)%nat).
    { specialize (H 6%nat ltac:(lia)). cbn [Nat.add] in H.
      rewrite at_index_array_of, Hat in H.
      destruct (Nat.ltb_spec 6 n) as [|Hge]; [assumption|].
      destruct (header_not_empty 6 ltac:(lia)) as [E Hne].
      rewrite E in H. exfalso. apply Hne. rewrite <- H. reflexivity. }
    exists rg. split; [reflexivity|]. split; [unfold n in Hn; lia|].
    apply Hmap. intros i Hi. specialize (H i Hi). cbn [Nat.add] in H.
    rewrite at_index_array_of, Hat in H.
    destruct (Nat.ltb_spec i n) as [_|]; [|lia].
    rewrite H. apply (header_not_empty i Hi).
  - intros (rg' & Hrg & Hc & H). inversion Hrg; subst rg'.
    pose proof (proj1 Hmap H) as H'. clear H. rename H' into H.
    assert (Hn : (6 < n)%nat) by (unfold n; lia).
    assert (H6 : exists v, Server.at_index l 6 = Some v).
    { rewrite Hat. destruct (Nat.ltb_spec 6 n) as [_|]; [|lia].
      specialize (H 6%nat ltac:(lia)).
      destruct (Server.cell ws 0 (Server.s_c rg + N.of_nat 6)) as [v|];
        [now exists v|].
      exfalso. apply (proj2 (header_not_empty 6 ltac:(lia))).
      rewrite <- H. reflexivity. }
    destruct H6 as [v H6]. apply array_of_reaches in H6.
    destruct (Nat.ltb_spec (List.length (Server.array_of l)) 7) as [|_];
      [lia|].
    apply every_from_at. change (List.length Server.HEADERS) with 7%nat.
    intros i Hi. cbn [Nat.add]. rewrite at_index_array_of, Hat.
    destruct (Nat.ltb_spec i n) as [_|]; [|lia].
    rewrite (H i Hi). symmetry. apply (header_not_empty i Hi).
Qed.

(** *** The worksheet with its header row *)

Lemma getOrCreateWorksheet_found (wb : Server.workbook)
    (found : Server.worksheet) :
  Server.sheet wb Server.SHEET_NAME = Some found ->
  let ws :=
    if Server.headersMatch Server.HEADERS (Server.sheet_to_json_first found)
    then found
    else Server.sheet_add_aoa_A1 found Server.HEADERS in
  Server.getOrCreateWorksheet wb
  = Some (ws, Server.set_sheet Server.SHEET_NAME ws wb).
Proof.
  intros Hf. unfold Server.getOrCreateWorksheet. rewrite Hf.
  unfold Server.sheet_to_json_first.
  destruct (Server.ref found) as [rg|]; [|reflexivity].
  destruct (Server.headersMatch _ _); cbn [negb]; [|reflexivity].
  now rewrite (set_sheet_found _ _ _ Hf).
Qed.

Lemma restamped_header_found (found : Server.worksheet) :
  Server.headersMatch Server.HEADERS
    (Server.sheet_to_json_first
       (Server.sheet_add_aoa_A1 found Server.HEADERS)) = true.
Proof.
  apply header_found.
  destruct (sheet_add_aoa_A1_spec found (js "Box Number")
              (tl Server.HEADERS)) as (Href & Hcells & _).
  change (js "Box Number" :: tl Server.HEADERS) with Server.HEADERS in *.
  change (List.length Server.HEADERS) with 7%nat in *.
  eexists. split; [exact Href|]. cbn [Server.s_c Server.e_c].
  split; [lia|]. rewrite Hcells. vm_compute. reflexivity.
Qed.

(** What [getOrCreateWorksheet] returns, when it returns: the sheet named
    [SHEET_NAME] of the workbook it leaves, with a range and a first row
    that matches; the other sheets are those of the workbook it got. *)
Lemma getOrCreateWorksheet_returns (wb wb' : Server.workbook)
    (ws : Server.worksheet) :
  Server.getOrCreateWorksheet wb = Some (ws, wb') ->
  Server.sheet wb' Server.SHEET_NAME = Some ws
  /\ Server.headersMatch Server.HEADERS (Server.sheet_to_json_first ws) = true
  /\ (forall name, str_eqb name Server.SHEET_NAME = false ->
                   Server.sheet wb' name = Server.sheet wb name).
Proof.
  destruct (Server.sheet wb Server.SHEET_NAME) as [found|] eqn:Hf.
  - rewrite (getOrCreateWorksheet_found wb found Hf). cbv zeta.
    intros H. inversion H as [[Hws Hwb]]. clear H.
    split; [apply sheet_set_same|]. split.
    + destruct (Server.headersMatch Server.HEADERS
                  (Server.sheet_to_json_first found)) eqn:Hm;
        [exact Hm | apply restamped_header_found].
    + intros name Hne. now apply sheet_set_other.
  - unfold Server.getOrCreateWorksheet, Server.book_append_sheet. rewrite Hf.
    destruct (_ || _); [discriminate|].
    intros H. inversion H as [[Hws Hwb]]. clear H.
    unfold Server.sheet. cbn [Server.Sheets].
    split; [apply sheet_of_put_same|]. split.
    + vm_compute. reflexivity.
    + intros name Hne. now apply sheet_of_put_other.
Qed.

Lemma matching_sheet_has_range (ws : Server.worksheet) :
  Server.headersMatch Server.HEADERS (Server.sheet_to_json_first ws) = true ->
  exists rg, Server.ref ws = Some rg /\ 6 <= Server.e_c rg.
Proof.
  intros H. apply header_found in H as (rg & Href & Hc & _).
  exists rg. split; [exact Href | lia].
Qed.

(** The sheet with its header row in place is taken as it is. *)
Lemma getOrCreateWorksheet_again (wb wb' : Server.workbook)
    (ws : Server.worksheet) :
  Server.getOrCreateWorksheet wb = Some (ws, wb') ->
  Server.getOrCreateWorksheet wb' = Some (ws, wb').
Proof.
  intros H. destruct (getOrCreateWorksheet_returns _ _ _ H) as (Hs & Hm & _).
  rewrite (getOrCreateWorksheet_found wb' ws Hs). cbv zeta. rewrite Hm.
  now rewrite (set_sheet_found _ _ _ Hs).
Qed.

(** When [getOrCreateWorksheet] throws. *)
Lemma getOrCreateWorksheet_throws (wb : Server.workbook) :
  Server.getOrCreateWorksheet wb = None <->
  Server.sheet wb Server.SHEET_NAME = None
  /\ (65535 <= N.of_nat (List.length (Server.SheetNames wb))
      \/ In Server.SHEET_NAME (Server.SheetNames wb)).
Proof.
  destruct (Server.sheet wb Server.SHEET_NAME) as [found|] eqn:Hf.
  - rewrite (getOrCreateWorksheet_found wb found Hf). cbv zeta.
    split; [discriminate | intros [H _]; discriminate].
  - unfold Server.getOrCreateWorksheet, Server.book_append_sheet. rewrite Hf.
    destruct (N.leb_spec 65535 (N.of_nat (List.length (Server.SheetNames wb))))
      as [Hmany | Hfew]; cbn [orb].
    + split; [intros _; split; [reflexivity | now left] | reflexivity].
    + destruct (existsb (str_eqb Server.SHEET_NAME) (Server.SheetNames wb))
        eqn:Hex.
      * split; [|reflexivity]. intros _. split; [reflexivity|]. right.
        apply existsb_exists in Hex as (x & Hin & Hx).
        apply str_eqb_eq in Hx. now subst x.
      * split; [discriminate|]. intros [_ [Hmany | Hin]]; [lia|].
        exfalso. assert (Hex' : existsb (str_eqb Server.SHEET_NAME)
                                  (Server.SheetNames wb) = true).
        { apply existsb_exists. exists Server.SHEET_NAME.
          split; [exact Hin | apply str_eqb_refl]. }
        congruence.
Qed.

(** A sheet that is there keeps its cells outside A1 to G1, and its last
    row and column when it has seven columns. *)
Lemma getOrCreateWorksheet_keeps (wb : Server.workbook)
    (found : Server.worksheet) :
  Server.sheet wb Server.SHEET_NAME = Some found ->
  exists ws,
    Server.getOrCreateWorksheet wb
    = Some (ws, Server.set_sheet Server.SHEET_NAME ws wb)
    /\ (forall r c, r <> 0 \/ 7 <= c ->
                    Server.cell ws r c = Server.cell found r c)
    /\ (forall rg, Server.ref found = Some rg -> 6 <= Server.e_c rg ->
                   exists rg', Server.ref ws = Some rg'
                               /\ Server.e_r rg' = Server.e_r rg
                               /\ Server.e_c rg' = Server.e_c rg).
Proof.
  intros Hf. eexists. split; [apply (getOrCreateWorksheet_found wb found Hf)|].
  destruct (Server.headersMatch Server.HEADERS
              (Server.sheet_to_json_first found)).
  - split; [reflexivity|]. intros rg Hrg _. now exists rg.
  - destruct (sheet_add_aoa_A1_spec found (js "Box Number")
                (tl Server.HEADERS)) as (Href & _ & Hrest).
    split; [exact Hrest|]. intros rg Hrg Hec. eexists.
    split; [exact Href|]. unfold Server.range_of. rewrite Hrg.
    cbn [Server.e_r Server.e_c List.length tl Server.HEADERS].
    split; [reflexivity | lia].
Qed.

(** The row of a submission added to the sheet. *)
Lemma add_row_spec (values : list jsstring) (wb wb' : Server.workbook)
    (ws : Server.worksheet) :
  List.length values = 7%nat ->
  Server.getOrCreateWorksheet wb = Some (ws, wb') ->
  exists rg written ws',
    Server.ref ws = Some rg
    /\ 6 <= Server.e_c rg
    /\ Server.add_row values wb = Some written
    /\ Server.SheetNames written = Server.SheetNames wb'
    /\ Server.sheet written Server.SHEET_NAME = Some ws'
    /\ Server.ref ws'
       = Some {| Server.s_r := N.min (Server.s_r rg) (Server.e_r rg + 1);
                 Server.s_c := 0;
                 Server.e_r := Server.e_r rg + 1;
                 Server.e_c := Server.e_c rg |}
    /\ Ledger.cells_from ws' (Server.e_r rg + 1) 0 7 = Ledger.texts values
    /\ (forall r c, r <> Server.e_r rg + 1 \/ 7 <= c ->
                    Server.cell ws' r c = Server.cell ws r c)
    /\ (forall name, str_eqb name Server.SHEET_NAME = false ->
                     Server.sheet written name = Server.sheet wb name).
Proof.
  intros Hlen H.
  destruct (getOrCreateWorksheet_returns _ _ _ H) as (Hs & Hm & Hother).
  destruct (matching_sheet_has_range ws Hm) as (rg & Href & Hec).
  destruct values as [|v values]; [discriminate|].
  destruct (sheet_add_aoa_bottom_spec ws v values) as (Hr & Hcells & Hrest).
  unfold Server.range_of in Hr, Hcells, Hrest. rewrite Href in Hr, Hcells, Hrest.
  rewrite Hlen in Hr, Hcells, Hrest.
  exists rg, (Server.set_sheet Server.SHEET_NAME
                (Server.sheet_add_aoa_bottom ws (v :: values)) wb'),
    (Server.sheet_add_aoa_bottom ws (v :: values)).
  split; [exact Href|]. split; [exact Hec|].
  split; [unfold Server.add_row; now rewrite H|].
  split; [reflexivity|]. split; [apply sheet_set_same|].
  split; [rewrite Hr; f_equal; f_equal; lia|].
  split; [exact Hcells|]. split; [exact Hrest|].
  intros name Hne. rewrite sheet_set_other by exact Hne. now apply Hother.
Qed.

(** A sheet whose range is C1:I2, the headers in C1 to I1: they are read
    from the first column of the range and match, so the sheet is taken as
    it is; the row of a submission goes into A3 to G3, and the range
    becomes A1:I3. *)
Example shifted_sheet_keeps_its_header :
  Server.getOrCreateWorksheet Ledger.shifted_workbook
  = Some (Ledger.shifted_sheet, Ledger.shifted_workbook)
  /\ exists written ws,
       Server.add_row
         [js "C3D4"; js "Resin-Y"; js "John Roe"; js "Line 2";
          js "1/6/2026"; js "11:30 AM"; js "7"] Ledger.shifted_workbook
       = Some written
       /\ Server.sheet written Server.SHEET_NAME = Some ws
       /\ Server.ref ws
          = Some {| Server.s_r := 0; Server.s_c := 0;
                    Server.e_r := 2; Server.e_c := 8 |}
       /\ Ledger.cells_from ws 0 0 9
          = [None; None] ++ Ledger.texts Server.HEADERS
       /\ Ledger.cells_from ws 2 0 9
          = Ledger.texts [js "C3D4"; js "Resin-Y"; js "John Roe";
                          js "Line 2"; js "1/6/2026"; js "11:30 AM"; js "7"]
            ++ [None; None].
Proof.
  split; [vm_compute; reflexivity|].
  eexists. eexists. split; [vm_compute; reflexivity|].
  split; [reflexivity|]. split; [reflexivity|].
  split; vm_compute; reflexivity.
Qed.

(** The answer to a body with the five fields, by what the host does. *)
Lemma post_save_present (h : Server.host) (date time : jsstring)
    (body : option json) (d : Server.disk h) :
  Ledger.all_present body = true ->
  Server.post_save h date time body d
  = let d1 := snd (Server.mkdirSync h d) in
    match fst (Server.mkdirSync h d), fst (Server.loadWorkbook h d1) with
    | Some _, Some wb =>
        match Server.add_row (Ledger.submitted_values date time body) wb with
        | Some written =>
            (match fst (Server.writeFile h written d1) with
             | Some _ => Ledger.success
             | None => Ledger.unable_to_save
             end, snd (Server.writeFile h written d1))
        | None => (Ledger.unable_to_save, d1)
        end
    | _, _ => (Ledger.unable_to_save, d1)
    end.
Proof.
  intros Hall. apply nothing_missing in Hall.
  unfold Server.post_save. rewrite Hall. rewrite payload_values.
  unfold Server.append_row, Server.and_then, Server.ensureDirectoryExists,
    Server.computed, Server.loadWorkbook.
  cbv zeta.
  destruct (Server.mkdirSync h d) as [[[]|] d1]; cbn [fst snd];
    [|reflexivity].
  destruct (Server.existsSync h d1); cbn [fst].
  - destruct (Server.readFile h d1) as [wb|]; [|reflexivity].
    destruct (Server.add_row _ wb) as [written|]; [|reflexivity].
    destruct (Server.writeFile h written d1) as [[[]|] d2]; reflexivity.
  - destruct (Server.add_row _ Server.book_new) as [written|]; [|reflexivity].
    destruct (Server.writeFile h written d1) as [[[]|] d2]; reflexivity.
Qed.

(** C7, as stated, fails: a body with the five fields meets a file that
    cannot be written; the answer is status 500. *)
Lemma write_failure_is_not_success :
  Ledger.all_present Ledger.good_body = true
  /\ Server.post_save Ledger.plain_host (js "1/5/2026") (js "10:00 AM")
       Ledger.good_body Ledger.read_only_disk
     = ({| Server.status := 500;
           Server.json_body :=
             JObj [(js "error", JStr (js "Unable to save data."))] |},
        Ledger.read_only_disk).
Proof. split; vm_compute; reflexivity. Qed.

(** C7, amended.  The handler of [/save], on any file system and with
    whatever the reader and the writer of the [xlsx] package do.

    When the five fields of the body are non-blank strings: the directory
    is made, the workbook is read when the file exists and is a new one
    otherwise, one row is added to it, and it is written; the answer is
    status 200 with [success: true] when none of this throws, and status
    500 as soon as one step throws, the later steps not being made.

    When a field is missing, is not a string or is blank, the answer is
    status 400 and the file system is not touched.

    The row: the workbook that is written holds, in its sheet [Sheet1],
    one row more than the sheet with its header row in place; Box Number,
    Product, Operator Name, Chip Destination, Date, Time and Net Weight
    are in this order in the columns A to G of the row below the last row
    of the sheet's range, the fields trimmed; no other cell differs, the
    range ends one row further down, and the other sheets are untouched.
    Adding the row throws only when the workbook does not hold [Sheet1]
    and yet lists it, or has 65535 sheets.

    The header row: a workbook without [Sheet1] gets a sheet of the
    seven headers in A1 to G1; in a sheet that is there, the seven headers
    are written over A1 to G1 when the sheet has no range or its first row
    does not match, all other cells staying, and the sheet is left as it is
    when the first row matches.  The first row matches when the range has
    at least seven columns and the cells of row 1 in the first seven
    columns of the range are texts that, trimmed and in lower case, are
    the seven headers in lower case; cells further right play no part. *)
Theorem save_endpoint :
  forall (h : Server.host) (date time : jsstring) (body : option json)
         (d : Server.disk h),
    let values := Ledger.submitted_values date time body in
    let d1 := snd (Server.mkdirSync h d) in
    (Ledger.all_present body = true ->
     Server.post_save h date time body d
     = match fst (Server.mkdirSync h d), fst (Server.loadWorkbook h d1) with
       | Some _, Some wb =>
           match Server.add_row values wb with
           | Some written =>
               (match fst (Server.writeFile h written d1) with
                | Some _ => Ledger.success
                | None => Ledger.unable_to_save
                end, snd (Server.writeFile h written d1))
           | None => (Ledger.unable_to_save, d1)
           end
       | _, _ => (Ledger.unable_to_save, d1)
       end)
    /\ (Ledger.all_present body = false ->
        Server.status (fst (Server.post_save h date time body d)) = 400%nat
        /\ snd (Server.post_save h date time body d) = d)
    /\ (forall wb : Server.workbook,
          match Server.getOrCreateWorksheet wb with
          | Some (ws, _) =>
              exists rg written ws',
                Server.ref ws = Some rg
                /\ Server.add_row values wb = Some written
                /\ Server.sheet written Server.SHEET_NAME = Some ws'
                /\ Server.ref ws'
                   = Some {| Server.s_r :=
                               N.min (Server.s_r rg) (Server.e_r rg + 1);
                             Server.s_c := 0;
                             Server.e_r := Server.e_r rg + 1;
                             Server.e_c := Server.e_c rg |}
                /\ Ledger.cells_from ws' (Server.e_r rg + 1) 0 7
                   = Ledger.texts values
                /\ (forall r c, r <> Server.e_r rg + 1 \/ 7 <= c ->
                                Server.cell ws' r c = Server.cell ws r c)
                /\ (forall name, str_eqb name Server.SHEET_NAME = false ->
                                 Server.sheet written name
                                 = Server.sheet wb name)
          | None =>
              Server.add_row values wb = None
              /\ Server.sheet wb Server.SHEET_NAME = None
              /\ (65535 <= N.of_nat (List.length (Server.SheetNames wb))
                  \/ In Server.SHEET_NAME (Server.SheetNames wb))
          end)
    /\ (forall wb : Server.workbook,
          match Server.sheet wb Server.SHEET_NAME with
          | Some found =>
              exists ws,
                Server.getOrCreateWorksheet wb
                = Some (ws, Server.set_sheet Server.SHEET_NAME ws wb)
                /\ if Server.headersMatch Server.HEADERS
                        (Server.sheet_to_json_first found)
                   then ws = found
                   else
                     Server.ref ws
                     = Some {| Server.s_r := 0;
                               Server.s_c := 0;
                               Server.e_r := Server.e_r (Server.range_of found);
                               Server.e_c :=
                                 N.max (Server.e_c (Server.range_of found)) 6 |}
                     /\ Ledger.cells_from ws 0 0 7
                        = Ledger.texts Server.HEADERS
                     /\ (forall r c, r <> 0 \/ 7 <= c ->
                                     Server.cell ws r c
                                     = Server.cell found r c)
          | None =>
              forall ws wb',
                Server.getOrCreateWorksheet wb = Some (ws, wb') ->
                Server.ref ws
                = Some {| Server.s_r := 0; Server.s_c := 0;
                          Server.e_r := 0; Server.e_c := 6 |}
                /\ Ledger.cells_from ws 0 0 7 = Ledger.texts Server.HEADERS
                /\ (forall r c, r <> 0 \/ 7 <= c -> Server.cell ws r c = None)
                /\ Server.SheetNames wb'
                   = Server.SheetNames wb ++ [Server.SHEET_NAME]
          end)
    /\ (forall ws : Server.worksheet,
          Server.headersMatch Server.HEADERS (Server.sheet_to_json_first ws)
          = true
          <-> exists rg,
                Server.ref ws = Some rg
                /\ Server.s_c rg + 6 <= Server.e_c rg
                /\ map Server.normalizeHeaderValue
                       (Ledger.cells_from ws 0 (Server.s_c rg) 7)
                   = map Server.toLowerCase Server.HEADERS).
Proof.
  intros h date time body d values d1.
  split; [|split; [|split; [|split]]].
  - intros Hall. apply (post_save_present h date time body d Hall).
  - intros Hall. unfold Server.post_save.
    destruct (Server.missing (Server.validatePayload body)) eqn:Hm.
    + apply nothing_missing in Hm. congruence.
    + split; reflexivity.
  - intros wb.
    destruct (Server.getOrCreateWorksheet wb) as [[ws wb']|] eqn:Hg.
    + destruct (add_row_spec values wb wb' ws eq_refl Hg)
        as (rg & written & ws' & H1 & _ & H2 & _ & H3 & H4 & H5 & H6 & H7).
      exists rg, written, ws'. repeat split; assumption.
    + split; [unfold Server.add_row; now rewrite Hg|].
      now apply getOrCreateWorksheet_throws.
  - intros wb.
    destruct (Server.sheet wb Server.SHEET_NAME) as [found|] eqn:Hf.
    + eexists. split; [apply (getOrCreateWorksheet_found wb found Hf)|].
      destruct (Server.headersMatch Server.HEADERS
                  (Server.sheet_to_json_first found)); [reflexivity|].
      apply (sheet_add_aoa_A1_spec found (js "Box Number")
               (tl Server.HEADERS)).
    + intros ws wb'. unfold Server.getOrCreateWorksheet,
        Server.book_append_sheet. rewrite Hf.
      destruct (_ || _); [discriminate|].
      intros H. inversion H as [[Hws Hwb]]. clear H.
      cbn [Server.SheetNames].
      destruct (sheet_add_aoa_A1_spec {| Server.ref := None;
                                         Server.cells := [] |}
                  (js "Box Number") (tl Server.HEADERS))
        as (_ & Hcells & Hrest).
      split; [vm_compute; reflexivity|].
      split; [vm_compute; reflexivity|].
      split; [|reflexivity].
      intros r c Hrc.
      change (Server.aoa_to_sheet Server.HEADERS)
        with (Server.with_range None
                (Server.add_values 0 0 Server.HEADERS (Server.no_range, []))).
      unfold Server.cell, Server.with_range. cbn [Server.cells].
      rewrite lookup_add_values. cbn [snd Server.lookup].
      destruct (N.eqb_spec r 0) as [-> | Hr]; [|reflexivity].
      cbn [andb]. destruct (N.leb_spec 0 c); [|lia]. cbn [andb].
      change (List.length Server.HEADERS) with 7%nat.
      destruct (N.ltb_spec c (0 + N.of_nat 7)); [lia | reflexivity].
  - apply header_found.
Qed.

Lemma save_endpoint_witness :
  exists wb ws,
    Server.post_save Ledger.plain_host (js "1/5/2026") (js "10:00 AM")
      Ledger.good_body Ledger.empty_disk
    = (Ledger.success,
       {| Ledger.mkdir_ok := true;
          Ledger.file := Ledger.Workbook wb;
          Ledger.write_ok := true |})
    /\ Server.SheetNames wb = [Server.SHEET_NAME]
    /\ Server.sheet wb Server.SHEET_NAME = Some ws
    /\ Server.ref ws
       = Some {| Server.s_r := 0; Server.s_c := 0;
                 Server.e_r := 1; Server.e_c := 6 |}
    /\ Ledger.cells_from ws 0 0 7 = Ledger.texts Server.HEADERS
    /\ Ledger.cells_from ws 1 0 7
       = Ledger.texts [js "A1B2"; js "Resin-X"; js "Jane Doe"; js "Line 1";
                       js "1/5/2026"; js "10:00 AM"; js "12.5"].
Proof.
  eexists. eexists. split.
  - rewrite (proj1 (save_endpoint Ledger.plain_host (js "1/5/2026")
                      (js "10:00 AM") Ledger.good_body Ledger.empty_disk)
               eq_refl).
    reflexivity.
  - split; [reflexivity|]. split; [reflexivity|].
    split; [reflexivity|]. split; vm_compute; reflexivity.
Defined.


(** ** Rounding to binary64 *)

Section Rounding.

Local Open Scope Z_scope.

Lemma pow2_pos (k : Z) : 0 <= k -> 0 < 2 ^ k.
Proof. intros. apply Z.pow_pos_nonneg; lia. Qed.

Lemma scale_up_pos (x k : Z) : 0 < x -> 0 < scale_up x k.
Proof.
  intros Hx. unfold scale_up. destruct (0 <=? k) eqn:Hk; [|exact Hx].
  apply Z.leb_le in Hk. pose proof (pow2_pos k Hk). nia.
Qed.

(** [at_least_pow2 p q l] compares [p/q] with [2^l]. *)
Lemma at_least_pow2_spec (p q l S : Z) :
  0 <= S -> 0 <= l + S ->
  at_least_pow2 p q l = true <-> q * 2 ^ (l + S) <= p * 2 ^ S.
Proof.
  intros HS HlS. unfold at_least_pow2, scale_up. rewrite Z.leb_le.
  destruct (0 <=? l) eqn:Hl; [apply Z.leb_le in Hl | apply Z.leb_gt in Hl].
  - assert (Hp : (if 0 <=? - l then p * 2 ^ (- l) else p) = p).
    { destruct (0 <=? - l) eqn:Hl'; [|reflexivity].
      apply Z.leb_le in Hl'. replace (- l) with 0 by lia. simpl. lia. }
    rewrite Hp. rewrite Z.pow_add_r by lia.
    rewrite Z.mul_assoc.
    apply Z.mul_le_mono_pos_r. now apply pow2_pos.
  - destruct (0 <=? - l) eqn:Hl'; [|apply Z.leb_gt in Hl'; lia].
    replace (2 ^ S) with (2 ^ (- l) * 2 ^ (l + S)).
    2:{ rewrite <- Z.pow_add_r by lia. f_equal. lia. }
    rewrite Z.mul_assoc.
    apply Z.mul_le_mono_pos_r. apply pow2_pos. lia.
Qed.

Lemma at_least_pow2_mono (p q l l' : Z) :
  0 < q -> l <= l' ->
  at_least_pow2 p q l' = true -> at_least_pow2 p q l = true.
Proof.
  intros Hq Hll H.
  set (S := Z.abs l + Z.abs l').
  apply (at_least_pow2_spec p q l' S) in H; [|lia|lia].
  apply (at_least_pow2_spec p q l S); [lia|lia|].
  eapply Z.le_trans; [|exact H].
  apply Z.mul_le_mono_nonneg_l; [lia|].
  apply Z.pow_le_mono_r; lia.
Qed.

Lemma floor_log2_spec (p q : Z) :
  0 < p -> 0 < q ->
  at_least_pow2 p q (floor_log2 p q) = true
  /\ at_least_pow2 p q (floor_log2 p q + 1) = false.
Proof.
  intros Hp Hq. unfold floor_log2. cbv zeta.
  pose proof (Z.log2_spec p Hp) as [Hp1 Hp2].
  pose proof (Z.log2_spec q Hq) as [Hq1 Hq2].
  pose proof (Z.log2_nonneg p) as Ha. pose proof (Z.log2_nonneg q) as Hb.
  set (a := Z.log2 p) in *. set (b := Z.log2 q) in *.
  assert (Hlow : at_least_pow2 p q (a - b - 1) = true).
  { apply (at_least_pow2_spec p q _ (b + 1)); [lia|lia|].
    replace (a - b - 1 + (b + 1)) with a by lia.
    replace (Z.succ b) with (b + 1) in Hq2 by lia.
    pose proof (pow2_pos a Ha). nia. }
  assert (Hhigh : at_least_pow2 p q (a - b + 1) = false).
  { apply not_true_is_false. intros H.
    apply (at_least_pow2_spec p q _ b) in H; [|lia|lia].
    replace (a - b + 1 + b) with (Z.succ a) in H by lia.
    pose proof (pow2_pos b Hb). nia. }
  destruct (at_least_pow2 p q (a - b)) eqn:Hmid.
  - split; [exact Hmid | exact Hhigh].
  - split; [exact Hlow|]. replace (a - b - 1 + 1) with (a - b) by lia.
    exact Hmid.
Qed.

Lemma floor_log2_unique (p q L : Z) :
  0 < p -> 0 < q ->
  at_least_pow2 p q L = true -> at_least_pow2 p q (L + 1) = false ->
  floor_log2 p q = L.
Proof.
  intros Hp Hq H1 H2.
  destruct (floor_log2_spec p q Hp Hq) as [H3 H4].
  destruct (Z.lt_trichotomy (floor_log2 p q) L) as [Hlt|[Heq|Hgt]].
  - rewrite (at_least_pow2_mono p q (floor_log2 p q + 1) L) in H4;
      [discriminate | lia | lia | exact H1].
  - exact Heq.
  - rewrite (at_least_pow2_mono p q (L + 1) (floor_log2 p q)) in H2;
      [discriminate | lia | lia | exact H3].
Qed.

(** Comparing the scaled numerator and denominator of the rounding. *)
Lemma scaled_compare (p q E j : Z) :
  0 <= j ->
  at_least_pow2 p q (E + j) = true
  <-> scale_up q E * 2 ^ j <= scale_up p (- E).
Proof.
  intros Hj. unfold scale_up at 1 2.
  destruct (0 <=? E) eqn:HE; [apply Z.leb_le in HE | apply Z.leb_gt in HE].
  - assert (Hp : (if 0 <=? - E then p * 2 ^ (- E) else p) = p * 2 ^ 0).
    { destruct (0 <=? - E) eqn:HE'; [|simpl; lia].
      apply Z.leb_le in HE'. replace (- E) with 0 by lia. reflexivity. }
    rewrite Hp.
    rewrite (at_least_pow2_spec p q (E + j) 0) by lia.
    rewrite Z.add_0_r, Z.pow_add_r by lia. rewrite Z.mul_assoc. reflexivity.
  - destruct (0 <=? - E) eqn:HE'; [|apply Z.leb_gt in HE'; lia].
    rewrite (at_least_pow2_spec p q (E + j) (- E)) by lia.
    replace (E + j + - E) with j by lia. reflexivity.
Qed.

(** The comparison depends on the ratio only. *)
Lemma ratio_at_least_pow2 (p q p' q' l : Z) :
  0 < q -> 0 < q' -> p * q' = p' * q ->
  at_least_pow2 p q l = at_least_pow2 p' q' l.
Proof.
  intros Hq Hq' Heq. apply Bool.eq_iff_eq_true.
  rewrite (at_least_pow2_spec p q l (Z.abs l)) by lia.
  rewrite (at_least_pow2_spec p' q' l (Z.abs l)) by lia.
  assert (HX : 0 < 2 ^ (l + Z.abs l)) by (apply pow2_pos; lia).
  assert (HY : 0 < 2 ^ Z.abs l) by (apply pow2_pos; lia).
  set (X := 2 ^ (l + Z.abs l)) in *. set (Y := 2 ^ Z.abs l) in *.
  split; intros H.
  - apply (Z.mul_le_mono_pos_l _ _ q Hq).
    replace (q * (p' * Y)) with (q' * (p * Y)) by nia.
    replace (q * (q' * X)) with (q' * (q * X)) by ring.
    apply Z.mul_le_mono_nonneg_l; lia.
  - apply (Z.mul_le_mono_pos_l _ _ q' Hq').
    replace (q' * (p * Y)) with (q * (p' * Y)) by nia.
    replace (q' * (q * X)) with (q * (q' * X)) by ring.
    apply Z.mul_le_mono_nonneg_l; lia.
Qed.

Lemma ratio_floor_log2 (p q p' q' : Z) :
  0 < p -> 0 < q -> 0 < p' -> 0 < q' -> p * q' = p' * q ->
  floor_log2 p q = floor_log2 p' q'.
Proof.
  intros Hp Hq Hp' Hq' Heq.
  destruct (floor_log2_spec p' q' Hp' Hq') as [H1 H2].
  apply floor_log2_unique; try assumption.
  - rewrite (ratio_at_least_pow2 p q p' q') by assumption. exact H1.
  - rewrite (ratio_at_least_pow2 p q p' q') by assumption. exact H2.
Qed.

(** The mantissa before rounding lies below [2^53], and from [2^52] on
    when the value is normal. *)
Lemma round_binary64_bounds (p q : Z) :
  0 < p -> 0 < q ->
  let E := Z.max (floor_log2 p q - 52) (-1074) in
  let num := scale_up p (- E) in
  let den := scale_up q E in
  0 < den /\ 0 <= num / den /\ num / den < 2 ^ 53
  /\ (-1074 <= floor_log2 p q - 52 -> 2 ^ 52 <= num / den).
Proof.
  intros Hp Hq E num den.
  destruct (floor_log2_spec p q Hp Hq) as [H1 H2].
  assert (Hden : 0 < den) by (apply scale_up_pos; exact Hq).
  assert (Hnum : 0 < num) by (apply scale_up_pos; exact Hp).
  split; [exact Hden|]. split; [apply Z.div_pos; lia|]. split.
  - apply Z.div_lt_upper_bound; [exact Hden|].
    destruct (Z.le_gt_cases (den * 2 ^ 53) num) as [Hle|Hgt]; [|lia].
    apply (proj2 (scaled_compare p q E 53 ltac:(lia))) in Hle.
    rewrite (at_least_pow2_mono p q (floor_log2 p q + 1) (E + 53)) in H2;
      [discriminate | exact Hq | lia | exact Hle].
  - intros Hn. apply Z.div_le_lower_bound; [exact Hden|].
    apply (proj1 (scaled_compare p q E 52 ltac:(lia))).
    replace (E + 52) with (floor_log2 p q) by lia. exact H1.
Qed.

(** What the rounding returns is a binary64 value with the sign asked
    for. *)
Lemma round_binary64_canonical (neg : bool) (p q : Z) :
  0 < p -> 0 < q ->
  match round_binary64 neg p q with
  | NaN => False
  | Infinity s | Zero s => s = neg
  | Finite s m e => s = neg /\ canonical m e = true
  end.
Proof.
  intros Hp Hq.
  pose proof (round_binary64_bounds p q Hp Hq) as H. cbv zeta in H.
  destruct H as (Hden & H0 & Hub & Hlb).
  unfold round_binary64. cbv zeta.
  set (l := floor_log2 p q) in *.
  set (E := Z.max (l - 52) (-1074)) in *.
  set (num := scale_up p (- E)) in *. set (den := scale_up q E) in *.
  set (M := num / den) in *.
  set (m1 := if 2 * (num mod den) <? den then M
             else if den <? 2 * (num mod den) then M + 1
             else if Z.even M then M else M + 1).
  assert (Hm1 : m1 = M \/ m1 = M + 1).
  { unfold m1. destruct (_ <? _); [now left|].
    destruct (_ <? _); [now right|]. destruct (Z.even M); auto. }
  assert (H53 : 2 ^ 53 = 9007199254740992) by reflexivity.
  assert (H52 : 2 ^ 52 = 4503599627370496) by reflexivity.
  assert (HE : -1074 <= E) by lia.
  destruct (m1 =? 2 ^ 53) eqn:Hc;
    [apply Z.eqb_eq in Hc | apply Z.eqb_neq in Hc].
  - change (2 ^ 52) with (Z.pos 4503599627370496).
    cbv iota. destruct (971 <? E + 1) eqn:Hov; [reflexivity|].
    apply Z.ltb_ge in Hov. split; [reflexivity|].
    unfold canonical.
    repeat (apply andb_true_iff; split); try (apply Z.ltb_lt; lia);
      try (apply Z.leb_le; lia).
    apply orb_true_iff. left. apply Z.leb_le. lia.
  - destruct m1 as [|m'|m'] eqn:Hm; [reflexivity | | reflexivity].
    destruct (971 <? E) eqn:Hov; [reflexivity|].
    apply Z.ltb_ge in Hov. split; [reflexivity|].
    unfold canonical.
    repeat (apply andb_true_iff; split); try (apply Z.ltb_lt; lia);
      try (apply Z.leb_le; lia).
    apply orb_true_iff.
    destruct (Z.le_gt_cases (-1074) (l - 52)) as [Hn|Hs].
    + left. apply Z.leb_le. specialize (Hlb Hn). lia.
    + right. apply Z.eqb_eq. lia.
Qed.

Lemma scale_up_nonneg (x k : Z) : 0 <= k -> scale_up x k = x * 2 ^ k.
Proof. intros H. unfold scale_up. apply Z.leb_le in H. now rewrite H. Qed.

Lemma scale_up_nonpos (x k : Z) : k <= 0 -> scale_up x k = x.
Proof.
  intros H. unfold scale_up. destruct (0 <=? k) eqn:Hk; [|reflexivity].
  apply Z.leb_le in Hk. replace k with 0 by lia. simpl. lia.
Qed.

Lemma canonical_spec (m : positive) (e : Z) :
  canonical m e = true ->
  Z.pos m < 2 ^ 53 /\ -1074 <= e <= 971
  /\ (2 ^ 52 <= Z.pos m \/ e = -1074).
Proof.
  unfold canonical. intros H.
  apply andb_true_iff in H. destruct H as [H1 H2].
  apply andb_true_iff in H1. destruct H1 as [H1 H3].
  apply andb_true_iff in H1. destruct H1 as [H1 H4].
  apply Z.ltb_lt in H1. apply Z.leb_le in H3, H4.
  apply orb_true_iff in H2. rewrite Z.leb_le, Z.eqb_eq in H2.
  repeat split; assumption.
Qed.

(** [floor_log2] of the value [m * 2^e]. *)
Lemma floor_log2_binary (m : positive) (e : Z) :
  floor_log2 (scale_up (Z.pos m) e) (scale_up 1 (- e))
  = Z.log2 (Z.pos m) + e.
Proof.
  pose proof (Z.log2_spec (Z.pos m) eq_refl) as [Hl1 Hl2].
  pose proof (Z.log2_nonneg (Z.pos m)) as Hl.
  set (a := Z.log2 (Z.pos m)) in *.
  replace (Z.succ a) with (a + 1) in Hl2 by lia.
  apply floor_log2_unique.
  - apply scale_up_pos. reflexivity.
  - apply scale_up_pos. reflexivity.
  - apply (at_least_pow2_spec _ _ _ (Z.abs e)); [lia|lia|].
    destruct (Z.le_gt_cases 0 e) as [He|He].
    + rewrite (scale_up_nonneg (Z.pos m) e), (scale_up_nonpos 1 (- e)) by lia.
      replace (a + e + Z.abs e) with (a + (e + Z.abs e)) by lia.
      rewrite Z.pow_add_r by lia. rewrite (Z.pow_add_r 2 e) by lia.
      pose proof (pow2_pos e He). pose proof (pow2_pos (Z.abs e)).
      nia.
    + rewrite (scale_up_nonpos (Z.pos m) e), (scale_up_nonneg 1 (- e)) by lia.
      replace (a + e + Z.abs e) with a by lia.
      replace (Z.abs e) with (- e) by lia.
      pose proof (pow2_pos (- e)). nia.
  - apply not_true_is_false. intros H.
    apply (at_least_pow2_spec _ _ _ (Z.abs e)) in H; [|lia|lia].
    destruct (Z.le_gt_cases 0 e) as [He|He].
    + rewrite (scale_up_nonneg (Z.pos m) e), (scale_up_nonpos 1 (- e)) in H by lia.
      replace (a + e + 1 + Z.abs e) with ((a + 1) + (e + Z.abs e)) in H by lia.
      rewrite Z.pow_add_r in H by lia. rewrite (Z.pow_add_r 2 e) in H by lia.
      pose proof (pow2_pos e He). pose proof (pow2_pos (Z.abs e)).
      nia.
    + rewrite (scale_up_nonpos (Z.pos m) e), (scale_up_nonneg 1 (- e)) in H by lia.
      replace (a + e + 1 + Z.abs e) with (a + 1) in H by lia.
      replace (Z.abs e) with (- e) in H by lia.
      pose proof (pow2_pos (- e)). nia.
Qed.

(** A ratio equal to a binary64 value rounds to that value. *)
Lemma round_binary64_exact (neg : bool) (m : positive) (e p q : Z) :
  canonical m e = true -> 0 < p -> 0 < q ->
  p * scale_up 1 (- e) = scale_up (Z.pos m) e * q ->
  round_binary64 neg p q = Finite neg m e.
Proof.
  intros Hc Hp Hq Heq.
  apply canonical_spec in Hc. destruct Hc as (Hm & He & Hn).
  assert (H53 : 2 ^ 53 = 9007199254740992) by reflexivity.
  assert (H52 : 2 ^ 52 = 4503599627370496) by reflexivity.
  assert (Hl : floor_log2 p q = Z.log2 (Z.pos m) + e).
  { rewrite <- floor_log2_binary.
    apply ratio_floor_log2; try assumption; apply scale_up_pos; reflexivity. }
  assert (Hlog : Z.log2 (Z.pos m) < 53).
  { apply Z.log2_lt_pow2; [reflexivity | exact Hm]. }
  assert (Hlog' : 2 ^ 52 <= Z.pos m -> 52 <= Z.log2 (Z.pos m)).
  { intros H. apply Z.log2_le_pow2; [reflexivity | exact H]. }
  assert (HE : Z.max (floor_log2 p q - 52) (-1074) = e).
  { rewrite Hl. destruct Hn as [Hn|Hn]; [specialize (Hlog' Hn)|]; lia. }
  unfold round_binary64. cbv zeta. rewrite HE.
  assert (Hden : 0 < scale_up q e) by (apply scale_up_pos; exact Hq).
  assert (Hnum : scale_up p (- e) = Z.pos m * scale_up q e).
  { destruct (Z.le_gt_cases 0 e) as [H0|H0].
    - rewrite (scale_up_nonpos p), (scale_up_nonneg q) by lia.
      rewrite (scale_up_nonpos 1 (- e)), (scale_up_nonneg (Z.pos m) e) in Heq by lia. lia.
    - rewrite (scale_up_nonneg p), (scale_up_nonpos q) by lia.
      rewrite (scale_up_nonneg 1 (- e)), (scale_up_nonpos (Z.pos m) e) in Heq by lia. lia. }
  rewrite Hnum. rewrite Z.div_mul, Z.mod_mul by lia.
  replace (2 * 0 <? scale_up q e) with true by (symmetry; apply Z.ltb_lt; lia).
  replace (Z.pos m =? 2 ^ 53) with false by (symmetry; apply Z.eqb_neq; lia).
  replace (971 <? e) with false by (symmetry; apply Z.ltb_ge; lia).
  reflexivity.
Qed.

Lemma number_eqb_eq (a b : number) : number_eqb a b = true -> a = b.
Proof.
  destruct a as [|s|s|s m e], b as [|t|t|t n f]; simpl;
    try discriminate; try reflexivity.
  - intros H. apply Bool.eqb_prop in H. now subst.
  - intros H. apply Bool.eqb_prop in H. now subst.
  - intros H. apply andb_true_iff in H. destruct H as [H H3].
    apply andb_true_iff in H. destruct H as [H1 H2].
    apply Bool.eqb_prop in H1. apply Pos.eqb_eq in H2. apply Z.eqb_eq in H3.
    now subst.
Qed.

Lemma of_decimal_pos (neg : bool) (s d : Z) :
  0 < s ->
  of_decimal neg (Z.to_N s) d
  = if 0 <=? d then round_binary64 neg (s * 10 ^ d) 1
    else round_binary64 neg s (10 ^ (- d)).
Proof. intros H. destruct s; try lia. reflexivity. Qed.

Lemma of_decimal_Finite_pos (neg s : bool) (n : N) (d : Z) (m : positive) (e : Z) :
  of_decimal neg n d = Finite s m e -> (0 < n)%N.
Proof. destruct n; [discriminate | lia]. Qed.

(** The decimal equal to a binary64 value reads back as that value. *)
Lemma exact_rounds_back (m : positive) (e : Z) :
  canonical m e = true ->
  0 < fst (exact m e)
  /\ of_decimal false (Z.to_N (fst (exact m e))) (snd (exact m e))
     = Finite false m e.
Proof.
  intros Hc. unfold exact.
  destruct (0 <=? e) eqn:He; [apply Z.leb_le in He | apply Z.leb_gt in He];
    cbn [fst snd].
  - pose proof (pow2_pos e He) as H2.
    assert (Hs : 0 < Z.pos m * 2 ^ e) by nia.
    split; [exact Hs|]. rewrite (of_decimal_pos _ _ _ Hs).
    change (0 <=? 0) with true. cbv iota.
    apply round_binary64_exact; try assumption; try lia.
    rewrite (scale_up_nonpos 1 (- e)), (scale_up_nonneg (Z.pos m) e) by lia.
    change (10 ^ 0) with 1. ring.
  - assert (H5 : 0 < 5 ^ (- e)) by (apply Z.pow_pos_nonneg; lia).
    assert (Hs : 0 < Z.pos m * 5 ^ (- e)) by nia.
    split; [exact Hs|]. rewrite (of_decimal_pos _ _ _ Hs).
    replace (0 <=? e) with false by (symmetry; apply Z.leb_gt; lia).
    apply round_binary64_exact; try assumption.
    + apply Z.pow_pos_nonneg; lia.
    + rewrite (scale_up_nonneg 1 (- e)), (scale_up_nonpos (Z.pos m) e) by lia.
      change 10 with (2 * 5). rewrite Z.pow_mul_l. ring.
Qed.

(** The digits and exponent chosen for a binary64 value read back as that
    value. *)
Lemma shortest_rounds_back (m : positive) (e : Z) (fuel : nat) :
  canonical m e = true ->
  forall k,
    0 < fst (shortest m e fuel k)
    /\ of_decimal false (Z.to_N (fst (shortest m e fuel k)))
                  (snd (shortest m e fuel k))
       = Finite false m e.
Proof.
  intros Hc.
  assert (Hacc : forall k c, acceptable m e k c = true ->
            0 < fst c
            /\ of_decimal false (Z.to_N (fst c)) (snd c) = Finite false m e).
  { intros k c H. unfold acceptable in H. apply andb_true_iff in H.
    destruct H as [_ H]. unfold rounds_back in H.
    apply number_eqb_eq in H. split; [|exact H].
    apply of_decimal_Finite_pos in H. lia. }
  induction fuel as [|f IH]; intros k.
  - apply exact_rounds_back. exact Hc.
  - cbn [shortest]. cbv zeta.
    match goal with
    | |- context [acceptable m e k ?b] =>
        match goal with
        | |- context [match acceptable m e k b with
                      | true => if acceptable m e k ?a then _ else _
                      | false => _ end] =>
            destruct (acceptable m e k b) eqn:Hb;
            destruct (acceptable m e k a) eqn:Ha
        end
    end.
    + repeat match goal with |- context [if ?c then _ else _] =>
               destruct c end;
        first [apply (Hacc k _ Hb) | apply (Hacc k _ Ha)].
    + apply (Hacc k _ Hb).
    + apply (Hacc k _ Ha).
    + apply IH.
Qed.

End Rounding.

(** ** Decimal digits *)

Section Digits.

Local Open Scope N_scope.

Lemma digits_value_acc (ds : jsstring) (acc : N) :
  fold_left (fun a c => 10 * a + (c - 48)) ds acc
  = acc * 10 ^ N.of_nat (List.length ds) + digits_value ds.
Proof.
  unfold digits_value. revert acc.
  induction ds as [|c r IH]; intros acc.
  - simpl. lia.
  - cbn [fold_left List.length]. rewrite IH. rewrite (IH (10 * 0 + (c - 48))).
    rewrite Nat2N.inj_succ, N.pow_succ_r'. lia.
Qed.

Lemma digits_value_app (a b : jsstring) :
  digits_value (a ++ b)
  = digits_value a * 10 ^ N.of_nat (List.length b) + digits_value b.
Proof.
  unfold digits_value at 1. rewrite fold_left_app.
  apply digits_value_acc.
Qed.

Lemma digits_value_zeros (z : Z) : digits_value (zeros z) = 0.
Proof.
  unfold zeros. induction (Z.to_nat z) as [|n IH]; [reflexivity|].
  cbn [repeat]. change (ch "0" :: repeat (ch "0") n)
    with ([ch "0"] ++ repeat (ch "0") n).
  rewrite digits_value_app, IH. reflexivity.
Qed.

Lemma length_zeros (z : Z) : List.length (zeros z) = Z.to_nat z.
Proof. apply repeat_length. Qed.

Lemma zeros_digits (z : Z) : forallb isDigit (zeros z) = true.
Proof.
  unfold zeros. induction (Z.to_nat z) as [|n IH]; [reflexivity|].
  cbn [repeat forallb]. rewrite IH. reflexivity.
Qed.

Lemma decimal_aux_spec (fuel : nat) :
  forall n acc,
    n < 2 ^ N.of_nat fuel -> fuel <> O ->
    exists d t,
      decimal_aux fuel n acc = d :: t ++ acc
      /\ forallb isDigit (d :: t) = true
      /\ digits_value (d :: t) = n
      /\ (0 < n -> d <> 48).
Proof.
  induction fuel as [|f IH]; intros n acc Hn Hf; [congruence|].
  cbn [decimal_aux]. cbv zeta.
  assert (Hmod : n mod 10 < 10) by (apply N.mod_lt; discriminate).
  pose proof (N.div_mod n 10 ltac:(discriminate)) as Hdm.
  assert (Hn' : n / 10 < 2 ^ N.of_nat f).
  { apply N.Div0.div_lt_upper_bound.
    rewrite Nat2N.inj_succ, N.pow_succ_r' in Hn. lia. }
  revert Hmod Hdm Hn'. generalize (n mod 10) (n / 10). intros r q Hmod Hdm Hn'.
  assert (Hdig : isDigit (48 + r) = true).
  { unfold isDigit. apply andb_true_iff.
    split; apply N.leb_le; lia. }
  destruct (q =? 0) eqn:Hq;
    [apply N.eqb_eq in Hq | apply N.eqb_neq in Hq].
  - exists (48 + r), []. cbn [app forallb]. rewrite Hdig.
    repeat split.
    + unfold digits_value. cbn [fold_left]. lia.
    + lia.
  - assert (Hf' : f <> O).
    { intros ->. simpl in Hn'. lia. }
    destruct (IH q ((48 + r) :: acc) Hn' Hf')
      as (d & t & Heq & Hds & Hval & Hhead).
    exists d, (t ++ [48 + r]).
    rewrite Heq. rewrite <- app_assoc. split; [reflexivity|].
    split; [|split].
    + change (d :: t ++ [48 + r]) with ((d :: t) ++ [48 + r]).
      rewrite forallb_app, Hds. cbn [forallb]. now rewrite Hdig.
    + change (d :: t ++ [48 + r]) with ((d :: t) ++ [48 + r]).
      rewrite digits_value_app, Hval.
      unfold digits_value. cbn [fold_left List.length].
      simpl N.of_nat. lia.
    + intros _. apply Hhead. lia.
Qed.

(** The decimal digits of a natural number: at least one, all digits, no
    leading zero unless the number is zero, and its value. *)
Lemma decimal_spec (n : N) :
  exists d t,
    decimal n = d :: t
    /\ forallb isDigit (d :: t) = true
    /\ digits_value (d :: t) = n
    /\ (0 < n -> d <> 48).
Proof.
  unfold decimal.
  destruct (decimal_aux_spec (S (N.to_nat (N.log2 n))) n []) as
    (d & t & Heq & H); [|discriminate|].
  - rewrite Nat2N.inj_succ, N2Nat.id.
    destruct (N.eq_dec n 0) as [->|Hn]; [reflexivity|].
    apply N.log2_spec. lia.
  - exists d, t. rewrite Heq, app_nil_r. split; [reflexivity | exact H].
Qed.

Lemma span_digits_stop (ds rest : jsstring) :
  forallb isDigit ds = true ->
  match rest with [] => True | c :: _ => isDigit c = false end ->
  span_digits (ds ++ rest) = (ds, rest).
Proof.
  intros Hds Hrest. induction ds as [|c r IH].
  - destruct rest as [|c r]; [reflexivity|]. cbn [app span_digits].
    now rewrite Hrest.
  - cbn [forallb] in Hds. apply andb_true_iff in Hds. destruct Hds as [Hc Hr].
    cbn [app span_digits]. rewrite Hc, (IH Hr). reflexivity.
Qed.

(** ** Reading back the text of a number *)

Lemma number_ends_spec (rest : jsstring) :
  number_ends rest = true ->
  match rest with
  | [] => True
  | c :: _ => isDigit c = false /\ (c =? ch ".") = false
              /\ (c =? ch "e") = false /\ (c =? ch "E") = false
  end.
Proof.
  destruct rest as [|c r]; [trivial|]. cbn [number_ends]. intros H.
  apply negb_true_iff in H.
  apply orb_false_iff in H. destruct H as [H H4].
  apply orb_false_iff in H. destruct H as [H H3].
  apply orb_false_iff in H. destruct H as [H1 H2].
  repeat split; assumption.
Qed.

Lemma number_ends_no_digit (rest : jsstring) :
  number_ends rest = true ->
  match rest with [] => True | c :: _ => isDigit c = false end.
Proof.
  intros H. apply number_ends_spec in H.
  destruct rest; [trivial | apply H].
Qed.

Lemma parse_fraction_none (rest : jsstring) :
  number_ends rest = true -> parse_fraction rest = Some ([], rest).
Proof.
  intros H. apply number_ends_spec in H.
  destruct rest as [|c r]; [reflexivity|].
  destruct H as (_ & H & _). cbn [parse_fraction]. now rewrite H.
Qed.

Lemma parse_fraction_point (fp rest : jsstring) :
  fp <> [] -> forallb isDigit fp = true ->
  match rest with [] => True | c :: _ => isDigit c = false end ->
  parse_fraction (ch "." :: fp ++ rest) = Some (fp, rest).
Proof.
  intros Hne Hd Hr. cbn [parse_fraction].
  change (ch "." =? ch ".") with true. cbv iota.
  rewrite (span_digits_stop fp rest Hd Hr).
  destruct fp; [congruence | reflexivity].
Qed.

Lemma parse_exponent_none (rest : jsstring) :
  number_ends rest = true -> parse_exponent rest = Some (0%Z, rest).
Proof.
  intros H. apply number_ends_spec in H.
  destruct rest as [|c r]; [reflexivity|].
  destruct H as (_ & _ & H1 & H2). cbn [parse_exponent].
  now rewrite H1, H2.
Qed.

Lemma parse_exponent_some (x : Z) (rest : jsstring) :
  match rest with [] => True | c :: _ => isDigit c = false end ->
  parse_exponent
    (ch "e" :: (if (x <? 0)%Z then ch "-" else ch "+")
            :: decimal (Z.to_N (Z.abs x)) ++ rest)
  = Some (x, rest).
Proof.
  intros Hr. cbn [parse_exponent].
  change ((ch "e" =? ch "e") || (ch "e" =? ch "E")) with true. cbv iota.
  destruct (decimal_spec (Z.to_N (Z.abs x))) as (d & t & Heq & Hd & Hv & _).
  assert (Hs : take_sign ((if (x <? 0)%Z then ch "-" else ch "+")
                           :: decimal (Z.to_N (Z.abs x)) ++ rest)
               = ((x <? 0)%Z, decimal (Z.to_N (Z.abs x)) ++ rest)).
  { destruct (x <? 0)%Z; reflexivity. }
  rewrite Hs. rewrite Heq, (span_digits_stop (d :: t) rest Hd Hr).
  cbn [is_empty]. rewrite Hv. f_equal. f_equal.
  destruct (x <? 0)%Z eqn:Hx;
    [apply Z.ltb_lt in Hx | apply Z.ltb_ge in Hx]; lia.
Qed.

Lemma span_digits_one (d : N) (rest : jsstring) :
  isDigit d = true ->
  match rest with [] => True | c :: _ => isDigit c = false end ->
  span_digits (d :: rest) = ([d], rest).
Proof.
  intros Hd Hr. apply (span_digits_stop [d] rest); [|exact Hr].
  cbn [forallb]. now rewrite Hd.
Qed.

Lemma of_decimal_shift (neg : bool) (s : N) (z : Z) :
  (0 <= z)%Z ->
  of_decimal neg (s * 10 ^ Z.to_N z) 0 = of_decimal neg s z.
Proof.
  intros Hz. destruct s as [|p]; [reflexivity|].
  unfold of_decimal.
  destruct (N.pos p * 10 ^ Z.to_N z) as [|p'] eqn:Hp.
  - exfalso. apply N.eq_mul_0 in Hp. destruct Hp as [Hp|Hp]; [discriminate|].
    apply N.pow_nonzero in Hp; [exact Hp | discriminate].
  - change (0 <=? 0)%Z with true. cbv iota.
    replace (0 <=? z)%Z with true by (symmetry; apply Z.leb_le; exact Hz).
    rewrite <- Hp. rewrite N2Z.inj_mul, N2Z.inj_pow, Z2N.id by exact Hz.
    change (10 ^ 0)%Z with 1%Z. rewrite Z.mul_1_r. reflexivity.
Qed.

(** The text of a decimal, in any of the four notations of
    Number::toString, reads back as the decimal. *)
Lemma parse_unsigned_format (neg : bool) (d : N) (t : jsstring) (n : Z)
    (rest : jsstring) :
  forallb isDigit (d :: t) = true -> d <> 48 ->
  number_ends rest = true ->
  parse_unsigned neg (format_decimal (d :: t) n ++ rest)
  = Some (of_decimal neg (digits_value (d :: t))
                     (n - Z.of_nat (List.length (d :: t))), rest).
Proof.
  intros Hds Hd Hrest.
  pose proof (number_ends_no_digit rest Hrest) as Hnd.
  assert (Hd' : (d =? 48) = false) by (apply N.eqb_neq; exact Hd).
  assert (Hdd : isDigit d = true).
  { cbn [forallb] in Hds. apply andb_true_iff in Hds. apply Hds. }
  assert (Ht : forallb isDigit t = true).
  { cbn [forallb] in Hds. apply andb_true_iff in Hds. apply Hds. }
  unfold format_decimal. cbv zeta.
  set (k := Z.of_nat (List.length (d :: t))).
  assert (Hk : (1 <= k)%Z) by (unfold k; cbn [List.length]; lia).
  destruct ((k <=? n)%Z && (n <=? 21)%Z) eqn:H1.
  { (* the digits followed by zeros *)
    apply andb_true_iff in H1. destruct H1 as [H1 _]. apply Z.leb_le in H1.
    unfold parse_unsigned.
    rewrite (span_digits_stop ((d :: t) ++ zeros (n - k)) rest).
    - cbn [app]. rewrite Hd'. cbn [andb].
      rewrite (parse_fraction_none rest Hrest).
      rewrite (parse_exponent_none rest Hrest).
      rewrite app_nil_r. cbn [List.length].
      change (d :: t ++ zeros (n - k)) with ((d :: t) ++ zeros (n - k)).
      rewrite digits_value_app, digits_value_zeros, length_zeros.
      rewrite N.add_0_r.
      replace (N.of_nat (Z.to_nat (n - k))) with (Z.to_N (n - k)) by lia.
      change (0 - Z.of_nat 0)%Z with 0%Z.
      rewrite of_decimal_shift by lia. reflexivity.
    - rewrite forallb_app, Hds, zeros_digits. reflexivity.
    - exact Hnd. }
  destruct ((0 <? n)%Z && (n <=? 21)%Z) eqn:H2.
  { (* a point inside the digits *)
    apply andb_true_iff in H2. destruct H2 as [H2 H2'].
    apply Z.ltb_lt in H2. apply Z.leb_le in H2'.
    assert (Hn : (n < k)%Z).
    { apply andb_false_iff in H1. rewrite Z.leb_gt in H1.
      destruct H1 as [H1|H1]; [exact H1|]. apply Z.leb_gt in H1. lia. }
    assert (Hjn : Z.of_nat (Z.to_nat n) = n) by lia.
    revert Hjn. generalize (Z.to_nat n). intros j Hjn.
    assert (Hj : (0 < j < List.length (d :: t))%nat) by (unfold k in Hn; lia).
    pose proof (firstn_skipn j (d :: t)) as Hfs.
    assert (Hfd : forallb isDigit (firstn j (d :: t)) = true
                  /\ forallb isDigit (skipn j (d :: t)) = true).
    { apply andb_true_iff. rewrite <- forallb_app, Hfs. exact Hds. }
    destruct Hfd as [Hf Hs].
    assert (Hsl : List.length (skipn j (d :: t))
                  = (List.length (d :: t) - j)%nat) by apply length_skipn.
    assert (Hsn : skipn j (d :: t) <> []).
    { intros E. rewrite E in Hsl. cbn [List.length] in Hsl, Hj. lia. }
    rewrite <- app_assoc. cbn [app]. unfold parse_unsigned.
    rewrite (span_digits_stop (firstn j (d :: t))
               (ch "." :: skipn j (d :: t) ++ rest) Hf eq_refl).
    destruct j as [|j']; [lia|]. cbn [firstn]. rewrite Hd'. cbn [andb].
    rewrite (parse_fraction_point _ rest Hsn Hs Hnd).
    rewrite (parse_exponent_none rest Hrest).
    change (d :: firstn j' t) with (firstn (S j') (d :: t)).
    rewrite Hfs, Hsl. f_equal. f_equal. f_equal. unfold k. lia. }
  destruct ((-6 <? n)%Z && (n <=? 0)%Z) eqn:H3.
  { (* zeros between the point and the digits *)
    apply andb_true_iff in H3. destruct H3 as [H3 H3'].
    apply Z.ltb_lt in H3. apply Z.leb_le in H3'.
    cbn [app]. unfold parse_unsigned.
    rewrite (span_digits_one (ch "0")
               (ch "." :: (zeros (- n) ++ d :: t) ++ rest) eq_refl eq_refl).
    cbn [is_empty negb andb]. rewrite andb_false_r.
    rewrite (parse_fraction_point (zeros (- n) ++ d :: t) rest).
    - rewrite (parse_exponent_none rest Hrest).
      f_equal. f_equal. f_equal.
      + change ([ch "0"] ++ zeros (- n) ++ d :: t)
          with (zeros 1 ++ zeros (- n) ++ d :: t).
        rewrite !digits_value_app, !digits_value_zeros. lia.
      + rewrite length_app, length_zeros. unfold k. lia.
    - intros E. apply app_eq_nil in E. destruct E as [_ E]. discriminate.
    - rewrite forallb_app, zeros_digits, Hds. reflexivity.
    - exact Hnd. }
  (* exponent notation *)
  set (x := (n - 1)%Z).
  destruct t as [|c t'].
  - cbn [app]. unfold parse_unsigned.
    match goal with
    | |- context [span_digits (d :: ?r)] =>
        rewrite (span_digits_one d r)
    end.
    + cbn [is_empty negb andb]. rewrite andb_false_r.
      cbn [parse_fraction]. change (ch "e" =? ch ".") with false. cbv iota.
      rewrite (parse_exponent_some x rest Hnd).
      f_equal. f_equal. f_equal. unfold x, k. cbn [List.length]. lia.
    + exact Hdd.
    + reflexivity.
  - cbn [app]. unfold parse_unsigned.
    match goal with
    | |- context [span_digits (d :: ?r)] =>
        rewrite (span_digits_one d r)
    end.
    + cbn [is_empty negb andb]. rewrite andb_false_r.
      rewrite <- app_assoc.
      change (ch "." :: c :: t' ++ ?r) with (ch "." :: (c :: t') ++ r).
      rewrite (parse_fraction_point (c :: t')); [|discriminate|exact Ht|reflexivity].
      cbn [app].
      rewrite (parse_exponent_some x rest Hnd).
      f_equal. f_equal. f_equal. unfold x, k. cbn [List.length]. lia.
    + exact Hdd.
    + reflexivity.
Qed.

Lemma of_decimal_binary64 (neg : bool) (n : N) (d : Z) :
  binary64 (of_decimal neg n d) = true.
Proof.
  destruct n as [|p]; [reflexivity|]. unfold of_decimal.
  assert (H10 : forall k, (0 < 10 ^ k \/ k < 0)%Z).
  { intros k. destruct (Z.le_gt_cases 0 k); [left|right; lia].
    apply Z.pow_pos_nonneg; lia. }
  destruct (0 <=? d)%Z eqn:Hd;
    [apply Z.leb_le in Hd | apply Z.leb_gt in Hd].
  - destruct (H10 d) as [H|H]; [|lia].
    pose proof (round_binary64_canonical neg (Z.of_N (N.pos p) * 10 ^ d) 1)
      as Hc.
    destruct (round_binary64 _ _ _); try reflexivity.
    apply Hc; [|reflexivity]. simpl Z.of_N. nia.
  - destruct (H10 (- d)%Z) as [H|H]; [|lia].
    pose proof (round_binary64_canonical neg (Z.of_N (N.pos p)) (10 ^ (- d)))
      as Hc.
    destruct (round_binary64 _ _ _); try reflexivity.
    apply Hc; [reflexivity | exact H].
Qed.

Lemma parse_unsigned_binary64 (neg : bool) (s : jsstring) (x : number)
    (r : jsstring) :
  parse_unsigned neg s = Some (x, r) -> binary64 x = true.
Proof.
  unfold parse_unsigned. destruct (span_digits s) as [ip s2].
  destruct ip as [|d ip']; [discriminate|].
  destruct ((d =? 48) && negb (is_empty ip')); [discriminate|].
  destruct (parse_fraction s2) as [[fp s3]|]; [|discriminate].
  destruct (parse_exponent s3) as [[e s4]|]; [|discriminate].
  intros [= <- _]. apply of_decimal_binary64.
Qed.

Lemma parse_number_binary64 (s : jsstring) (x : number) (r : jsstring) :
  parse_number s = Some (x, r) -> binary64 x = true.
Proof.
  unfold parse_number. destruct s as [|c t]; [discriminate|].
  destruct (c =? ch "-"); apply parse_unsigned_binary64.
Qed.

Lemma round_binary64_sign (neg : bool) (p q : Z) (m : positive) (e : Z) :
  round_binary64 false p q = Finite false m e ->
  round_binary64 neg p q = Finite neg m e.
Proof.
  unfold round_binary64. cbv zeta.
  set (E := Z.max (floor_log2 p q - 52) (-1074)%Z).
  set (num := scale_up p (- E)). set (den := scale_up q E).
  set (m1 := if (2 * (num mod den) <? den)%Z then (num / den)%Z
             else if (den <? 2 * (num mod den))%Z then (num / den + 1)%Z
             else if Z.even (num / den) then (num / den)%Z
                  else (num / den + 1)%Z).
  clearbody m1.
  destruct (m1 =? 2 ^ 53)%Z.
  - change (2 ^ 52)%Z with (Z.pos 4503599627370496). cbv iota.
    destruct (971 <? E + 1)%Z; [discriminate|].
    intros [= <- <-]. reflexivity.
  - destruct m1 as [|m'|m']; try discriminate.
    destruct (971 <? E)%Z; [discriminate|].
    intros [= <- <-]. reflexivity.
Qed.

Lemma of_decimal_sign (neg : bool) (n : N) (d : Z) (m : positive) (e : Z) :
  of_decimal false n d = Finite false m e ->
  of_decimal neg n d = Finite neg m e.
Proof.
  destruct n as [|p]; [discriminate|]. unfold of_decimal.
  destruct (0 <=? d)%Z; apply round_binary64_sign.
Qed.

(** The text of a decimal starts with a digit. *)
Lemma format_decimal_head (d : N) (t : jsstring) (n : Z) :
  isDigit d = true ->
  exists c r, format_decimal (d :: t) n = c :: r /\ isDigit c = true.
Proof.
  intros Hd. unfold format_decimal. cbv zeta.
  set (k := Z.of_nat (List.length (d :: t))).
  destruct ((k <=? n)%Z && (n <=? 21)%Z).
  { eexists _, _. split; [reflexivity | exact Hd]. }
  destruct ((0 <? n)%Z && (n <=? 21)%Z) eqn:H2.
  { apply andb_true_iff in H2. destruct H2 as [H2 _]. apply Z.ltb_lt in H2.
    destruct (Z.to_nat n) as [|j] eqn:Hj; [lia|].
    eexists _, _. split; [reflexivity | exact Hd]. }
  destruct ((-6 <? n)%Z && (n <=? 0)%Z).
  { eexists _, _. split; reflexivity. }
  destruct t; eexists _, _; (split; [reflexivity | exact Hd]).
Qed.

Lemma digit_not_minus (c : N) : isDigit c = true -> (c =? ch "-") = false.
Proof.
  unfold isDigit. intros H. apply andb_true_iff in H. destruct H as [H _].
  apply N.leb_le in H. apply N.eqb_neq. intros E. rewrite E in H.
  vm_compute in H. apply H. reflexivity.
Qed.

(** The text of a finite number, followed by something that ends a
    number, reads back as the number. *)
Lemma parse_Number_toString (neg : bool) (m : positive) (e : Z)
    (rest : jsstring) :
  canonical m e = true -> number_ends rest = true ->
  parse_number (Number_toString (Finite neg m e) ++ rest)
  = Some (Finite neg m e, rest).
Proof.
  intros Hc Hrest. unfold Number_toString.
  destruct (shortest_rounds_back m e 17 Hc 1%Z) as [Hs Hback].
  destruct (shortest m e 17 1) as [s d0]. cbn [fst snd] in Hs, Hback.
  destruct (decimal_spec (Z.to_N s)) as (d & t & Heq & Hds & Hv & Hhead).
  rewrite Heq.
  assert (Hd : d <> 48) by (apply Hhead; lia).
  assert (Hdd : isDigit d = true).
  { cbn [forallb] in Hds. apply andb_true_iff in Hds. apply Hds. }
  pose proof (parse_unsigned_format neg d t
                (d0 + Z.of_nat (List.length (d :: t))) rest Hds Hd Hrest)
    as Hp.
  rewrite Hv in Hp.
  replace (d0 + Z.of_nat (List.length (d :: t))
           - Z.of_nat (List.length (d :: t)))%Z with d0 in Hp by lia.
  rewrite (of_decimal_sign neg _ _ _ _ Hback) in Hp.
  destruct neg.
  - cbn [app]. unfold parse_number.
    change (ch "-" =? ch "-") with true. cbv iota. exact Hp.
  - cbn [app].
    destruct (format_decimal_head d t
                (d0 + Z.of_nat (List.length (d :: t))) Hdd)
      as (c & r & Hf & Hcd).
    rewrite Hf in Hp |- *. cbn [app] in Hp |- *. unfold parse_number.
    rewrite (digit_not_minus c Hcd). exact Hp.
Qed.

(** The text of a finite number starts with a minus sign or a digit. *)
Lemma Number_toString_head (x : number) :
  isFinite x = true ->
  exists c r,
    Number_toString x = c :: r /\ ((c =? ch "-") || isDigit c = true).
Proof.
  destruct x as [|s|s|s m e]; try discriminate; intros _.
  - exists (ch "0"), []. split; reflexivity.
  - unfold Number_toString.
    destruct (shortest m e 17 1) as [s0 d0].
    destruct (decimal_spec (Z.to_N s0)) as (d & t & Heq & Hds & _).
    rewrite Heq.
    assert (Hdd : isDigit d = true).
    { cbn [forallb] in Hds. apply andb_true_iff in Hds. apply Hds. }
    destruct s.
    + eexists _, _. split; reflexivity.
    + destruct (format_decimal_head d t
                  (d0 + Z.of_nat (List.length (d :: t))) Hdd)
        as (c & r & Hf & Hcd).
      rewrite Hf. exists c, r. split; [reflexivity|].
      rewrite Hcd. apply orb_true_r.
Qed.

End Digits.

(** ** The round trip through the store *)

(** *** String literals *)

Lemma hex_value_digit (n : N) :
  (n < 16)%N -> hex_value (hex_digit n) = Some n.
Proof.
  intros H. unfold hex_digit, hex_value.
  destruct (N.ltb_spec n 10).
  - replace ((48 <=? 48 + n) && (48 + n <=? 57))%N with true.
    + f_equal. lia.
    + symmetry. apply andb_true_iff. split; apply N.leb_le; lia.
  - replace ((48 <=? 87 + n) && (87 + n <=? 57))%N with false.
    + replace ((97 <=? 87 + n) && (87 + n <=? 102))%N with true.
      * f_equal. lia.
      * symmetry. apply andb_true_iff. split; apply N.leb_le; lia.
    + symmetry. apply andb_false_iff. right. apply N.leb_gt. lia.
Qed.

Lemma hex_digits_value (c : N) :
  (c < 65536)%N ->
  (c / 4096 mod 16 * 4096 + c / 256 mod 16 * 256 + c / 16 mod 16 * 16
   + c mod 16 = c)%N.
Proof.
  intros H.
  replace (c / 256)%N with (c / 16 / 16)%N
    by (now rewrite N.Div0.div_div).
  replace (c / 4096)%N with (c / 16 / 16 / 16)%N
    by (now rewrite !N.Div0.div_div).
  pose proof (N.div_mod c 16) as H0.
  pose proof (N.div_mod (c / 16) 16) as H1.
  pose proof (N.div_mod (c / 16 / 16) 16) as H2.
  assert (H3 : (c / 16 / 16 / 16 < 16)%N).
  { rewrite !N.Div0.div_div.
    apply N.Div0.div_lt_upper_bound. exact H. }
  rewrite (N.mod_small _ _ H3).
  generalize dependent (c mod 16)%N.
  generalize dependent (c / 16 mod 16)%N.
  generalize dependent (c / 16 / 16 mod 16)%N.
  generalize dependent (c / 16 / 16 / 16)%N.
  generalize dependent (c / 16 / 16)%N.
  generalize dependent (c / 16)%N.
  intros. lia.
Qed.

Lemma parse_unicode_escape (c : N) (tail : jsstring) :
  (c < 65536)%N ->
  parse_string_body (unicode_escape c ++ tail)
  = cons_fst c (parse_string_body tail).
Proof.
  intros H. unfold unicode_escape.
  cbn [app parse_string_body].
  change (92 =? 34)%N with false. change (92 =? 92)%N with true.
  change (ch "u" =? ch "u")%N with true. cbv iota.
  rewrite !hex_value_digit by (apply N.mod_lt; discriminate).
  now rewrite hex_digits_value.
Qed.

Lemma parse_literal_unit (c : N) (tail : jsstring) :
  (32 <= c)%N -> c <> 34%N -> c <> 92%N ->
  parse_string_body (c :: tail) = cons_fst c (parse_string_body tail).
Proof.
  intros H1 H2 H3. cbn [parse_string_body].
  apply N.eqb_neq in H2. apply N.eqb_neq in H3. rewrite H2, H3.
  replace (c <? 32)%N with false by (symmetry; apply N.ltb_ge; lia).
  reflexivity.
Qed.

Lemma parse_quote_unit (c : N) (tail : jsstring) :
  parse_string_body (quote_unit c ++ tail)
  = cons_fst c (parse_string_body tail).
Proof.
  unfold quote_unit.
  destruct (N.eqb_spec c 8); [subst; reflexivity|].
  destruct (N.eqb_spec c 9); [subst; reflexivity|].
  destruct (N.eqb_spec c 10); [subst; reflexivity|].
  destruct (N.eqb_spec c 12); [subst; reflexivity|].
  destruct (N.eqb_spec c 13); [subst; reflexivity|].
  destruct (N.eqb_spec c 34); [subst; reflexivity|].
  destruct (N.eqb_spec c 92); [subst; reflexivity|].
  destruct (N.ltb_spec c 32); [apply parse_unicode_escape; lia|].
  destruct (isHighSurrogate c || isLowSurrogate c) eqn:Hs.
  - apply parse_unicode_escape.
    unfold isHighSurrogate, isLowSurrogate in Hs.
    apply orb_true_iff in Hs as [Hs | Hs];
      apply andb_true_iff in Hs as [_ Hs]; apply N.leb_le in Hs; lia.
  - now apply parse_literal_unit.
Qed.

Lemma quote_body_cons (c : N) (s : jsstring) :
  quote_body (c :: s) =
  if isHighSurrogate c then
    match s with
    | d :: r' =>
        if isLowSurrogate d then c :: d :: quote_body r'
        else quote_unit c ++ quote_body s
    | [] => quote_unit c
    end
  else quote_unit c ++ quote_body s.
Proof. reflexivity. Qed.

Lemma parse_quote_body_step (s : jsstring) (rest : jsstring) :
  parse_string_body (quote_body s ++ 34%N :: rest) = Some (s, rest)
  /\ forall c,
      parse_string_body (quote_body (c :: s) ++ 34%N :: rest)
      = Some (c :: s, rest).
Proof.
  induction s as [|d s [IH1 IH2]].
  - split; [reflexivity|]. intros c. rewrite quote_body_cons.
    destruct (isHighSurrogate c);
      rewrite <- ?app_assoc, parse_quote_unit; reflexivity.
  - split; [apply IH2|]. intros c.
    rewrite (quote_body_cons c (d :: s)).
    destruct (isHighSurrogate c) eqn:Hc.
    + destruct (isLowSurrogate d) eqn:Hd.
      * unfold isHighSurrogate in Hc. unfold isLowSurrogate in Hd.
        apply andb_true_iff in Hc as [Hc1 Hc2].
        apply andb_true_iff in Hd as [Hd1 Hd2].
        apply N.leb_le in Hc1, Hc2, Hd1, Hd2.
        change ((c :: d :: quote_body s) ++ 34%N :: rest)
          with (c :: d :: (quote_body s ++ 34%N :: rest)).
        rewrite !parse_literal_unit by lia.
        now rewrite IH1.
      * rewrite <- app_assoc, parse_quote_unit. now rewrite IH2.
    + rewrite <- app_assoc, parse_quote_unit. now rewrite IH2.
Qed.

Lemma parse_QuoteJSONString (s rest : jsstring) :
  parse_string_body (quote_body s ++ 34%N :: rest) = Some (s, rest).
Proof. apply parse_quote_body_step. Qed.

(** *** Values *)

Lemma stringify_arr (l : list json) :
  stringify (JArr l) = ch "[" :: elements_text l ++ [ch "]"].
Proof. reflexivity. Qed.

Lemma stringify_obj (l : list (jsstring * json)) :
  stringify (JObj l) = ch "{" :: members_text l ++ [ch "}"].
Proof. reflexivity. Qed.

Lemma elements_text_cons (x y : json) (r : list json) :
  elements_text (x :: y :: r)
  = stringify x ++ ch "," :: elements_text (y :: r).
Proof. reflexivity. Qed.

Lemma members_text_cons (k : jsstring) (x : json) (kv : jsstring * json)
  (r : list (jsstring * json)) :
  members_text ((k, x) :: kv :: r)
  = QuoteJSONString k ++ ch ":" :: stringify x
    ++ ch "," :: members_text (kv :: r).
Proof. reflexivity. Qed.

Lemma parse_value_S (n : nat) (s : jsstring) :
  parse_value (S n) s =
  match skip_ws s with
  | [] => None
  | c :: r =>
      if (c =? ch "{")%N then
        match skip_ws r with
        | [] => None
        | c2 :: r2 =>
            if (c2 =? ch "}")%N then Some (JObj [], r2)
            else parse_members n [] (c2 :: r2)
        end
      else if (c =? ch "[")%N then
        match skip_ws r with
        | [] => None
        | c2 :: r2 =>
            if (c2 =? ch "]")%N then Some (JArr [], r2)
            else parse_elements n [] (c2 :: r2)
        end
      else if (c =? 34)%N then
        match parse_string_body r with
        | Some (str, r') => Some (JStr str, r')
        | None => None
        end
      else if starts_with (js "true") (c :: r) then
        Some (JBool true, skipn 4 (c :: r))
      else if starts_with (js "false") (c :: r) then
        Some (JBool false, skipn 5 (c :: r))
      else if starts_with (js "null") (c :: r) then
        Some (JNull, skipn 4 (c :: r))
      else
        match parse_number (c :: r) with
        | Some (x, r') => Some (JNum x, r')
        | None => None
        end
  end.
Proof. reflexivity. Qed.

Lemma parse_elements_S (n : nat) (acc : list json) (s : jsstring) :
  parse_elements (S n) acc s =
  match parse_value n s with
  | None => None
  | Some (v, r) =>
      match skip_ws r with
      | [] => None
      | c :: r' =>
          if (c =? ch ",")%N then parse_elements n (v :: acc) r'
          else if (c =? ch "]")%N then Some (JArr (rev (v :: acc)), r')
          else None
      end
  end.
Proof. reflexivity. Qed.

Lemma parse_members_S (n : nat) (acc : list (jsstring * json)) (s : jsstring) :
  parse_members (S n) acc s =
  match skip_ws s with
  | [] => None
  | q :: r =>
      if (q =? 34)%N then
        match parse_string_body r with
        | None => None
        | Some (k, r1) =>
            match skip_ws r1 with
            | [] => None
            | c :: r2 =>
                if (c =? ch ":")%N then
                  match parse_value n r2 with
                  | None => None
                  | Some (v, r3) =>
                      match skip_ws r3 with
                      | [] => None
                      | c' :: r4 =>
                          if (c' =? ch ",")%N then
                            parse_members n (set_prop k v acc) r4
                          else if (c' =? ch "}")%N then
                            Some (JObj (set_prop k v acc), r4)
                          else None
                      end
                  end
                else None
            end
        end
      else None
  end.
Proof. reflexivity. Qed.

Lemma skip_ws_head (c : N) (s : jsstring) :
  isJSONWhiteSpace c = false -> skip_ws (c :: s) = c :: s.
Proof. intros H. simpl. now rewrite H. Qed.

Lemma kept_number_finite (x : number) :
  RoundTrip.kept_number x = true -> isFinite x = true.
Proof. destruct x; try discriminate; reflexivity. Qed.

Lemma number_head_range (c : N) :
  ((c =? ch "-") || isDigit c)%N = true -> (45 <= c <= 57)%N.
Proof.
  intros H. apply orb_true_iff in H. destruct H as [H|H].
  - apply N.eqb_eq in H. subst c. vm_compute. split; discriminate.
  - unfold isDigit in H. apply andb_true_iff in H. destruct H as [H1 H2].
    apply N.leb_le in H1, H2. lia.
Qed.

Lemma number_head_not_whitespace (c : N) :
  (45 <= c <= 57)%N -> isJSONWhiteSpace c = false.
Proof.
  intros H. unfold isJSONWhiteSpace.
  repeat (apply orb_false_iff; split); apply N.eqb_neq; lia.
Qed.

(** A text that starts with a minus sign or a digit is read as a number. *)
Lemma parse_value_number (n : nat) (c : N) (t : jsstring) (x : number)
    (r : jsstring) :
  (45 <= c <= 57)%N ->
  parse_number (c :: t) = Some (x, r) ->
  parse_value (S n) (c :: t) = Some (JNum x, r).
Proof.
  intros Hc Hp. rewrite parse_value_S.
  rewrite (skip_ws_head c t (number_head_not_whitespace c Hc)).
  replace (c =? ch "{")%N with false
    by (symmetry; apply N.eqb_neq; vm_compute ch; lia).
  replace (c =? ch "[")%N with false
    by (symmetry; apply N.eqb_neq; vm_compute ch; lia).
  replace (c =? 34)%N with false by (symmetry; apply N.eqb_neq; lia).
  change (js "true") with (ch "t" :: js "rue").
  change (js "false") with (ch "f" :: js "alse").
  change (js "null") with (ch "n" :: js "ull").
  cbn [starts_with].
  replace (ch "t" =? c)%N with false
    by (symmetry; apply N.eqb_neq; vm_compute ch; lia).
  replace (ch "f" =? c)%N with false
    by (symmetry; apply N.eqb_neq; vm_compute ch; lia).
  replace (ch "n" =? c)%N with false
    by (symmetry; apply N.eqb_neq; vm_compute ch; lia).
  cbn [andb]. rewrite Hp. reflexivity.
Qed.

(** The text of a number that [JSON.stringify] writes with its value reads
    back as the number. *)
Lemma parse_kept_number (x : number) (rest : jsstring) :
  binary64 x = true -> RoundTrip.kept_number x = true ->
  number_ends rest = true ->
  parse_number (Number_toString x ++ rest) = Some (x, rest).
Proof.
  intros Hb Hk Hrest. destruct x as [|s|s|s m e]; try discriminate.
  - destruct s; [discriminate|].
    change (Number_toString (Zero false) ++ rest) with (ch "0" :: rest).
    unfold parse_number. change (ch "0" =? ch "-")%N with false. cbv iota.
    unfold parse_unsigned.
    rewrite (span_digits_one (ch "0") rest eq_refl
               (number_ends_no_digit rest Hrest)).
    cbn [is_empty negb andb]. rewrite andb_false_r.
    rewrite (parse_fraction_none rest Hrest).
    rewrite (parse_exponent_none rest Hrest). reflexivity.
  - apply parse_Number_toString; assumption.
Qed.

(** The text of a value starts with a character that is neither white
    space nor a closing bracket. *)
Lemma stringify_head (v : json) :
  RoundTrip.storable v = true ->
  exists c t,
    stringify v = c :: t
    /\ isJSONWhiteSpace c = false
    /\ (c =? ch "]")%N = false.
Proof.
  destruct v as [|[]|x|s|l|l]; intros H;
    try (eexists; eexists; (split; [reflexivity | split; reflexivity])).
  cbn [RoundTrip.storable] in H.
  pose proof (kept_number_finite x H) as Hfin.
  destruct (Number_toString_head x Hfin) as (c & r & Heq & Hc).
  apply number_head_range in Hc.
  exists c, r. cbn [stringify]. rewrite Hfin. split; [exact Heq|].
  split; [now apply number_head_not_whitespace|].
  apply N.eqb_neq. vm_compute ch. lia.
Qed.

Lemma parse_elements_text (l : list json) :
  l <> [] ->
  Forall RoundTrip.round_trips l ->
  Forall RoundTrip.well_formed l ->
  forallb RoundTrip.storable l = true ->
  forall n acc rest,
    (fold_right (fun x a => S (RoundTrip.size x + a)) 0 l <= n)%nat ->
    parse_elements n acc (elements_text l ++ ch "]" :: rest)
    = Some (JArr (rev acc ++ l), rest).
Proof.
  induction l as [|x r IH]; [contradiction|].
  intros _ Hrt Hwf Hnf n acc rest Hn.
  inversion Hrt as [|? ? Hx Hr]; subst.
  inversion Hwf as [|? ? Hwx Hwr]; subst.
  simpl in Hnf. apply andb_true_iff in Hnf as [Hnx Hnr].
  simpl in Hn. destruct n as [|n]; [lia|].
  rewrite parse_elements_S.
  destruct r as [|y r'].
  - change (elements_text [x]) with (stringify x).
    rewrite (Hx Hwx Hnx n) by first [lia | reflexivity].
    change (skip_ws (ch "]" :: rest)) with (ch "]" :: rest).
    change (ch "]" =? ch ",")%N with false.
    change (ch "]" =? ch "]")%N with true. reflexivity.
  - rewrite elements_text_cons, <- app_assoc.
    rewrite (Hx Hwx Hnx n) by first [lia | reflexivity].
    change (skip_ws ((ch "," :: elements_text (y :: r')) ++ ch "]" :: rest))
      with (ch "," :: elements_text (y :: r') ++ ch "]" :: rest).
    change (ch "," =? ch ",")%N with true. cbv iota.
    rewrite IH; try assumption; [|discriminate|].
    + simpl. now rewrite <- app_assoc.
    + simpl in *. lia.
Qed.

Lemma members_text_single (k : jsstring) (x : json) (tail : jsstring) :
  members_text [(k, x)] ++ tail
  = 34%N :: quote_body k ++ 34%N :: ch ":" :: stringify x ++ tail.
Proof.
  change (members_text [(k, x)])
    with (QuoteJSONString k ++ ch ":" :: stringify x).
  unfold QuoteJSONString. simpl. now rewrite <- !app_assoc.
Qed.

Lemma members_text_more (k : jsstring) (x : json) (kv : jsstring * json)
  (r : list (jsstring * json)) (tail : jsstring) :
  members_text ((k, x) :: kv :: r) ++ tail
  = 34%N :: quote_body k ++ 34%N :: ch ":" :: stringify x
    ++ ch "," :: members_text (kv :: r) ++ tail.
Proof.
  rewrite members_text_cons. unfold QuoteJSONString. simpl.
  rewrite <- !app_assoc. simpl. now rewrite <- !app_assoc.
Qed.

Lemma parse_members_text (l : list (jsstring * json)) :
  l <> [] ->
  Forall (fun kv => RoundTrip.round_trips (snd kv)) l ->
  Forall (fun kv => RoundTrip.well_formed (snd kv)) l ->
  forallb (fun kv => RoundTrip.storable (snd kv)) l = true ->
  forall n acc rest,
    NoDup (map fst (acc ++ l)) ->
    (fold_right (fun kv a => S (RoundTrip.size (snd kv) + a)) 0 l <= n)%nat ->
    parse_members n acc (members_text l ++ ch "}" :: rest)
    = Some (JObj (acc ++ l), rest).
Proof.
  induction l as [|[k x] r IH]; [contradiction|].
  intros _ Hrt Hwf Hnf n acc rest Hnd Hn.
  inversion Hrt as [|? ? Hx Hr]; subst.
  inversion Hwf as [|? ? Hwx Hwr]; subst.
  simpl in Hx, Hwx.
  simpl in Hnf. apply andb_true_iff in Hnf as [Hnx Hnr].
  simpl in Hn. destruct n as [|n]; [lia|].
  assert (Hfresh : ~ In k (map fst acc)).
  { rewrite map_app in Hnd. simpl in Hnd.
    apply NoDup_remove_2 in Hnd. intros Hin. apply Hnd.
    apply in_or_app. now left. }
  rewrite parse_members_S.
  destruct r as [|kv r'].
  - rewrite members_text_single.
    rewrite (skip_ws_head 34 _ eq_refl).
    change (34 =? 34)%N with true. cbv iota.
    rewrite parse_QuoteJSONString.
    rewrite (skip_ws_head (ch ":") _ eq_refl).
    change (ch ":" =? ch ":")%N with true. cbv iota.
    rewrite (Hx Hwx Hnx n) by first [lia | reflexivity].
    rewrite (skip_ws_head (ch "}") _ eq_refl).
    change (ch "}" =? ch ",")%N with false.
    change (ch "}" =? ch "}")%N with true. cbv iota.
    now rewrite set_prop_fresh.
  - rewrite members_text_more.
    rewrite (skip_ws_head 34 _ eq_refl).
    change (34 =? 34)%N with true. cbv iota.
    rewrite parse_QuoteJSONString.
    rewrite (skip_ws_head (ch ":") _ eq_refl).
    change (ch ":" =? ch ":")%N with true. cbv iota.
    rewrite (Hx Hwx Hnx n) by first [lia | reflexivity].
    rewrite (skip_ws_head (ch ",") _ eq_refl).
    change (ch "," =? ch ",")%N with true. cbv iota.
    rewrite set_prop_fresh by assumption.
    rewrite IH; try assumption; [| discriminate | |].
    + now rewrite <- app_assoc.
    + now rewrite <- app_assoc.
    + simpl in *. lia.
Qed.

Lemma elements_text_head (l : list json) (tail : jsstring) :
  l <> [] -> forallb RoundTrip.storable l = true ->
  exists c t,
    elements_text l ++ tail = c :: t
    /\ isJSONWhiteSpace c = false /\ (c =? ch "]")%N = false.
Proof.
  destruct l as [|x r]; [contradiction|]. intros _ H.
  simpl in H. apply andb_true_iff in H as [Hx _].
  destruct (stringify_head x Hx) as (c & t & Hs & Hw & Hb).
  destruct r as [|y r'].
  - change (elements_text [x]) with (stringify x). rewrite Hs.
    exists c, (t ++ tail). auto.
  - rewrite elements_text_cons, Hs.
    eexists c, _. split; [reflexivity | auto].
Qed.

Lemma members_text_head (l : list (jsstring * json)) (tail : jsstring) :
  l <> [] ->
  exists t, members_text l ++ tail = 34%N :: t.
Proof.
  destruct l as [|[k x] r]; [contradiction|]. intros _.
  destruct r as [|kv r'].
  - eexists. reflexivity.
  - destruct kv. rewrite members_text_cons. eexists. reflexivity.
Qed.

(** Every well-formed value whose numbers are written with their value is
    read back from its text. *)
Lemma parse_stringify (v : json) : RoundTrip.round_trips v.
Proof.
  induction v as [| b | x | s | l IH | l IH] using json_induction;
    intros Hwf Hnf n rest Hn Hrest;
    (destruct n as [|n]; [simpl in Hn; lia|]).
  - reflexivity.
  - destruct b; reflexivity.
  - inversion Hwf as [| | ? Hb | | | ]; subst.
    cbn [RoundTrip.storable] in Hnf.
    pose proof (kept_number_finite x Hnf) as Hfin.
    pose proof (parse_kept_number x rest Hb Hnf Hrest) as Hp.
    cbn [stringify]. rewrite Hfin.
    destruct (Number_toString_head x Hfin) as (c & r & Heq & Hc).
    apply number_head_range in Hc.
    rewrite Heq in Hp |- *. cbn [app] in Hp |- *.
    now apply parse_value_number.
  - rewrite parse_value_S.
    change (stringify (JStr s) ++ rest)
      with (34%N :: (quote_body s ++ [34%N]) ++ rest).
    rewrite <- app_assoc.
    change (skip_ws (34%N :: quote_body s ++ [34%N] ++ rest))
      with (34%N :: quote_body s ++ 34%N :: rest).
    change (34 =? ch "{")%N with false.
    change (34 =? ch "[")%N with false.
    change (34 =? 34)%N with true. cbv iota.
    now rewrite parse_QuoteJSONString.
  - inversion Hwf as [| | | | ? Hwl | ]; subst.
    cbn [RoundTrip.storable] in Hnf. rewrite parse_value_S, stringify_arr.
    change ((ch "[" :: elements_text l ++ [ch "]"]) ++ rest)
      with (ch "[" :: (elements_text l ++ [ch "]"]) ++ rest).
    rewrite <- app_assoc.
    change ([ch "]"] ++ rest) with (ch "]" :: rest).
    change (skip_ws (ch "[" :: elements_text l ++ ch "]" :: rest))
      with (ch "[" :: elements_text l ++ ch "]" :: rest).
    change (ch "[" =? ch "{")%N with false.
    change (ch "[" =? ch "[")%N with true. cbv iota.
    destruct l as [|x r]; [reflexivity|].
    destruct (elements_text_head (x :: r) (ch "]" :: rest))
      as (c & t & Ht & Hw & Hb); [discriminate | assumption |].
    rewrite Ht, (skip_ws_head _ _ Hw), Hb, <- Ht.
    rewrite parse_elements_text; try assumption;
      [reflexivity | discriminate |].
    simpl in Hn. simpl. lia.
  - inversion Hwf as [| | | | | ? Hnd Hwl]; subst.
    cbn [RoundTrip.storable] in Hnf. rewrite parse_value_S, stringify_obj.
    change ((ch "{" :: members_text l ++ [ch "}"]) ++ rest)
      with (ch "{" :: (members_text l ++ [ch "}"]) ++ rest).
    rewrite <- app_assoc.
    change ([ch "}"] ++ rest) with (ch "}" :: rest).
    change (skip_ws (ch "{" :: members_text l ++ ch "}" :: rest))
      with (ch "{" :: members_text l ++ ch "}" :: rest).
    change (ch "{" =? ch "{")%N with true. cbv iota.
    destruct l as [|kv r]; [reflexivity|].
    destruct (members_text_head (kv :: r) (ch "}" :: rest))
      as (t & Ht); [discriminate|].
    rewrite Ht.
    change (skip_ws (34%N :: t)) with (34%N :: t).
    change (34 =? ch "}")%N with false. cbv iota.
    rewrite <- Ht.
    rewrite parse_members_text; try assumption;
      [reflexivity | discriminate |].
    simpl in Hn. simpl. lia.
Qed.

(** *** What the parser returns is well formed *)

Ltac split_match H :=
  repeat match type of H with
         | context [match ?x with _ => _ end] => destruct x eqn:?
         end;
  try discriminate H.

Lemma parse_well_formed (n : nat) :
  (forall s v r, parse_value n s = Some (v, r) -> RoundTrip.well_formed v)
  /\ (forall acc s v r,
         Forall RoundTrip.well_formed acc ->
         parse_elements n acc s = Some (v, r) -> RoundTrip.well_formed v)
  /\ (forall acc s v r,
         NoDup (map fst acc) ->
         Forall (fun kv => RoundTrip.well_formed (snd kv)) acc ->
         parse_members n acc s = Some (v, r) -> RoundTrip.well_formed v).
Proof.
  induction n as [|n (IHv & IHe & IHm)].
  - repeat split; intros; discriminate.
  - split; [|split].
    + intros s v r H. rewrite parse_value_S in H.
      destruct (skip_ws s) as [|c t]; [discriminate|].
      destruct (c =? ch "{")%N.
      { destruct (skip_ws t) as [|c2 t2]; [discriminate|].
        destruct (c2 =? ch "}")%N.
        - inversion H; subst. constructor; constructor.
        - apply (IHm [] _ _ _ (NoDup_nil _) (Forall_nil _) H). }
      destruct (c =? ch "[")%N.
      { destruct (skip_ws t) as [|c2 t2]; [discriminate|].
        destruct (c2 =? ch "]")%N.
        - inversion H; subst. constructor; constructor.
        - apply (IHe [] _ _ _ (Forall_nil _) H). }
      split_match H; inversion H; subst; constructor;
        eapply parse_number_binary64; eassumption.
    + intros acc s v r Hacc H. rewrite parse_elements_S in H.
      destruct (parse_value n s) as [[v0 r0]|] eqn:Hv0; [|discriminate].
      apply IHv in Hv0.
      destruct (skip_ws r0) as [|c t]; [discriminate|].
      destruct (c =? ch ",")%N.
      { apply (IHe (v0 :: acc) _ _ _ (Forall_cons _ Hv0 Hacc) H). }
      destruct (c =? ch "]")%N; [|discriminate].
      inversion H; subst. constructor.
      apply Forall_app. split; [now apply Forall_rev|].
      constructor; [assumption | constructor].
    + intros acc s v r Hnd Hacc H. rewrite parse_members_S in H.
      destruct (skip_ws s) as [|q t]; [discriminate|].
      destruct (q =? 34)%N; [|discriminate].
      destruct (parse_string_body t) as [[k r1]|]; [|discriminate].
      destruct (skip_ws r1) as [|c r2]; [discriminate|].
      destruct (c =? ch ":")%N; [|discriminate].
      destruct (parse_value n r2) as [[v0 r3]|] eqn:Hv0; [|discriminate].
      apply IHv in Hv0.
      destruct (skip_ws r3) as [|c' r4]; [discriminate|].
      destruct (c' =? ch ",")%N.
      { apply (IHm (set_prop k v0 acc) _ _ _
                 (set_prop_NoDup k v0 acc Hnd)
                 (set_prop_Forall _ k v0 acc Hv0 Hacc) H). }
      destruct (c' =? ch "}")%N; [|discriminate].
      inversion H; subst.
      constructor; [now apply set_prop_NoDup | now apply set_prop_Forall].
Qed.

Lemma getStoredData_well_formed (ls : storage) :
  RoundTrip.well_formed (getStoredData ls).
Proof.
  unfold getStoredData, JSON_parse.
  destruct (parse_value _ _) as [[v r]|] eqn:Hp.
  - destruct (is_empty (skip_ws r)).
    + destruct (truthy v).
      * apply (proj1 (parse_well_formed _) _ _ _ Hp).
      * constructor; constructor.
    + constructor; constructor.
  - constructor; constructor.
Qed.

Lemma getStoredData_truthy (ls : storage) : truthy (getStoredData ls) = true.
Proof.
  unfold getStoredData.
  destruct (JSON_parse _) as [v|]; [|reflexivity].
  destruct (truthy v) eqn:E; [exact E | reflexivity].
Qed.

(** *** The text is long enough to be its own fuel *)

Lemma elements_text_length (l : list json) :
  Forall (fun x => RoundTrip.storable x = true ->
                   (RoundTrip.size x <= List.length (stringify x))%nat) l ->
  forallb RoundTrip.storable l = true ->
  (fold_right (fun x a => S (RoundTrip.size x + a)) 0 l
   <= List.length (elements_text l) + 1)%nat.
Proof.
  induction l as [|x r IH]; intros Hall Hnf; [simpl; lia|].
  cbn [fold_right].
  inversion Hall as [|? ? Hx Hr]; subst.
  simpl in Hnf. apply andb_true_iff in Hnf as [Hnx Hnr].
  specialize (Hx Hnx). specialize (IH Hr Hnr).
  destruct r as [|y r'].
  - change (elements_text [x]) with (stringify x). simpl. lia.
  - rewrite elements_text_cons, length_app.
    cbn [List.length]. cbn [fold_right] in IH |- *. lia.
Qed.

Lemma members_text_length (l : list (jsstring * json)) :
  Forall (fun kv => RoundTrip.storable (snd kv) = true ->
                    (RoundTrip.size (snd kv)
                     <= List.length (stringify (snd kv)))%nat) l ->
  forallb (fun kv => RoundTrip.storable (snd kv)) l = true ->
  (fold_right (fun kv a => S (RoundTrip.size (snd kv) + a)) 0 l
   <= List.length (members_text l) + 1)%nat.
Proof.
  induction l as [|[k x] r IH]; intros Hall Hnf; [simpl; lia|].
  cbn [fold_right].
  inversion Hall as [|? ? Hx Hr]; subst.
  simpl in Hnf. apply andb_true_iff in Hnf as [Hnx Hnr].
  specialize (Hx Hnx). specialize (IH Hr Hnr). cbn [snd] in Hx |- *.
  destruct r as [|kv r'].
  - change (members_text [(k, x)])
      with (QuoteJSONString k ++ ch ":" :: stringify x).
    rewrite length_app. cbn [List.length fold_right]. lia.
  - destruct kv as [k' x']. rewrite members_text_cons.
    rewrite length_app. cbn [List.length].
    rewrite length_app. cbn [List.length].
    cbn [fold_right snd] in IH |- *. lia.
Qed.

Lemma size_le_length (v : json) :
  RoundTrip.storable v = true ->
  (RoundTrip.size v <= List.length (stringify v))%nat.
Proof.
  induction v as [| b | x | s | l IH | l IH] using json_induction;
    intros Hnf.
  - simpl. lia.
  - destruct b; simpl; lia.
  - cbn [RoundTrip.storable] in Hnf.
    pose proof (kept_number_finite x Hnf) as Hfin.
    destruct (Number_toString_head x Hfin) as (c & r & Heq & _).
    cbn [stringify RoundTrip.size]. rewrite Hfin, Heq. simpl. lia.
  - simpl. lia.
  - rewrite stringify_arr. simpl in Hnf.
    pose proof (elements_text_length l IH Hnf) as H.
    simpl. rewrite length_app. simpl. lia.
  - rewrite stringify_obj. simpl in Hnf.
    pose proof (members_text_length l IH Hnf) as H.
    simpl. rewrite length_app. simpl. lia.
Qed.

Lemma JSON_parse_stringify (v : json) :
  RoundTrip.well_formed v -> RoundTrip.storable v = true ->
  JSON_parse (stringify v) = Some v.
Proof.
  intros Hwf Hnf. unfold JSON_parse.
  pose proof (parse_stringify v Hwf Hnf
                (S (List.length (stringify v))) []) as H.
  rewrite app_nil_r in H. rewrite H; [reflexivity | | reflexivity].
  pose proof (size_le_length v Hnf). lia.
Qed.

(** *** The records the wizard writes *)

Lemma string_record_storable (v : json) :
  RoundTrip.string_record v = true -> RoundTrip.storable v = true.
Proof.
  destruct v as [| | | |l|l]; try discriminate. simpl.
  induction l as [|[k x] l IH]; simpl; [reflexivity|].
  intros H. apply andb_true_iff in H as [Hx Hl].
  rewrite (IH Hl). destruct x; try discriminate. reflexivity.
Qed.

Lemma getStoredData_setStoredData (x : json) :
  RoundTrip.well_formed x -> RoundTrip.storable x = true ->
  truthy x = true ->
  getStoredData (setStoredData x) = x.
Proof.
  intros Hwf Hnf Ht.
  unfold setStoredData, getStoredData, getItem, ToString_item.
  now rewrite (JSON_parse_stringify x Hwf Hnf), Ht.
Qed.

Lemma set_props_NoDup (fields l : list (jsstring * json)) :
  NoDup (map fst l) -> NoDup (map fst (set_props fields l)).
Proof.
  revert l. unfold set_props.
  induction fields as [|[k v] fields IH]; intros l H; simpl; [exact H|].
  apply IH. now apply set_prop_NoDup.
Qed.

Lemma set_props_Forall (P : json -> Prop) (fields l : list (jsstring * json)) :
  Forall (fun kv => P (snd kv)) fields ->
  Forall (fun kv => P (snd kv)) l ->
  Forall (fun kv => P (snd kv)) (set_props fields l).
Proof.
  revert l. unfold set_props.
  induction fields as [|[k v] fields IH]; intros l Hf Hl; simpl; [exact Hl|].
  inversion Hf; subst. apply IH; [assumption|].
  now apply set_prop_Forall.
Qed.

Lemma forallb_Forall_string (l : list (jsstring * json)) :
  forallb (fun kv => RoundTrip.is_string (snd kv)) l = true <->
  Forall (fun kv => RoundTrip.is_string (snd kv) = true) l.
Proof. rewrite forallb_forall, Forall_forall. reflexivity. Qed.

(** A record of strings spread into a literal whose fields are strings is
    again one, and is well formed when the record was. *)
Lemma spread_strings (base : json) (fields : list (jsstring * json)) :
  RoundTrip.string_record base = true ->
  RoundTrip.well_formed base ->
  forallb (fun kv => RoundTrip.is_string (snd kv)) fields = true ->
  RoundTrip.string_record (spread_with base fields) = true
  /\ RoundTrip.well_formed (spread_with base fields).
Proof.
  intros Hs Hwf Hf.
  destruct base as [| | | |l|l]; try discriminate. simpl in Hs.
  inversion Hwf as [| | | | | ? Hnd Hall]; subst.
  unfold spread_with, own_props. split.
  - simpl. apply forallb_Forall_string.
    apply (set_props_Forall (fun x => RoundTrip.is_string x = true));
      now apply forallb_Forall_string.
  - constructor; [now apply set_props_NoDup|].
    apply (set_props_Forall RoundTrip.well_formed); [|assumption].
    apply forallb_Forall_string in Hf.
    apply Forall_forall. intros [k x] Hin.
    rewrite Forall_forall in Hf. specialize (Hf _ Hin). simpl in Hf |- *.
    destruct x; try discriminate. constructor.
Qed.

Lemma written_record_loads (base : json) (fields : list (jsstring * json)) :
  RoundTrip.string_record base = true ->
  RoundTrip.well_formed base ->
  forallb (fun kv => RoundTrip.is_string (snd kv)) fields = true ->
  getStoredData (setStoredData (spread_with base fields))
  = spread_with base fields.
Proof.
  intros Hs Hwf Hf.
  destruct (spread_strings base fields Hs Hwf Hf) as [Hs' Hwf'].
  apply getStoredData_setStoredData;
    [assumption | now apply string_record_storable | reflexivity].
Qed.

Section RecordsOfStrings.

Variable chipTypes : list jsstring.

Variable destinations : list DestinationPage.checkbox.

Local Abbreviation step := (Wizard.step chipTypes destinations).

Local Abbreviation navigate := (Wizard.navigate chipTypes destinations).

Local Abbreviation good := (Runs.records_of_strings).

Lemma load_records_of_strings (fuel : nat) (href : jsstring) (ls : storage)
  (now : N) :
  RoundTrip.string_record (getStoredData ls) = true ->
  good {| Wizard.localStorage := ls; Wizard.clock := now;
          Wizard.current := Wizard.load chipTypes destinations fuel href ls |}.
Proof.
  intros Hls. split; [exact Hls|]. cbn [Wizard.current].
  pose proof (getStoredData_well_formed ls) as Hwf.
  revert href. induction fuel as [|fuel IH]; intros href; simpl; [exact I|].
  destruct (str_eqb href (js "index.html")); [now split|].
  destruct (str_eqb href (js "destination.html")).
  { unfold DestinationPage.initDestinationPage.
    destruct (step1_missing (getStoredData ls)); [apply IH | now split]. }
  destruct (str_eqb href (js "summary.html")); [|exact I].
  unfold SummaryPage.initSummaryPage.
  destruct (step1_missing (getStoredData ls)); [apply IH|].
  destruct (negb _); [apply IH | now split].
Qed.

Lemma step_records_of_strings (e : Wizard.event) (b : Wizard.browser) :
  good b -> good (step e b).
Proof.
  intros [Hls Hpg]. destruct b as [ls now cur].
  cbn [Wizard.localStorage Wizard.current] in Hls, Hpg.
  pose proof (getStoredData_well_formed ls) as Hwf.
  unfold Wizard.step.
  cbn [Wizard.localStorage Wizard.clock Wizard.current].
  assert (Hsame : forall c,
             match c with
             | Wizard.OnForm pg =>
                 RoundTrip.string_record (FormPage.stored pg) = true
                 /\ RoundTrip.well_formed (FormPage.stored pg)
             | Wizard.OnDestination pg =>
                 RoundTrip.string_record (DestinationPage.stored pg) = true
                 /\ RoundTrip.well_formed (DestinationPage.stored pg)
             | Wizard.OnSummary pg =>
                 RoundTrip.string_record (SummaryPage.stored pg) = true
                 /\ RoundTrip.well_formed (SummaryPage.stored pg)
             | Wizard.Elsewhere _ => True
             end ->
             good {| Wizard.localStorage := ls; Wizard.clock := now;
                     Wizard.current := c |}).
  { intros c Hc. split; assumption. }
  destruct e; destruct cur; try (now apply Hsame);
    try (now apply load_records_of_strings).
  - (* ClickChipType *)
    destruct (nth_error _ _) as [button|]; [|now apply Hsame].
    unfold FormPage.click_chipType.
    destruct (is_empty (FormPage.dataset_chipType button));
      [now apply Hsame|].
    split; cbn [Wizard.localStorage Wizard.current].
    + rewrite written_record_loads by (assumption || reflexivity).
      now apply spread_strings.
    + exact Hpg.
  - (* SubmitForm *)
    destruct (FormPage.chipTypeButtons pg) eqn:Hb; [now apply Hsame|].
    rewrite on_submit_first_failure. rewrite Hb.
    destruct (Step1Rules.first_failure _ _ _); [now apply Hsame|].
    destruct Hpg as [Hs Hw].
    apply load_records_of_strings.
    rewrite written_record_loads by (assumption || reflexivity).
    now apply spread_strings.
  - (* SubmitDestination *)
    unfold DestinationPage.on_submit, DestinationPage.submit.
    destruct (DestinationPage.checkboxes pg); [now apply Hsame|].
    destruct (find _ _); [|now apply Hsame].
    destruct Hpg as [Hs Hw].
    apply load_records_of_strings.
    rewrite written_record_loads by (assumption || reflexivity).
    now apply spread_strings.
  - (* ClickSave *)
    apply Hsame. unfold SummaryPage.click_save.
    destruct (SummaryPage.saveButton_disabled pg); exact Hpg.
  - (* ResponseOk *)
    destruct (SummaryPage.in_flight pg); [now apply Hsame|].
    destruct Hpg as [Hs Hw].
    split; cbn [Wizard.localStorage Wizard.current SummaryPage.resume_ok
                fst snd SummaryPage.stored].
    + rewrite written_record_loads by (assumption || reflexivity).
      now apply spread_strings.
    + now split.
  - (* ResponseFailed *)
    destruct (SummaryPage.in_flight pg); now apply Hsame.
  - (* Elapse *)
    destruct (SummaryPage.redirectTimer pg) as [due|];
      [|split; assumption].
    destruct (due <=? now + ms)%N; [|split; assumption].
    now apply load_records_of_strings.
Qed.

Lemma wizard_run_records_of_strings (b : Wizard.browser) :
  Runs.wizard_run chipTypes destinations b -> good b.
Proof.
  intros (b0 & es & [href Hfresh] & Hls & ->).
  assert (H0 : good b0).
  { destruct b0 as [ls now cur]. simpl in Hfresh, Hls. subst cur.
    now apply load_records_of_strings. }
  clear Hfresh Hls. revert b0 H0.
  induction es as [|e es IH]; intros b0 H0; [exact H0|].
  apply IH. now apply step_records_of_strings.
Qed.

End RecordsOfStrings.

(** A record whose fields are strings is read back as it was written. *)
Lemma string_fields_well_formed (fields : list (jsstring * json)) :
  forallb (fun kv => RoundTrip.is_string (snd kv)) fields = true ->
  Forall (fun kv => RoundTrip.well_formed (snd kv)) fields.
Proof.
  intros H. apply Forall_forall. intros [k x] Hin.
  rewrite forallb_forall in H. specialize (H _ Hin). cbn [snd] in H |- *.
  destruct x; try discriminate. constructor.
Qed.

Lemma string_record_loads (l : list (jsstring * json)) :
  NoDup (map fst l) ->
  forallb (fun kv => RoundTrip.is_string (snd kv)) l = true ->
  getStoredData (setStoredData (JObj l)) = JObj l.
Proof.
  intros Hnd Hs. apply getStoredData_setStoredData.
  - constructor; [exact Hnd | now apply string_fields_well_formed].
  - now apply string_record_storable.
  - reflexivity.
Qed.

(** C9.  Loading a stored record, saving what was loaded as it is and
    loading again gives the record of the first load.  The stored records
    are those of the wizard, whose fields are all strings: every record
    with string fields is read back as it was written, and once more after
    it is saved again; and a run of the wizard, started on an empty store
    or on such a record, only ever stores such records.  More generally
    the round trip holds whatever the store holds, as long as every number
    in what is loaded is finite and is not negative zero. *)
Theorem load_save_load :
  (forall ls : storage,
      RoundTrip.storable (getStoredData ls) = true ->
      getStoredData (setStoredData (getStoredData ls)) = getStoredData ls)
  /\ (forall (chipTypes : list jsstring)
             (destinations : list DestinationPage.checkbox)
             (b : Wizard.browser),
         Runs.wizard_run chipTypes destinations b ->
         RoundTrip.storable (getStoredData (Wizard.localStorage b)) = true)
  /\ (forall record : list (jsstring * json),
         NoDup (map fst record) ->
         forallb (fun kv => RoundTrip.is_string (snd kv)) record = true ->
         let ls := setStoredData (JObj record) in
         getStoredData ls = JObj record
         /\ getStoredData (setStoredData (getStoredData ls))
            = getStoredData ls).
Proof.
  split; [|split].
  - intros ls Hnf.
    apply getStoredData_setStoredData;
      [apply getStoredData_well_formed | exact Hnf
      | apply getStoredData_truthy].
  - intros chipTypes destinations b Hrun.
    apply string_record_storable.
    apply (wizard_run_records_of_strings chipTypes destinations b Hrun).
  - intros record Hnd Hs ls. unfold ls.
    rewrite !(string_record_loads record Hnd Hs). split; reflexivity.
Qed.

(** The condition on the numbers cannot be dropped for a store that was
    not written by the wizard: the text of a record whose net weight is
    the number [1e999], which no save writes, loads with the net weight
    Infinity; saved, it is written with [null] in its place. *)
Lemma overflowing_number_is_lost :
  getStoredData (Some RoundTrip.overflowing_text)
  = JObj [(js "netWeight", JNum (Infinity false))]
  /\ getStoredData
       (setStoredData (getStoredData (Some RoundTrip.overflowing_text)))
     = JObj [(js "netWeight", JNull)]
  /\ getStoredData
       (setStoredData (getStoredData (Some RoundTrip.overflowing_text)))
     <> getStoredData (Some RoundTrip.overflowing_text).
Proof.
  split; [|split].
  - vm_compute. reflexivity.
  - vm_compute. reflexivity.
  - vm_compute. discriminate.
Qed.

Lemma saved_is_a_wizard_run :
  Runs.wizard_run Runs.three_types Runs.two_destinations Runs.saved.
Proof.
  exists Runs.on_summary,
    [Wizard.ClickSave;
     Wizard.ResponseOk (js "2026-01-05T10:00:00.000Z")
                       (js "Jan 05, 2026, 10:00 AM")].
  split; [|split; [|reflexivity]].
  - exists (js "summary.html"). reflexivity.
  - vm_compute. reflexivity.
Defined.

Lemma load_save_load_witness :
  getStoredData
    (setStoredData (getStoredData (Wizard.localStorage Runs.saved)))
  = getStoredData (Wizard.localStorage Runs.saved).
Proof.
  apply (proj1 load_save_load (Wizard.localStorage Runs.saved)).
  apply (proj1 (proj2 load_save_load) Runs.three_types Runs.two_destinations
           Runs.saved saved_is_a_wizard_run).
Defined.

(** ** What a save leaves to the next load *)

Lemma stringify_reloaded (v : json) :
  stringify (Reload.reloaded v) = stringify v.
Proof.
  induction v as [| b | x | s | l IH | l IH] using json_induction;
    try reflexivity.
  - destruct x as [|s|s|s m e]; try reflexivity.
  - cbn [Reload.reloaded]. rewrite !stringify_arr. f_equal. f_equal.
    induction l as [|x r IHr]; [reflexivity|].
    inversion IH as [|? ? Hx Hr]; subst. specialize (IHr Hr).
    destruct r as [|y r'].
    + exact Hx.
    + cbn [map] in IHr |- *. rewrite !elements_text_cons, Hx.
      f_equal. f_equal. exact IHr.
  - cbn [Reload.reloaded]. rewrite !stringify_obj. f_equal. f_equal.
    induction l as [|[k x] r IHr]; [reflexivity|].
    inversion IH as [|? ? Hx Hr]; subst. specialize (IHr Hr).
    cbn [snd] in Hx.
    destruct r as [|[k' y] r'].
    + cbn [map fst snd].
      change (members_text [(k, Reload.reloaded x)])
        with (QuoteJSONString k ++ ch ":" :: stringify (Reload.reloaded x)).
      now rewrite Hx.
    + cbn [map fst snd] in IHr |- *. rewrite !members_text_cons, Hx.
      f_equal. f_equal. f_equal. f_equal. exact IHr.
Qed.

Lemma reloaded_keys (l : list (jsstring * json)) :
  map fst (map (fun kv => (fst kv, Reload.reloaded (snd kv))) l) = map fst l.
Proof. rewrite map_map. apply map_ext. reflexivity. Qed.

Lemma reloaded_well_formed (v : json) :
  RoundTrip.well_formed v -> RoundTrip.well_formed (Reload.reloaded v).
Proof.
  induction v as [| b | x | s | l IH | l IH] using json_induction;
    intros Hwf; try exact Hwf.
  - inversion Hwf as [| | ? Hb | | | ]; subst.
    destruct x as [|s|s|s m e]; constructor; try reflexivity. exact Hb.
  - inversion Hwf as [| | | | ? Hl | ]; subst. cbn [Reload.reloaded].
    constructor. clear Hwf. induction l as [|x r IHr]; [constructor|].
    inversion IH as [|? ? Hx Hr]; subst.
    inversion Hl as [|? ? Hwx Hwr]; subst.
    constructor; [exact (Hx Hwx) | exact (IHr Hr Hwr)].
  - inversion Hwf as [| | | | | ? Hnd Hl]; subst. cbn [Reload.reloaded].
    constructor; [now rewrite reloaded_keys|].
    clear Hnd Hwf. induction l as [|kv r IHr]; [constructor|].
    inversion IH as [|? ? Hx Hr]; subst.
    inversion Hl as [|? ? Hwx Hwr]; subst.
    constructor; [exact (Hx Hwx) | exact (IHr Hr Hwr)].
Qed.

Lemma reloaded_storable (v : json) :
  RoundTrip.storable (Reload.reloaded v) = true.
Proof.
  induction v as [| b | x | s | l IH | l IH] using json_induction;
    try reflexivity.
  - destruct x as [|s|s|s m e]; reflexivity.
  - cbn [Reload.reloaded RoundTrip.storable].
    induction l as [|x r IHr]; [reflexivity|].
    inversion IH as [|? ? Hx Hr]; subst. cbn [map forallb].
    now rewrite Hx, (IHr Hr).
  - cbn [Reload.reloaded RoundTrip.storable].
    induction l as [|kv r IHr]; [reflexivity|].
    inversion IH as [|? ? Hx Hr]; subst. cbn [map forallb snd].
    now rewrite Hx, (IHr Hr).
Qed.

Lemma storable_reloaded (v : json) :
  RoundTrip.storable v = true -> Reload.reloaded v = v.
Proof.
  induction v as [| b | x | s | l IH | l IH] using json_induction;
    intros Hs; try reflexivity.
  - destruct x as [|s|[]|s m e]; try discriminate; reflexivity.
  - cbn [Reload.reloaded RoundTrip.storable] in Hs |- *. f_equal.
    induction l as [|x r IHr]; [reflexivity|].
    inversion IH as [|? ? Hx Hr]; subst. cbn [forallb] in Hs.
    apply andb_true_iff in Hs. destruct Hs as [Hsx Hsr].
    cbn [map]. now rewrite (Hx Hsx), (IHr Hr Hsr).
  - cbn [Reload.reloaded RoundTrip.storable] in Hs |- *. f_equal.
    induction l as [|[k x] r IHr]; [reflexivity|].
    inversion IH as [|? ? Hx Hr]; subst. cbn [forallb snd] in Hs, Hx.
    apply andb_true_iff in Hs. destruct Hs as [Hsx Hsr].
    cbn [map fst snd]. now rewrite (Hx Hsx), (IHr Hr Hsr).
Qed.

(** The text of a value reads as the value with its numbers read back. *)
Lemma JSON_parse_stringify_reloaded (v : json) :
  RoundTrip.well_formed v ->
  JSON_parse (stringify v) = Some (Reload.reloaded v).
Proof.
  intros Hwf. rewrite <- stringify_reloaded.
  apply JSON_parse_stringify;
    [now apply reloaded_well_formed | apply reloaded_storable].
Qed.

Lemma load_after_save (x : json) :
  RoundTrip.well_formed x ->
  getStoredData (setStoredData x)
  = if truthy (Reload.reloaded x) then Reload.reloaded x else JObj [].
Proof.
  intros Hwf. unfold setStoredData, getStoredData, getItem, ToString_item.
  now rewrite (JSON_parse_stringify_reloaded x Hwf).
Qed.

Lemma load_after_save_object (l : list (jsstring * json)) :
  RoundTrip.well_formed (JObj l) ->
  getStoredData (setStoredData (JObj l)) = Reload.reloaded (JObj l).
Proof. intros Hwf. now rewrite (load_after_save _ Hwf). Qed.

Lemma get_reloaded (v : json) (k : jsstring) :
  get (Reload.reloaded v) k = option_map Reload.reloaded (get v k).
Proof.
  destruct v as [| b | x | s | l | l]; try reflexivity.
  - destruct x as [|s|s|s m e]; reflexivity.
  - cbn [Reload.reloaded get].
    induction l as [|[k' x] r IH]; [reflexivity|].
    cbn [map assoc fst snd]. destruct (str_eqb k' k); [reflexivity | exact IH].
Qed.

(** X1.  Whatever the store holds, saving what was loaded and loading
    again gives the loaded value with every NaN and infinity replaced by
    [null] and negative zero by zero (or the empty record when that value
    is falsy); and from then on saving and loading changes nothing. *)
Theorem save_then_load_settles :
  forall ls : storage,
    let first := getStoredData ls in
    let second := getStoredData (setStoredData first) in
    second = (if truthy (Reload.reloaded first) then Reload.reloaded first
              else JObj [])
    /\ getStoredData (setStoredData second) = second.
Proof.
  intros ls first second.
  assert (H : second = if truthy (Reload.reloaded first)
                       then Reload.reloaded first else JObj []).
  { apply load_after_save, getStoredData_well_formed. }
  split; [exact H|]. rewrite H.
  destruct (truthy (Reload.reloaded first)) eqn:Ht.
  - apply getStoredData_setStoredData;
      [apply reloaded_well_formed, getStoredData_well_formed
      | apply reloaded_storable | exact Ht].
  - reflexivity.
Qed.

(** ** Records spread into a literal *)

Lemma digits_value_decimal (n : N) : digits_value (decimal n) = n.
Proof.
  destruct (decimal_spec n) as (d & t & Heq & _ & Hv & _).
  now rewrite Heq.
Qed.

Lemma decimal_inj (a b : N) : decimal a = decimal b -> a = b.
Proof.
  intros H. rewrite <- (digits_value_decimal a), <- (digits_value_decimal b).
  now rewrite H.
Qed.

Lemma indexed_keys (l : list json) :
  forall i k,
    In k (map fst (indexed i l)) -> exists j, (i <= j)%N /\ k = decimal j.
Proof.
  induction l as [|x r IH]; intros i k Hin; [contradiction|].
  cbn [indexed map fst In] in Hin. destruct Hin as [<- | Hin].
  - exists i. split; [lia | reflexivity].
  - destruct (IH _ _ Hin) as (j & Hj & ->). exists j. split; [lia | reflexivity].
Qed.

Lemma indexed_NoDup (l : list json) (i : N) : NoDup (map fst (indexed i l)).
Proof.
  revert i. induction l as [|x r IH]; intros i; [constructor|].
  cbn [indexed map fst]. constructor; [|apply IH].
  intros Hin. destruct (indexed_keys _ _ _ Hin) as (j & Hj & Heq).
  apply decimal_inj in Heq. lia.
Qed.

Lemma indexed_Forall (P : json -> Prop) (l : list json) (i : N) :
  Forall P l -> Forall (fun kv => P (snd kv)) (indexed i l).
Proof.
  revert i. induction l as [|x r IH]; intros i H; [constructor|].
  inversion H; subst. cbn [indexed]. constructor; [assumption | now apply IH].
Qed.

Lemma own_props_well_formed (v : json) :
  RoundTrip.well_formed v ->
  NoDup (map fst (own_props v))
  /\ Forall (fun kv => RoundTrip.well_formed (snd kv)) (own_props v).
Proof.
  intros Hwf. destruct v as [| b | x | s | l | l]; cbn [own_props];
    try (split; constructor).
  - split; [apply indexed_NoDup|]. apply indexed_Forall.
    apply Forall_forall. intros x Hin. apply in_map_iff in Hin.
    destruct Hin as (c & <- & _). constructor.
  - inversion Hwf; subst. split; [apply indexed_NoDup|].
    now apply indexed_Forall.
  - inversion Hwf; subst. split; assumption.
Qed.

(** The literal [{...base, fields}] is an object as objects are. *)
Lemma spread_well_formed (base : json) (fields : list (jsstring * json)) :
  RoundTrip.well_formed base ->
  Forall (fun kv => RoundTrip.well_formed (snd kv)) fields ->
  RoundTrip.well_formed (spread_with base fields).
Proof.
  intros Hwf Hf. destruct (own_props_well_formed base Hwf) as [Hnd Hall].
  unfold spread_with. constructor.
  - now apply set_props_NoDup.
  - now apply (set_props_Forall RoundTrip.well_formed).
Qed.

(** What is loaded after the literal [{...base, fields}] was saved. *)
Lemma load_spread (base : json) (fields : list (jsstring * json)) :
  RoundTrip.well_formed base ->
  Forall (fun kv => RoundTrip.well_formed (snd kv)) fields ->
  getStoredData (setStoredData (spread_with base fields))
  = Reload.reloaded (spread_with base fields).
Proof.
  intros Hwf Hf. pose proof (spread_well_formed base fields Hwf Hf) as H.
  unfold spread_with in *. now apply load_after_save_object.
Qed.

Lemma load_spread_field (base : json) (fields : list (jsstring * json))
    (k s : jsstring) :
  RoundTrip.well_formed base ->
  forallb (fun kv => RoundTrip.is_string (snd kv)) fields = true ->
  NoDup (map fst fields) ->
  assoc k fields = Some (JStr s) ->
  get (getStoredData (setStoredData (spread_with base fields))) k
  = Some (JStr s).
Proof.
  intros Hwf Hs Hnd Hk.
  rewrite load_spread by (auto using string_fields_well_formed).
  rewrite get_reloaded, get_spread_with by exact Hnd.
  now rewrite Hk.
Qed.

Lemma load_spread_other (base : json) (fields : list (jsstring * json))
    (k : jsstring) :
  RoundTrip.well_formed base ->
  Forall (fun kv => RoundTrip.well_formed (snd kv)) fields ->
  NoDup (map fst fields) ->
  assoc k fields = None ->
  get (getStoredData (setStoredData (spread_with base fields))) k
  = option_map Reload.reloaded (assoc k (own_props base)).
Proof.
  intros Hwf Hs Hnd Hk.
  rewrite load_spread by assumption.
  rewrite get_reloaded, get_spread_with by exact Hnd.
  now rewrite Hk.
Qed.

(** ** From step 1 to step 2 *)

Lemma tokens_nil_of_empty (s : jsstring) :
  is_empty s = true -> Step1Rules.tokens s = [].
Proof. destruct s; [reflexivity | discriminate]. Qed.

(** What an accepted submission has in its fields. *)
Lemma accepted_not_empty (tag : jsstring) (v : FormPage.form_values) :
  Step1Rules.first_failure Step1Rules.rules tag v = None ->
  Step1Rules.tag_known tag = true
  /\ is_empty (Step1Rules.variant_of tag v) = false
  /\ is_empty (FormPage.productSelect_value v) = false
  /\ is_empty (trim (FormPage.netWeightInput_value v)) = false
  /\ is_empty (trim (FormPage.operatorInput_value v)) = false.
Proof.
  unfold Step1Rules.rules, Step1Rules.first_failure,
    Step1Rules.rule_chip_type, Step1Rules.rule_variant,
    Step1Rules.rule_product, Step1Rules.rule_net_weight,
    Step1Rules.rule_operator.
  destruct (Step1Rules.tag_known tag); [|discriminate].
  intros H. split; [reflexivity|].
  destruct (is_empty (Step1Rules.variant_of tag v)).
  { destruct (str_eqb tag (js "box")); [discriminate|].
    destruct (str_eqb tag (js "bulk")); discriminate. }
  split; [reflexivity|].
  destruct (str_eqb tag (js "box")).
  - destruct (forallb isAlnum _); [|discriminate].
    destruct (is_empty (FormPage.productSelect_value v)); [discriminate|].
    destruct (is_empty (trim (FormPage.netWeightInput_value v)));
      [discriminate|].
    destruct (Step1Rules.positive_finite _); [|discriminate].
    destruct (is_empty (trim (FormPage.operatorInput_value v))) eqn:E;
      [|auto].
    rewrite (tokens_nil_of_empty _ E) in H. discriminate.
  - destruct (str_eqb tag (js "bulk")).
    + destruct (existsb isDigit _); [discriminate|].
      destruct (is_empty (FormPage.productSelect_value v)); [discriminate|].
      destruct (is_empty (trim (FormPage.netWeightInput_value v)));
        [discriminate|].
      destruct (Step1Rules.positive_finite _); [|discriminate].
      destruct (is_empty (trim (FormPage.operatorInput_value v))) eqn:E;
        [|auto].
      rewrite (tokens_nil_of_empty _ E) in H. discriminate.
    + destruct (is_empty (FormPage.productSelect_value v)); [discriminate|].
      destruct (is_empty (trim (FormPage.netWeightInput_value v)));
        [discriminate|].
      destruct (Step1Rules.positive_finite _); [|discriminate].
      destruct (is_empty (trim (FormPage.operatorInput_value v))) eqn:E;
        [|auto].
      rewrite (tokens_nil_of_empty _ E) in H. discriminate.
Qed.

Lemma accepted_fields_strings (tag : jsstring) (v : FormPage.form_values) :
  forallb (fun kv => RoundTrip.is_string (snd kv))
          (Step1Rules.accepted_fields tag v) = true.
Proof. reflexivity. Qed.

Lemma truthy_string (s : jsstring) :
  truthy_opt (Some (JStr s)) = negb (is_empty s).
Proof. reflexivity. Qed.

(** The record of an accepted submission, loaded again, passes the guard
    of steps 2 and 3. *)
Lemma accepted_record_complete (ls0 : storage) (tag : jsstring)
    (v : FormPage.form_values) :
  Step1Rules.first_failure Step1Rules.rules tag v = None ->
  step1_missing
    (getStoredData
       (setStoredData
          (spread_with (getStoredData ls0)
             (Step1Rules.accepted_fields tag v)))) = false.
Proof.
  intros Hacc.
  destruct (accepted_not_empty tag v Hacc) as (_ & Hv & Hp & Hn & Ho).
  unfold step1_missing.
  rewrite (load_spread_field _ _ (js "boxNumber") (Step1Rules.variant_of tag v)),
    (load_spread_field _ _ (js "product") (FormPage.productSelect_value v)),
    (load_spread_field _ _ (js "netWeight")
       (trim (FormPage.netWeightInput_value v))),
    (load_spread_field _ _ (js "operatorName")
       (trim (FormPage.operatorInput_value v)));
    try apply getStoredData_well_formed;
    try apply accepted_fields_strings;
    try apply accepted_fields_distinct;
    try reflexivity.
  rewrite !truthy_string, Hv, Hp, Hn, Ho. reflexivity.
Qed.

(** X8.  An accepted submission of step 1 opens step 2: the record it
    writes, loaded by the destination page, passes the entry guard, and
    every field submitted is read there as it was written, whatever the
    store held before. *)
Theorem accepted_form_opens_destination :
  forall (ls0 : storage) (tag : jsstring) (v : FormPage.form_values)
         (chipTypes : list jsstring) (boxes : list DestinationPage.checkbox),
    Step1Rules.first_failure Step1Rules.rules tag v = None ->
    let record :=
      spread_with (getStoredData ls0) (Step1Rules.accepted_fields tag v) in
    FormPage.submit (getStoredData ls0) tag v
    = Stored record (js "destination.html")
    /\ exists pg,
        Wizard.navigate chipTypes boxes (js "destination.html")
          (setStoredData record) = Wizard.OnDestination pg
        /\ DestinationPage.stored pg = getStoredData (setStoredData record)
        /\ forall k x,
            assoc k (Step1Rules.accepted_fields tag v) = Some x ->
            get (DestinationPage.stored pg) k = Some x.
Proof.
  intros ls0 tag v chipTypes boxes Hacc record.
  split; [rewrite submit_first_failure, Hacc; reflexivity|].
  pose proof (accepted_record_complete ls0 tag v Hacc) as Hguard.
  fold record in Hguard.
  unfold Wizard.navigate. cbn [Wizard.load].
  change (str_eqb (js "destination.html") (js "index.html")) with false.
  change (str_eqb (js "destination.html") (js "destination.html")) with true.
  cbv iota. unfold DestinationPage.initDestinationPage. rewrite Hguard.
  eexists. split; [reflexivity|]. cbn [DestinationPage.stored].
  split; [reflexivity|].
  intros k x Hk.
  assert (Hx : exists s, x = JStr s).
  { unfold Step1Rules.accepted_fields in Hk. cbn [assoc] in Hk.
    repeat match type of Hk with
           | (if ?c then _ else _) = _ => destruct c
           end; inversion Hk; eexists; reflexivity. }
  destruct Hx as [s ->].
  apply load_spread_field;
    [apply getStoredData_well_formed | apply accepted_fields_strings
    | apply accepted_fields_distinct | exact Hk].
Qed.

Lemma accepted_form_opens_destination_witness :
  exists pg,
    Wizard.navigate Runs.three_types Runs.two_destinations
      (js "destination.html")
      (setStoredData
         (spread_with (getStoredData None)
            (Step1Rules.accepted_fields (js "box")
               (Step1Rules.scenario (js "A1B2") (js "12.5")))))
    = Wizard.OnDestination pg.
Proof.
  destruct (accepted_form_opens_destination None (js "box")
              (Step1Rules.scenario (js "A1B2") (js "12.5"))
              Runs.three_types Runs.two_destinations eq_refl)
    as (_ & pg & H & _).
  exists pg. exact H.
Defined.

(** ** Step 2: the check boxes *)

Lemma nth_error_change_from (l : list DestinationPage.checkbox) :
  forall j0 i c j,
    nth_error (DestinationPage.change_from j0 i c l) j
    = option_map
        (fun o =>
           if (j0 + j =? i)%nat
           then {| DestinationPage.value := DestinationPage.value o;
                   DestinationPage.checked := c |}
           else if c
                then {| DestinationPage.value := DestinationPage.value o;
                        DestinationPage.checked := false |}
                else o)
        (nth_error l j).
Proof.
  induction l as [|o r IH]; intros j0 i c j.
  - destruct j; reflexivity.
  - destruct j as [|j]; cbn [DestinationPage.change_from nth_error option_map].
    + now rewrite Nat.add_0_r.
    + rewrite IH. now replace (S j0 + j)%nat with (j0 + S j)%nat by lia.
Qed.

Lemma map_value_change_from (l : list DestinationPage.checkbox) :
  forall j0 i c,
    map DestinationPage.value (DestinationPage.change_from j0 i c l)
    = map DestinationPage.value l.
Proof.
  induction l as [|o r IH]; intros j0 i c; [reflexivity|].
  cbn [DestinationPage.change_from map]. rewrite IH. f_equal.
  destruct (j0 =? i)%nat; [reflexivity|]. destruct c; reflexivity.
Qed.

(** After a box was checked, [find] meets that box first. *)
Lemma find_checked_change_from (l : list DestinationPage.checkbox) :
  forall j0 i box,
    nth_error l i = Some box ->
    find DestinationPage.checked
         (DestinationPage.change_from j0 (j0 + i) true l)
    = Some {| DestinationPage.value := DestinationPage.value box;
              DestinationPage.checked := true |}.
Proof.
  induction l as [|o r IH]; intros j0 i box Hi; [destruct i; discriminate|].
  cbn [DestinationPage.change_from find].
  destruct i as [|i]; cbn [nth_error] in Hi.
  - inversion Hi; subst o. rewrite Nat.add_0_r, Nat.eqb_refl. reflexivity.
  - replace (j0 =? j0 + S i)%nat with false
      by (symmetry; apply Nat.eqb_neq; lia).
    cbn [DestinationPage.checked].
    replace (j0 + S i)%nat with (S j0 + i)%nat by lia.
    now apply IH.
Qed.

(** X9.  The change handler of the check boxes.  When the user checks a
    box, that box ends up the only one checked, whatever was checked
    before, and a submission then stores its value as the destination.
    When the user unchecks a box, the other boxes stay as they are.  No
    change touches the value of a box. *)
Theorem checking_a_box_clears_the_others :
  forall (l : list DestinationPage.checkbox) (i : nat)
         (box : DestinationPage.checkbox),
    nth_error l i = Some box ->
    map DestinationPage.value (DestinationPage.change i l)
    = map DestinationPage.value l
    /\ (DestinationPage.checked box = false ->
        (forall j b,
            nth_error (DestinationPage.change i l) j = Some b ->
            DestinationPage.checked b = (j =? i)%nat)
        /\ forall stored,
            DestinationPage.submit stored (DestinationPage.change i l)
            = Stored
                (spread_with stored
                   [(js "destination", JStr (DestinationPage.value box))])
                (js "summary.html"))
    /\ (DestinationPage.checked box = true ->
        forall j b,
          nth_error l j = Some b ->
          nth_error (DestinationPage.change i l) j
          = Some (if (j =? i)%nat
                  then {| DestinationPage.value := DestinationPage.value b;
                          DestinationPage.checked := false |}
                  else b)).
Proof.
  intros l i box Hi. unfold DestinationPage.change. rewrite Hi.
  split; [apply map_value_change_from|]. split.
  - intros Hc. rewrite Hc. cbn [negb]. split.
    + intros j b Hj. rewrite nth_error_change_from in Hj.
      destruct (nth_error l j) as [o|]; [|discriminate].
      cbn [option_map] in Hj. cbn [Nat.add] in Hj.
      destruct (j =? i)%nat; inversion Hj; reflexivity.
    + intros stored. unfold DestinationPage.submit.
      pose proof (find_checked_change_from l 0 i box Hi) as Hf.
      cbn [Nat.add] in Hf. rewrite Hf. reflexivity.
  - intros Hc j b Hj. rewrite Hc. cbn [negb].
    rewrite nth_error_change_from, Hj. cbn [option_map Nat.add].
    reflexivity.
Qed.

Lemma checking_a_box_clears_the_others_witness :
  DestinationPage.submit (JObj [])
    (DestinationPage.change 1
       [{| DestinationPage.value := js "Line 1";
           DestinationPage.checked := true |};
        {| DestinationPage.value := js "Line 2";
           DestinationPage.checked := false |}])
  = Stored (JObj [(js "destination", JStr (js "Line 2"))])
           (js "summary.html").
Proof.
  exact (proj2 (proj1 (proj2
           (checking_a_box_clears_the_others
              [{| DestinationPage.value := js "Line 1";
                  DestinationPage.checked := true |};
               {| DestinationPage.value := js "Line 2";
                  DestinationPage.checked := false |}]
              1 _ eq_refl)) eq_refl) (JObj [])).
Defined.

(** ** From step 2 to step 3 *)

Lemma forallb_Forall_storable (l : list (jsstring * json)) :
  forallb (fun kv => RoundTrip.storable (snd kv)) l = true <->
  Forall (fun kv => RoundTrip.storable (snd kv) = true) l.
Proof. rewrite forallb_forall, Forall_forall. reflexivity. Qed.

Lemma own_props_storable (v : json) :
  RoundTrip.storable v = true ->
  Forall (fun kv => RoundTrip.storable (snd kv) = true) (own_props v).
Proof.
  intros Hs. destruct v as [| b | x | s | l | l]; cbn [own_props];
    try constructor.
  - apply (indexed_Forall (fun x => RoundTrip.storable x = true)).
    apply Forall_forall. intros x Hin. apply in_map_iff in Hin.
    destruct Hin as (c & <- & _). reflexivity.
  - apply (indexed_Forall (fun x => RoundTrip.storable x = true)).
    cbn [RoundTrip.storable] in Hs. rewrite forallb_forall in Hs.
    now apply Forall_forall.
  - now apply forallb_Forall_storable.
Qed.

Lemma spread_storable (base : json) (fields : list (jsstring * json)) :
  RoundTrip.storable base = true ->
  Forall (fun kv => RoundTrip.storable (snd kv) = true) fields ->
  RoundTrip.storable (spread_with base fields) = true.
Proof.
  intros Hb Hf. unfold spread_with. cbn [RoundTrip.storable].
  apply forallb_Forall_storable.
  apply (set_props_Forall (fun x => RoundTrip.storable x = true));
    [exact Hf | now apply own_props_storable].
Qed.

(** A record whose numbers are written with their value, spread into a
    literal with a string field, is loaded as it was saved. *)
Lemma load_spread_string (base : json) (k s : jsstring) :
  RoundTrip.well_formed base -> RoundTrip.storable base = true ->
  getStoredData (setStoredData (spread_with base [(k, JStr s)]))
  = spread_with base [(k, JStr s)].
Proof.
  intros Hwf Hs. apply getStoredData_setStoredData.
  - apply spread_well_formed; [exact Hwf|]. repeat constructor.
  - apply spread_storable; [exact Hs|]. repeat constructor.
  - reflexivity.
Qed.

Lemma guarded_is_object (stored : json) :
  step1_missing stored = false -> exists l, stored = JObj l.
Proof.
  unfold step1_missing. intros H.
  destruct stored as [| b | x | s | l | l]; try discriminate.
  now exists l.
Qed.

Lemma step1_missing_spread (l : list (jsstring * json)) (k : jsstring)
    (x : json) :
  str_eqb k (js "boxNumber") = false -> str_eqb k (js "product") = false ->
  str_eqb k (js "netWeight") = false ->
  str_eqb k (js "operatorName") = false ->
  step1_missing (spread_with (JObj l) [(k, x)]) = step1_missing (JObj l).
Proof.
  intros H1 H2 H3 H4. unfold step1_missing.
  rewrite !get_spread_with by (repeat constructor; intros []).
  cbn [assoc]. now rewrite H1, H2, H3, H4.
Qed.

Lemma initDestinationPage_rendered (boxes : list DestinationPage.checkbox)
    (ls : storage) (pg : DestinationPage.page) :
  DestinationPage.initDestinationPage boxes ls = Rendered pg ->
  step1_missing (getStoredData ls) = false
  /\ DestinationPage.stored pg = getStoredData ls.
Proof.
  unfold DestinationPage.initDestinationPage.
  destruct (step1_missing (getStoredData ls)); [discriminate|].
  intros H. inversion H. split; reflexivity.
Qed.

(** X10.  A submission of step 2 with a box checked writes the record
    with the value of the first checked box as its destination.  When the
    record loaded at step 2 has only numbers that are written with their
    value, and the value of the box is not empty, the summary page opens
    on exactly that record with the save button enabled; when the value
    is empty, the guard of the summary page sends the browser back to
    step 2. *)
Theorem destination_submit_opens_summary :
  forall (chipTypes : list jsstring)
         (boxes boxes' : list DestinationPage.checkbox) (ls : storage)
         (pg : DestinationPage.page) (sel : DestinationPage.checkbox),
    DestinationPage.initDestinationPage boxes ls = Rendered pg ->
    RoundTrip.storable (getStoredData ls) = true ->
    find DestinationPage.checked boxes' = Some sel ->
    let record :=
      spread_with (DestinationPage.stored pg)
        [(js "destination", JStr (DestinationPage.value sel))] in
    DestinationPage.submit (DestinationPage.stored pg) boxes'
    = Stored record (js "summary.html")
    /\ (is_empty (DestinationPage.value sel) = false ->
        Wizard.navigate chipTypes boxes (js "summary.html")
          (setStoredData record)
        = Wizard.OnSummary
            {| SummaryPage.stored := record;
               SummaryPage.saveButton_disabled := false;
               SummaryPage.redirectTimer := None;
               SummaryPage.message := [];
               SummaryPage.alerts := [];
               SummaryPage.in_flight := 0;
               SummaryPage.sent := [] |})
    /\ (is_empty (DestinationPage.value sel) = true ->
        Wizard.navigate chipTypes boxes (js "summary.html")
          (setStoredData record)
        = Wizard.OnDestination
            {| DestinationPage.stored := record;
               DestinationPage.checkboxes := boxes;
               DestinationPage.errorElement := [] |}).
Proof.
  intros chipTypes boxes boxes' ls pg sel Hinit Hst Hfind record.
  destruct (initDestinationPage_rendered boxes ls pg Hinit) as [Hg Hs].
  destruct (guarded_is_object _ Hg) as [l Hl].
  split; [unfold DestinationPage.submit; now rewrite Hfind|].
  assert (Hload : getStoredData (setStoredData record) = record).
  { unfold record. rewrite Hs.
    apply load_spread_string; [apply getStoredData_well_formed | exact Hst]. }
  assert (Hguard : step1_missing record = false).
  { unfold record. rewrite Hs, Hl. rewrite step1_missing_spread by reflexivity.
    now rewrite <- Hl. }
  assert (Hdest : get record (js "destination")
                  = Some (JStr (DestinationPage.value sel))).
  { unfold record. rewrite get_spread_with by (repeat constructor; intros []).
    reflexivity. }
  unfold Wizard.navigate. cbn [Wizard.load].
  change (str_eqb (js "summary.html") (js "index.html")) with false.
  change (str_eqb (js "summary.html") (js "destination.html")) with false.
  change (str_eqb (js "summary.html") (js "summary.html")) with true.
  cbv iota. unfold SummaryPage.initSummaryPage.
  rewrite Hload, Hguard, Hdest, truthy_string. split.
  - intros He. rewrite He. reflexivity.
  - intros He. rewrite He. cbn [negb].
    change (str_eqb (js "destination.html") (js "index.html")) with false.
    change (str_eqb (js "destination.html") (js "destination.html")) with true.
    cbv iota. unfold DestinationPage.initDestinationPage.
    rewrite Hload, Hguard, Hdest, truthy_string, He. reflexivity.
Qed.

Lemma destination_submit_opens_summary_witness :
  exists spg,
    Wizard.navigate Runs.three_types Runs.two_destinations
      (js "summary.html")
      (setStoredData
         (spread_with Runs.complete_record
            [(js "destination", JStr (js "Line 2"))]))
    = Wizard.OnSummary spg.
Proof.
  eexists.
  apply (proj1 (proj2
           (destination_submit_opens_summary Runs.three_types
              Runs.two_destinations
              [{| DestinationPage.value := js "Line 2";
                  DestinationPage.checked := true |}]
              (setStoredData Runs.complete_record)
              {| DestinationPage.stored := Runs.complete_record;
                 DestinationPage.checkboxes :=
                   DestinationPage.check_first
                     (DestinationPage.is_saved (Some (JStr (js "Line 1"))))
                     Runs.two_destinations;
                 DestinationPage.errorElement := [] |}
              {| DestinationPage.value := js "Line 2";
                 DestinationPage.checked := true |}
              ltac:(vm_compute; reflexivity)
              ltac:(vm_compute; reflexivity) eq_refl))).
  reflexivity.
Defined.

(** ** Back to step 2 *)

Lemma set_prop_same_value (k : jsstring) (x : json)
    (l : list (jsstring * json)) :
  assoc k l = Some x -> set_prop k x l = l.
Proof.
  induction l as [|[k' x'] r IH]; [discriminate|].
  cbn [assoc set_prop]. destruct (str_eqb k' k) eqn:E.
  - intros [= ->]. apply str_eqb_eq in E. now subst.
  - intros H. now rewrite (IH H).
Qed.

Lemma find_checked_check_first (f : DestinationPage.checkbox -> bool)
    (boxes : list DestinationPage.checkbox) :
  Forall (fun b => DestinationPage.checked b = false) boxes ->
  find DestinationPage.checked (DestinationPage.check_first f boxes)
  = match find f boxes with
    | Some b => Some {| DestinationPage.value := DestinationPage.value b;
                        DestinationPage.checked := true |}
    | None => None
    end.
Proof.
  induction boxes as [|b r IH]; intros Hall; [reflexivity|].
  inversion Hall as [|? ? Hb Hr]; subst.
  cbn [DestinationPage.check_first find]. destruct (f b); [reflexivity|].
  cbn [find]. rewrite Hb. now apply IH.
Qed.

Lemma check_first_none (f : DestinationPage.checkbox -> bool)
    (boxes : list DestinationPage.checkbox) :
  find f boxes = None -> DestinationPage.check_first f boxes = boxes.
Proof.
  induction boxes as [|b r IH]; [reflexivity|].
  cbn [find DestinationPage.check_first]. destruct (f b); [discriminate|].
  intros H. now rewrite (IH H).
Qed.

(** X11.  Going back from the summary page.  With the store that let the
    summary page open, the destination page opens too.  When the stored
    destination is a string and no box is checked in the markup, the
    first box with that value comes up checked, and submitting the page
    as it stands writes the record it loaded and returns to the summary
    page; when no box has that value, every box stays unchecked and the
    submission is rejected. *)
Theorem going_back_keeps_the_destination :
  forall (boxes : list DestinationPage.checkbox) (ls : storage)
         (spg : SummaryPage.page) (d : jsstring),
    SummaryPage.initSummaryPage ls = Rendered spg ->
    get (getStoredData ls) (js "destination") = Some (JStr d) ->
    Forall (fun b => DestinationPage.checked b = false) boxes ->
    exists pg,
      DestinationPage.initDestinationPage boxes ls = Rendered pg
      /\ DestinationPage.stored pg = SummaryPage.stored spg
      /\ (forall b,
             find (fun b => str_eqb (DestinationPage.value b) d) boxes
             = Some b ->
             find DestinationPage.checked (DestinationPage.checkboxes pg)
             = Some {| DestinationPage.value := d;
                       DestinationPage.checked := true |}
             /\ DestinationPage.submit (DestinationPage.stored pg)
                  (DestinationPage.checkboxes pg)
                = Stored (DestinationPage.stored pg) (js "summary.html"))
      /\ (find (fun b => str_eqb (DestinationPage.value b) d) boxes = None ->
          DestinationPage.checkboxes pg = boxes
          /\ DestinationPage.submit (DestinationPage.stored pg)
               (DestinationPage.checkboxes pg)
             = Rejected (js "Please select a chip destination.") None).
Proof.
  intros boxes ls spg d Hsum Hd Hall.
  unfold SummaryPage.initSummaryPage in Hsum.
  destruct (step1_missing (getStoredData ls)) eqn:Hg; [discriminate|].
  destruct (truthy_opt (get (getStoredData ls) (js "destination"))) eqn:Ht;
    [|discriminate].
  inversion Hsum; subst spg. clear Hsum. cbn [SummaryPage.stored].
  unfold DestinationPage.initDestinationPage. rewrite Hg, Ht.
  eexists. split; [reflexivity|]. cbn [DestinationPage.stored
                                       DestinationPage.checkboxes].
  split; [reflexivity|].
  rewrite Hd.
  change (DestinationPage.is_saved (Some (JStr d)))
    with (fun b : DestinationPage.checkbox =>
            str_eqb (DestinationPage.value b) d).
  destruct (guarded_is_object _ Hg) as [l Hl].
  split.
  - intros b Hb.
    pose proof (find_some _ _ Hb) as [_ Hv]. apply str_eqb_eq in Hv.
    unfold DestinationPage.submit.
    rewrite (find_checked_check_first _ _ Hall), Hb, Hv.
    split; [reflexivity|]. cbn [DestinationPage.value].
    f_equal. rewrite Hl in Hd |- *. cbn [get] in Hd.
    unfold spread_with, set_props. cbn [own_props fold_left fst snd].
    now rewrite (set_prop_same_value _ _ _ Hd).
  - intros Hnone. rewrite (check_first_none _ _ Hnone).
    split; [reflexivity|]. unfold DestinationPage.submit.
    assert (Hno : find DestinationPage.checked boxes = None).
    { clear - Hall. induction boxes as [|b r IH]; [reflexivity|].
      inversion Hall as [|? ? Hb Hr]; subst. cbn [find]. rewrite Hb.
      now apply IH. }
    now rewrite Hno.
Qed.

Lemma going_back_keeps_the_destination_witness :
  exists pg,
    DestinationPage.initDestinationPage Runs.two_destinations
      (setStoredData Runs.complete_record) = Rendered pg
    /\ DestinationPage.submit (DestinationPage.stored pg)
         (DestinationPage.checkboxes pg)
       = Stored (DestinationPage.stored pg) (js "summary.html").
Proof.
  destruct (going_back_keeps_the_destination Runs.two_destinations
              (setStoredData Runs.complete_record) Runs.summary_page
              (js "Line 1")
              ltac:(vm_compute; reflexivity) ltac:(vm_compute; reflexivity)
              ltac:(repeat constructor))
    as (pg & Hinit & _ & Hfound & _).
  exists pg. split; [exact Hinit|].
  exact (proj2 (Hfound _ eq_refl)).
Defined.
(** ** The server: what is missing, and save after save *)

(** X14.  The fields the server reports as missing are those of
    [boxNumber], [product], [operatorName], [destination], [netWeight],
    in this order, that are absent from the body, are not strings or are
    blank; when there is one, the answer is status 400 with that list and
    the disk is left as it was. *)
Theorem missing_fields_listed :
  forall (h : Server.host) (date time : jsstring) (body : option json)
         (d : Server.disk h),
    let absent :=
      filter (fun k => negb (Ledger.non_blank_string (Server.field body k)))
             [js "boxNumber"; js "product"; js "operatorName";
              js "destination"; js "netWeight"] in
    Server.missing (Server.validatePayload body) = absent
    /\ (absent <> [] ->
        Server.post_save h date time body d
        = ({| Server.status := 400;
              Server.json_body :=
                JObj [(js "error", JStr (js "Missing required fields."));
                      (js "fields", JArr (map JStr absent))] |}, d)).
Proof.
  intros h date time body d absent.
  assert (H : Server.missing (Server.validatePayload body) = absent).
  { unfold absent, Server.validatePayload, Server.push_if_blank.
    cbn [Server.missing filter]. rewrite <- !blank_field.
    destruct (is_empty (Server.getTrimmedString
                          (Server.field body (js "boxNumber"))));
      destruct (is_empty (Server.getTrimmedString
                            (Server.field body (js "product"))));
      destruct (is_empty (Server.getTrimmedString
                            (Server.field body (js "operatorName"))));
      destruct (is_empty (Server.getTrimmedString
                            (Server.field body (js "destination"))));
      destruct (is_empty (Server.getTrimmedString
                            (Server.field body (js "netWeight"))));
      reflexivity. }
  split; [exact H|]. intros Hne. unfold Server.post_save. rewrite H.
  destruct absent; [congruence | reflexivity].
Qed.

Lemma missing_fields_listed_witness :
  Server.post_save Ledger.plain_host (js "1/5/2026") (js "10:00 AM")
    (Some (JObj [(js "boxNumber", JStr (js "A1B2"));
                 (js "product", JStr (js "  "));
                 (js "netWeight", JNum (Zero false))]))
    Ledger.empty_disk
  = ({| Server.status := 400;
        Server.json_body :=
          JObj [(js "error", JStr (js "Missing required fields."));
                (js "fields",
                 JArr [JStr (js "product"); JStr (js "operatorName");
                       JStr (js "destination"); JStr (js "netWeight")])] |},
     Ledger.empty_disk).
Proof.
  apply (proj2 (missing_fields_listed Ledger.plain_host
                  (js "1/5/2026") (js "10:00 AM")
                  (Some (JObj [(js "boxNumber", JStr (js "A1B2"));
                               (js "product", JStr (js "  "));
                               (js "netWeight", JNum (Zero false))]))
                  Ledger.empty_disk)).
  discriminate.
Defined.

(** X19.  [getOrCreateWorksheet] throws only when the workbook does not
    hold [Sheet1] and cannot take it (it lists the name already, or has
    65535 sheets).  Otherwise the sheet it returns is the [Sheet1] of the
    workbook it leaves; its first row, read the way the function reads it
    (from the first column of the sheet's range), is accepted by
    [headersMatch]; every cell of a sheet that was there, outside A1 to
    G1, is as it was; the other sheets are untouched; and called again on
    the workbook it leaves it changes nothing. *)
Theorem header_row_in_place :
  forall wb : Server.workbook,
    match Server.getOrCreateWorksheet wb with
    | Some (ws, wb') =>
        Server.sheet wb' Server.SHEET_NAME = Some ws
        /\ Server.headersMatch Server.HEADERS
             (Server.sheet_to_json_first ws) = true
        /\ (forall found r c,
               Server.sheet wb Server.SHEET_NAME = Some found ->
               r <> 0 \/ 7 <= c ->
               Server.cell ws r c = Server.cell found r c)
        /\ (forall name,
               str_eqb name Server.SHEET_NAME = false ->
               Server.sheet wb' name = Server.sheet wb name)
        /\ Server.getOrCreateWorksheet wb' = Some (ws, wb')
    | None =>
        Server.sheet wb Server.SHEET_NAME = None
        /\ (65535 <= N.of_nat (List.length (Server.SheetNames wb))
            \/ In Server.SHEET_NAME (Server.SheetNames wb))
    end.
Proof.
  intros wb.
  destruct (Server.getOrCreateWorksheet wb) as [[ws wb']|] eqn:Hg;
    [|exact (proj1 (getOrCreateWorksheet_throws wb) Hg)].
  destruct (getOrCreateWorksheet_returns _ _ _ Hg) as (Hs & Hm & Hother).
  split; [exact Hs|]. split; [exact Hm|].
  split; [|split; [exact Hother
                  | exact (getOrCreateWorksheet_again _ _ _ Hg)]].
  intros found r c Hf Hrc.
  rewrite (getOrCreateWorksheet_found wb found Hf) in Hg. cbv zeta in Hg.
  inversion Hg as [[Hws Hwb]]. clear Hg.
  destruct (Server.headersMatch Server.HEADERS
              (Server.sheet_to_json_first found)); [reflexivity|].
  now apply (sheet_add_aoa_A1_spec found (js "Box Number")
               (tl Server.HEADERS)).
Qed.

(** X15.  Save after save, when the second request starts from the
    workbook the first one handed to the writer (what the reader makes of
    the file written is the package's matter).  The second request does
    not throw; its row goes into the columns A to G of the row just below
    the row of the first, which is still there; the range ends one row
    further down; and no cell of another row than the first of the sheet
    and the new one changes, nor a cell of the first row right of column
    G.  Nothing tells a repeated submission from a new one: the same body
    sent twice gives two rows. *)
Theorem second_save_appends_below :
  forall (date1 time1 date2 time2 : jsstring) (body1 body2 : option json)
         (wb wb1 : Server.workbook),
    Server.add_row (Ledger.submitted_values date1 time1 body1) wb = Some wb1 ->
    exists ws1 rg1 wb2 ws2 rg2,
      Server.sheet wb1 Server.SHEET_NAME = Some ws1
      /\ Server.ref ws1 = Some rg1
      /\ Server.add_row (Ledger.submitted_values date2 time2 body2) wb1
         = Some wb2
      /\ Server.sheet wb2 Server.SHEET_NAME = Some ws2
      /\ Server.ref ws2 = Some rg2
      /\ Server.e_r rg2 = Server.e_r rg1 + 1
      /\ Server.s_c rg2 = 0
      /\ Server.e_c rg2 = Server.e_c rg1
      /\ 1 <= Server.e_r rg1
      /\ Ledger.cells_from ws2 (Server.e_r rg1) 0 7
         = Ledger.texts (Ledger.submitted_values date1 time1 body1)
      /\ Ledger.cells_from ws2 (Server.e_r rg1 + 1) 0 7
         = Ledger.texts (Ledger.submitted_values date2 time2 body2)
      /\ (forall r c,
             r <> Server.e_r rg1 + 1 -> r <> 0 \/ 7 <= c ->
             Server.cell ws2 r c = Server.cell ws1 r c)
      /\ (forall name,
             str_eqb name Server.SHEET_NAME = false ->
             Server.sheet wb2 name = Server.sheet wb name).
Proof.
  intros date1 time1 date2 time2 body1 body2 wb wb1 H1.
  set (values1 := Ledger.submitted_values date1 time1 body1) in *.
  set (values2 := Ledger.submitted_values date2 time2 body2).
  (* the first save *)
  destruct (Server.getOrCreateWorksheet wb) as [[ws0 wb0]|] eqn:Hg0;
    [|unfold Server.add_row in H1; rewrite Hg0 in H1; discriminate].
  destruct (add_row_spec values1 wb wb0 ws0 eq_refl Hg0)
    as (rg0 & written & ws1 & Href0 & Hec0 & Hadd & _ & Hs1 & Href1 & Hrow1
        & Hrest1 & Hother1).
  rewrite H1 in Hadd. inversion Hadd. subst written. clear Hadd.
  (* the second save *)
  destruct (getOrCreateWorksheet_keeps wb1 ws1 Hs1)
    as (ws1' & Hg1 & Hkeep & Hrange).
  destruct (Hrange _ Href1 Hec0) as (rg1' & Href1' & He & Hc).
  cbn [Server.e_r Server.e_c] in He, Hc.
  destruct (add_row_spec values2 wb1 _ ws1' eq_refl Hg1)
    as (rgx & wb2 & ws2 & Hrefx & _ & Hadd2 & _ & Hs2 & Href2 & Hrow2
        & Hrest2 & Hother2).
  rewrite Href1' in Hrefx. inversion Hrefx. subst rgx. clear Hrefx.
  rewrite He in Href2, Hrow2, Hrest2. rewrite Hc in Href2.
  eexists ws1, _, wb2, ws2, _.
  split; [exact Hs1|]. split; [exact Href1|]. split; [exact Hadd2|].
  split; [exact Hs2|]. split; [exact Href2|].
  cbn [Server.e_r Server.s_c Server.e_c].
  split; [reflexivity|]. split; [reflexivity|]. split; [reflexivity|].
  split; [lia|].
  split; [|split; [|split]].
  - rewrite <- Hrow1. unfold Ledger.cells_from. apply map_ext_in.
    intros c _. rewrite Hrest2 by lia. apply Hkeep. lia.
  - exact Hrow2.
  - intros r c Hr Hrc. rewrite Hrest2 by (left; exact Hr). now apply Hkeep.
  - intros name Hne. rewrite Hother2 by exact Hne. now apply Hother1.
Qed.

Lemma second_save_appends_below_witness :
  exists wb1 wb2 ws2,
    Server.add_row
      (Ledger.submitted_values (js "1/5/2026") (js "10:00 AM")
         Ledger.good_body) Ledger.shifted_workbook = Some wb1
    /\ Server.add_row
         (Ledger.submitted_values (js "1/6/2026") (js "11:30 AM")
            Ledger.good_body) wb1 = Some wb2
    /\ Server.sheet wb2 Server.SHEET_NAME = Some ws2
    /\ Ledger.cells_from ws2 2 0 7
       = Ledger.texts [js "A1B2"; js "Resin-X"; js "Jane Doe"; js "Line 1";
                       js "1/5/2026"; js "10:00 AM"; js "12.5"]
    /\ Ledger.cells_from ws2 3 0 7
       = Ledger.texts [js "A1B2"; js "Resin-X"; js "Jane Doe"; js "Line 1";
                       js "1/6/2026"; js "11:30 AM"; js "12.5"].
Proof.
  destruct (Server.add_row
              (Ledger.submitted_values (js "1/5/2026") (js "10:00 AM")
                 Ledger.good_body) Ledger.shifted_workbook) as [wb1|] eqn:H1;
    [|vm_compute in H1; discriminate].
  destruct (second_save_appends_below
              (js "1/5/2026") (js "10:00 AM") (js "1/6/2026") (js "11:30 AM")
              Ledger.good_body Ledger.good_body Ledger.shifted_workbook wb1 H1)
    as (ws1 & rg1 & wb2 & ws2 & rg2 & Hs1 & Href1 & Hadd2 & Hs2 & _ & _ & _
        & _ & _ & Hrow1 & Hrow2 & _).
  vm_compute in H1. inversion H1. subst wb1. clear H1.
  vm_compute in Hs1. inversion Hs1. subst ws1. clear Hs1.
  vm_compute in Href1. inversion Href1. subst rg1. clear Href1.
  eexists. exists wb2, ws2. split; [reflexivity|]. split; [exact Hadd2|].
  split; [exact Hs2|]. split; [exact Hrow1 | exact Hrow2].
Defined.


(** ** The request as the server reads it *)

Lemma assoc_well_formed (l : list (jsstring * json)) (k : jsstring) (x : json) :
  Forall (fun kv => RoundTrip.well_formed (snd kv)) l ->
  assoc k l = Some x -> RoundTrip.well_formed x.
Proof.
  induction l as [|[k' x'] r IH]; intros Hall H; [discriminate|].
  inversion Hall as [|? ? Hx Hr]; subst. cbn [assoc] in H.
  destruct (str_eqb k' k); [inversion H; subst; exact Hx | now apply IH].
Qed.

Lemma get_well_formed (v : json) (k : jsstring) (x : json) :
  RoundTrip.well_formed v -> get v k = Some x -> RoundTrip.well_formed x.
Proof.
  intros Hwf H. destruct v as [| | | | |l]; try discriminate.
  inversion Hwf; subst. now apply (assoc_well_formed l k).
Qed.

Lemma defined_props_keys (L : list (jsstring * option json)) (k : jsstring) :
  In k (map fst (SummaryPage.defined_props L)) -> In k (map fst L).
Proof.
  induction L as [|[k' [x|]] r IH]; cbn [SummaryPage.defined_props map fst In];
    [tauto | intros [H|H]; auto | auto].
Qed.

Lemma defined_props_NoDup (L : list (jsstring * option json)) :
  NoDup (map fst L) -> NoDup (map fst (SummaryPage.defined_props L)).
Proof.
  induction L as [|[k' [x|]] r IH]; intros H; cbn [SummaryPage.defined_props];
    [constructor | |]; inversion H as [|? ? Hn Hr]; subst.
  - cbn [map fst]. constructor; [|now apply IH].
    intros Hin. apply Hn. now apply defined_props_keys.
  - now apply IH.
Qed.

Lemma assoc_defined_props (L : list (jsstring * option json)) (k : jsstring)
    (o : option json) :
  NoDup (map fst L) -> In (k, o) L ->
  assoc k (SummaryPage.defined_props L) = o.
Proof.
  induction L as [|[k' o'] r IH]; intros Hnd Hin; [contradiction|].
  inversion Hnd as [|? ? Hn Hr]; subst. cbn [map fst] in Hn.
  destruct Hin as [Heq | Hin].
  - inversion Heq; subst k' o'. destruct o as [x|].
    + cbn [SummaryPage.defined_props assoc]. now rewrite str_eqb_refl.
    + cbn [SummaryPage.defined_props]. apply assoc_None_not_in.
      intros Hin. apply Hn. now apply defined_props_keys.
  - assert (Hne : str_eqb k' k = false).
    { apply str_eqb_neq. intros ->. apply Hn.
      apply in_map_iff. now exists (k, o). }
    destruct o' as [x|]; cbn [SummaryPage.defined_props assoc];
      [rewrite Hne|]; now apply IH.
Qed.

Lemma defined_props_well_formed (L : list (jsstring * option json)) :
  (forall k x, In (k, Some x) L -> RoundTrip.well_formed x) ->
  Forall (fun kv => RoundTrip.well_formed (snd kv))
         (SummaryPage.defined_props L).
Proof.
  induction L as [|[k [x|]] r IH]; intros H; cbn [SummaryPage.defined_props].
  - constructor.
  - constructor; [apply (H k x); now left|].
    apply IH. intros k' x' Hin. apply (H k' x'). now right.
  - apply IH. intros k' x' Hin. apply (H k' x'). now right.
Qed.

Lemma getTrimmedString_reloaded (o : option json) :
  Server.getTrimmedString (option_map Reload.reloaded o)
  = Server.getTrimmedString o.
Proof.
  destruct o as [[| b | [|s|s|s m e] | s | l | l]|]; reflexivity.
Qed.

Lemma non_blank_string_reloaded (o : option json) :
  Ledger.non_blank_string (option_map Reload.reloaded o)
  = Ledger.non_blank_string o.
Proof.
  destruct o as [[| b | [|s|s|s m e] | s | l | l]|]; reflexivity.
Qed.

(** The body of the request, parsed. *)
Lemma request_body_parsed (stored : json) :
  RoundTrip.well_formed stored ->
  exists body,
    JSON_parse (SummaryPage.request_body stored) = Some body
    /\ forall k,
        In k Ledger.required_fields ->
        Server.field (Some body) k
        = option_map Reload.reloaded (get stored k).
Proof.
  intros Hwf. unfold SummaryPage.request_body.
  set (L := [(js "boxNumber", get stored (js "boxNumber"));
             (js "product", get stored (js "product"));
             (js "netWeight", get stored (js "netWeight"));
             (js "operatorName", get stored (js "operatorName"));
             (js "destination", get stored (js "destination"))]).
  assert (HndL : NoDup (map fst L)).
  { apply NoDup_by_eqb. vm_compute. reflexivity. }
  pose proof (defined_props_NoDup L HndL) as HndD.
  assert (HwfD : Forall (fun kv => RoundTrip.well_formed (snd kv))
                        (SummaryPage.defined_props L)).
  { apply defined_props_well_formed. intros k x Hin.
    unfold L in Hin. cbn [In] in Hin.
    repeat (destruct Hin as [Hin | Hin];
            [inversion Hin; subst;
             match goal with
             | H : get stored _ = Some _ |- _ =>
                 apply (get_well_formed stored _ _ Hwf H)
             | H : Some _ = get stored _ |- _ =>
                 apply (get_well_formed stored _ _ Hwf (eq_sym H))
             end|]).
    contradiction. }
  assert (Hobj : RoundTrip.well_formed
                   (JObj (set_props (SummaryPage.defined_props L) []))).
  { constructor.
    - apply set_props_NoDup. constructor.
    - apply (set_props_Forall RoundTrip.well_formed); [exact HwfD | constructor]. }
  eexists. split; [apply (JSON_parse_stringify_reloaded _ Hobj)|].
  intros k Hk. unfold Server.field. rewrite get_reloaded. f_equal.
  cbn [get]. rewrite assoc_set_props, (assoc_rev _ _ HndD).
  cbn [assoc].
  assert (Hin : In (k, get stored k) L).
  { unfold Ledger.required_fields in Hk. cbn [In] in Hk. unfold L. cbn [In].
    repeat (destruct Hk as [<- | Hk]; [tauto|]). contradiction. }
  rewrite (assoc_defined_props L k _ HndL Hin).
  now destruct (get stored k).
Qed.

(** X13.  The request of the save button, read by the server.  Its body
    is JSON the server can parse; each of the five fields reaches the
    server with the text the page had loaded for it when that is a string,
    and as no text at all otherwise, so the server finds all five present
    exactly when the five fields loaded from the store are strings that
    are not blank.  A field that passes the entry guards without being a
    string, such as a net weight stored as a number, is always reported
    missing. *)
Theorem request_as_the_server_reads_it :
  forall ls : storage,
    let stored := getStoredData ls in
    exists body,
      JSON_parse (SummaryPage.request_body stored) = Some body
      /\ (forall k,
             In k Ledger.required_fields ->
             Server.getTrimmedString (Server.field (Some body) k)
             = Server.getTrimmedString (get stored k))
      /\ Ledger.all_present (Some body)
         = forallb (fun k => Ledger.non_blank_string (get stored k))
                   Ledger.required_fields
      /\ (Server.missing (Server.validatePayload (Some body)) = [] <->
          forall k,
            In k Ledger.required_fields ->
            Ledger.non_blank_string (get stored k) = true).
Proof.
  intros ls stored.
  destruct (request_body_parsed stored (getStoredData_well_formed ls))
    as (body & Hparse & Hfield).
  exists body. split; [exact Hparse|].
  assert (Hall : Ledger.all_present (Some body)
                 = forallb (fun k => Ledger.non_blank_string (get stored k))
                           Ledger.required_fields).
  { unfold Ledger.all_present, Ledger.required_fields in *.
    cbn [forallb].
    rewrite !Hfield by (cbn [In]; tauto).
    now rewrite !non_blank_string_reloaded. }
  split; [|split; [exact Hall|]].
  - intros k Hk. rewrite (Hfield k Hk). apply getTrimmedString_reloaded.
  - rewrite nothing_missing, Hall, forallb_forall. reflexivity.
Qed.

(** ** Step 1: what is typed, what is selected *)

Lemma trim_in (c : N) (s : jsstring) : In c (trim s) -> In c s.
Proof.
  intros H. unfold trim in H.
  destruct (trimEnd_prefix (trimStart s)) as [w Hw].
  destruct (trimStart_suffix s) as [u Hu].
  rewrite Hu, Hw. apply in_or_app. right. apply in_or_app. now left.
Qed.

Lemma isAlnum_not_whitespace (c : N) :
  isAlnum c = true -> isWhiteSpace c = false.
Proof.
  unfold isAlnum. intros H.
  apply orb_true_iff in H. destruct H as [H | H];
    [|now apply isDigit_not_whitespace].
  assert (Hr : (65 <= c <= 122)%N).
  { apply orb_true_iff in H. destruct H as [H | H];
      apply andb_true_iff in H; destruct H as [H1 H2];
      apply N.leb_le in H1, H2; lia. }
  unfold isWhiteSpace.
  repeat (apply orb_false_iff; split);
    try (apply N.eqb_neq; lia).
  apply andb_false_iff. left. apply N.leb_gt. lia.
Qed.

Lemma trimStart_no_whitespace (s : jsstring) :
  forallb (fun c => negb (isWhiteSpace c)) s = true -> trimStart s = s.
Proof.
  destruct s as [|c r]; [reflexivity|]. cbn [forallb trimStart].
  intros H. apply andb_true_iff in H. destruct H as [H _].
  apply negb_true_iff in H. now rewrite H.
Qed.

Lemma trim_no_whitespace (s : jsstring) :
  forallb (fun c => negb (isWhiteSpace c)) s = true -> trim s = s.
Proof.
  intros H. unfold trim, trimEnd. rewrite (trimStart_no_whitespace s H).
  rewrite trimStart_no_whitespace; [apply rev_involutive|].
  apply forallb_forall. intros c Hin. apply in_rev in Hin.
  rewrite forallb_forall in H. now apply H.
Qed.

Lemma filter_filter_same (A : Type) (f : A -> bool) (l : list A) :
  filter f (filter f l) = filter f l.
Proof.
  induction l as [|x r IH]; [reflexivity|]. cbn [filter].
  destruct (f x) eqn:E; [|exact IH]. cbn [filter]. now rewrite E, IH.
Qed.

(** X2.  The [input] handlers of step 1.  What the handler of the box
    field leaves in the field has only ASCII letters and digits, and the
    handler applied again changes nothing; submitted with the type [box],
    such a value is never answered with the alphanumeric message: it is
    accepted as it stands, or reported empty.  What the handler of the
    bulk/silo field leaves has no digit, so with the type [bulk] the
    digits message cannot come either. *)
Theorem typed_values_pass_the_character_checks :
  forall raw other purchased : jsstring,
    let box := FormPage.input_chipBox raw in
    let bulk := FormPage.input_chipBulk raw in
    FormPage.input_chipBox box = box
    /\ FormPage.input_chipBulk bulk = bulk
    /\ FormPage.variant_value (js "box") (normalizeText box) other purchased
       = (if is_empty box
          then inl (Rejected (js "Please enter a box number.")
                             (Some ChipBoxInput))
          else inr box)
    /\ FormPage.variant_value (js "bulk") other (normalizeText bulk) purchased
       = (if is_empty (trim bulk)
          then inl (Rejected (js "Please enter a bulk/silo value.")
                             (Some ChipBulkInput))
          else inr (trim bulk)).
Proof.
  intros raw other purchased box bulk.
  destruct (sanitized_inputs raw) as [Hbox Hbulk]. fold box in Hbox.
  fold bulk in Hbulk.
  split; [apply filter_filter_same|]. split; [apply filter_filter_same|].
  rewrite !normalizeText_trim. split.
  - assert (Ht : trim box = box).
    { apply trim_no_whitespace. apply forallb_forall. intros c Hin.
      rewrite forallb_forall in Hbox. apply negb_true_iff.
      apply isAlnum_not_whitespace. now apply Hbox. }
    rewrite Ht. unfold FormPage.variant_value, test_alnum_only.
    change (str_eqb (js "box") (js "box")) with true. cbv iota.
    destruct (is_empty box); [reflexivity|]. now rewrite Hbox.
  - unfold FormPage.variant_value.
    change (str_eqb (js "bulk") (js "box")) with false.
    change (str_eqb (js "bulk") (js "bulk")) with true. cbv iota.
    destruct (is_empty (trim bulk)); [reflexivity|].
    assert (Hd : test_has_digit (trim bulk) = false).
    { unfold test_has_digit in *.
      destruct (existsb isDigit (trim bulk)) eqn:E; [|reflexivity].
      apply existsb_exists in E. destruct E as (c & Hin & Hc).
      rewrite <- Hbulk. symmetry. apply existsb_exists.
      exists c. split; [now apply trim_in | exact Hc]. }
    now rewrite Hd.
Qed.

Lemma find_pressed_after_selection (type : jsstring)
    (buttons : list FormPage.button) :
  find FormPage.aria_pressed
       (map (fun b => {| FormPage.dataset_chipType := FormPage.dataset_chipType b;
                         FormPage.aria_pressed :=
                           str_eqb (FormPage.dataset_chipType b) type |})
            buttons)
  = if existsb (fun b => str_eqb (FormPage.dataset_chipType b) type) buttons
    then Some {| FormPage.dataset_chipType := type;
                 FormPage.aria_pressed := true |}
    else None.
Proof.
  induction buttons as [|b r IH]; [reflexivity|].
  cbn [map find existsb FormPage.aria_pressed].
  destruct (str_eqb (FormPage.dataset_chipType b) type) eqn:E.
  - apply str_eqb_eq in E. now rewrite E.
  - exact IH.
Qed.

Lemma selected_after_selection (type : jsstring) (pg : FormPage.page) :
  FormPage.getSelectedChipType
    (FormPage.chipTypeButtons (FormPage.setSelectedChipType type pg))
  = if existsb (fun b => str_eqb (FormPage.dataset_chipType b) type)
               (FormPage.chipTypeButtons pg)
    then type else [].
Proof.
  unfold FormPage.getSelectedChipType, FormPage.setSelectedChipType.
  cbn [FormPage.chipTypeButtons]. rewrite find_pressed_after_selection.
  now destruct (existsb _ _).
Qed.

(** X3.  [setSelectedChipType] and [getSelectedChipType].  After a type
    was selected, a button is pressed exactly when it carries that type,
    and the selected type reads back as that type when a button carries
    it and as the empty string otherwise.  At most one of the three
    fields is shown: the one of the type, and none for any other
    string. *)
Theorem one_chip_type_selected :
  forall (type : jsstring) (pg : FormPage.page),
    let pg' := FormPage.setSelectedChipType type pg in
    FormPage.getSelectedChipType (FormPage.chipTypeButtons pg')
    = (if existsb (fun b => str_eqb (FormPage.dataset_chipType b) type)
                  (FormPage.chipTypeButtons pg)
       then type else [])
    /\ map FormPage.dataset_chipType (FormPage.chipTypeButtons pg')
       = map FormPage.dataset_chipType (FormPage.chipTypeButtons pg)
    /\ (forall b,
           In b (FormPage.chipTypeButtons pg') ->
           FormPage.aria_pressed b
           = str_eqb (FormPage.dataset_chipType b) type)
    /\ (List.length
          (filter negb [FormPage.chipBoxField_hidden pg';
                        FormPage.chipBulkField_hidden pg';
                        FormPage.chipPurchasedField_hidden pg']) <= 1)%nat
    /\ (FormPage.chipBoxField_hidden pg' = false <-> type = js "box")
    /\ (FormPage.chipBulkField_hidden pg' = false <-> type = js "bulk")
    /\ (FormPage.chipPurchasedField_hidden pg' = false
        <-> type = js "purchased").
Proof.
  intros type pg pg'. split; [apply selected_after_selection|].
  split; [|split; [|split]].
  - unfold pg', FormPage.setSelectedChipType. cbn [FormPage.chipTypeButtons].
    rewrite map_map. reflexivity.
  - intros b Hin. unfold pg', FormPage.setSelectedChipType in Hin.
    cbn [FormPage.chipTypeButtons] in Hin. apply in_map_iff in Hin.
    destruct Hin as (b0 & <- & _). reflexivity.
  - unfold pg', FormPage.setSelectedChipType.
    cbn [FormPage.chipBoxField_hidden FormPage.chipBulkField_hidden
         FormPage.chipPurchasedField_hidden].
    destruct (str_eqb type (js "box")) eqn:E1.
    + apply str_eqb_eq in E1. subst type. cbn. lia.
    + destruct (str_eqb type (js "bulk")) eqn:E2.
      * apply str_eqb_eq in E2. subst type. cbn. lia.
      * destruct (str_eqb type (js "purchased")); cbn; lia.
  - unfold pg', FormPage.setSelectedChipType.
    cbn [FormPage.chipBoxField_hidden FormPage.chipBulkField_hidden
         FormPage.chipPurchasedField_hidden].
    rewrite !negb_false_iff. repeat split; intros H;
      first [now apply str_eqb_eq | subst type; reflexivity].
Qed.

(** X4.  [initFormPage] on a page that has the form and its controls.
    Without a chip-type button it returns at once.  With one, the page it
    leaves has no chip type selected and its three fields hidden, whatever
    the store holds: a submission made before a button is clicked is
    answered with the chip-type message, writes nothing and stays on the
    page. *)
Theorem fresh_form_has_no_type_selected :
  forall (types : list jsstring) (ls ls' : storage)
         (v : FormPage.form_values),
    match FormPage.initFormPage_guarded types ls with
    | None => types = []
    | Some pg =>
        types <> []
        /\ pg = FormPage.initFormPage types ls
        /\ FormPage.getSelectedChipType (FormPage.chipTypeButtons pg) = []
        /\ FormPage.chipBoxField_hidden pg = true
        /\ FormPage.chipBulkField_hidden pg = true
        /\ FormPage.chipPurchasedField_hidden pg = true
        /\ FormPage.on_submit pg v ls'
           = (Step1Rules.rejected_page pg
                (js "Please select what type of chip this is.",
                 Some FirstChipTypeButton), ls', None)
    end.
Proof.
  intros types ls ls' v. unfold FormPage.initFormPage_guarded.
  destruct types as [|t types]; [reflexivity|].
  cbn [List.length Nat.eqb].
  set (pg := FormPage.initFormPage (t :: types) ls).
  assert (Hsel : FormPage.getSelectedChipType (FormPage.chipTypeButtons pg)
                 = []).
  { unfold pg, FormPage.initFormPage. rewrite selected_after_selection.
    now destruct (existsb _ _). }
  split; [discriminate|]. split; [reflexivity|].
  split; [exact Hsel|]. repeat (split; [reflexivity|]).
  unfold FormPage.on_submit. rewrite Hsel. reflexivity.
Qed.


Lemma existsb_nth_error (A : Type) (f : A -> bool) (l : list A) (i : nat)
    (x : A) :
  nth_error l i = Some x -> f x = true -> existsb f l = true.
Proof.
  intros Hi Hf. apply existsb_exists. exists x.
  split; [now apply (nth_error_In l i) | exact Hf].
Qed.

(** X5.  A click on a chip-type button that carries a type selects that
    type; the page keeps the record it loaded; and what the store then
    holds loads as a record with [chipType] set to the type, every other
    property being the one loaded before the click, its numbers read
    back.  A button without a type does nothing. *)
Theorem chip_click_selects_and_stores :
  forall (pg : FormPage.page) (ls : storage) (i : nat)
         (button : FormPage.button),
    nth_error (FormPage.chipTypeButtons pg) i = Some button ->
    let type := FormPage.dataset_chipType button in
    (is_empty type = true -> FormPage.click_chipType type pg ls = (pg, ls))
    /\ (is_empty type = false ->
        let pg' := fst (FormPage.click_chipType type pg ls) in
        let ls' := snd (FormPage.click_chipType type pg ls) in
        FormPage.getSelectedChipType (FormPage.chipTypeButtons pg') = type
        /\ FormPage.stored pg' = FormPage.stored pg
        /\ get (getStoredData ls') (js "chipType") = Some (JStr type)
        /\ forall k,
            str_eqb (js "chipType") k = false ->
            get (getStoredData ls') k
            = option_map Reload.reloaded
                (assoc k (own_props (getStoredData ls)))).
Proof.
  intros pg ls i button Hi type. unfold FormPage.click_chipType. split.
  - intros He. now rewrite He.
  - intros He. rewrite He. cbn [fst snd]. split; [|split; [|split]].
    + rewrite selected_after_selection.
      rewrite (existsb_nth_error _ _ _ i button Hi); [reflexivity|].
      apply str_eqb_refl.
    + reflexivity.
    + apply load_spread_field;
        [apply getStoredData_well_formed | reflexivity
        | repeat constructor; intros []
        | cbn [assoc]; now rewrite str_eqb_refl].
    + intros k Hk. apply load_spread_other;
        [apply getStoredData_well_formed | repeat constructor
        | repeat constructor; intros []
        | cbn [assoc]; now rewrite Hk].
Qed.

Lemma chip_click_selects_and_stores_witness :
  get (getStoredData
         (snd (FormPage.click_chipType (js "bulk")
                 (FormPage.initFormPage Runs.three_types None) None)))
      (js "chipType")
  = Some (JStr (js "bulk")).
Proof.
  exact (proj1 (proj2 (proj2
           (proj2 (chip_click_selects_and_stores
                     (FormPage.initFormPage Runs.three_types None) None 1
                     {| FormPage.dataset_chipType := js "bulk";
                        FormPage.aria_pressed := false |} eq_refl)
                  eq_refl)))).
Defined.

(** The rules of step 1 look at the selected variant, the product, the
    net weight and the operator name only. *)
Lemma first_failure_depends_on (tag : jsstring)
    (v v' : FormPage.form_values) :
  Step1Rules.variant_of tag v = Step1Rules.variant_of tag v' ->
  FormPage.productSelect_value v = FormPage.productSelect_value v' ->
  FormPage.netWeightInput_value v = FormPage.netWeightInput_value v' ->
  FormPage.operatorInput_value v = FormPage.operatorInput_value v' ->
  Step1Rules.first_failure Step1Rules.rules tag v
  = Step1Rules.first_failure Step1Rules.rules tag v'.
Proof.
  intros Hv Hp Hn Ho.
  unfold Step1Rules.rules, Step1Rules.first_failure,
    Step1Rules.rule_chip_type, Step1Rules.rule_variant,
    Step1Rules.rule_product, Step1Rules.rule_net_weight,
    Step1Rules.rule_operator.
  now rewrite Hv, Hp, Hn, Ho.
Qed.

(** X6.  The values of the variants that are not selected play no part
    in the validation of step 1: two submissions with the same chip type
    that agree on the value of that type, the product, the net weight and
    the operator name are both rejected with the same message and focus,
    or both accepted; an accepted one stores the other two variant values
    as they stand (the bulk/silo value trimmed), checked by nothing. *)
Theorem unselected_variants_are_not_checked :
  forall (stored : json) (tag : jsstring) (v v' : FormPage.form_values),
    Step1Rules.variant_of tag v = Step1Rules.variant_of tag v' ->
    FormPage.productSelect_value v = FormPage.productSelect_value v' ->
    FormPage.netWeightInput_value v = FormPage.netWeightInput_value v' ->
    FormPage.operatorInput_value v = FormPage.operatorInput_value v' ->
    (exists message focus,
        FormPage.submit stored tag v = Rejected message focus
        /\ FormPage.submit stored tag v' = Rejected message focus)
    \/ (exists record record',
           FormPage.submit stored tag v
           = Stored record (js "destination.html")
           /\ FormPage.submit stored tag v'
              = Stored record' (js "destination.html")
           /\ get record' (js "chipBoxNumber")
              = Some (JStr (trim (FormPage.chipBoxInput_value v')))
           /\ get record' (js "chipBulkSilo")
              = Some (JStr (trim (FormPage.chipBulkInput_value v')))
           /\ get record' (js "chipPurchased")
              = Some (JStr (FormPage.chipPurchasedSelect_value v'))
           /\ get record' (js "boxNumber") = get record (js "boxNumber")).
Proof.
  intros stored tag v v' Hv Hp Hn Ho.
  rewrite !submit_first_failure.
  rewrite (first_failure_depends_on tag v v' Hv Hp Hn Ho).
  destruct (Step1Rules.first_failure Step1Rules.rules tag v') as [[m f]|].
  - left. exists m, f. split; reflexivity.
  - right. eexists. eexists. split; [reflexivity|]. split; [reflexivity|].
    rewrite !get_spread_with by apply accepted_fields_distinct.
    cbn [Step1Rules.accepted_fields assoc].
    repeat split; try reflexivity. now rewrite Hv.
Qed.

Lemma unselected_variants_are_not_checked_witness :
  exists record',
    FormPage.submit (JObj []) (js "box")
      {| FormPage.chipBoxInput_value := js "A1B2";
         FormPage.chipBulkInput_value := js " Silo 7 ";
         FormPage.chipPurchasedSelect_value := [];
         FormPage.productSelect_value := js "Resin-X";
         FormPage.netWeightInput_value := js "12.5";
         FormPage.operatorInput_value := js "Jane Doe" |}
    = Stored record' (js "destination.html")
    /\ get record' (js "chipBulkSilo") = Some (JStr (js "Silo 7")).
Proof.
  destruct (unselected_variants_are_not_checked (JObj []) (js "box")
              (Step1Rules.scenario (js "A1B2") (js "12.5"))
              {| FormPage.chipBoxInput_value := js "A1B2";
                 FormPage.chipBulkInput_value := js " Silo 7 ";
                 FormPage.chipPurchasedSelect_value := [];
                 FormPage.productSelect_value := js "Resin-X";
                 FormPage.netWeightInput_value := js "12.5";
                 FormPage.operatorInput_value := js "Jane Doe" |}
              eq_refl eq_refl eq_refl eq_refl)
    as [(m & f & H & _) | (r & r' & _ & H' & _ & Hb & _)].
  - exfalso. vm_compute in H. discriminate H.
  - exists r'. split; [exact H' | exact Hb].
Defined.

(** ** The two versions of the form *)

(** X7.  The form of [app.js], with its single box-number input, and the
    form with the chip-type buttons when the type [box] is selected
    decide alike: a submission is rejected by both with the same message,
    the focus going to the box input of each, or accepted by both, and
    the records they write agree on [boxNumber], [product], [netWeight]
    and [operatorName]. *)
Theorem box_form_agrees_with_chip_form :
  forall (stored : json) (v : BoxFormPage.form_values)
         (bulk purchased : jsstring),
    let v' :=
      {| FormPage.chipBoxInput_value := BoxFormPage.boxInput_value v;
         FormPage.chipBulkInput_value := bulk;
         FormPage.chipPurchasedSelect_value := purchased;
         FormPage.productSelect_value := BoxFormPage.productSelect_value v;
         FormPage.netWeightInput_value := BoxFormPage.netWeightInput_value v;
         FormPage.operatorInput_value := BoxFormPage.operatorInput_value v |} in
    match BoxFormPage.submit stored v, FormPage.submit stored (js "box") v' with
    | Rejected m f, Rejected m' f' =>
        m = m'
        /\ f' = match f with
                | Some BoxInput => Some ChipBoxInput
                | _ => f
                end
    | Stored d href, Stored d' href' =>
        href = href'
        /\ forall k,
            In k [js "boxNumber"; js "product"; js "netWeight";
                  js "operatorName"] ->
            get d k = get d' k
    | _, _ => False
    end.
Proof.
  intros stored v bulk purchased v'.
  unfold BoxFormPage.submit, FormPage.submit, FormPage.variant_value, v'.
  cbn [FormPage.chipBoxInput_value FormPage.chipBulkInput_value
       FormPage.chipPurchasedSelect_value FormPage.productSelect_value
       FormPage.netWeightInput_value FormPage.operatorInput_value].
  change (is_empty (js "box")) with false.
  change (str_eqb (js "box") (js "box")) with true. cbv iota.
  destruct (is_empty (normalizeText (BoxFormPage.boxInput_value v)));
    [split; reflexivity|].
  destruct (negb (test_alnum_only
                    (normalizeText (BoxFormPage.boxInput_value v))));
    [split; reflexivity|].
  destruct (is_empty (BoxFormPage.productSelect_value v));
    [split; reflexivity|].
  destruct (is_empty (normalizeText (BoxFormPage.netWeightInput_value v)));
    [split; reflexivity|].
  destruct (negb (isFinite _) || le_zero _); [split; reflexivity|].
  destruct (List.length _ <? 2)%nat; [split; reflexivity|].
  split; [reflexivity|]. intros k Hk.
  rewrite !get_spread_with by (apply NoDup_by_eqb; vm_compute; reflexivity).
  cbn [In] in Hk.
  repeat (destruct Hk as [<- | Hk]; [reflexivity|]). contradiction.
Qed.

(** ** The requests of the summary page *)

Lemma fresh_summary_requests (ls : storage) (pg : SummaryPage.page) :
  SummaryPage.initSummaryPage ls = Rendered pg ->
  Requests.summary_requests pg.
Proof.
  unfold SummaryPage.initSummaryPage.
  destruct (step1_missing (getStoredData ls)) eqn:Hg; [discriminate|].
  destruct (truthy_opt (get (getStoredData ls) (js "destination"))) eqn:Hd;
    [|discriminate].
  intros H. inversion H. subst pg. clear H.
  unfold Requests.summary_requests.
  cbn [SummaryPage.stored SummaryPage.sent SummaryPage.in_flight
       SummaryPage.alerts].
  repeat split; auto.
Qed.

Lemma load_requests (chipTypes : list jsstring)
    (destinations : list DestinationPage.checkbox) (fuel : nat)
    (href : jsstring) (ls : storage) :
  match Wizard.load chipTypes destinations fuel href ls with
  | Wizard.OnSummary pg => Requests.summary_requests pg
  | _ => True
  end.
Proof.
  revert href. induction fuel as [|fuel IH]; intros href; cbn [Wizard.load];
    [exact I|].
  destruct (str_eqb href (js "index.html")); [exact I|].
  destruct (str_eqb href (js "destination.html")).
  { destruct (DestinationPage.initDestinationPage destinations ls);
      [apply IH | exact I]. }
  destruct (str_eqb href (js "summary.html")); [|exact I].
  destruct (SummaryPage.initSummaryPage ls) eqn:E; [apply IH|].
  now apply (fresh_summary_requests ls).
Qed.

Lemma navigate_requests (chipTypes : list jsstring)
    (destinations : list DestinationPage.checkbox) (href : jsstring)
    (ls : storage) (now : N) :
  Requests.invariant
    {| Wizard.localStorage := ls; Wizard.clock := now;
       Wizard.current := Wizard.navigate chipTypes destinations href ls |}.
Proof. apply load_requests. Qed.

Lemma click_save_requests (pg : SummaryPage.page) :
  Requests.summary_requests pg ->
  Requests.summary_requests (SummaryPage.click_save pg).
Proof.
  unfold SummaryPage.click_save, Requests.summary_requests.
  intros (H1 & H2 & H3 & H4).
  destruct (SummaryPage.saveButton_disabled pg); [auto|].
  cbn [SummaryPage.stored SummaryPage.sent SummaryPage.in_flight
       SummaryPage.alerts List.length].
  repeat split; auto. cbn [Nat.add]. now rewrite H4.
Qed.

Lemma step_requests (chipTypes : list jsstring)
    (destinations : list DestinationPage.checkbox) (e : Wizard.event)
    (b : Wizard.browser) :
  Requests.invariant b ->
  Requests.invariant (Wizard.step chipTypes destinations e b).
Proof.
  intros Hb. destruct b as [ls now cur].
  unfold Wizard.step.
  cbn [Wizard.localStorage Wizard.clock Wizard.current].
  destruct e; destruct cur; try exact Hb; try apply navigate_requests;
    try exact I.
  - destruct (nth_error _ _); [|exact Hb].
    destruct (FormPage.click_chipType _ _ _). exact I.
  - destruct (FormPage.chipTypeButtons pg); [exact Hb|].
    destruct (FormPage.on_submit pg v ls) as [[pg' ls'] [href|]];
      [apply navigate_requests | exact I].
  - destruct (DestinationPage.on_submit pg ls) as [[pg' ls'] [href|]];
      [apply navigate_requests | exact I].
  - now apply click_save_requests.
  - destruct (SummaryPage.in_flight pg) eqn:Hf; [exact Hb|].
    unfold Requests.invariant, Requests.summary_requests in *.
    cbn [Wizard.current SummaryPage.resume_ok fst snd SummaryPage.stored
         SummaryPage.sent SummaryPage.in_flight SummaryPage.alerts
         List.length] in *.
    destruct Hb as (H1 & H2 & H3 & H4). rewrite Hf in *. cbn [pred].
    repeat split; auto. lia.
  - destruct (SummaryPage.in_flight pg) eqn:Hf; [exact Hb|].
    unfold Requests.invariant, Requests.summary_requests in *.
    cbn [Wizard.current SummaryPage.resume_failed SummaryPage.stored
         SummaryPage.sent SummaryPage.in_flight SummaryPage.alerts
         List.length] in *.
    destruct Hb as (H1 & H2 & H3 & H4). rewrite Hf in *. cbn [pred].
    repeat split; auto. lia.
  - destruct (SummaryPage.redirectTimer pg) as [due|]; [|exact Hb].
    destruct (due <=? now + ms)%N; [apply navigate_requests | exact Hb].
Qed.

Lemma reachable_requests (chipTypes : list jsstring)
    (destinations : list DestinationPage.checkbox) (b : Wizard.browser) :
  Runs.reachable chipTypes destinations b -> Requests.invariant b.
Proof.
  intros (b0 & es & [href Hfresh] & ->).
  assert (H0 : Requests.invariant b0).
  { destruct b0 as [ls now cur]. cbn [Wizard.current Wizard.localStorage]
      in Hfresh. subst cur. apply navigate_requests. }
  clear Hfresh. revert b0 H0. unfold Wizard.run.
  induction es as [|e es IH]; intros b0 H0; [exact H0|].
  cbn [fold_left]. apply IH. now apply step_requests.
Qed.

(** X12.  In every state the wizard can reach with the summary page
    open: the record the page captured when it opened passes the entry
    guards; every request issued from the page, a retry after a failure
    included, carries that same record, whatever has happened to the
    store since; and the requests issued are as many as the alerts shown
    plus the request in flight, so that each request is answered by
    exactly one alert. *)
Theorem every_request_carries_the_captured_record :
  forall (chipTypes : list jsstring)
         (destinations : list DestinationPage.checkbox)
         (b : Wizard.browser) (pg : SummaryPage.page),
    Runs.reachable chipTypes destinations b ->
    Wizard.current b = Wizard.OnSummary pg ->
    step1_missing (SummaryPage.stored pg) = false
    /\ truthy_opt (get (SummaryPage.stored pg) (js "destination")) = true
    /\ (forall body,
           In body (SummaryPage.sent pg) ->
           body = SummaryPage.request_body (SummaryPage.stored pg))
    /\ List.length (SummaryPage.sent pg)
       = (SummaryPage.in_flight pg + List.length (SummaryPage.alerts pg))%nat.
Proof.
  intros chipTypes destinations b pg Hr Hcur.
  pose proof (reachable_requests chipTypes destinations b Hr) as H.
  unfold Requests.invariant in H. rewrite Hcur in H.
  destruct H as (H1 & H2 & H3 & H4).
  repeat split; try assumption.
  intros body Hin. rewrite Forall_forall in H3. now apply H3.
Qed.

Lemma every_request_carries_the_captured_record_witness :
  List.length (SummaryPage.sent (SummaryPage.click_save Runs.summary_page))
  = (SummaryPage.in_flight (SummaryPage.click_save Runs.summary_page)
     + List.length
         (SummaryPage.alerts (SummaryPage.click_save Runs.summary_page)))%nat.
Proof.
  exact (proj2 (proj2 (proj2
           (every_request_carries_the_captured_record
              Runs.three_types Runs.two_destinations Runs.saving
              (SummaryPage.click_save Runs.summary_page)
              saving_reachable eq_refl)))).
Defined.

(** ** The address of the server *)

Lemma drop_slashes_head (s : jsstring) :
  match Api.drop_slashes s with
  | [] => True
  | c :: _ => (c =? ch "/")%N = false
  end.
Proof.
  induction s as [|c r IH]; [exact I|]. cbn [Api.drop_slashes].
  destruct (c =? ch "/")%N eqn:E; [exact IH | exact E].
Qed.

Lemma drop_slashes_prefix (s : jsstring) :
  exists n, s = repeat (ch "/") n ++ Api.drop_slashes s.
Proof.
  induction s as [|c r [n IH]]; [now exists 0%nat|]. cbn [Api.drop_slashes].
  destruct (c =? ch "/")%N eqn:E.
  - apply N.eqb_eq in E. subst c. exists (S n). cbn [repeat app].
    now rewrite <- IH.
  - now exists 0%nat.
Qed.

Lemma rev_repeat (A : Type) (x : A) (n : nat) :
  rev (repeat x n) = repeat x n.
Proof.
  induction n as [|n IH]; [reflexivity|]. cbn [repeat rev]. rewrite IH.
  clear IH. induction n as [|n IH]; [reflexivity|].
  cbn [repeat app]. now rewrite IH.
Qed.

(** What [replace(/\/+$/, "")] returns: the string without the slashes
    at its end. *)
Lemma replace_trailing_slashes_spec (s : jsstring) :
  (exists n, s = Api.replace_trailing_slashes s ++ repeat (ch "/") n)
  /\ forall t, Api.replace_trailing_slashes s <> t ++ [ch "/"].
Proof.
  unfold Api.replace_trailing_slashes. split.
  - destruct (drop_slashes_prefix (rev s)) as [n Hn]. exists n.
    rewrite <- (rev_involutive s) at 1. rewrite Hn at 1.
    now rewrite rev_app_distr, rev_repeat.
  - intros t H. apply (f_equal (@rev N)) in H.
    rewrite rev_involutive, rev_app_distr in H. cbn [rev app] in H.
    pose proof (drop_slashes_head (rev s)) as Hh. rewrite H in Hh.
    discriminate Hh.
Qed.

Lemma drop_slashes_repeat (n : nat) (s : jsstring) :
  Api.drop_slashes (repeat (ch "/") n ++ s) = Api.drop_slashes s.
Proof. induction n as [|n IH]; [reflexivity | exact IH]. Qed.

Lemma default_base_end (p : Api.page_location) :
  exists t, Api.default_base p = t ++ [ch "0"].
Proof.
  unfold Api.default_base. cbv zeta.
  exists ((if str_eqb (Api.location_protocol p) (js "https:")
           then js "https:" else js "http:")
          ++ js "//"
          ++ (if is_empty (Api.location_hostname p) then js "localhost"
              else Api.location_hostname p) ++ js ":300").
  rewrite <- !app_assoc. reflexivity.
Qed.

Lemma last_unit_eq (A : Type) (a b : list A) (x y : A) :
  a ++ [x] = b ++ [y] -> x = y.
Proof.
  intros H. apply (f_equal (@rev A)) in H.
  rewrite !rev_app_distr in H. cbn [rev app] in H. now inversion H.
Qed.

Lemma trim_head_not_blank (s : jsstring) :
  match trim s with
  | [] => True
  | c :: _ => isWhiteSpace c = false
  end.
Proof.
  unfold trim.
  destruct (trimEnd (trimStart s)) as [|c r] eqn:E; [exact I|].
  destruct (trimEnd_prefix (trimStart s)) as [w Hw]. rewrite E in Hw.
  destruct (trimStart_nil_or_head s) as [H | (c' & r' & H & Hc)];
    rewrite H in Hw; [discriminate|].
  inversion Hw; subst c'. exact Hc.
Qed.

Lemma trimEnd_stop (s : jsstring) (c : N) :
  isWhiteSpace c = false -> trimEnd (s ++ [c]) = s ++ [c].
Proof.
  intros Hc. unfold trimEnd. rewrite rev_app_distr. cbn [rev app trimStart].
  rewrite Hc. cbn [rev]. now rewrite rev_involutive.
Qed.

Lemma trimStart_idempotent (s : jsstring) :
  trimStart (trimStart s) = trimStart s.
Proof.
  destruct (trimStart_nil_or_head s) as [H | (c & r & H & Hc)]; rewrite H;
    [reflexivity | now apply trimStart_head].
Qed.

Lemma trimEnd_idempotent (s : jsstring) : trimEnd (trimEnd s) = trimEnd s.
Proof.
  unfold trimEnd. now rewrite rev_involutive, trimStart_idempotent.
Qed.

Lemma trim_idempotent (s : jsstring) : trim (trim s) = trim s.
Proof.
  unfold trim. now rewrite trimStart_trimEnd, trimEnd_idempotent.
Qed.

Lemma trimStart_not_blank (s : jsstring) :
  match s with [] => True | c :: _ => isWhiteSpace c = false end ->
  trimStart s = s.
Proof.
  destruct s as [|c r]; [reflexivity|]. intros H. now apply trimStart_head.
Qed.

Lemma repeat_snoc (A : Type) (x : A) (n : nat) :
  repeat x (S n) = repeat x n ++ [x].
Proof.
  induction n as [|n IH]; [reflexivity|].
  cbn [repeat app] in IH |- *. now rewrite <- IH.
Qed.

(** Slashes after a trimmed string that is not empty stay through
    [trim]. *)
Lemma trim_slashes (s : jsstring) (m : nat) :
  is_empty (trim s) = false ->
  trim (trim s ++ repeat (ch "/") m) = trim s ++ repeat (ch "/") m.
Proof.
  intros He. destruct m as [|m].
  - cbn [repeat]. rewrite app_nil_r. apply trim_idempotent.
  - unfold trim at 1. rewrite trimStart_not_blank.
    + rewrite repeat_snoc, app_assoc. now apply trimEnd_stop.
    + pose proof (trim_head_not_blank s) as Hh.
      destruct (trim s) as [|c r]; [discriminate | exact Hh].
Qed.

Lemma replace_trailing_slashes_more (s : jsstring) (m : nat) :
  Api.replace_trailing_slashes (s ++ repeat (ch "/") m)
  = Api.replace_trailing_slashes s.
Proof.
  unfold Api.replace_trailing_slashes.
  now rewrite rev_app_distr, rev_repeat, drop_slashes_repeat.
Qed.

Lemma is_empty_app (a b : jsstring) :
  is_empty a = false -> is_empty (a ++ b) = false.
Proof. destruct a; [discriminate | reflexivity]. Qed.

(** X16.  The address of the server never ends with a slash, so the URL
    of the request has exactly the slash of [/save] after it.  With a
    configured address that is not blank, the base is the trimmed
    configuration without the slashes at its end; slashes added at the end
    of the trimmed configuration change nothing. *)
Theorem api_base_never_ends_with_a_slash :
  forall p : Api.page_location,
    (forall t, Api.getApiBaseUrl p <> t ++ [ch "/"])
    /\ (forall s,
           Api.dataset_apiBase p = Some s ->
           is_empty (trim s) = false ->
           (exists n,
               trim s = Api.getApiBaseUrl p ++ repeat (ch "/") n)
           /\ forall m,
               Api.getApiBaseUrl
                 {| Api.dataset_apiBase := Some (trim s ++ repeat (ch "/") m);
                    Api.location_protocol := Api.location_protocol p;
                    Api.location_hostname := Api.location_hostname p |}
               = Api.getApiBaseUrl p).
Proof.
  intros p. split.
  - intros t. unfold Api.getApiBaseUrl.
    assert (Hd : Api.default_base p <> t ++ [ch "/"]).
    { destruct (default_base_end p) as [u Hu]. rewrite Hu. intros H.
      apply last_unit_eq in H. discriminate H. }
    destruct (Api.dataset_apiBase p) as [s|]; [|exact Hd].
    cbv zeta. destruct (negb (is_empty (trim s))); [|exact Hd].
    apply replace_trailing_slashes_spec.
  - intros s Hs He. unfold Api.getApiBaseUrl at 1. rewrite Hs. cbv zeta.
    rewrite He. cbn [negb]. split; [apply replace_trailing_slashes_spec|].
    intros m. unfold Api.getApiBaseUrl. cbn [Api.dataset_apiBase].
    rewrite Hs. cbv zeta. rewrite He, (trim_slashes s m He).
    rewrite (is_empty_app _ _ He). cbn [negb].
    apply replace_trailing_slashes_more.
Qed.

Lemma api_base_never_ends_with_a_slash_witness :
  Api.getApiBaseUrl
    {| Api.dataset_apiBase := Some (js "http://host:8080///");
       Api.location_protocol := js "http:";
       Api.location_hostname := js "host" |}
  = Api.getApiBaseUrl
      {| Api.dataset_apiBase := Some (js " http://host:8080 ");
         Api.location_protocol := js "http:";
         Api.location_hostname := js "host" |}.
Proof.
  exact (proj2 (proj2 (api_base_never_ends_with_a_slash
                         {| Api.dataset_apiBase := Some (js " http://host:8080 ");
                            Api.location_protocol := js "http:";
                            Api.location_hostname := js "host" |})
                      (js " http://host:8080 ") eq_refl eq_refl) 3%nat).
Defined.

(** X17.  A configured address that is missing, empty or blank is
    ignored: the base is then [http:] or [https:] (only when the page
    itself was loaded over [https:]), two slashes, the host name of the
    page, or [localhost] when it has none, and the port 3000.  A
    configured address made of slashes only gives the empty base, so that
    the request goes to [/save] on the origin of the page. *)
Theorem blank_api_base_is_ignored :
  forall p : Api.page_location,
    ((Api.dataset_apiBase p = None
      \/ exists s, Api.dataset_apiBase p = Some s
                   /\ forallb isWhiteSpace s = true) ->
     Api.getApiBaseUrl p = Api.default_base p
     /\ exists scheme host,
         Api.default_base p = scheme ++ js "//" ++ host ++ js ":3000"
         /\ (scheme = js "https:" \/ scheme = js "http:")
         /\ (scheme = js "https:" <-> Api.location_protocol p = js "https:")
         /\ is_empty host = false)
    /\ (forall n,
           Api.dataset_apiBase p = Some (repeat (ch "/") (S n)) ->
           Api.save_url p = js "/save").
Proof.
  intros p. split.
  - intros H. split.
    + unfold Api.getApiBaseUrl.
      destruct H as [H | (s & H & Hb)]; rewrite H; [reflexivity|]. cbv zeta.
      apply trimStart_nil_iff in Hb. unfold trim. now rewrite Hb.
    + unfold Api.default_base. cbv zeta.
      eexists. eexists. split; [reflexivity|].
      destruct (str_eqb (Api.location_protocol p) (js "https:")) eqn:E.
      * apply str_eqb_eq in E. split; [now left|]. split; [tauto|].
        now destruct (Api.location_hostname p).
      * apply str_eqb_neq in E. split; [now right|].
        split; [split; [discriminate | contradiction]|].
        now destruct (Api.location_hostname p).
  - intros n Hn. unfold Api.save_url, Api.getApiBaseUrl. rewrite Hn.
    cbv zeta.
    assert (Ht : trim (repeat (ch "/") (S n)) = repeat (ch "/") (S n)).
    { apply trim_no_whitespace. apply forallb_forall. intros c Hin.
      apply repeat_spec in Hin. now subst c. }
    rewrite Ht. cbn [repeat is_empty negb].
    change (ch "/" :: repeat (ch "/") n) with (repeat (ch "/") (S n)).
    rewrite <- (app_nil_l (repeat (ch "/") (S n))).
    rewrite replace_trailing_slashes_more. reflexivity.
Qed.

(** ** [normalizeText] *)

Lemma trimStart_blank_prefix (w x : jsstring) :
  forallb isWhiteSpace w = true -> trimStart (w ++ x) = trimStart x.
Proof.
  induction w as [|c w IH]; [reflexivity|]. cbn [forallb app trimStart].
  intros H. apply andb_true_iff in H. destruct H as [Hc Hw].
  rewrite Hc. now apply IH.
Qed.

Lemma forallb_rev (A : Type) (f : A -> bool) (l : list A) :
  forallb f l = true -> forallb f (rev l) = true.
Proof.
  rewrite !forallb_forall. intros H x Hin. apply H. now apply in_rev.
Qed.

Lemma trimEnd_blank_tail (x w : jsstring) :
  forallb isWhiteSpace w = true -> trimEnd (x ++ w) = trimEnd x.
Proof.
  intros H. unfold trimEnd. rewrite rev_app_distr.
  now rewrite trimStart_blank_prefix by now apply forallb_rev.
Qed.

(** White space around a string does not change its trimmed form. *)
Lemma trim_blanks_around (w1 s w2 : jsstring) :
  forallb isWhiteSpace w1 = true -> forallb isWhiteSpace w2 = true ->
  trim (w1 ++ s ++ w2) = trim s.
Proof.
  intros H1 H2. unfold trim. rewrite (trimStart_blank_prefix w1 _ H1).
  destruct (trimStart_blank_suffix s) as (u & Hu & Hub).
  rewrite Hu at 1. rewrite <- app_assoc, (trimStart_blank_prefix u _ Hub).
  destruct (trimStart_nil_or_head s) as [H | (c & r & H & Hc)]; rewrite H.
  - cbn [app]. apply trimStart_nil_iff in H2. now rewrite H2.
  - cbn [app]. rewrite (trimStart_head c (r ++ w2) Hc).
    change (c :: r ++ w2) with ((c :: r) ++ w2).
    now apply trimEnd_blank_tail.
Qed.

Lemma trim_last_not_blank (s : jsstring) (c : N) (r : jsstring) :
  trim s = c :: r -> isWhiteSpace (last (c :: r) c) = false.
Proof.
  intros H. rewrite <- H. unfold trim, trimEnd in *.
  destruct (trimStart_nil_or_head (rev (trimStart s)))
    as [E | (d & t & E & Hd)]; rewrite E in *; [discriminate|].
  cbn [rev]. rewrite last_last. exact Hd.
Qed.

(** X18.  [normalizeText] gives the empty string exactly for the strings
    that are empty or blank; otherwise its result neither starts nor ends
    with white space.  White space around a value does not change the
    result, and normalizing twice is normalizing once: the values the
    forms store are fixed points of the trimming the server applies. *)
Theorem normalizeText_ignores_surrounding_blanks :
  forall s : jsstring,
    normalizeText (normalizeText s) = normalizeText s
    /\ (normalizeText s = [] <-> forallb isWhiteSpace s = true)
    /\ (forall c r,
           normalizeText s = c :: r ->
           isWhiteSpace c = false /\ isWhiteSpace (last (c :: r) c) = false)
    /\ (forall w1 w2,
           forallb isWhiteSpace w1 = true -> forallb isWhiteSpace w2 = true ->
           normalizeText (w1 ++ s ++ w2) = normalizeText s)
    /\ Server.getTrimmedString (Some (JStr (normalizeText s)))
       = normalizeText s.
Proof.
  intros s. rewrite !normalizeText_trim. split; [apply trim_idempotent|].
  split; [|split; [|split]].
  - split.
    + intros H. unfold trim in H.
      destruct (trimStart_nil_or_head s) as [E | (c & r & E & Hc)].
      * now apply trimStart_nil_iff.
      * exfalso. rewrite E in H. unfold trimEnd in H.
        apply (f_equal (@rev N)) in H. rewrite rev_involutive in H.
        cbn [rev] in H.
        assert (Hin : In c (rev r ++ [c]))
          by (apply in_or_app; right; now left).
        pose proof (In_trimStart c _ Hin Hc) as Hin'. rewrite H in Hin'.
        contradiction.
    + intros H. unfold trim. apply trimStart_nil_iff in H. now rewrite H.
  - intros c r H. split.
    + pose proof (trim_head_not_blank s) as Hh. now rewrite H in Hh.
    + now apply (trim_last_not_blank s).
  - intros w1 w2 H1 H2. rewrite normalizeText_trim.
    now apply trim_blanks_around.
  - cbn [Server.getTrimmedString]. apply trim_idempotent.
Qed.

(** ** A whole run of the wizard *)

Lemma navigate_index (chipTypes : list jsstring)
    (destinations : list DestinationPage.checkbox) (ls : storage) :
  Wizard.navigate chipTypes destinations (js "index.html") ls
  = Wizard.OnForm (FormPage.initFormPage chipTypes ls).
Proof. reflexivity. Qed.

Lemma navigate_destination (chipTypes : list jsstring)
    (destinations : list DestinationPage.checkbox) (ls : storage) :
  step1_missing (getStoredData ls) = false ->
  Wizard.navigate chipTypes destinations (js "destination.html") ls
  = Wizard.OnDestination
      {| DestinationPage.stored := getStoredData ls;
         DestinationPage.checkboxes :=
           if truthy_opt (get (getStoredData ls) (js "destination"))
           then DestinationPage.check_first
                  (DestinationPage.is_saved
                     (get (getStoredData ls) (js "destination")))
                  destinations
           else destinations;
         DestinationPage.errorElement := [] |}.
Proof.
  intros Hg. unfold Wizard.navigate. cbn [Wizard.load].
  change (str_eqb (js "destination.html") (js "index.html")) with false.
  change (str_eqb (js "destination.html") (js "destination.html")) with true.
  cbv iota. unfold DestinationPage.initDestinationPage. now rewrite Hg.
Qed.

Lemma navigate_summary (chipTypes : list jsstring)
    (destinations : list DestinationPage.checkbox) (ls : storage) :
  step1_missing (getStoredData ls) = false ->
  truthy_opt (get (getStoredData ls) (js "destination")) = true ->
  Wizard.navigate chipTypes destinations (js "summary.html") ls
  = Wizard.OnSummary
      {| SummaryPage.stored := getStoredData ls;
         SummaryPage.saveButton_disabled := false;
         SummaryPage.redirectTimer := None;
         SummaryPage.message := [];
         SummaryPage.alerts := [];
         SummaryPage.in_flight := 0;
         SummaryPage.sent := [] |}.
Proof.
  intros Hg Hd. unfold Wizard.navigate. cbn [Wizard.load].
  change (str_eqb (js "summary.html") (js "index.html")) with false.
  change (str_eqb (js "summary.html") (js "destination.html")) with false.
  change (str_eqb (js "summary.html") (js "summary.html")) with true.
  cbv iota. unfold SummaryPage.initSummaryPage. now rewrite Hg, Hd.
Qed.

Lemma nth_error_initFormPage (types : list jsstring) (ls : storage) (i : nat)
    (tag : jsstring) :
  nth_error types i = Some tag ->
  nth_error (FormPage.chipTypeButtons (FormPage.initFormPage types ls)) i
  = Some {| FormPage.dataset_chipType := tag;
            FormPage.aria_pressed := is_empty tag |}.
Proof.
  intros H. unfold FormPage.initFormPage, FormPage.setSelectedChipType.
  cbn [FormPage.chipTypeButtons]. rewrite map_map.
  rewrite nth_error_map, H. cbn [option_map FormPage.dataset_chipType].
  now destruct tag.
Qed.

(** X20.  A whole run from the first visit with nothing stored: the user
    clicks a chip-type button, submits a form that passes the rules of
    step 1, checks a destination that has a value, submits it and clicks
    save.  The wizard is then on the summary page with one request in
    flight, whose body is that of the record with the eight fields of
    step 1 and the destination, and the button disabled; the store holds
    that record.  When the request is answered with success and three
    seconds have passed, the store is empty and the form page is open as
    on the first visit. *)
Theorem first_visit_to_saved :
  forall (chipTypes : list jsstring)
         (destinations : list DestinationPage.checkbox)
         (t0 : N) (i j : nat) (tag : jsstring) (v : FormPage.form_values)
         (box : DestinationPage.checkbox) (iso formatted : jsstring),
    nth_error chipTypes i = Some tag ->
    Step1Rules.first_failure Step1Rules.rules tag v = None ->
    nth_error destinations j = Some box ->
    DestinationPage.checked box = false ->
    is_empty (DestinationPage.value box) = false ->
    let record :=
      JObj (Step1Rules.accepted_fields tag v
            ++ [(js "destination", JStr (DestinationPage.value box))]) in
    let first_visit :=
      {| Wizard.localStorage := None; Wizard.clock := t0;
         Wizard.current :=
           Wizard.navigate chipTypes destinations (js "index.html") None |} in
    let steps :=
      [Wizard.ClickChipType i; Wizard.SubmitForm v;
       Wizard.ChangeDestination j; Wizard.SubmitDestination;
       Wizard.ClickSave] in
    Wizard.run chipTypes destinations steps first_visit
    = {| Wizard.localStorage := setStoredData record;
         Wizard.clock := t0;
         Wizard.current :=
           Wizard.OnSummary
             {| SummaryPage.stored := record;
                SummaryPage.saveButton_disabled := true;
                SummaryPage.redirectTimer := None;
                SummaryPage.message := [];
                SummaryPage.alerts := [];
                SummaryPage.in_flight := 1;
                SummaryPage.sent := [SummaryPage.request_body record] |} |}
    /\ Wizard.run chipTypes destinations
         (steps ++ [Wizard.ResponseOk iso formatted; Wizard.Elapse 3000])
         first_visit
       = {| Wizard.localStorage := None;
            Wizard.clock := (t0 + 3000)%N;
            Wizard.current :=
              Wizard.OnForm (FormPage.initFormPage chipTypes None) |}.
Proof.
  intros chipTypes destinations t0 i j tag v box iso formatted
    Htag Hacc Hbox Hunchecked Hvalue record first_visit steps.
  destruct (accepted_not_empty tag v Hacc) as (Hknown & Hv & Hp & Hn & Ho).
  pose proof (tag_known_not_empty tag Hknown) as Hne.
  set (r1 := JObj (Step1Rules.accepted_fields tag v)).
  assert (Hload1 : getStoredData (setStoredData r1) = r1).
  { apply string_record_loads;
      [apply accepted_fields_distinct | apply accepted_fields_strings]. }
  assert (Hload2 : getStoredData (setStoredData record) = record).
  { apply string_record_loads; [|reflexivity].
    apply NoDup_by_eqb. vm_compute. reflexivity. }
  assert (Hg1 : step1_missing r1 = false).
  { unfold step1_missing, r1. cbn [get Step1Rules.accepted_fields assoc].
    change (str_eqb (js "chipType") (js "boxNumber")) with false.
    cbn. now rewrite Hv, Hp, Hn, Ho. }
  assert (Hg2 : step1_missing record = false).
  { unfold step1_missing, record.
    cbn. now rewrite Hv, Hp, Hn, Ho. }
  assert (Hd2 : truthy_opt (get record (js "destination")) = true).
  { unfold record. cbn. now rewrite Hvalue. }
  (* the five steps *)
  assert (Hfive :
    Wizard.run chipTypes destinations steps first_visit
    = {| Wizard.localStorage := setStoredData record;
         Wizard.clock := t0;
         Wizard.current :=
           Wizard.OnSummary
             {| SummaryPage.stored := record;
                SummaryPage.saveButton_disabled := true;
                SummaryPage.redirectTimer := None;
                SummaryPage.message := [];
                SummaryPage.alerts := [];
                SummaryPage.in_flight := 1;
                SummaryPage.sent := [SummaryPage.request_body record] |} |}).
  { unfold Wizard.run, steps, first_visit. cbn [fold_left].
    rewrite navigate_index.
    (* the click *)
    unfold Wizard.step at 5.
    cbn [Wizard.current Wizard.localStorage Wizard.clock].
    rewrite (nth_error_initFormPage chipTypes None i tag Htag).
    cbn [FormPage.dataset_chipType]. unfold FormPage.click_chipType.
    rewrite Hne.
    (* the form *)
    unfold Wizard.step at 4.
    cbn [Wizard.current Wizard.localStorage Wizard.clock].
    assert (Hsel : FormPage.getSelectedChipType
                     (FormPage.chipTypeButtons
                        (FormPage.setSelectedChipType tag
                           (FormPage.initFormPage chipTypes None))) = tag).
    { rewrite selected_after_selection.
      rewrite (existsb_nth_error _ _ _ i _
                 (nth_error_initFormPage chipTypes None i tag Htag));
        [reflexivity | apply str_eqb_refl]. }
    destruct (FormPage.chipTypeButtons
                (FormPage.setSelectedChipType tag
                   (FormPage.initFormPage chipTypes None))) as [|b0 bs] eqn:Hbs.
    { unfold FormPage.getSelectedChipType in Hsel. cbn [find] in Hsel.
      rewrite <- Hsel in Hne. discriminate Hne. }
    rewrite on_submit_first_failure, Hbs, Hsel, Hacc.
    change (spread_with
              (FormPage.stored
                 (FormPage.setSelectedChipType tag
                    (FormPage.initFormPage chipTypes None)))
              (Step1Rules.accepted_fields tag v)) with r1.
    rewrite (navigate_destination chipTypes destinations (setStoredData r1))
      by (rewrite Hload1; exact Hg1).
    rewrite Hload1.
    change (truthy_opt (get r1 (js "destination"))) with false. cbv iota.
    (* the check box *)
    unfold Wizard.step at 3.
    cbn [Wizard.current Wizard.localStorage Wizard.clock].
    unfold DestinationPage.on_change.
    cbn [DestinationPage.stored DestinationPage.checkboxes
         DestinationPage.errorElement].
    (* the destination *)
    unfold Wizard.step at 2.
    cbn [Wizard.current Wizard.localStorage Wizard.clock].
    unfold DestinationPage.on_submit, DestinationPage.submit.
    cbn [DestinationPage.stored DestinationPage.checkboxes
         DestinationPage.errorElement].
    assert (Hfind :
      find DestinationPage.checked (DestinationPage.change j destinations)
      = Some {| DestinationPage.value := DestinationPage.value box;
                DestinationPage.checked := true |}).
    { unfold DestinationPage.change. rewrite Hbox, Hunchecked. cbn [negb].
      apply (find_checked_change_from destinations 0 j box Hbox). }
    destruct (DestinationPage.change j destinations) as [|c0 cs] eqn:Hch.
    { discriminate Hfind. }
    rewrite Hfind. cbn [DestinationPage.value].
    change (spread_with r1
              [(js "destination", JStr (DestinationPage.value box))])
      with record.
    rewrite (navigate_summary chipTypes destinations (setStoredData record))
      by (rewrite Hload2; assumption).
    rewrite Hload2.
    (* the save button *)
    reflexivity. }
  split; [exact Hfive|].
  unfold Wizard.run in *. rewrite fold_left_app, Hfive. cbn [fold_left].
  unfold Wizard.step at 2.
  cbn [Wizard.current Wizard.localStorage Wizard.clock SummaryPage.in_flight].
  unfold SummaryPage.resume_ok, SummaryPage.REDIRECT_DELAY.
  unfold Wizard.step.
  cbn [Wizard.current Wizard.localStorage Wizard.clock
       SummaryPage.redirectTimer].
  rewrite N.leb_refl. rewrite navigate_index. reflexivity.
Qed.

Lemma first_visit_to_saved_witness :
  Wizard.run Runs.three_types Runs.two_destinations
    ([Wizard.ClickChipType 0;
      Wizard.SubmitForm (Step1Rules.scenario (js "A1B2") (js "12.5"));
      Wizard.ChangeDestination 0; Wizard.SubmitDestination; Wizard.ClickSave]
     ++ [Wizard.ResponseOk (js "2026-01-05T10:00:00.000Z")
                           (js "Jan 05, 2026, 10:00 AM");
         Wizard.Elapse 3000])
    Runs.first_visit
  = {| Wizard.localStorage := None;
       Wizard.clock := 3000;
       Wizard.current :=
         Wizard.OnForm (FormPage.initFormPage Runs.three_types None) |}.
Proof.
  exact (proj2 (first_visit_to_saved Runs.three_types Runs.two_destinations
                  0%N 0%nat 0%nat (js "box")
                  (Step1Rules.scenario (js "A1B2") (js "12.5"))
                  {| DestinationPage.value := js "Line 1";
                     DestinationPage.checked := false |}
                  (js "2026-01-05T10:00:00.000Z")
                  (js "Jan 05, 2026, 10:00 AM")
                  eq_refl eq_refl eq_refl eq_refl eq_refl)).
Defined.

(** ** Reloading the summary page after a save *)

Lemma wizard_run_reachable (chipTypes : list jsstring)
    (destinations : list DestinationPage.checkbox) (b : Wizard.browser) :
  Runs.wizard_run chipTypes destinations b ->
  Runs.reachable chipTypes destinations b.
Proof.
  intros (b0 & es & Hf & _ & ->). now exists b0, es.
Qed.

Lemma request_body_spread (l : list (jsstring * json)) (k : jsstring)
    (x : json) :
  str_eqb k (js "boxNumber") = false -> str_eqb k (js "product") = false ->
  str_eqb k (js "netWeight") = false ->
  str_eqb k (js "operatorName") = false ->
  str_eqb k (js "destination") = false ->
  SummaryPage.request_body (spread_with (JObj l) [(k, x)])
  = SummaryPage.request_body (JObj l).
Proof.
  intros H1 H2 H3 H4 H5. unfold SummaryPage.request_body.
  rewrite !get_spread_with by (repeat constructor; intros []).
  cbn [assoc own_props]. now rewrite H1, H2, H3, H4, H5.
Qed.

(** X21.  Reloading the summary page after a successful save, before the
    three seconds have passed.  The timer that would have cleared the
    store goes with the page that armed it: the summary page opens again
    on the record with its [savedAt], the save button enabled, and no
    lapse of time clears the store any more; a click then sends the same
    body as the request already answered. *)
Theorem reload_after_save_keeps_the_record :
  forall (chipTypes : list jsstring)
         (destinations : list DestinationPage.checkbox)
         (b : Wizard.browser) (pg : SummaryPage.page)
         (iso formatted : jsstring),
    Runs.wizard_run chipTypes destinations b ->
    Wizard.current b = Wizard.OnSummary pg ->
    SummaryPage.in_flight pg <> 0%nat ->
    let record :=
      spread_with (SummaryPage.stored pg) [(js "savedAt", JStr iso)] in
    let saved :=
      Wizard.step chipTypes destinations (Wizard.ResponseOk iso formatted) b in
    let again :=
      Wizard.step chipTypes destinations (Wizard.Visit (js "summary.html"))
        saved in
    Wizard.localStorage saved = setStoredData record
    /\ Wizard.current again
       = Wizard.OnSummary
           {| SummaryPage.stored := record;
              SummaryPage.saveButton_disabled := false;
              SummaryPage.redirectTimer := None;
              SummaryPage.message := [];
              SummaryPage.alerts := [];
              SummaryPage.in_flight := 0;
              SummaryPage.sent := [] |}
    /\ (forall ms,
           Wizard.localStorage
             (Wizard.step chipTypes destinations (Wizard.Elapse ms) again)
           = setStoredData record)
    /\ SummaryPage.request_body record
       = SummaryPage.request_body (SummaryPage.stored pg).
Proof.
  intros chipTypes destinations b pg iso formatted Hrun Hcur Hf
    record saved again.
  pose proof (wizard_run_records_of_strings chipTypes destinations b Hrun)
    as [_ Hgood].
  rewrite Hcur in Hgood. destruct Hgood as [Hstr Hwf].
  pose proof (reachable_requests chipTypes destinations b
                (wizard_run_reachable _ _ _ Hrun)) as Hreq.
  unfold Requests.invariant in Hreq. rewrite Hcur in Hreq.
  destruct Hreq as (Hg & Hd & _).
  destruct (guarded_is_object _ Hg) as [l Hl].
  assert (Hload : getStoredData (setStoredData record) = record).
  { apply written_record_loads; [exact Hstr | exact Hwf | reflexivity]. }
  assert (Hg' : step1_missing record = false).
  { unfold record. rewrite Hl, step1_missing_spread by reflexivity.
    now rewrite <- Hl. }
  assert (Hd' : truthy_opt (get record (js "destination")) = true).
  { unfold record. rewrite get_spread_with by (repeat constructor; intros []).
    cbn [assoc]. change (str_eqb (js "savedAt") (js "destination")) with false.
    cbv iota. rewrite Hl in Hd |- *. exact Hd. }
  assert (Hsaved : saved
                   = {| Wizard.localStorage := setStoredData record;
                        Wizard.clock := Wizard.clock b;
                        Wizard.current :=
                          Wizard.OnSummary
                            (fst (SummaryPage.resume_ok (Wizard.clock b)
                                    iso formatted pg)) |}).
  { unfold saved, Wizard.step. rewrite Hcur.
    destruct (SummaryPage.in_flight pg); [congruence | reflexivity]. }
  assert (Hagain : again
                   = {| Wizard.localStorage := setStoredData record;
                        Wizard.clock := Wizard.clock b;
                        Wizard.current :=
                          Wizard.navigate chipTypes destinations
                            (js "summary.html") (setStoredData record) |}).
  { unfold again. rewrite Hsaved. reflexivity. }
  split; [now rewrite Hsaved|].
  rewrite Hagain.
  rewrite (navigate_summary chipTypes destinations (setStoredData record))
    by (rewrite Hload; assumption).
  rewrite Hload. split; [reflexivity|]. split.
  - intros ms. reflexivity.
  - unfold record. rewrite Hl. now apply request_body_spread.
Qed.

Lemma saving_is_a_wizard_run :
  Runs.wizard_run Runs.three_types Runs.two_destinations Runs.saving.
Proof.
  exists Runs.on_summary, [Wizard.ClickSave].
  split; [|split; [|reflexivity]].
  - exists (js "summary.html"). reflexivity.
  - vm_compute. reflexivity.
Defined.

Lemma reload_after_save_keeps_the_record_witness :
  Wizard.localStorage
    (Wizard.step Runs.three_types Runs.two_destinations (Wizard.Elapse 5000)
       (Wizard.step Runs.three_types Runs.two_destinations
          (Wizard.Visit (js "summary.html")) Runs.saved))
  = setStoredData
      (spread_with Runs.complete_record
         [(js "savedAt", JStr (js "2026-01-05T10:00:00.000Z"))]).
Proof.
  exact (proj1 (proj2 (proj2
           (reload_after_save_keeps_the_record
              Runs.three_types Runs.two_destinations Runs.saving
              (SummaryPage.click_save Runs.summary_page)
              (js "2026-01-05T10:00:00.000Z") (js "Jan 05, 2026, 10:00 AM")
              saving_is_a_wizard_run eq_refl
              (fun H => O_S _ (eq_sym H))))) 5000%N).
Defined.

(** ** The entry guards settle *)

Lemma load_index (chipTypes : list jsstring)
    (destinations : list DestinationPage.checkbox) (fuel : nat)
    (ls : storage) :
  Wizard.load chipTypes destinations (S fuel) (js "index.html") ls
  = Wizard.OnForm (FormPage.initFormPage chipTypes ls).
Proof. reflexivity. Qed.

Lemma load_destination (chipTypes : list jsstring)
    (destinations : list DestinationPage.checkbox) (fuel : nat)
    (ls : storage) :
  Wizard.load chipTypes destinations (S (S fuel)) (js "destination.html") ls
  = match DestinationPage.initDestinationPage destinations ls with
    | Redirect _ => Wizard.OnForm (FormPage.initFormPage chipTypes ls)
    | Rendered pg => Wizard.OnDestination pg
    end.
Proof.
  cbn [Wizard.load].
  change (str_eqb (js "destination.html") (js "index.html")) with false.
  change (str_eqb (js "destination.html") (js "destination.html")) with true.
  cbv iota. unfold DestinationPage.initDestinationPage.
  destruct (step1_missing (getStoredData ls)); reflexivity.
Qed.

Lemma load_summary (chipTypes : list jsstring)
    (destinations : list DestinationPage.checkbox) (fuel : nat)
    (ls : storage) :
  Wizard.load chipTypes destinations (S (S (S fuel))) (js "summary.html") ls
  = match SummaryPage.initSummaryPage ls with
    | Redirect _ =>
        match DestinationPage.initDestinationPage destinations ls with
        | Redirect _ => Wizard.OnForm (FormPage.initFormPage chipTypes ls)
        | Rendered pg => Wizard.OnDestination pg
        end
    | Rendered pg => Wizard.OnSummary pg
    end.
Proof.
  cbn [Wizard.load].
  change (str_eqb (js "summary.html") (js "index.html")) with false.
  change (str_eqb (js "summary.html") (js "destination.html")) with false.
  change (str_eqb (js "summary.html") (js "summary.html")) with true.
  cbv iota. unfold SummaryPage.initSummaryPage,
    DestinationPage.initDestinationPage.
  destruct (step1_missing (getStoredData ls)); [reflexivity|].
  destruct (negb (truthy_opt (get (getStoredData ls) (js "destination"))));
    [|reflexivity].
  change (str_eqb (js "destination.html") (js "index.html")) with false.
  change (str_eqb (js "destination.html") (js "destination.html")) with true.
  cbv iota. reflexivity.
Qed.

(** X22.  The redirects of the entry guards end.  Whatever the store
    holds, a visit to one of the three pages of the wizard leads, after at
    most two redirects, to a page that renders: the page asked for, or an
    earlier step, never a later one; further loads would change
    nothing.  The form page always renders. *)
Theorem entry_guards_settle :
  forall (chipTypes : list jsstring)
         (destinations : list DestinationPage.checkbox) (ls : storage)
         (n : nat),
    Wizard.load chipTypes destinations (3 + n) (js "index.html") ls
    = Wizard.OnForm (FormPage.initFormPage chipTypes ls)
    /\ Wizard.navigate chipTypes destinations (js "index.html") ls
       = Wizard.OnForm (FormPage.initFormPage chipTypes ls)
    /\ Wizard.load chipTypes destinations (3 + n) (js "destination.html") ls
       = Wizard.navigate chipTypes destinations (js "destination.html") ls
    /\ ((exists pg,
            Wizard.navigate chipTypes destinations (js "destination.html") ls
            = Wizard.OnDestination pg)
        \/ Wizard.navigate chipTypes destinations (js "destination.html") ls
           = Wizard.OnForm (FormPage.initFormPage chipTypes ls))
    /\ Wizard.load chipTypes destinations (3 + n) (js "summary.html") ls
       = Wizard.navigate chipTypes destinations (js "summary.html") ls
    /\ ((exists pg,
            Wizard.navigate chipTypes destinations (js "summary.html") ls
            = Wizard.OnSummary pg)
        \/ (exists pg,
               Wizard.navigate chipTypes destinations (js "summary.html") ls
               = Wizard.OnDestination pg)
        \/ Wizard.navigate chipTypes destinations (js "summary.html") ls
           = Wizard.OnForm (FormPage.initFormPage chipTypes ls)).
Proof.
  intros chipTypes destinations ls n. unfold Wizard.navigate.
  change (3 + n)%nat with (S (S (S n))).
  rewrite !load_index, !load_destination, !load_summary.
  repeat split.
  - destruct (DestinationPage.initDestinationPage destinations ls) as [h|pg].
    + now right.
    + left. now exists pg.
  - destruct (SummaryPage.initSummaryPage ls) as [h|spg].
    + destruct (DestinationPage.initDestinationPage destinations ls)
        as [h'|pg].
      * right. now right.
      * right. left. now exists pg.
    + left. now exists spg.
Qed.

(** ** The form of [app.js] and step 2 *)

Lemma box_form_stored (stored : json) (v : BoxFormPage.form_values)
    (data : json) (href : jsstring) :
  BoxFormPage.submit stored v = Stored data href ->
  data = spread_with stored (BoxFormPage.accepted_fields v)
  /\ href = js "destination.html"
  /\ is_empty (trim (BoxFormPage.boxInput_value v)) = false
  /\ is_empty (BoxFormPage.productSelect_value v) = false
  /\ is_empty (trim (BoxFormPage.netWeightInput_value v)) = false
  /\ is_empty (trim (BoxFormPage.operatorInput_value v)) = false.
Proof.
  unfold BoxFormPage.submit, BoxFormPage.accepted_fields.
  rewrite !normalizeText_trim.
  destruct (is_empty (trim (BoxFormPage.boxInput_value v))); [discriminate|].
  destruct (negb (test_alnum_only _)); [discriminate|].
  destruct (is_empty (BoxFormPage.productSelect_value v)); [discriminate|].
  destruct (is_empty (trim (BoxFormPage.netWeightInput_value v)));
    [discriminate|].
  destruct (negb (isFinite _) || le_zero _); [discriminate|].
  destruct (trim (BoxFormPage.operatorInput_value v)) as [|c r] eqn:E.
  - cbn. discriminate.
  - destruct (List.length _ <? 2)%nat; [discriminate|].
    intros H. inversion H. repeat split; reflexivity.
Qed.

(** X23.  The form of [app.js]: a submission it accepts writes the loaded
    record with the four fields trimmed, and opens step 2 whatever the
    store held before: the record, loaded by the destination page, passes
    the entry guard and the four fields are read there as written. *)
Theorem box_form_opens_destination :
  forall (ls0 : storage) (v : BoxFormPage.form_values) (data : json)
         (href : jsstring) (chipTypes : list jsstring)
         (boxes : list DestinationPage.checkbox),
    BoxFormPage.submit (getStoredData ls0) v = Stored data href ->
    href = js "destination.html"
    /\ data = spread_with (getStoredData ls0) (BoxFormPage.accepted_fields v)
    /\ exists pg,
        Wizard.navigate chipTypes boxes href (setStoredData data)
        = Wizard.OnDestination pg
        /\ get (DestinationPage.stored pg) (js "boxNumber")
           = Some (JStr (trim (BoxFormPage.boxInput_value v)))
        /\ get (DestinationPage.stored pg) (js "product")
           = Some (JStr (BoxFormPage.productSelect_value v))
        /\ get (DestinationPage.stored pg) (js "netWeight")
           = Some (JStr (trim (BoxFormPage.netWeightInput_value v)))
        /\ get (DestinationPage.stored pg) (js "operatorName")
           = Some (JStr (trim (BoxFormPage.operatorInput_value v))).
Proof.
  intros ls0 v data href chipTypes boxes H.
  destruct (box_form_stored _ _ _ _ H) as (-> & -> & Hb & Hp & Hn & Ho).
  split; [reflexivity|]. split; [reflexivity|].
  assert (Hfield : forall k s,
             assoc k (BoxFormPage.accepted_fields v) = Some (JStr s) ->
             get (getStoredData
                    (setStoredData
                       (spread_with (getStoredData ls0)
                          (BoxFormPage.accepted_fields v)))) k
             = Some (JStr s)).
  { intros k s Hk. apply load_spread_field;
      [apply getStoredData_well_formed | reflexivity
      | apply NoDup_by_eqb; vm_compute; reflexivity | exact Hk]. }
  pose proof (Hfield (js "boxNumber") _ eq_refl) as H1.
  pose proof (Hfield (js "product") _ eq_refl) as H2.
  pose proof (Hfield (js "netWeight") _ eq_refl) as H3.
  pose proof (Hfield (js "operatorName") _ eq_refl) as H4.
  rewrite navigate_destination.
  - eexists. split; [reflexivity|]. cbn [DestinationPage.stored].
    repeat split; assumption.
  - unfold step1_missing. rewrite H1, H2, H3, H4, !truthy_string.
    now rewrite Hb, Hp, Hn, Ho.
Qed.

Lemma box_form_opens_destination_witness :
  exists pg,
    Wizard.navigate Runs.three_types Runs.two_destinations
      (js "destination.html")
      (setStoredData
         (JObj [(js "boxNumber", JStr (js "A1B2"));
                (js "product", JStr (js "Resin-X"));
                (js "netWeight", JStr (js "12.5"));
                (js "operatorName", JStr (js "Jane Doe"))]))
    = Wizard.OnDestination pg.
Proof.
  destruct (box_form_opens_destination None
              {| BoxFormPage.boxInput_value := js " A1B2";
                 BoxFormPage.productSelect_value := js "Resin-X";
                 BoxFormPage.netWeightInput_value := js "12.5 ";
                 BoxFormPage.operatorInput_value := js "Jane Doe" |}
              _ _ Runs.three_types Runs.two_destinations eq_refl)
    as (_ & _ & pg & Hpg & _).
  exists pg. exact Hpg.
Defined.
